(** * Syllable / prominence detector: shallow embedding and verified properties

    The development follows [syllable_detector.c] and the DSP helpers it
    calls ([biquad.c], [envelope.c], [zff.c], [agc.c], [high_freq_energy.c]).

    Conventions of the embedding:
    - C [float] and [double] values are elements of a type [F] equipped with
      the operations of the class [FloatOps]; every structural property is
      proved for an arbitrary instance, the arithmetic ones at the instance
      of the real numbers ([RFloat]), i.e. for exact arithmetic.
    - C [int] is [Z] (signed overflow is undefined behaviour and is not
      modelled); [uint64_t] is [Z] reduced modulo [2^64].
    - C [int] fields that are only ever tested for truth are [bool].
    - Fixed-size C arrays are lists; the allocator is assumed to succeed for
      the detector itself, while each optional extractor may be absent
      ([option]), exactly like the NULL handles of the source. *)

From Stdlib Require Import ZArith QArith Reals Lra Lia List Bool.
Import ListNotations.

Set Implicit Arguments.

(* ------------------------------------------------------------------ *)
(** * Numeric interface *)

Class FloatOps (F : Type) : Type := {
  lit   : Q -> F;            (* a decimal literal of the source *)
  fadd  : F -> F -> F;
  fsub  : F -> F -> F;
  fmul  : F -> F -> F;
  fdiv  : F -> F -> F;
  fneg  : F -> F;
  fltb  : F -> F -> bool;    (* a < b *)
  fleb  : F -> F -> bool;    (* a <= b *)
  fabsf : F -> F;
  sqrtf : F -> F;
  expf  : F -> F;
  logf  : F -> F;
  log2f : F -> F;
  powf  : F -> F -> F;
  fminf : F -> F -> F;
  sinf  : F -> F;
  cosf  : F -> F;
  tanf  : F -> F;
  itof  : Z -> F;            (* (float) n *)
  ftoi  : F -> Z             (* (int) x, truncation toward zero *)
}.

Arguments lit {F _} _%_Q.

Declare Scope flt_scope.
Delimit Scope flt_scope with flt.
Notation "x + y" := (fadd x y) : flt_scope.
Notation "x - y" := (fsub x y) : flt_scope.
Notation "x * y" := (fmul x y) : flt_scope.
Notation "x / y" := (fdiv x y) : flt_scope.
Notation "- x" := (fneg x) : flt_scope.
Notation "x <? y" := (fltb x y) : flt_scope.
Notation "x >? y" := (fltb y x) : flt_scope.
Notation "x <=? y" := (fleb x y) : flt_scope.
Notation "x >=? y" := (fleb y x) : flt_scope.

(* ------------------------------------------------------------------ *)
(** * Integer helpers *)

Definition two64 : Z := 2 ^ 64.

(** [uint64_t] increment and subtraction. *)
Definition u64_succ (n : Z) : Z := (n + 1) mod two64.
Definition u64_sub (a b : Z) : Z := (a - b) mod two64.

(** Conversion of a [uint64_t] to [int] (two's complement truncation). *)
Definition u64_to_int (n : Z) : Z := (n + 2 ^ 31) mod 2 ^ 32 - 2 ^ 31.

(** Array read and write at a C index. *)
Definition zget {A : Type} (l : list A) (i : Z) (dflt : A) : A :=
  if (i <? 0)%Z then dflt else nth (Z.to_nat i) l dflt.

Fixpoint set_nth {A : Type} (n : nat) (x : A) (l : list A) : list A :=
  match l, n with
  | [], _ => []
  | _ :: t, O => x :: t
  | a :: t, S k => a :: set_nth k x t
  end.

Definition zset {A : Type} (l : list A) (i : Z) (x : A) : list A :=
  if (i <? 0)%Z then l else set_nth (Z.to_nat i) x l.

(** The integers [lo, lo+1, ..., lo+n-1]. *)
Fixpoint zrange (lo : Z) (n : nat) : list Z :=
  match n with
  | O => []
  | S k => lo :: zrange (lo + 1) k
  end.

(* ------------------------------------------------------------------ *)
(** * Public types ([syllable_detector.h]) *)

Record SyllableConfig (F : Type) : Type := {
  sample_rate : Z;
  zff_trend_window_ms : F;
  peak_rate_band_min : F;
  peak_rate_band_max : F;
  min_syllable_dist_ms : F;
  threshold_peak_rate : F;
  adaptive_peak_rate_k : F;
  adaptive_peak_rate_tau_ms : F;
  voiced_hold_ms : F;
  hysteresis_on_factor : F;
  hysteresis_off_factor : F;
  context_size : Z;
  enable_spectral_flux : bool;
  enable_high_freq_energy : bool;
  enable_mfcc_delta : bool;
  enable_wavelet : bool;
  fft_size_ms : F;
  hop_size_ms : F;
  high_freq_cutoff_hz : F;
  weight_peak_rate : F;
  weight_spectral_flux : F;
  weight_high_freq : F;
  weight_mfcc_delta : F;
  weight_wavelet : F;
  weight_voiced_bonus : F;
  fusion_blend_alpha : F;
  unvoiced_onset_threshold : F;
  allow_unvoiced_onsets : bool;
  enable_agc : bool;
  realtime_mode : bool;
  calibration_duration_ms : F;
  snr_threshold_db : F
}.

Inductive SyllableOnsetType : Type :=
  | ONSET_TYPE_VOICED
  | ONSET_TYPE_UNVOICED
  | ONSET_TYPE_MIXED.

Definition onset_type_eqb (a b : SyllableOnsetType) : bool :=
  match a, b with
  | ONSET_TYPE_VOICED, ONSET_TYPE_VOICED => true
  | ONSET_TYPE_UNVOICED, ONSET_TYPE_UNVOICED => true
  | ONSET_TYPE_MIXED, ONSET_TYPE_MIXED => true
  | _, _ => false
  end.

(** The output record.  Its field names live in the module [Ev] because the
    detector struct reuses [spectral_flux] and [high_freq_energy] for its
    extractor handles. *)
Module Ev.
Record SyllableEvent (F : Type) : Type := {
  timestamp_samples : Z;
  time_seconds : F;
  peak_rate : F;
  pr_slope : F;
  energy : F;
  f0 : F;
  delta_f0 : F;
  duration_s : F;
  spectral_flux : F;
  high_freq_energy : F;
  mfcc_delta : F;
  wavelet_score : F;
  fusion_score : F;
  onset_type : SyllableOnsetType;
  prominence_score : F;
  is_accented : bool
}.
End Ev.
Abbreviation SyllableEvent := Ev.SyllableEvent.

(* ------------------------------------------------------------------ *)
(** * DSP primitives *)

Section Primitives.
Context {F : Type} {FO : FloatOps F}.
Local Open Scope flt_scope.

(** memset(.., 0, ..) of an event. *)
Definition zero_event : SyllableEvent F :=
  {| Ev.timestamp_samples := 0; Ev.time_seconds := lit 0;
     Ev.peak_rate := lit 0; Ev.pr_slope := lit 0; Ev.energy := lit 0;
     Ev.f0 := lit 0; Ev.delta_f0 := lit 0; Ev.duration_s := lit 0;
     Ev.spectral_flux := lit 0; Ev.high_freq_energy := lit 0;
     Ev.mfcc_delta := lit 0; Ev.wavelet_score := lit 0;
     Ev.fusion_score := lit 0; Ev.onset_type := ONSET_TYPE_VOICED;
     Ev.prominence_score := lit 0; Ev.is_accented := false |}.

(** ** biquad.c *)
Record Biquad : Type := {
  b0 : F; b1 : F; b2 : F; a1 : F; a2 : F;
  x1 : F; x2 : F; y1 : F; y2 : F
}.

Definition biquad_reset (f : Biquad) : Biquad :=
  {| b0 := lit 0; b1 := lit 0; b2 := lit 0; a1 := lit 0; a2 := lit 0;
     x1 := lit 0; x2 := lit 0; y1 := lit 0; y2 := lit 0 |}.

Definition M_PI : F := lit 3.14159265358979323846.

Definition biquad_config_bandpass (f : Biquad)
    (sample_rate center_freq q_factor : F) : Biquad :=
  let w0 := lit 2 * M_PI * center_freq / sample_rate in
  let alpha := sinf w0 / (lit 2 * q_factor) in
  let b0' := alpha in
  let b1' := lit 0 in
  let b2' := - alpha in
  let a0' := lit 1 + alpha in
  let a1' := lit (-2) * cosf w0 in
  let a2' := lit 1 - alpha in
  let inv_a0 := lit 1 / a0' in
  {| b0 := b0' * inv_a0; b1 := b1' * inv_a0; b2 := b2' * inv_a0;
     a1 := a1' * inv_a0; a2 := a2' * inv_a0;
     x1 := x1 f; x2 := x2 f; y1 := y1 f; y2 := y2 f |}.

Definition biquad_process (f : Biquad) (x : F) : Biquad * F :=
  let out := b0 f * x + b1 f * x1 f + b2 f * x2 f - a1 f * y1 f
             - a2 f * y2 f in
  let out := if fabsf out <? lit 1.0e-15 then lit 0 else out in
  ({| b0 := b0 f; b1 := b1 f; b2 := b2 f; a1 := a1 f; a2 := a2 f;
      x1 := x; x2 := x1 f; y1 := out; y2 := y1 f |}, out).

(** ** envelope.c *)
Record EnvelopeFollower : Type := {
  output : F;
  attack_coeff : F;
  release_coeff : F
}.

Definition envelope_init (sample_rate attack_ms release_ms : F)
    : EnvelopeFollower :=
  let t_attack := attack_ms * lit 0.001 in
  let t_release := release_ms * lit 0.001 in
  let t_attack := if t_attack <? lit 1.0e-5 then lit 1.0e-5 else t_attack in
  let t_release :=
    if t_release <? lit 1.0e-5 then lit 1.0e-5 else t_release in
  {| output := lit 0;
     attack_coeff := expf (lit (-1) / (sample_rate * t_attack));
     release_coeff := expf (lit (-1) / (sample_rate * t_release)) |}.

Definition envelope_process (e : EnvelopeFollower) (x : F)
    : EnvelopeFollower * F :=
  let abs_in := fabsf x in
  let out :=
    if abs_in >? output e
    then attack_coeff e * output e + (lit 1 - attack_coeff e) * abs_in
    else release_coeff e * output e + (lit 1 - release_coeff e) * abs_in in
  ({| output := out; attack_coeff := attack_coeff e;
      release_coeff := release_coeff e |}, out).

(** ** zff.c *)
Record ZFF : Type := {
  int1 : F;
  int2 : F;
  trend_buffer : list F;
  trend_buf_size : Z;
  trend_write_pos : Z;
  trend_accum : F
}.

Definition zff_init (sample_rate : Z) (trend_window_ms : F) : ZFF :=
  let size := ftoi (itof sample_rate * trend_window_ms * lit 0.001) in
  let size := if (size <? 1)%Z then 1%Z else size in
  {| int1 := lit 0; int2 := lit 0;
     trend_buffer := repeat (lit 0) (Z.to_nat size);
     trend_buf_size := size;
     trend_write_pos := 0;
     trend_accum := lit 0 |}.

(** Returns the new state and [zff_out]; [slope_out] is the constant 0. *)
Definition zff_process (z : ZFF) (x : F) : ZFF * F :=
  let i1 := int1 z + x in
  let i2 := int2 z + i1 in
  let leak := lit 0.999 in
  let i1 := i1 * leak + x in
  let i2 := i2 * leak + i1 in
  let val := i2 in
  let old_val := zget (trend_buffer z) (trend_write_pos z) (lit 0) in
  let buf := zset (trend_buffer z) (trend_write_pos z) val in
  let accum := trend_accum z + (val - old_val) in
  let pos := (trend_write_pos z + 1)%Z in
  let pos := if (pos >=? trend_buf_size z)%Z then 0%Z else pos in
  let trend := accum / itof (trend_buf_size z) in
  ({| int1 := i1; int2 := i2; trend_buffer := buf;
      trend_buf_size := trend_buf_size z;
      trend_write_pos := pos; trend_accum := accum |},
   val - trend).

(** ** agc.c *)
Record AgcState : Type := {
  target_level : F;
  max_gain : F;
  current_gain : F;
  envelope : F;
  agc_attack_coeff : F;
  agc_release_coeff : F;
  gain_coeff : F
}.

Definition agc_create (sample_rate : Z) (target_db max_gain_db : F)
    : AgcState :=
  let t_att := lit 0.005 in
  let t_rel := lit 0.500 in
  {| target_level := powf (lit 10) (target_db / lit 20);
     max_gain := powf (lit 10) (max_gain_db / lit 20);
     current_gain := lit 1;
     envelope := lit 0;
     agc_attack_coeff :=
       lit 1 - expf (lit (-1) / (t_att * itof sample_rate));
     agc_release_coeff :=
       lit 1 - expf (lit (-1) / (t_rel * itof sample_rate));
     gain_coeff :=
       lit 1 - expf (lit (-1) / (lit 0.100 * itof sample_rate)) |}.

Definition agc_process (a : AgcState) (sample : F) : AgcState * F :=
  let abs_sample := fabsf sample in
  let env :=
    if abs_sample >? envelope a
    then envelope a + agc_attack_coeff a * (abs_sample - envelope a)
    else envelope a + agc_release_coeff a * (abs_sample - envelope a) in
  let env_safe := if env >? lit 1e-6 then env else lit 1e-6 in
  let target_gain := target_level a / env_safe in
  let target_gain :=
    if target_gain >? max_gain a then max_gain a else target_gain in
  let target_gain :=
    if target_gain <? lit 0.1 then lit 0.1 else target_gain in
  let gain := current_gain a + gain_coeff a * (target_gain - current_gain a) in
  ({| target_level := target_level a; max_gain := max_gain a;
      current_gain := gain; envelope := env;
      agc_attack_coeff := agc_attack_coeff a;
      agc_release_coeff := agc_release_coeff a;
      gain_coeff := gain_coeff a |},
   sample * gain).

(** ** high_freq_energy.c *)
Record HighFreqEnergy : Type := {
  hfe_sample_rate : Z;
  hfe_cutoff_hz : F;
  hfe_b0 : F; hfe_b1 : F; hfe_b2 : F; hfe_a1 : F; hfe_a2 : F;
  hfe_x1 : F; hfe_x2 : F; hfe_y1 : F; hfe_y2 : F;
  hfe_energy : F;
  hfe_attack_coef : F;
  hfe_release_coef : F;
  hfe_peak_energy : F;
  hfe_peak_decay : F
}.

Definition hfe_create (sample_rate : Z) (cutoff_hz window_ms : F)
    : HighFreqEnergy :=
  let fc := if cutoff_hz >? lit 0 then cutoff_hz else lit 2000 in
  let fs := itof sample_rate in
  let wc := tanf (M_PI * fc / fs) in
  let wc2 := wc * wc in
  let sqrt2 := lit 1.41421356237 in
  let k := lit 1 + sqrt2 * wc + wc2 in
  let attack_ms := lit 1 in
  let release_ms := if window_ms >? lit 0 then window_ms else lit 10 in
  {| hfe_sample_rate := sample_rate;
     hfe_cutoff_hz := fc;
     hfe_b0 := lit 1 / k; hfe_b1 := lit (-2) / k; hfe_b2 := lit 1 / k;
     hfe_a1 := lit 2 * (wc2 - lit 1) / k;
     hfe_a2 := (lit 1 - sqrt2 * wc + wc2) / k;
     hfe_x1 := lit 0; hfe_x2 := lit 0; hfe_y1 := lit 0; hfe_y2 := lit 0;
     hfe_energy := lit 0;
     hfe_attack_coef :=
       lit 1 - expf (lit (-1) / (fs * attack_ms * lit 0.001));
     hfe_release_coef :=
       lit 1 - expf (lit (-1) / (fs * release_ms * lit 0.001));
     hfe_peak_energy := lit 0;
     hfe_peak_decay := lit 1 - expf (lit (-1) / (fs * lit 0.05)) |}.

Definition hfe_reset (h : HighFreqEnergy) : HighFreqEnergy :=
  {| hfe_sample_rate := hfe_sample_rate h;
     hfe_cutoff_hz := hfe_cutoff_hz h;
     hfe_b0 := hfe_b0 h; hfe_b1 := hfe_b1 h; hfe_b2 := hfe_b2 h;
     hfe_a1 := hfe_a1 h; hfe_a2 := hfe_a2 h;
     hfe_x1 := lit 0; hfe_x2 := lit 0; hfe_y1 := lit 0; hfe_y2 := lit 0;
     hfe_energy := lit 0;
     hfe_attack_coef := hfe_attack_coef h;
     hfe_release_coef := hfe_release_coef h;
     hfe_peak_energy := lit 0;
     hfe_peak_decay := hfe_peak_decay h |}.

Definition hfe_process (h : HighFreqEnergy) (input : F)
    : HighFreqEnergy * F :=
  let filtered := hfe_b0 h * input + hfe_b1 h * hfe_x1 h
                  + hfe_b2 h * hfe_x2 h - hfe_a1 h * hfe_y1 h
                  - hfe_a2 h * hfe_y2 h in
  let inst_energy := filtered * filtered in
  let e :=
    if inst_energy >? hfe_energy h
    then hfe_energy h + hfe_attack_coef h * (inst_energy - hfe_energy h)
    else hfe_energy h + hfe_release_coef h * (inst_energy - hfe_energy h) in
  let pk :=
    if e >? hfe_peak_energy h then e
    else hfe_peak_energy h - hfe_peak_decay h * hfe_peak_energy h in
  ({| hfe_sample_rate := hfe_sample_rate h;
      hfe_cutoff_hz := hfe_cutoff_hz h;
      hfe_b0 := hfe_b0 h; hfe_b1 := hfe_b1 h; hfe_b2 := hfe_b2 h;
      hfe_a1 := hfe_a1 h; hfe_a2 := hfe_a2 h;
      hfe_x1 := input; hfe_x2 := hfe_x1 h;
      hfe_y1 := filtered; hfe_y2 := hfe_y1 h;
      hfe_energy := e;
      hfe_attack_coef := hfe_attack_coef h;
      hfe_release_coef := hfe_release_coef h;
      hfe_peak_energy := pk;
      hfe_peak_decay := hfe_peak_decay h |}, e).
End Primitives.

Arguments Biquad F : clear implicits.
Arguments EnvelopeFollower F : clear implicits.
Arguments ZFF F : clear implicits.
Arguments AgcState F : clear implicits.
Arguments HighFreqEnergy F : clear implicits.

(* ------------------------------------------------------------------ *)
(** * Framed extractors (contracts only)

    Spectral flux, MFCC delta and the Morlet wavelet bank rest on an FFT and
    on kernel tables; the detector only uses their entry points, which are
    collected here.  [*_process] is called with one input sample and returns
    the values written to the caller's output buffer. *)

Class Extractors (F : Type) : Type := {
  SpectralFlux : Type;
  spectral_flux_create : Z -> Z -> Z -> option SpectralFlux;
  spectral_flux_reset : SpectralFlux -> SpectralFlux;
  spectral_flux_process : SpectralFlux -> F -> SpectralFlux * list F;
  spectral_flux_get_flatness_weber : SpectralFlux -> F;
  MFCC : Type;
  mfcc_create : Z -> Z -> Z -> option MFCC;
  mfcc_reset : MFCC -> MFCC;
  mfcc_process : MFCC -> F -> MFCC * list F;
  WaveletDetector : Type;
  wavelet_create : Z -> F -> F -> Z -> option WaveletDetector;
  wavelet_reset : WaveletDetector -> WaveletDetector;
  wavelet_process : WaveletDetector -> F -> WaveletDetector * F
}.

(* ------------------------------------------------------------------ *)
(** * Detector state ([struct SyllableDetector])

    The fields of the C struct are kept under their names and gathered in
    sub-records following the comment headings of the struct declaration. *)

Definition PROMINENCE_BUFFER_SIZE : Z := 16.
Definition FUSION_HISTORY_SIZE : Z := 64.
Definition RT_NUM_FEATURES : Z := 6.
Definition RT_BUF_SIZE : Z := 100.

Inductive DetectorState : Type :=
  | STATE_IDLE
  | STATE_ONSET_RISING
  | STATE_NUCLEUS
  | STATE_COOLDOWN.

Section DetectorTypes.
Context {F : Type} {X : Extractors F}.

Record BufferedEvent : Type := {
  event : SyllableEvent F;
  is_ready : bool
}.

Record FeatureStats : Type := {
  mean : F;
  var : F;
  max_val : F;
  alpha : F;
  sample_count : Z
}.

(** [sample_count] of the C struct is [cal_sample_count] here. *)
Record RealtimeCalibration : Type := {
  is_calibrating : bool;
  cal_sample_count : Z;
  target_samples : Z;
  buf : list (list F);
  buf_idx : Z;
  gamma : F;
  thresh : list F
}.

Record DspModules : Type := {
  bp_filter : Biquad F;
  env_follower : EnvelopeFollower F;
  zff : ZFF F;
  spectral_flux : option SpectralFlux;
  high_freq_energy : option (HighFreqEnergy F);
  mfcc : option MFCC;
  wavelet : option WaveletDetector;
  agc : option (AgcState F)
}.

Record VoicingState : Type := {
  last_zff_val : F;
  last_zff_slope : F;
  last_epoch_samples_ago : Z;
  current_f0 : F;
  smoothed_f0 : F;
  prev_smoothed_f0 : F;
  f0_derivative : F;
  min_f0_since_peak : F;
  f0_has_risen : bool;
  f0_jump_counter : Z;
  f0_baseline : F;
  f0_baseline_alpha : F;
  f0_semitone_diff : F;
  voicing_counter : Z;
  unvoiced_counter : Z;
  is_voiced : bool;
  voiced_hold_samples : Z
}.

Record FusionHistory : Type := {
  fusion_history : list F;
  fusion_history_idx : Z;
  fusion_history_count : Z;
  fusion_median : F;
  fusion_mad : F
}.

Record EnergyState : Type := {
  prev_env : F;
  current_peak_rate : F;
  peak_rate_accum : F;
  current_energy : F;
  energy_floor : F;
  prev_sample : F;
  prev_prev_sample : F;
  current_teo : F;
  teo_mean : F;
  teo_var : F;
  short_energy : F;
  long_energy : F;
  current_ler : F;
  adaptive_enabled : bool;
  adaptive_mean : F;
  adaptive_var : F;
  adaptive_alpha : F
}.

Record FeatureState : Type := {
  stats_peak_rate : FeatureStats;
  stats_spectral_flux : FeatureStats;
  stats_high_freq : FeatureStats;
  stats_mfcc_delta : FeatureStats;
  stats_wavelet : FeatureStats;
  current_spectral_flux : F;
  current_high_freq_energy : F;
  current_mfcc_delta : F;
  current_wavelet_score : F;
  current_fusion_score : F
}.

Record MachineState : Type := {
  state : DetectorState;
  state_timer : Z;
  max_onset_rising_samples : Z;
  wip_event : SyllableEvent F;
  max_peak_rate_in_syllable : F;
  max_fusion_score_in_syllable : F;
  energy_accum : F;
  onset_timestamp : Z;
  last_event_samples : Z;
  peak_sample_offset : Z;
  current_onset_type : SyllableOnsetType
}.

Record RingBuffer : Type := {
  event_buffer : list BufferedEvent;
  buf_write_idx : Z;
  buf_read_idx : Z;
  buf_count : Z
}.

Record SyllableDetector : Type := {
  config : SyllableConfig F;
  total_samples : Z;
  dsp : DspModules;
  voicing : VoicingState;
  fusion_hist : FusionHistory;
  energy_st : EnergyState;
  features : FeatureState;
  machine : MachineState;
  ring : RingBuffer;
  rt_cal : RealtimeCalibration
}.

(** Assignment to one group of the detector. *)
Definition set_config (c : SyllableConfig F) (d : SyllableDetector) :=
  {| config := c; total_samples := total_samples d; dsp := dsp d;
     voicing := voicing d; fusion_hist := fusion_hist d;
     energy_st := energy_st d; features := features d;
     machine := machine d; ring := ring d; rt_cal := rt_cal d |}.
Definition set_total_samples (n : Z) (d : SyllableDetector) :=
  {| config := config d; total_samples := n; dsp := dsp d;
     voicing := voicing d; fusion_hist := fusion_hist d;
     energy_st := energy_st d; features := features d;
     machine := machine d; ring := ring d; rt_cal := rt_cal d |}.
Definition set_dsp (m : DspModules) (d : SyllableDetector) :=
  {| config := config d; total_samples := total_samples d; dsp := m;
     voicing := voicing d; fusion_hist := fusion_hist d;
     energy_st := energy_st d; features := features d;
     machine := machine d; ring := ring d; rt_cal := rt_cal d |}.
Definition set_voicing (v : VoicingState) (d : SyllableDetector) :=
  {| config := config d; total_samples := total_samples d; dsp := dsp d;
     voicing := v; fusion_hist := fusion_hist d;
     energy_st := energy_st d; features := features d;
     machine := machine d; ring := ring d; rt_cal := rt_cal d |}.
Definition set_fusion_hist (h : FusionHistory) (d : SyllableDetector) :=
  {| config := config d; total_samples := total_samples d; dsp := dsp d;
     voicing := voicing d; fusion_hist := h;
     energy_st := energy_st d; features := features d;
     machine := machine d; ring := ring d; rt_cal := rt_cal d |}.
Definition set_energy_st (e : EnergyState) (d : SyllableDetector) :=
  {| config := config d; total_samples := total_samples d; dsp := dsp d;
     voicing := voicing d; fusion_hist := fusion_hist d;
     energy_st := e; features := features d;
     machine := machine d; ring := ring d; rt_cal := rt_cal d |}.
Definition set_features (f : FeatureState) (d : SyllableDetector) :=
  {| config := config d; total_samples := total_samples d; dsp := dsp d;
     voicing := voicing d; fusion_hist := fusion_hist d;
     energy_st := energy_st d; features := f;
     machine := machine d; ring := ring d; rt_cal := rt_cal d |}.
Definition set_machine (m : MachineState) (d : SyllableDetector) :=
  {| config := config d; total_samples := total_samples d; dsp := dsp d;
     voicing := voicing d; fusion_hist := fusion_hist d;
     energy_st := energy_st d; features := features d;
     machine := m; ring := ring d; rt_cal := rt_cal d |}.
Definition set_ring (r : RingBuffer) (d : SyllableDetector) :=
  {| config := config d; total_samples := total_samples d; dsp := dsp d;
     voicing := voicing d; fusion_hist := fusion_hist d;
     energy_st := energy_st d; features := features d;
     machine := machine d; ring := r; rt_cal := rt_cal d |}.
Definition set_rt_cal (c : RealtimeCalibration) (d : SyllableDetector) :=
  {| config := config d; total_samples := total_samples d; dsp := dsp d;
     voicing := voicing d; fusion_hist := fusion_hist d;
     energy_st := energy_st d; features := features d;
     machine := machine d; ring := ring d; rt_cal := c |}.
End DetectorTypes.

Arguments BufferedEvent F : clear implicits.
Arguments FeatureStats F : clear implicits.
Arguments RealtimeCalibration F : clear implicits.
Arguments DspModules F {X}.
Arguments VoicingState F : clear implicits.
Arguments FusionHistory F : clear implicits.
Arguments EnergyState F : clear implicits.
Arguments FeatureState F : clear implicits.
Arguments MachineState F : clear implicits.
Arguments RingBuffer F : clear implicits.
Arguments SyllableDetector F {X}.

(* ------------------------------------------------------------------ *)
(** * Assignments to single fields of an event *)

Section EventUpdates.
Context {F : Type}.
Import Ev.

Definition with_delta_f0 (v : F) (e : SyllableEvent F) : SyllableEvent F :=
  {| timestamp_samples := timestamp_samples e; time_seconds := time_seconds e;
     peak_rate := peak_rate e; pr_slope := pr_slope e; energy := energy e;
     f0 := f0 e; delta_f0 := v; duration_s := duration_s e;
     spectral_flux := spectral_flux e; high_freq_energy := high_freq_energy e;
     mfcc_delta := mfcc_delta e; wavelet_score := wavelet_score e;
     fusion_score := fusion_score e; onset_type := onset_type e;
     prominence_score := prominence_score e; is_accented := is_accented e |}.

Definition with_prominence (score : F) (acc : bool) (e : SyllableEvent F)
    : SyllableEvent F :=
  {| timestamp_samples := timestamp_samples e; time_seconds := time_seconds e;
     peak_rate := peak_rate e; pr_slope := pr_slope e; energy := energy e;
     f0 := f0 e; delta_f0 := delta_f0 e; duration_s := duration_s e;
     spectral_flux := spectral_flux e; high_freq_energy := high_freq_energy e;
     mfcc_delta := mfcc_delta e; wavelet_score := wavelet_score e;
     fusion_score := fusion_score e; onset_type := onset_type e;
     prominence_score := score; is_accented := acc |}.

Definition with_peak_rate (v : F) (e : SyllableEvent F) : SyllableEvent F :=
  {| timestamp_samples := timestamp_samples e; time_seconds := time_seconds e;
     peak_rate := v; pr_slope := pr_slope e; energy := energy e;
     f0 := f0 e; delta_f0 := delta_f0 e; duration_s := duration_s e;
     spectral_flux := spectral_flux e; high_freq_energy := high_freq_energy e;
     mfcc_delta := mfcc_delta e; wavelet_score := wavelet_score e;
     fusion_score := fusion_score e; onset_type := onset_type e;
     prominence_score := prominence_score e; is_accented := is_accented e |}.

Definition with_pr_slope (v : F) (e : SyllableEvent F) : SyllableEvent F :=
  {| timestamp_samples := timestamp_samples e; time_seconds := time_seconds e;
     peak_rate := peak_rate e; pr_slope := v; energy := energy e;
     f0 := f0 e; delta_f0 := delta_f0 e; duration_s := duration_s e;
     spectral_flux := spectral_flux e; high_freq_energy := high_freq_energy e;
     mfcc_delta := mfcc_delta e; wavelet_score := wavelet_score e;
     fusion_score := fusion_score e; onset_type := onset_type e;
     prominence_score := prominence_score e; is_accented := is_accented e |}.

Definition with_fusion_score (v : F) (e : SyllableEvent F) : SyllableEvent F :=
  {| timestamp_samples := timestamp_samples e; time_seconds := time_seconds e;
     peak_rate := peak_rate e; pr_slope := pr_slope e; energy := energy e;
     f0 := f0 e; delta_f0 := delta_f0 e; duration_s := duration_s e;
     spectral_flux := spectral_flux e; high_freq_energy := high_freq_energy e;
     mfcc_delta := mfcc_delta e; wavelet_score := wavelet_score e;
     fusion_score := v; onset_type := onset_type e;
     prominence_score := prominence_score e; is_accented := is_accented e |}.

Definition with_spectral_flux (v : F) (e : SyllableEvent F)
    : SyllableEvent F :=
  {| timestamp_samples := timestamp_samples e; time_seconds := time_seconds e;
     peak_rate := peak_rate e; pr_slope := pr_slope e; energy := energy e;
     f0 := f0 e; delta_f0 := delta_f0 e; duration_s := duration_s e;
     spectral_flux := v; high_freq_energy := high_freq_energy e;
     mfcc_delta := mfcc_delta e; wavelet_score := wavelet_score e;
     fusion_score := fusion_score e; onset_type := onset_type e;
     prominence_score := prominence_score e; is_accented := is_accented e |}.

Definition with_high_freq_energy (v : F) (e : SyllableEvent F)
    : SyllableEvent F :=
  {| timestamp_samples := timestamp_samples e; time_seconds := time_seconds e;
     peak_rate := peak_rate e; pr_slope := pr_slope e; energy := energy e;
     f0 := f0 e; delta_f0 := delta_f0 e; duration_s := duration_s e;
     spectral_flux := spectral_flux e; high_freq_energy := v;
     mfcc_delta := mfcc_delta e; wavelet_score := wavelet_score e;
     fusion_score := fusion_score e; onset_type := onset_type e;
     prominence_score := prominence_score e; is_accented := is_accented e |}.

Definition with_mfcc_delta (v : F) (e : SyllableEvent F) : SyllableEvent F :=
  {| timestamp_samples := timestamp_samples e; time_seconds := time_seconds e;
     peak_rate := peak_rate e; pr_slope := pr_slope e; energy := energy e;
     f0 := f0 e; delta_f0 := delta_f0 e; duration_s := duration_s e;
     spectral_flux := spectral_flux e; high_freq_energy := high_freq_energy e;
     mfcc_delta := v; wavelet_score := wavelet_score e;
     fusion_score := fusion_score e; onset_type := onset_type e;
     prominence_score := prominence_score e; is_accented := is_accented e |}.

Definition with_wavelet_score (v : F) (e : SyllableEvent F)
    : SyllableEvent F :=
  {| timestamp_samples := timestamp_samples e; time_seconds := time_seconds e;
     peak_rate := peak_rate e; pr_slope := pr_slope e; energy := energy e;
     f0 := f0 e; delta_f0 := delta_f0 e; duration_s := duration_s e;
     spectral_flux := spectral_flux e; high_freq_energy := high_freq_energy e;
     mfcc_delta := mfcc_delta e; wavelet_score := v;
     fusion_score := fusion_score e; onset_type := onset_type e;
     prominence_score := prominence_score e; is_accented := is_accented e |}.

(** The three assignments that finalize an event at the end of the nucleus. *)
Definition with_final (dur en f0' : F) (e : SyllableEvent F)
    : SyllableEvent F :=
  {| timestamp_samples := timestamp_samples e; time_seconds := time_seconds e;
     peak_rate := peak_rate e; pr_slope := pr_slope e; energy := en;
     f0 := f0'; delta_f0 := delta_f0 e; duration_s := dur;
     spectral_flux := spectral_flux e; high_freq_energy := high_freq_energy e;
     mfcc_delta := mfcc_delta e; wavelet_score := wavelet_score e;
     fusion_score := fusion_score e; onset_type := onset_type e;
     prominence_score := prominence_score e; is_accented := is_accented e |}.
End EventUpdates.

(* ------------------------------------------------------------------ *)
(** * Helpers of [syllable_detector.c] *)

Section Helpers.
Context {F : Type} {FO : FloatOps F} {X : Extractors F}.
Local Open Scope flt_scope.

Definition bandpass_center_hz (cfg : SyllableConfig F) : F :=
  (peak_rate_band_min cfg + peak_rate_band_max cfg) * lit 0.5.

Definition bandpass_q_factor (cfg : SyllableConfig F) : F :=
  let bandwidth := peak_rate_band_max cfg - peak_rate_band_min cfg in
  let bandwidth := if bandwidth <? lit 1 then lit 1 else bandwidth in
  bandpass_center_hz cfg / bandwidth.

Definition configure_bandpass (filter : Biquad F) (cfg : SyllableConfig F)
    : Biquad F :=
  let q := bandpass_q_factor cfg in
  let q := if q <? lit 0.1 then lit 0.1 else q in
  biquad_config_bandpass filter (itof (sample_rate cfg))
    (bandpass_center_hz cfg) q.

Definition init_feature_stats (tau_ms : F) (sample_rate : Z)
    : FeatureStats F :=
  let tau_s := tau_ms * lit 0.001 in
  let a := lit 1 / (tau_s * itof sample_rate) in
  let a := if a >? lit 1 then lit 1 else a in
  {| mean := lit 0; var := lit 0; max_val := lit 0; alpha := a;
     sample_count := 0 |}.

(** ** Real-time calibration *)

(** Sum and sum of squares of the first [n] entries of one feature row. *)
Definition cal_sums (row : list F) (n : Z) : F * F :=
  fold_left
    (fun (acc : F * F) (i : Z) =>
       let x := zget row i (lit 0) in
       (fst acc + x, snd acc + x * x))
    (zrange 0 (Z.to_nat n)) (lit 0, lit 0).

(** Body of the loop over [k] in [finalize_rt_calibration]. *)
Definition calibrated_thresh (g : F) (row : list F) (n : Z) : F :=
  if (n <? 10)%Z then lit 0.001
  else
    let s := cal_sums row n in
    let m := fst s / itof n in
    let v := (snd s / itof n) - (m * m) in
    let std := if v >? lit 0 then sqrtf v else lit 0 in
    let t := m + g * std in
    if t <? lit 1e-6 then lit 1e-6 else t.

Definition finalize_rt_calibration (d : SyllableDetector F)
    : SyllableDetector F :=
  let cal := rt_cal d in
  let n := if (buf_idx cal <? RT_BUF_SIZE)%Z then buf_idx cal
           else RT_BUF_SIZE in
  let g := powf (lit 10) (snr_threshold_db (config d) / lit 10) in
  set_rt_cal
    {| is_calibrating := false;
       cal_sample_count := cal_sample_count cal;
       target_samples := target_samples cal;
       buf := buf cal;
       buf_idx := buf_idx cal;
       gamma := g;
       thresh := map (fun k => calibrated_thresh g (zget (buf cal) k []) n)
                     (zrange 0 (Z.to_nat RT_NUM_FEATURES)) |} d.

(** [buf[k][idx] = v]. *)
Definition store_cal (k idx : Z) (v : F) (b : list (list F))
    : list (list F) :=
  zset b k (zset (zget b k []) idx v).

(** The part of [update_rt_calibration] before its test: the frame of the
    six current feature values is written at [buf_idx % RT_BUF_SIZE] and
    both counters advance. *)
Definition store_frame (d : SyllableDetector F) : SyllableDetector F :=
  let cal := rt_cal d in
  let idx := Z.rem (buf_idx cal) RT_BUF_SIZE in
  let b := store_cal 0 idx (current_energy (energy_st d)) (buf cal) in
  let b := store_cal 1 idx (current_peak_rate (energy_st d)) b in
  let b := store_cal 2 idx (current_spectral_flux (features d)) b in
  let b := store_cal 3 idx (current_high_freq_energy (features d)) b in
  let b := store_cal 4 idx (current_mfcc_delta (features d)) b in
  let b := store_cal 5 idx (current_wavelet_score (features d)) b in
  set_rt_cal
    {| is_calibrating := is_calibrating cal;
       cal_sample_count := (cal_sample_count cal + 1)%Z;
       target_samples := target_samples cal;
       buf := b;
       buf_idx := (buf_idx cal + 1)%Z;
       gamma := gamma cal;
       thresh := thresh cal |} d.

Definition update_rt_calibration (d : SyllableDetector F)
    : SyllableDetector F :=
  let d' := store_frame d in
  if (cal_sample_count (rt_cal d') >=? target_samples (rt_cal d'))%Z
  then finalize_rt_calibration d'
  else d'.

(** The six calibrated feature values, in the order of the [f] array. *)
Definition rt_features (d : SyllableDetector F) : list F :=
  [ current_energy (energy_st d); current_peak_rate (energy_st d);
    current_spectral_flux (features d);
    current_high_freq_energy (features d);
    current_mfcc_delta (features d); current_wavelet_score (features d) ].

(** Loop state of [compute_fusion_realtime]: [active], [log_sum], [max_r]. *)
Definition rt_ratio_step (f th : list F) (acc : Z * F * F) (k : Z)
    : Z * F * F :=
  let '(active, log_sum, max_r) := acc in
  let r := zget f k (lit 0) / zget th k (lit 0) in
  let '(active, log_sum) :=
    if r >? lit 1 then ((active + 1)%Z, log_sum + logf r)
    else (active, log_sum) in
  let max_r := if r >? max_r then r else max_r in
  (active, log_sum, max_r).

Definition compute_fusion_realtime (d : SyllableDetector F) : F :=
  let cal := rt_cal d in
  if is_calibrating cal then lit 0
  else
    let f := rt_features d in
    let '(active, log_sum, _) :=
      fold_left (rt_ratio_step f (thresh cal))
                (zrange 0 (Z.to_nat RT_NUM_FEATURES))
                (0%Z, lit 0, lit 0) in
    let voiced_conf :=
      fminf (lit 1) (itof (voicing_counter (voicing d)) / lit 5) in
    let '(active, log_sum) :=
      if voiced_conf >? lit 0.5
      then ((active + 1)%Z, log_sum + logf (lit 1 + voiced_conf))
      else (active, log_sum) in
    if (active =? 0)%Z then lit 0
    else
      let geo_mean := expf (log_sum / itof active) in
      lit 1 - lit 1 / (lit 1 + geo_mean * lit 0.5).

(** ** Running statistics and normalization *)

Definition update_feature_stats (stats : FeatureStats F) (value : F)
    : FeatureStats F :=
  let delta := value - mean stats in
  {| mean := mean stats + alpha stats * delta;
     var := (lit 1 - alpha stats)
            * (var stats + alpha stats * delta * delta);
     max_val := if value >? max_val stats then value else max_val stats;
     alpha := alpha stats;
     sample_count := if (sample_count stats <? 100000)%Z
                     then (sample_count stats + 1)%Z
                     else sample_count stats |}.

Definition fast_sigmoid (x : F) : F := x / (lit 1 + fabsf x).

Definition get_stats_confidence (stats : FeatureStats F) (sample_rate : Z)
    : F :=
  let target := Z.quot sample_rate 2 in
  if (sample_count stats >=? target)%Z then lit 1
  else itof (sample_count stats) / itof target.

(** Returns the normalized value and the value written to [*confidence]. *)
Definition normalize_feature_sigmoid (stats : FeatureStats F) (value : F)
    : F * F :=
  let std := sqrtf (var stats) in
  if (std <? lit 1e-6) || (sample_count stats <? 100)%Z
  then (lit 0.5, lit 0.1)
  else
    let conf := fminf (lit 1) (itof (sample_count stats) / lit 1000) in
    let z := (value - mean stats) / std in
    ((fast_sigmoid (z - lit 1) + lit 1) * lit 0.5, conf).

Definition normalize_feature (stats : FeatureStats F) (value : F) : F :=
  let std := sqrtf (var stats) in
  let std := if std <? lit 1e-6 then lit 1e-6 else std in
  let z := (value - mean stats) / std in
  let z := if z <? lit 0 then lit 0 else z in
  let z := if z >? lit 4 then lit 4 else z in
  z / lit 4.

Definition DEFAULT_SAMPLE_RATE : Z := 44100.

Definition syllable_default_config (rate : Z) : SyllableConfig F :=
  {| sample_rate := if (rate >? 0)%Z then rate else DEFAULT_SAMPLE_RATE;
     zff_trend_window_ms := lit 10;
     peak_rate_band_min := lit 500;
     peak_rate_band_max := lit 3200;
     min_syllable_dist_ms := lit 150;
     threshold_peak_rate := lit 0.0003;
     adaptive_peak_rate_k := lit 4;
     adaptive_peak_rate_tau_ms := lit 500;
     voiced_hold_ms := lit 30;
     hysteresis_on_factor := lit 1.2;
     hysteresis_off_factor := lit 0.8;
     context_size := 2;
     enable_spectral_flux := true;
     enable_high_freq_energy := true;
     enable_mfcc_delta := true;
     enable_wavelet := true;
     fft_size_ms := lit 32;
     hop_size_ms := lit 16;
     high_freq_cutoff_hz := lit 2000;
     weight_peak_rate := lit 0.30;
     weight_spectral_flux := lit 0.25;
     weight_high_freq := lit 0.15;
     weight_mfcc_delta := lit 0.10;
     weight_wavelet := lit 0.20;
     weight_voiced_bonus := lit 0.10;
     fusion_blend_alpha := lit 0.6;
     unvoiced_onset_threshold := lit 0.5;
     allow_unvoiced_onsets := true;
     enable_agc := true;
     realtime_mode := false;
     calibration_duration_ms := lit 2000;
     snr_threshold_db := lit 6 |}.
End Helpers.

(* ------------------------------------------------------------------ *)
(** * Context-relative prominence *)

Section Prominence.
Context {F : Type} {FO : FloatOps F}.
Local Open Scope flt_scope.

Definition empty_slot : BufferedEvent F :=
  {| event := zero_event; is_ready := false |}.

Definition slot (b : list (BufferedEvent F)) (i : Z) : BufferedEvent F :=
  zget b i empty_slot.

Definition prev_index (target_idx i : Z) : Z :=
  Z.rem (target_idx - i + PROMINENCE_BUFFER_SIZE) PROMINENCE_BUFFER_SIZE.

Definition next_index (target_idx i : Z) : Z :=
  Z.rem (target_idx + i) PROMINENCE_BUFFER_SIZE.

(** One iteration of the context loop of [calculate_delta_f0].  [acc]
    stands for [f0_values[0 .. f0_count-1]], an array of
    [PROMINENCE_BUFFER_SIZE] elements that the code fills without a bound
    check, two values per iteration at most: the list is the array as long
    as [2 * context_size <= PROMINENCE_BUFFER_SIZE], beyond which the C
    code may write past the array and its behaviour is undefined.  The
    theorems about events written carry that bound.  Likewise the indices
    [prev_index] and [next_index] are slots of the ring for distances up to
    [PROMINENCE_BUFFER_SIZE] only. *)
Definition gather_f0 (b : list (BufferedEvent F)) (target_idx : Z)
    (acc : list F) (i : Z) : list F :=
  let p := slot b (prev_index target_idx i) in
  let acc := if is_ready p && (Ev.f0 (event p) >? lit 50)
             then acc ++ [Ev.f0 (event p)] else acc in
  let n := slot b (next_index target_idx i) in
  if is_ready n && (Ev.f0 (event n) >? lit 50)
  then acc ++ [Ev.f0 (event n)] else acc.

(** The inner loop of the exchange sort: [k] adjacent compare-and-swap
    steps starting at the head. *)
Fixpoint bubble_pass (k : nat) (l : list F) : list F :=
  match k, l with
  | S k', a :: b :: t =>
      if a >? b then b :: bubble_pass k' (a :: t)
      else a :: bubble_pass k' (b :: t)
  | _, _ => l
  end.

(** The outer loop: pass [i] performs [n - i - 1] steps, [i < n - 1]. *)
Fixpoint bubble_sort_from (passes : nat) (steps : nat) (l : list F)
    : list F :=
  match passes with
  | O => l
  | S p => bubble_sort_from p (Nat.pred steps) (bubble_pass steps l)
  end.

Definition bubble_sort (l : list F) : list F :=
  bubble_sort_from (Nat.pred (length l)) (Nat.pred (length l)) l.

(** [calculate_delta_f0]: the value stored in the target's [delta_f0],
    for a [context_size] within the bound stated at [gather_f0]. *)
Definition delta_f0_value (context_size : Z) (b : list (BufferedEvent F))
    (target_idx : Z) : F :=
  let target := slot b target_idx in
  if negb (is_ready target) then lit 0
  else
    let f0_values :=
      fold_left (gather_f0 b target_idx)
                (zrange 1 (Z.to_nat context_size)) [] in
    let f0_count := Z.of_nat (length f0_values) in
    if (f0_count =? 0)%Z || (Ev.f0 (event target) <? lit 50) then lit 0
    else
      let sorted := bubble_sort f0_values in
      let median_f0 := zget sorted (Z.quot f0_count 2) (lit 0) in
      Ev.f0 (event target) - median_f0.

Definition calculate_delta_f0 (context_size : Z)
    (b : list (BufferedEvent F)) (target_idx : Z)
    : list (BufferedEvent F) :=
  let target := slot b target_idx in
  zset b target_idx
    {| event := with_delta_f0 (delta_f0_value context_size b target_idx)
                  (event target);
       is_ready := is_ready target |}.

(** Accumulators of [calculate_prominence]: the five local sums and the
    count of ready neighbours. *)
Record ContextSums : Type := {
  local_avg_energy : F;
  local_avg_pr : F;
  local_avg_dur : F;
  local_avg_slope : F;
  local_avg_fusion : F;
  count : Z
}.

Definition add_neighbour (s : ContextSums) (n : BufferedEvent F)
    : ContextSums :=
  if is_ready n then
    {| local_avg_energy := local_avg_energy s + Ev.energy (event n);
       local_avg_pr := local_avg_pr s + Ev.peak_rate (event n);
       local_avg_dur := local_avg_dur s + Ev.duration_s (event n);
       local_avg_slope := local_avg_slope s + Ev.pr_slope (event n);
       local_avg_fusion := local_avg_fusion s + Ev.fusion_score (event n);
       count := (count s + 1)%Z |}
  else s.

(** One iteration of the context loop of [calculate_prominence].  As in
    [gather_f0], the neighbour indices are slots of the ring for distances
    up to [PROMINENCE_BUFFER_SIZE]; beyond, the C index is negative and the
    read is outside [event_buffer]. *)
Definition gather_context (b : list (BufferedEvent F)) (target_idx : Z)
    (s : ContextSums) (i : Z) : ContextSums :=
  let s := add_neighbour s (slot b (prev_index target_idx i)) in
  add_neighbour s (slot b (next_index target_idx i)).

Definition ratio_score (target_value local_avg : F) : F :=
  if target_value >? lit 0
  then target_value / (local_avg + lit 0.0001)
  else lit 0.

Definition calculate_prominence (context_size : Z)
    (b : list (BufferedEvent F)) (target_idx : Z) : F :=
  let target := slot b target_idx in
  if negb (is_ready target) then lit 0
  else
    let s :=
      fold_left (gather_context b target_idx)
                (zrange 1 (Z.to_nat context_size))
                {| local_avg_energy := lit 0; local_avg_pr := lit 0;
                   local_avg_dur := lit 0; local_avg_slope := lit 0;
                   local_avg_fusion := lit 0; count := 0 |} in
    if (count s =? 0)%Z then lit 0.5
    else
      let n := itof (count s) in
      let avg_energy := local_avg_energy s / n in
      let avg_pr := local_avg_pr s / n in
      let avg_dur := local_avg_dur s / n in
      let avg_slope := local_avg_slope s / n in
      let avg_fusion := local_avg_fusion s / n in
      let t := event target in
      let e_score := ratio_score (Ev.energy t) avg_energy in
      let pr_score := ratio_score (Ev.peak_rate t) avg_pr in
      let d_score := ratio_score (Ev.duration_s t) avg_dur in
      let slope_score := ratio_score (Ev.pr_slope t) avg_slope in
      let fusion_score_ratio := ratio_score (Ev.fusion_score t) avg_fusion in
      let f0_bonus :=
        if Ev.delta_f0 t >? lit 0 then Ev.delta_f0 t / lit 50 else lit 0 in
      let f0_bonus := if f0_bonus >? lit 1 then lit 1 else f0_bonus in
      let stress_integral := Ev.fusion_score t * Ev.duration_s t in
      let avg_stress := avg_fusion * avg_dur in
      let stress_ratio :=
        if avg_stress >? lit 0.001 then stress_integral / avg_stress
        else lit 1 in
      let stress_ratio :=
        if stress_ratio >? lit 3 then lit 3 else stress_ratio in
      let f0_level_bonus :=
        if Ev.f0 t >? lit 60 then
          let f0_norm := Ev.f0 t / lit 150 in
          if f0_norm >? lit 1.1 then
            let bonus := (f0_norm - lit 1) * lit 0.5 in
            if bonus >? lit 0.15 then lit 0.15 else bonus
          else lit 0
        else lit 0 in
      lit 0.10 * e_score + lit 0.10 * pr_score + lit 0.18 * d_score
      + lit 0.08 * slope_score + lit 0.18 * fusion_score_ratio
      + lit 0.13 * stress_ratio + lit 0.10 * (lit 1 + f0_bonus)
      + lit 0.13 * (lit 1 + f0_level_bonus).
End Prominence.

(* ------------------------------------------------------------------ *)
(** * Offline fusion and onset type *)

Section Fusion.
Context {F : Type} {FO : FloatOps F} {X : Extractors F}.
Local Open Scope flt_scope.

Definition present {A : Type} (o : option A) : bool :=
  match o with Some _ => true | None => false end.

(** One optional term of a running sum: added when the extractor exists. *)
Definition add_if (b : bool) (acc term : F) : F :=
  if b then acc + term else acc.

Definition max_if (b : bool) (acc v : F) : F :=
  if b && (v >? acc) then v else acc.

(** The pair ([weighted_avg] before division, [w_total]) accumulated by
    [compute_fusion_score]. *)
Definition fusion_weight_total (cfg : SyllableConfig F)
    (has_sf has_hf has_mfcc has_wav : bool) : F :=
  let w := weight_peak_rate cfg in
  let w := add_if has_sf w (weight_spectral_flux cfg) in
  let w := add_if has_hf w (weight_high_freq cfg) in
  let w := add_if has_mfcc w (weight_mfcc_delta cfg) in
  let w := add_if has_wav w (weight_wavelet cfg) in
  w + weight_voiced_bonus cfg.

Definition fusion_weighted_sum (cfg : SyllableConfig F)
    (has_sf has_hf has_mfcc has_wav : bool)
    (norm_pr norm_sf norm_hf norm_mfcc norm_wavelet voiced_bonus : F) : F :=
  let a := weight_peak_rate cfg * norm_pr in
  let a := add_if has_sf a (weight_spectral_flux cfg * norm_sf) in
  let a := add_if has_hf a (weight_high_freq cfg * norm_hf) in
  let a := add_if has_mfcc a (weight_mfcc_delta cfg * norm_mfcc) in
  let a := add_if has_wav a (weight_wavelet cfg * norm_wavelet) in
  a + weight_voiced_bonus cfg * voiced_bonus.

Definition fusion_weighted_avg (cfg : SyllableConfig F)
    (has_sf has_hf has_mfcc has_wav : bool)
    (norm_pr norm_sf norm_hf norm_mfcc norm_wavelet voiced_bonus : F) : F :=
  let w_total := fusion_weight_total cfg has_sf has_hf has_mfcc has_wav in
  let s := fusion_weighted_sum cfg has_sf has_hf has_mfcc has_wav
             norm_pr norm_sf norm_hf norm_mfcc norm_wavelet voiced_bonus in
  if w_total >? lit 0 then s / w_total else s.

Definition compute_fusion_score (d : SyllableDetector F) : F :=
  let cfg := config d in
  if realtime_mode cfg then compute_fusion_realtime d
  else
    let en := energy_st d in
    let ft := features d in
    let energy_ratio :=
      if energy_floor en >? lit 1e-8
      then current_energy en / energy_floor en else lit 1 in
    if (current_energy en <? lit 1e-6) || (energy_ratio <? lit 1.5)
    then lit 0
    else
      let has_sf := present (spectral_flux (dsp d)) in
      let has_hf := present (high_freq_energy (dsp d)) in
      let has_mfcc := present (mfcc (dsp d)) in
      let has_wav := present (wavelet (dsp d)) in
      let '(norm_pr, conf_pr) :=
        normalize_feature_sigmoid (stats_peak_rate ft)
          (current_peak_rate en) in
      let '(norm_sf, conf_sf) :=
        if has_sf
        then normalize_feature_sigmoid (stats_spectral_flux ft)
               (current_spectral_flux ft)
        else (lit 0, lit 0) in
      let '(norm_hf, conf_hf) :=
        if has_hf
        then normalize_feature_sigmoid (stats_high_freq ft)
               (current_high_freq_energy ft)
        else (lit 0, lit 0) in
      let '(norm_mfcc, conf_mfcc) :=
        if has_mfcc
        then normalize_feature_sigmoid (stats_mfcc_delta ft)
               (current_mfcc_delta ft)
        else (lit 0, lit 0) in
      let norm_wavelet :=
        if has_wav
        then fst (normalize_feature_sigmoid (stats_wavelet ft)
                    (current_wavelet_score ft))
        else lit 0 in
      let voiced_bonus := if is_voiced (voicing d) then lit 1 else lit 0 in
      let weighted_avg :=
        fusion_weighted_avg cfg has_sf has_hf has_mfcc has_wav
          norm_pr norm_sf norm_hf norm_mfcc norm_wavelet voiced_bonus in
      let max_feature := norm_pr in
      let max_feature := max_if has_sf max_feature norm_sf in
      let max_feature := max_if has_hf max_feature norm_hf in
      let max_feature := max_if has_mfcc max_feature norm_mfcc in
      let max_feature := max_if has_wav max_feature norm_wavelet in
      let blend := fusion_blend_alpha cfg in
      let fusion := blend * max_feature + (lit 1 - blend) * weighted_avg in
      let avg_confidence := conf_pr in
      let conf_count := 1%Z in
      let '(avg_confidence, conf_count) :=
        if has_sf then (avg_confidence + conf_sf, (conf_count + 1)%Z)
        else (avg_confidence, conf_count) in
      let '(avg_confidence, conf_count) :=
        if has_hf then (avg_confidence + conf_hf, (conf_count + 1)%Z)
        else (avg_confidence, conf_count) in
      let '(avg_confidence, conf_count) :=
        if has_mfcc then (avg_confidence + conf_mfcc, (conf_count + 1)%Z)
        else (avg_confidence, conf_count) in
      let avg_confidence := avg_confidence / itof conf_count in
      if avg_confidence <? lit 0.3
      then fusion * (lit 0.5 + avg_confidence)
      else fusion.

Definition determine_onset_type (d : SyllableDetector F)
    : SyllableOnsetType :=
  if is_voiced (voicing d) then
    let hf_norm :=
      if present (high_freq_energy (dsp d))
      then normalize_feature (stats_high_freq (features d))
             (current_high_freq_energy (features d))
      else lit 0 in
    if hf_norm >? lit 0.5 then ONSET_TYPE_MIXED else ONSET_TYPE_VOICED
  else ONSET_TYPE_UNVOICED.
End Fusion.

(* ------------------------------------------------------------------ *)
(** * Construction and reset *)

Section Lifecycle.
Context {F : Type} {FO : FloatOps F} {X : Extractors F}.
Local Open Scope flt_scope.

(** [while (fft_power < fft_size) fft_power <<= 1;] for a 32-bit [int]. *)
Fixpoint round_pow2 (fuel : nat) (fft_power fft_size : Z) : Z :=
  match fuel with
  | O => fft_power
  | S k => if (fft_power <? fft_size)%Z
           then round_pow2 k (fft_power * 2)%Z fft_size
           else fft_power
  end.

Definition zero_stats : FeatureStats F :=
  {| mean := lit 0; var := lit 0; max_val := lit 0; alpha := lit 0;
     sample_count := 0 |}.

(** memset(&d->rt_cal, 0, sizeof(d->rt_cal)). *)
Definition zero_rt_cal : RealtimeCalibration F :=
  {| is_calibrating := false;
     cal_sample_count := 0;
     target_samples := 0;
     buf := repeat (repeat (lit 0) (Z.to_nat RT_BUF_SIZE))
                   (Z.to_nat RT_NUM_FEATURES);
     buf_idx := 0;
     gamma := lit 0;
     thresh := repeat (lit 0) (Z.to_nat RT_NUM_FEATURES) |}.

Definition reset_zff (z : ZFF F) : ZFF F :=
  {| int1 := lit 0; int2 := lit 0;
     trend_buffer :=
       if (trend_buf_size z >? 0)%Z
       then map (fun _ => lit 0) (trend_buffer z)
       else trend_buffer z;
     trend_buf_size := trend_buf_size z;
     trend_write_pos := 0;
     trend_accum := lit 0 |}.

Definition syllable_reset (d : SyllableDetector F) : SyllableDetector F :=
  let cfg := config d in
  let v := voicing d in
  let r := ring d in
  let m := dsp d in
  let en := energy_st d in
  let ft := features d in
  let mc := machine d in
  let st := init_feature_stats (adaptive_peak_rate_tau_ms cfg)
              (sample_rate cfg) in
  {| config := cfg;
     total_samples := 0;
     dsp :=
       {| bp_filter := configure_bandpass (biquad_reset (bp_filter m)) cfg;
          env_follower :=
            {| output := lit 0;
               attack_coeff := attack_coeff (env_follower m);
               release_coeff := release_coeff (env_follower m) |};
          zff := reset_zff (zff m);
          spectral_flux := option_map spectral_flux_reset (spectral_flux m);
          high_freq_energy := option_map hfe_reset (high_freq_energy m);
          mfcc := option_map mfcc_reset (mfcc m);
          wavelet := wavelet m;
          agc := agc m |};
     voicing :=
       {| last_zff_val := last_zff_val v;
          last_zff_slope := last_zff_slope v;
          last_epoch_samples_ago := last_epoch_samples_ago v;
          current_f0 := current_f0 v;
          smoothed_f0 := smoothed_f0 v;
          prev_smoothed_f0 := prev_smoothed_f0 v;
          f0_derivative := f0_derivative v;
          min_f0_since_peak := min_f0_since_peak v;
          f0_has_risen := f0_has_risen v;
          f0_jump_counter := f0_jump_counter v;
          f0_baseline := f0_baseline v;
          f0_baseline_alpha := f0_baseline_alpha v;
          f0_semitone_diff := f0_semitone_diff v;
          voicing_counter := 0;
          unvoiced_counter := 0;
          is_voiced := false;
          voiced_hold_samples := voiced_hold_samples v |};
     fusion_hist := fusion_hist d;
     energy_st :=
       {| prev_env := lit 0;
          current_peak_rate := current_peak_rate en;
          peak_rate_accum := peak_rate_accum en;
          current_energy := current_energy en;
          energy_floor := energy_floor en;
          prev_sample := prev_sample en;
          prev_prev_sample := prev_prev_sample en;
          current_teo := current_teo en;
          teo_mean := teo_mean en;
          teo_var := teo_var en;
          short_energy := short_energy en;
          long_energy := long_energy en;
          current_ler := current_ler en;
          adaptive_enabled := adaptive_enabled en;
          adaptive_mean := lit 0;
          adaptive_var := lit 0;
          adaptive_alpha := adaptive_alpha en |};
     features :=
       {| stats_peak_rate := st;
          stats_spectral_flux := st;
          stats_high_freq := st;
          stats_mfcc_delta := st;
          stats_wavelet := st;
          current_spectral_flux := lit 0;
          current_high_freq_energy := lit 0;
          current_mfcc_delta := lit 0;
          current_wavelet_score := current_wavelet_score ft;
          current_fusion_score := lit 0 |};
     machine :=
       {| state := STATE_IDLE;
          state_timer := state_timer mc;
          max_onset_rising_samples := max_onset_rising_samples mc;
          wip_event := wip_event mc;
          max_peak_rate_in_syllable := max_peak_rate_in_syllable mc;
          max_fusion_score_in_syllable := max_fusion_score_in_syllable mc;
          energy_accum := energy_accum mc;
          onset_timestamp := onset_timestamp mc;
          last_event_samples := last_event_samples mc;
          peak_sample_offset := peak_sample_offset mc;
          current_onset_type := current_onset_type mc |};
     ring :=
       {| event_buffer :=
            map (fun s => {| event := event s; is_ready := false |})
                (event_buffer r);
          buf_write_idx := 0;
          buf_read_idx := 0;
          buf_count := 0 |};
     rt_cal := rt_cal d |}.

(** The detector as [syllable_create] leaves it just before its final call
    of [syllable_reset]. *)
Definition create_fields (cfg : SyllableConfig F) : SyllableDetector F :=
  let fs := sample_rate cfg in
  let hold := ftoi (voiced_hold_ms cfg * lit 0.001 * itof fs) in
  let fft_size := ftoi (fft_size_ms cfg * lit 0.001 * itof fs) in
  let fft_size := round_pow2 31 1 fft_size in
  let hop_size := ftoi (hop_size_ms cfg * lit 0.001 * itof fs) in
  let adaptive :=
    (adaptive_peak_rate_k cfg >? lit 0)
    && (adaptive_peak_rate_tau_ms cfg >? lit 0) in
  let st := init_feature_stats (adaptive_peak_rate_tau_ms cfg) fs in
  {| config := cfg;
     total_samples := 0;
     dsp :=
       {| bp_filter :=
            configure_bandpass
              (biquad_reset
                 {| b0 := lit 0; b1 := lit 0; b2 := lit 0; a1 := lit 0;
                    a2 := lit 0; x1 := lit 0; x2 := lit 0; y1 := lit 0;
                    y2 := lit 0 |}) cfg;
          env_follower := envelope_init (itof fs) (lit 5) (lit 20);
          zff := zff_init fs (zff_trend_window_ms cfg);
          spectral_flux :=
            if enable_spectral_flux cfg
            then spectral_flux_create fs fft_size hop_size else None;
          high_freq_energy :=
            if enable_high_freq_energy cfg
            then Some (hfe_create fs (high_freq_cutoff_hz cfg) (lit 10))
            else None;
          mfcc :=
            if enable_mfcc_delta cfg
            then mfcc_create fs fft_size hop_size else None;
          wavelet :=
            if enable_wavelet cfg
            then wavelet_create fs (lit 2000) (lit 6000) 3 else None;
          agc :=
            if enable_agc cfg
            then Some (agc_create fs (lit (-23)) (lit 30)) else None |};
     voicing :=
       {| last_zff_val := lit 0;
          last_zff_slope := lit 0;
          last_epoch_samples_ago := 0;
          current_f0 := lit 0;
          smoothed_f0 := lit 0;
          prev_smoothed_f0 := lit 0;
          f0_derivative := lit 0;
          min_f0_since_peak := lit 0;
          f0_has_risen := true;
          f0_jump_counter := 0;
          f0_baseline := lit 0;
          f0_baseline_alpha :=
            lit 1 - expf (lit (-1) / (lit 1 * itof fs));
          f0_semitone_diff := lit 0;
          voicing_counter := 0;
          unvoiced_counter := 0;
          is_voiced := false;
          voiced_hold_samples := if (hold <? 1)%Z then 1%Z else hold |};
     fusion_hist :=
       {| fusion_history := repeat (lit 0) (Z.to_nat FUSION_HISTORY_SIZE);
          fusion_history_idx := 0;
          fusion_history_count := 0;
          fusion_median := lit 0.5;
          fusion_mad := lit 0.2 |};
     energy_st :=
       {| prev_env := lit 0;
          current_peak_rate := lit 0;
          peak_rate_accum := lit 0;
          current_energy := lit 0;
          energy_floor := lit 0;
          prev_sample := lit 0;
          prev_prev_sample := lit 0;
          current_teo := lit 0;
          teo_mean := lit 0;
          teo_var := lit 0;
          short_energy := lit 0;
          long_energy := lit 0.0001;
          current_ler := lit 1;
          adaptive_enabled := adaptive;
          adaptive_mean := lit 0;
          adaptive_var := lit 0;
          adaptive_alpha :=
            if adaptive then
              let tau_s := adaptive_peak_rate_tau_ms cfg * lit 0.001 in
              let a := lit 1 / (tau_s * itof fs) in
              if a >? lit 1 then lit 1 else a
            else lit 0 |};
     features :=
       {| stats_peak_rate := st;
          stats_spectral_flux := st;
          stats_high_freq := st;
          stats_mfcc_delta := st;
          stats_wavelet := zero_stats;
          current_spectral_flux := lit 0;
          current_high_freq_energy := lit 0;
          current_mfcc_delta := lit 0;
          current_wavelet_score := lit 0;
          current_fusion_score := lit 0 |};
     machine :=
       {| state := STATE_IDLE;
          state_timer := 0;
          max_onset_rising_samples := ftoi (lit 0.050 * itof fs);
          wip_event := zero_event;
          max_peak_rate_in_syllable := lit 0;
          max_fusion_score_in_syllable := lit 0;
          energy_accum := lit 0;
          onset_timestamp := 0;
          last_event_samples := 0;
          peak_sample_offset := 0;
          current_onset_type := ONSET_TYPE_VOICED |};
     ring :=
       {| event_buffer :=
            repeat empty_slot (Z.to_nat PROMINENCE_BUFFER_SIZE);
          buf_write_idx := 0;
          buf_read_idx := 0;
          buf_count := 0 |};
     rt_cal := zero_rt_cal |}.

Definition syllable_create (cfg : SyllableConfig F) : SyllableDetector F :=
  syllable_reset (create_fields cfg).
End Lifecycle.

(* ------------------------------------------------------------------ *)
(** * [syllable_process]: the per-sample pipeline *)

Section Process.
Context {F : Type} {FO : FloatOps F} {X : Extractors F}.
Local Open Scope flt_scope.

(** ** 0. AGC and the sample counter *)
Definition agc_stage (d : SyllableDetector F) (x : F)
    : SyllableDetector F * F :=
  let m := dsp d in
  let '(a', in_sample) :=
    match agc m with
    | Some a => let '(a1, y) := agc_process a x in (Some a1, y)
    | None => (None, x)
    end in
  (set_total_samples (u64_succ (total_samples d))
     (set_dsp
        {| bp_filter := bp_filter m; env_follower := env_follower m;
           zff := zff m; spectral_flux := spectral_flux m;
           high_freq_energy := high_freq_energy m; mfcc := mfcc m;
           wavelet := wavelet m; agc := a' |} d),
   in_sample).

(** ** 1. ZFF epochs, F0 smoothing and the voiced flag *)

(** Effect of a valid raw F0 on ([smoothed_f0], [current_f0],
    [f0_jump_counter]). *)
Definition track_f0 (raw_f0 smoothed current : F) (jump : Z) : F * F * Z :=
  if smoothed <? lit 50 then (raw_f0, raw_f0, 0%Z)
  else
    let deviation := fabsf (raw_f0 - smoothed) / smoothed in
    if deviation <? lit 0.2 then
      let s := lit 0.7 * smoothed + lit 0.3 * raw_f0 in (s, s, 0%Z)
    else
      let jump := (jump + 1)%Z in
      if (jump >? 3)%Z then (raw_f0, raw_f0, 0%Z)
      else (smoothed, current, jump).

Definition voicing_stage (d : SyllableDetector F) (in_sample : F)
    : SyllableDetector F :=
  let m := dsp d in
  let v := voicing d in
  let '(z', zff_out) := zff_process (zff m) in_sample in
  let is_epoch := (last_zff_val v <? lit 0) && (zff_out >=? lit 0) in
  let '(smoothed, current, jump, vcount) :=
    if is_epoch && (last_epoch_samples_ago v >? 0)%Z then
      let period_s :=
        itof (last_epoch_samples_ago v) / itof (sample_rate (config d)) in
      let raw_f0 := lit 1 / period_s in
      if (raw_f0 >? lit 50) && (raw_f0 <? lit 600) then
        let '(s, c, j) :=
          track_f0 raw_f0 (smoothed_f0 v) (current_f0 v)
                   (f0_jump_counter v) in
        (s, c, j, 5%Z)
      else (smoothed_f0 v, current_f0 v, f0_jump_counter v,
            voicing_counter v)
    else (smoothed_f0 v, current_f0 v, f0_jump_counter v,
          voicing_counter v) in
  let ago := if is_epoch then 0%Z else (last_epoch_samples_ago v + 1)%Z in
  let voiced := (vcount >? 0)%Z in
  let voiced :=
    if is_epoch then voiced
    else negb (ago >? voiced_hold_samples v)%Z in
  let derivative := smoothed - prev_smoothed_f0 v in
  let valid := smoothed >? lit 50 in
  let min_f0 :=
    if valid then
      if min_f0_since_peak v <? lit 50 then smoothed
      else if smoothed <? min_f0_since_peak v then smoothed
      else min_f0_since_peak v
    else min_f0_since_peak v in
  let risen :=
    if valid then
      if smoothed >? min_f0 * lit 1.05 then true else f0_has_risen v
    else
      if negb voiced then true else f0_has_risen v in
  let baseline :=
    if valid then
      if f0_baseline v <? lit 50 then smoothed
      else f0_baseline_alpha v * smoothed
           + (lit 1 - f0_baseline_alpha v) * f0_baseline v
    else f0_baseline v in
  let semitone :=
    if valid then lit 12 * log2f (smoothed / (baseline + lit 0.1))
    else lit 0 in
  set_voicing
    {| last_zff_val := zff_out;
       last_zff_slope := last_zff_slope v;
       last_epoch_samples_ago := ago;
       current_f0 := current;
       smoothed_f0 := smoothed;
       prev_smoothed_f0 := smoothed;
       f0_derivative := derivative;
       min_f0_since_peak := min_f0;
       f0_has_risen := risen;
       f0_jump_counter := jump;
       f0_baseline := baseline;
       f0_baseline_alpha := f0_baseline_alpha v;
       f0_semitone_diff := semitone;
       voicing_counter := vcount;
       unvoiced_counter := unvoiced_counter v;
       is_voiced := voiced;
       voiced_hold_samples := voiced_hold_samples v |}
    (set_dsp
       {| bp_filter := bp_filter m; env_follower := env_follower m;
          zff := z'; spectral_flux := spectral_flux m;
          high_freq_energy := high_freq_energy m; mfcc := mfcc m;
          wavelet := wavelet m; agc := agc m |} d).

(** ** 2. Peak rate, energy floor, Teager energy, local energy ratio *)
Definition energy_stage (d : SyllableDetector F) (in_sample : F)
    : SyllableDetector F :=
  let m := dsp d in
  let en := energy_st d in
  let ft := features d in
  let cfg := config d in
  let '(bp', bp_out) := biquad_process (bp_filter m) in_sample in
  let '(env', env_out) := envelope_process (env_follower m) bp_out in
  let diff := env_out - prev_env en in
  let peak_rate := if diff >? lit 0 then diff else lit 0 in
  let floor' :=
    if (env_out <? energy_floor en) || (energy_floor en <? lit 1e-8)
    then env_out
    else lit 0.9999 * energy_floor en + lit 0.0001 * env_out in
  let teo_raw :=
    prev_sample en * prev_sample en - prev_prev_sample en * in_sample in
  let teo_raw := if teo_raw <? lit 0 then lit 0 else teo_raw in
  let teo_alpha := lit 0.001 in
  let teo_delta := teo_raw - teo_mean en in
  let teo_mean' := teo_mean en + teo_alpha * teo_delta in
  let teo_var' :=
    (lit 1 - teo_alpha) * (teo_var en + teo_alpha * teo_delta * teo_delta) in
  let sample_energy := in_sample * in_sample in
  let alpha_short :=
    lit 1 - expf (lit (-1) / (lit 0.020 * itof (sample_rate cfg))) in
  let alpha_long :=
    lit 1 - expf (lit (-1) / (lit 0.500 * itof (sample_rate cfg))) in
  let short' :=
    alpha_short * sample_energy + (lit 1 - alpha_short) * short_energy en in
  let long' :=
    alpha_long * sample_energy + (lit 1 - alpha_long) * long_energy en in
  let ler :=
    if long' >? lit 1e-10 then
      let r := short' / long' in
      if r >? lit 10 then lit 10 else r
    else lit 1 in
  let stats_pr :=
    if is_voiced (voicing d) || allow_unvoiced_onsets cfg
    then update_feature_stats (stats_peak_rate ft) peak_rate
    else stats_peak_rate ft in
  set_features
    {| stats_peak_rate := stats_pr;
       stats_spectral_flux := stats_spectral_flux ft;
       stats_high_freq := stats_high_freq ft;
       stats_mfcc_delta := stats_mfcc_delta ft;
       stats_wavelet := stats_wavelet ft;
       current_spectral_flux := current_spectral_flux ft;
       current_high_freq_energy := current_high_freq_energy ft;
       current_mfcc_delta := current_mfcc_delta ft;
       current_wavelet_score := current_wavelet_score ft;
       current_fusion_score := current_fusion_score ft |}
    (set_energy_st
       {| prev_env := env_out;
          current_peak_rate := peak_rate;
          peak_rate_accum := peak_rate_accum en;
          current_energy := env_out;
          energy_floor := floor';
          prev_sample := in_sample;
          prev_prev_sample := prev_sample en;
          current_teo := teo_raw;
          teo_mean := teo_mean';
          teo_var := teo_var';
          short_energy := short';
          long_energy := long';
          current_ler := ler;
          adaptive_enabled := adaptive_enabled en;
          adaptive_mean := adaptive_mean en;
          adaptive_var := adaptive_var en;
          adaptive_alpha := adaptive_alpha en |}
       (set_dsp
          {| bp_filter := bp'; env_follower := env';
             zff := zff m; spectral_flux := spectral_flux m;
             high_freq_energy := high_freq_energy m; mfcc := mfcc m;
             wavelet := wavelet m; agc := agc m |} d)).

(** ** 3. Multi-feature processing *)

(** A framed extractor: the last value written, if any, becomes the
    current value and enters the statistics. *)
Definition framed_update (out : list F) (cur : F) (st : FeatureStats F)
    : F * FeatureStats F :=
  match out with
  | [] => (cur, st)
  | _ :: _ =>
      let v := last out cur in
      (v, update_feature_stats st v)
  end.

Definition feature_stage (d : SyllableDetector F) (in_sample : F)
    : SyllableDetector F :=
  let m := dsp d in
  let ft := features d in
  let '(sf', cur_sf, st_sf) :=
    match spectral_flux m with
    | Some s =>
        let '(s1, out) := spectral_flux_process s in_sample in
        let '(c, st) := framed_update out (current_spectral_flux ft)
                          (stats_spectral_flux ft) in
        (Some s1, c, st)
    | None => (None, current_spectral_flux ft, stats_spectral_flux ft)
    end in
  let '(hf', cur_hf, st_hf) :=
    match high_freq_energy m with
    | Some h =>
        let '(h1, e) := hfe_process h in_sample in
        (Some h1, e, update_feature_stats (stats_high_freq ft) e)
    | None => (None, current_high_freq_energy ft, stats_high_freq ft)
    end in
  let '(mf', cur_mf, st_mf) :=
    match mfcc m with
    | Some s =>
        let '(s1, out) := mfcc_process s in_sample in
        let '(c, st) := framed_update out (current_mfcc_delta ft)
                          (stats_mfcc_delta ft) in
        (Some s1, c, st)
    | None => (None, current_mfcc_delta ft, stats_mfcc_delta ft)
    end in
  let '(wv', cur_wv, st_wv) :=
    match wavelet m with
    | Some w =>
        let '(w1, s) := wavelet_process w in_sample in
        (Some w1, s, update_feature_stats (stats_wavelet ft) s)
    | None => (None, current_wavelet_score ft, stats_wavelet ft)
    end in
  set_features
    {| stats_peak_rate := stats_peak_rate ft;
       stats_spectral_flux := st_sf;
       stats_high_freq := st_hf;
       stats_mfcc_delta := st_mf;
       stats_wavelet := st_wv;
       current_spectral_flux := cur_sf;
       current_high_freq_energy := cur_hf;
       current_mfcc_delta := cur_mf;
       current_wavelet_score := cur_wv;
       current_fusion_score := current_fusion_score ft |}
    (set_dsp
       {| bp_filter := bp_filter m; env_follower := env_follower m;
          zff := zff m; spectral_flux := sf';
          high_freq_energy := hf'; mfcc := mf';
          wavelet := wv'; agc := agc m |} d).

(** ** Real-time calibration update *)
Definition calibration_stage (d : SyllableDetector F) : SyllableDetector F :=
  if realtime_mode (config d) && is_calibrating (rt_cal d)
  then update_rt_calibration d
  else d.

(** ** 4. Fusion score, its history, and the adaptive peak-rate statistics *)
Definition fsum (l : list F) : F := fold_left fadd l (lit 0).

Definition fusion_stage (d : SyllableDetector F) : SyllableDetector F :=
  let ft := features d in
  let fh := fusion_hist d in
  let en := energy_st d in
  let score := compute_fusion_score d in
  let hist := zset (fusion_history fh) (fusion_history_idx fh) score in
  let idx := Z.rem (fusion_history_idx fh + 1) FUSION_HISTORY_SIZE in
  let cnt :=
    if (fusion_history_count fh <? FUSION_HISTORY_SIZE)%Z
    then (fusion_history_count fh + 1)%Z else fusion_history_count fh in
  let '(med, mad) :=
    if (total_samples d mod 16 =? 0)%Z && (cnt >=? 8)%Z then
      let used := firstn (Z.to_nat cnt) hist in
      let avg := fsum used / itof cnt in
      let sum_abs_dev :=
        fold_left
          (fun acc h =>
             let dev := h - avg in
             acc + (if dev >? lit 0 then dev else - dev))
          used (lit 0) in
      (avg, sum_abs_dev / itof cnt)
    else (fusion_median fh, fusion_mad fh) in
  let peak_rate := current_peak_rate en in
  let '(amean, avar) :=
    if adaptive_enabled en && is_voiced (voicing d) then
      let delta := peak_rate - adaptive_mean en in
      (adaptive_mean en + adaptive_alpha en * delta,
       (lit 1 - adaptive_alpha en)
       * (adaptive_var en + adaptive_alpha en * delta * delta))
    else (adaptive_mean en, adaptive_var en) in
  set_energy_st
    {| prev_env := prev_env en;
       current_peak_rate := current_peak_rate en;
       peak_rate_accum := peak_rate_accum en;
       current_energy := current_energy en;
       energy_floor := energy_floor en;
       prev_sample := prev_sample en;
       prev_prev_sample := prev_prev_sample en;
       current_teo := current_teo en;
       teo_mean := teo_mean en;
       teo_var := teo_var en;
       short_energy := short_energy en;
       long_energy := long_energy en;
       current_ler := current_ler en;
       adaptive_enabled := adaptive_enabled en;
       adaptive_mean := amean;
       adaptive_var := avar;
       adaptive_alpha := adaptive_alpha en |}
    (set_fusion_hist
       {| fusion_history := hist;
          fusion_history_idx := idx;
          fusion_history_count := cnt;
          fusion_median := med;
          fusion_mad := mad |}
       (set_features
          {| stats_peak_rate := stats_peak_rate ft;
             stats_spectral_flux := stats_spectral_flux ft;
             stats_high_freq := stats_high_freq ft;
             stats_mfcc_delta := stats_mfcc_delta ft;
             stats_wavelet := stats_wavelet ft;
             current_spectral_flux := current_spectral_flux ft;
             current_high_freq_energy := current_high_freq_energy ft;
             current_mfcc_delta := current_mfcc_delta ft;
             current_wavelet_score := current_wavelet_score ft;
             current_fusion_score := score |} d)).

(** Steps 0-4 for one input sample. *)
Definition front_end (d : SyllableDetector F) (x : F) : SyllableDetector F :=
  let '(d, in_sample) := agc_stage d x in
  let d := voicing_stage d in_sample in
  let d := energy_stage d in_sample in
  let d := feature_stage d in_sample in
  let d := calibration_stage d in
  fusion_stage d.
End Process.

(* ------------------------------------------------------------------ *)
(** * [syllable_process]: state machine and delayed emission *)

Section Machine.
Context {F : Type} {FO : FloatOps F} {X : Extractors F}.
Local Open Scope flt_scope.

Definition min_dist_samples (cfg : SyllableConfig F) : Z :=
  ftoi (min_syllable_dist_ms cfg * lit 0.001 * itof (sample_rate cfg)).

(** The peak-rate threshold after the adaptive update. *)
Definition peak_rate_threshold (d : SyllableDetector F) : F :=
  let en := energy_st d in
  let threshold := threshold_peak_rate (config d) in
  if adaptive_enabled en then
    let std := if adaptive_var en >? lit 0 then sqrtf (adaptive_var en)
               else lit 0 in
    let adaptive := adaptive_mean en + adaptive_peak_rate_k (config d) * std in
    if adaptive >? threshold then adaptive else threshold
  else threshold.

(** ** STATE_IDLE: the onset decision *)
Definition onset_decision (d : SyllableDetector F) : bool :=
  let cfg := config d in
  let en := energy_st d in
  let ft := features d in
  let v := voicing d in
  let mc := machine d in
  let peak_rate := current_peak_rate en in
  let threshold_on := peak_rate_threshold d * hysteresis_on_factor cfg in
  let fusion_threshold_on := lit 0.6 * hysteresis_on_factor cfg in
  let voiced_trigger := (peak_rate >? threshold_on) && is_voiced v in
  let fusion_trigger := current_fusion_score ft >? fusion_threshold_on in
  let unvoiced_trigger :=
    if allow_unvoiced_onsets cfg && negb (is_voiced v) then
      let sf_norm :=
        if present (spectral_flux (dsp d))
        then normalize_feature (stats_spectral_flux ft)
               (current_spectral_flux ft)
        else lit 0 in
      let hf_norm :=
        if present (high_freq_energy (dsp d))
        then normalize_feature (stats_high_freq ft)
               (current_high_freq_energy ft)
        else lit 0 in
      (sf_norm >? unvoiced_onset_threshold cfg)
      || (hf_norm >? unvoiced_onset_threshold cfg)
    else false in
  let f0_condition := f0_has_risen v in
  let teo_std := if teo_var en >? lit 0 then sqrtf (teo_var en)
                 else lit 1e-6 in
  let teo_normalized :=
    (current_teo en - teo_mean en) / (teo_std + lit 1e-6) in
  let teo_strong := teo_normalized >? lit 3 in
  let ler_strong := current_ler en >? lit 2 in
  let flatness_weber :=
    match spectral_flux (dsp d) with
    | Some s => spectral_flux_get_flatness_weber s
    | None => lit 0
    end in
  let harmonicity_strong := flatness_weber <? lit (-0.3) in
  let strong_evidence :=
    (current_fusion_score ft >? lit 0.85) || teo_strong || ler_strong
    || harmonicity_strong in
  let time_since_last :=
    u64_to_int (u64_sub (total_samples d) (last_event_samples mc)) in
  let enough_time_passed :=
    (time_since_last >? min_dist_samples cfg * 2)%Z in
  let f0_allows_new_onset :=
    if realtime_mode cfg then true
    else f0_condition || strong_evidence || enough_time_passed in
  let energy_gate_passed :=
    if realtime_mode cfg && negb (is_calibrating (rt_cal d)) then
      let energy_threshold := zget (thresh (rt_cal d)) 0 (lit 0) * lit 3 in
      let min_absolute_energy := lit 0.001 in
      (current_energy en >? energy_threshold)
      && (current_energy en >? min_absolute_energy)
    else true in
  (voiced_trigger
   || (fusion_trigger && (allow_unvoiced_onsets cfg || is_voiced v))
   || unvoiced_trigger)
  && f0_allows_new_onset && energy_gate_passed.

Definition idle_step (d : SyllableDetector F) : SyllableDetector F :=
  if onset_decision d then
    let en := energy_st d in
    let ft := features d in
    let v := voicing d in
    let mc := machine d in
    let peak_rate := current_peak_rate en in
    let env_out := current_energy en in
    let ty := determine_onset_type d in
    set_voicing
      {| last_zff_val := last_zff_val v;
         last_zff_slope := last_zff_slope v;
         last_epoch_samples_ago := last_epoch_samples_ago v;
         current_f0 := current_f0 v;
         smoothed_f0 := smoothed_f0 v;
         prev_smoothed_f0 := prev_smoothed_f0 v;
         f0_derivative := f0_derivative v;
         min_f0_since_peak := smoothed_f0 v;
         f0_has_risen := false;
         f0_jump_counter := f0_jump_counter v;
         f0_baseline := f0_baseline v;
         f0_baseline_alpha := f0_baseline_alpha v;
         f0_semitone_diff := f0_semitone_diff v;
         voicing_counter := voicing_counter v;
         unvoiced_counter := unvoiced_counter v;
         is_voiced := is_voiced v;
         voiced_hold_samples := voiced_hold_samples v |}
      (set_machine
         {| state := STATE_ONSET_RISING;
            state_timer := 0;
            max_onset_rising_samples := max_onset_rising_samples mc;
            wip_event :=
              {| Ev.timestamp_samples := total_samples d;
                 Ev.time_seconds :=
                   itof (total_samples d) / itof (sample_rate (config d));
                 Ev.peak_rate := peak_rate;
                 Ev.pr_slope := lit 0;
                 Ev.energy := env_out;
                 Ev.f0 := current_f0 v;
                 Ev.delta_f0 := lit 0;
                 Ev.duration_s := lit 0;
                 Ev.spectral_flux := current_spectral_flux ft;
                 Ev.high_freq_energy := current_high_freq_energy ft;
                 Ev.mfcc_delta := current_mfcc_delta ft;
                 Ev.wavelet_score := current_wavelet_score ft;
                 Ev.fusion_score := current_fusion_score ft;
                 Ev.onset_type := ty;
                 Ev.prominence_score := lit 0;
                 Ev.is_accented := false |};
            max_peak_rate_in_syllable := peak_rate;
            max_fusion_score_in_syllable := current_fusion_score ft;
            energy_accum := env_out;
            onset_timestamp := total_samples d;
            last_event_samples := last_event_samples mc;
            peak_sample_offset := 0;
            current_onset_type := ty |} d)
  else d.

(** ** STATE_ONSET_RISING *)
Definition keep_max (cur : F) (setter : F -> SyllableEvent F -> SyllableEvent F)
    (get : SyllableEvent F -> F) (e : SyllableEvent F) : SyllableEvent F :=
  if cur >? get e then setter cur e else e.

Definition onset_rising_step (d : SyllableDetector F) : SyllableDetector F :=
  let en := energy_st d in
  let ft := features d in
  let mc := machine d in
  let peak_rate := current_peak_rate en in
  let env_out := current_energy en in
  let timer := (state_timer mc + 1)%Z in
  let new_pr_max := peak_rate >? max_peak_rate_in_syllable mc in
  let max_pr := if new_pr_max then peak_rate
                else max_peak_rate_in_syllable mc in
  let offset := if new_pr_max then timer else peak_sample_offset mc in
  let w := if new_pr_max then with_peak_rate peak_rate (wip_event mc)
           else wip_event mc in
  let new_fu_max :=
    current_fusion_score ft >? max_fusion_score_in_syllable mc in
  let max_fu := if new_fu_max then current_fusion_score ft
                else max_fusion_score_in_syllable mc in
  let w := if new_fu_max then with_fusion_score (current_fusion_score ft) w
           else w in
  let w := keep_max (current_spectral_flux ft) (@with_spectral_flux F)
             (@Ev.spectral_flux F) w in
  let w := keep_max (current_high_freq_energy ft) (@with_high_freq_energy F)
             (@Ev.high_freq_energy F) w in
  let w := keep_max (current_mfcc_delta ft) (@with_mfcc_delta F)
             (@Ev.mfcc_delta F) w in
  let w := keep_max (current_wavelet_score ft) (@with_wavelet_score F)
             (@Ev.wavelet_score F) w in
  let pr_dropping := peak_rate <? max_pr * lit 0.5 in
  let fusion_dropping := current_fusion_score ft <? max_fu * lit 0.6 in
  let time_limit_reached := (timer >? max_onset_rising_samples mc)%Z in
  let to_nucleus := pr_dropping || fusion_dropping || time_limit_reached in
  let w :=
    if to_nucleus then
      let rise_time_s :=
        itof (offset + 1) / itof (sample_rate (config d)) in
      with_pr_slope (max_pr / (rise_time_s + lit 0.0001)) w
    else w in
  let st := if to_nucleus then STATE_NUCLEUS else STATE_ONSET_RISING in
  let st :=
    if negb (is_voiced (voicing d))
       && onset_type_eqb (current_onset_type mc) ONSET_TYPE_VOICED
    then STATE_COOLDOWN else st in
  set_machine
    {| state := st;
       state_timer := timer;
       max_onset_rising_samples := max_onset_rising_samples mc;
       wip_event := w;
       max_peak_rate_in_syllable := max_pr;
       max_fusion_score_in_syllable := max_fu;
       energy_accum := energy_accum mc + env_out;
       onset_timestamp := onset_timestamp mc;
       last_event_samples := last_event_samples mc;
       peak_sample_offset := offset;
       current_onset_type := current_onset_type mc |} d.

(** ** STATE_NUCLEUS *)

(** Push to the ring buffer; when it is full the oldest slot is overwritten
    and the read index advances. *)
Definition push_event (e : SyllableEvent F) (r : RingBuffer F)
    : RingBuffer F :=
  let b := zset (event_buffer r) (buf_write_idx r)
             {| event := e; is_ready := true |} in
  let w := Z.rem (buf_write_idx r + 1) PROMINENCE_BUFFER_SIZE in
  if (buf_count r <? PROMINENCE_BUFFER_SIZE)%Z then
    {| event_buffer := b; buf_write_idx := w;
       buf_read_idx := buf_read_idx r;
       buf_count := (buf_count r + 1)%Z |}
  else
    {| event_buffer := b; buf_write_idx := w;
       buf_read_idx := Z.rem (buf_read_idx r + 1) PROMINENCE_BUFFER_SIZE;
       buf_count := buf_count r |}.

Definition nucleus_end (d : SyllableDetector F) : bool :=
  let cfg := config d in
  let en := energy_st d in
  let ft := features d in
  let mc := machine d in
  let env_out := current_energy en in
  let timer := (state_timer mc + 1)%Z in
  let fusion_threshold_off := lit 0.4 * hysteresis_off_factor cfg in
  let energy_low :=
    if realtime_mode cfg then
      let peak_energy :=
        if Ev.energy (wip_event mc) >? lit 0 then Ev.energy (wip_event mc)
        else max_fusion_score_in_syllable mc in
      current_energy en <? peak_energy * lit 0.2
    else env_out <? Ev.peak_rate (wip_event mc) * lit 0.1 in
  let voicing_lost :=
    negb (is_voiced (voicing d))
    && onset_type_eqb (current_onset_type mc) ONSET_TYPE_VOICED in
  let fusion_low := current_fusion_score ft <? fusion_threshold_off in
  let max_nucleus_samples := ftoi (lit 0.1 * itof (sample_rate cfg)) in
  let nucleus_timeout := (timer >? max_nucleus_samples)%Z in
  energy_low || voicing_lost || fusion_low || nucleus_timeout.

Definition nucleus_step (d : SyllableDetector F) : SyllableDetector F :=
  let mc := machine d in
  let env_out := current_energy (energy_st d) in
  let timer := (state_timer mc + 1)%Z in
  let accum := energy_accum mc + env_out in
  if nucleus_end d then
    let w :=
      with_final
        (itof (u64_sub (total_samples d) (onset_timestamp mc))
         / itof (sample_rate (config d)))
        accum (current_f0 (voicing d)) (wip_event mc) in
    set_ring (push_event w (ring d))
      (set_machine
         {| state := STATE_COOLDOWN;
            state_timer := timer;
            max_onset_rising_samples := max_onset_rising_samples mc;
            wip_event := w;
            max_peak_rate_in_syllable := max_peak_rate_in_syllable mc;
            max_fusion_score_in_syllable := max_fusion_score_in_syllable mc;
            energy_accum := accum;
            onset_timestamp := onset_timestamp mc;
            last_event_samples := total_samples d;
            peak_sample_offset := peak_sample_offset mc;
            current_onset_type := current_onset_type mc |} d)
  else
    set_machine
      {| state := STATE_NUCLEUS;
         state_timer := timer;
         max_onset_rising_samples := max_onset_rising_samples mc;
         wip_event := wip_event mc;
         max_peak_rate_in_syllable := max_peak_rate_in_syllable mc;
         max_fusion_score_in_syllable := max_fusion_score_in_syllable mc;
         energy_accum := accum;
         onset_timestamp := onset_timestamp mc;
         last_event_samples := last_event_samples mc;
         peak_sample_offset := peak_sample_offset mc;
         current_onset_type := current_onset_type mc |} d.

(** ** STATE_COOLDOWN *)
Definition cooldown_step (d : SyllableDetector F) : SyllableDetector F :=
  let mc := machine d in
  let timer := (state_timer mc + 1)%Z in
  set_machine
    {| state := if (timer >? min_dist_samples (config d))%Z
                then STATE_IDLE else STATE_COOLDOWN;
       state_timer := timer;
       max_onset_rising_samples := max_onset_rising_samples mc;
       wip_event := wip_event mc;
       max_peak_rate_in_syllable := max_peak_rate_in_syllable mc;
       max_fusion_score_in_syllable := max_fusion_score_in_syllable mc;
       energy_accum := energy_accum mc;
       onset_timestamp := onset_timestamp mc;
       last_event_samples := last_event_samples mc;
       peak_sample_offset := peak_sample_offset mc;
       current_onset_type := current_onset_type mc |} d.

Definition machine_step (d : SyllableDetector F) : SyllableDetector F :=
  match state (machine d) with
  | STATE_IDLE => idle_step d
  | STATE_ONSET_RISING => onset_rising_step d
  | STATE_NUCLEUS => nucleus_step d
  | STATE_COOLDOWN => cooldown_step d
  end.

(** ** 6. Delayed emission *)

(** Body of the emission loops of [syllable_process] and [syllable_flush]:
    score the slot at the read index, copy it out and release it.
    [accent] is the comparison that sets [is_accented]. *)
Definition emit_oldest (accent : F -> bool) (d : SyllableDetector F)
    : SyllableDetector F * SyllableEvent F :=
  let r := ring d in
  let n := context_size (config d) in
  let b := calculate_delta_f0 n (event_buffer r) (buf_read_idx r) in
  let score := calculate_prominence n b (buf_read_idx r) in
  let evt := with_prominence score (accent score)
               (event (slot b (buf_read_idx r))) in
  let b := zset b (buf_read_idx r) {| event := evt; is_ready := false |} in
  (set_ring
     {| event_buffer := b;
        buf_write_idx := buf_write_idx r;
        buf_read_idx := Z.rem (buf_read_idx r + 1) PROMINENCE_BUFFER_SIZE;
        buf_count := (buf_count r - 1)%Z |} d,
   evt).

(** [while (buf_count > context_needed && events_written < max_events)];
    [room] is [max_events - events_written]. *)
Fixpoint emit_loop (room : nat) (accent : F -> bool) (context_needed : Z)
    (d : SyllableDetector F) : SyllableDetector F * list (SyllableEvent F) :=
  match room with
  | O => (d, [])
  | S k =>
      if (buf_count (ring d) >? context_needed)%Z then
        let '(d1, e) := emit_oldest accent d in
        let '(d2, es) := emit_loop k accent context_needed d1 in
        (d2, e :: es)
      else (d, [])
  end.

Definition process_accent (score : F) : bool := score >? lit 0.9.
Definition flush_accent (score : F) : bool := score >? lit 1.2.

Definition context_needed (cfg : SyllableConfig F) : Z :=
  if realtime_mode cfg then 0%Z else context_size cfg.

(** One iteration of the sample loop; [room] is the free output capacity. *)
Definition process_sample (d : SyllableDetector F) (x : F) (room : nat)
    : SyllableDetector F * list (SyllableEvent F) :=
  let d := front_end d x in
  if realtime_mode (config d) && is_calibrating (rt_cal d)
  then (d, [])
  else
    let d := machine_step d in
    emit_loop room process_accent (context_needed (config d)) d.

(** [out] holds the events already written to [events_out]. *)
Fixpoint process_from (d : SyllableDetector F) (input : list F)
    (max_events : Z) (out : list (SyllableEvent F))
    : SyllableDetector F * list (SyllableEvent F) :=
  match input with
  | [] => (d, out)
  | x :: rest =>
      let room := Z.to_nat (max_events - Z.of_nat (length out)) in
      let '(d1, es) := process_sample d x room in
      process_from d1 rest max_events (out ++ es)
  end.

(** Returns the detector and the events written; the C return value is
    the length of that list. *)
Definition syllable_process (d : SyllableDetector F) (input : list F)
    (max_events : Z) : SyllableDetector F * list (SyllableEvent F) :=
  process_from d input max_events [].

Definition syllable_flush (d : SyllableDetector F) (max_events : Z)
    : SyllableDetector F * list (SyllableEvent F) :=
  emit_loop (Z.to_nat max_events) flush_accent 0 d.

(** ** Real-time mode API *)

Definition with_realtime_mode (b : bool) (c : SyllableConfig F)
    : SyllableConfig F :=
  {| sample_rate := sample_rate c;
     zff_trend_window_ms := zff_trend_window_ms c;
     peak_rate_band_min := peak_rate_band_min c;
     peak_rate_band_max := peak_rate_band_max c;
     min_syllable_dist_ms := min_syllable_dist_ms c;
     threshold_peak_rate := threshold_peak_rate c;
     adaptive_peak_rate_k := adaptive_peak_rate_k c;
     adaptive_peak_rate_tau_ms := adaptive_peak_rate_tau_ms c;
     voiced_hold_ms := voiced_hold_ms c;
     hysteresis_on_factor := hysteresis_on_factor c;
     hysteresis_off_factor := hysteresis_off_factor c;
     context_size := context_size c;
     enable_spectral_flux := enable_spectral_flux c;
     enable_high_freq_energy := enable_high_freq_energy c;
     enable_mfcc_delta := enable_mfcc_delta c;
     enable_wavelet := enable_wavelet c;
     fft_size_ms := fft_size_ms c;
     hop_size_ms := hop_size_ms c;
     high_freq_cutoff_hz := high_freq_cutoff_hz c;
     weight_peak_rate := weight_peak_rate c;
     weight_spectral_flux := weight_spectral_flux c;
     weight_high_freq := weight_high_freq c;
     weight_mfcc_delta := weight_mfcc_delta c;
     weight_wavelet := weight_wavelet c;
     weight_voiced_bonus := weight_voiced_bonus c;
     fusion_blend_alpha := fusion_blend_alpha c;
     unvoiced_onset_threshold := unvoiced_onset_threshold c;
     allow_unvoiced_onsets := allow_unvoiced_onsets c;
     enable_agc := enable_agc c;
     realtime_mode := b;
     calibration_duration_ms := calibration_duration_ms c;
     snr_threshold_db := snr_threshold_db c |}.

Definition with_snr_threshold_db (x : F) (c : SyllableConfig F)
    : SyllableConfig F :=
  {| sample_rate := sample_rate c;
     zff_trend_window_ms := zff_trend_window_ms c;
     peak_rate_band_min := peak_rate_band_min c;
     peak_rate_band_max := peak_rate_band_max c;
     min_syllable_dist_ms := min_syllable_dist_ms c;
     threshold_peak_rate := threshold_peak_rate c;
     adaptive_peak_rate_k := adaptive_peak_rate_k c;
     adaptive_peak_rate_tau_ms := adaptive_peak_rate_tau_ms c;
     voiced_hold_ms := voiced_hold_ms c;
     hysteresis_on_factor := hysteresis_on_factor c;
     hysteresis_off_factor := hysteresis_off_factor c;
     context_size := context_size c;
     enable_spectral_flux := enable_spectral_flux c;
     enable_high_freq_energy := enable_high_freq_energy c;
     enable_mfcc_delta := enable_mfcc_delta c;
     enable_wavelet := enable_wavelet c;
     fft_size_ms := fft_size_ms c;
     hop_size_ms := hop_size_ms c;
     high_freq_cutoff_hz := high_freq_cutoff_hz c;
     weight_peak_rate := weight_peak_rate c;
     weight_spectral_flux := weight_spectral_flux c;
     weight_high_freq := weight_high_freq c;
     weight_mfcc_delta := weight_mfcc_delta c;
     weight_wavelet := weight_wavelet c;
     weight_voiced_bonus := weight_voiced_bonus c;
     fusion_blend_alpha := fusion_blend_alpha c;
     unvoiced_onset_threshold := unvoiced_onset_threshold c;
     allow_unvoiced_onsets := allow_unvoiced_onsets c;
     enable_agc := enable_agc c;
     realtime_mode := realtime_mode c;
     calibration_duration_ms := calibration_duration_ms c;
     snr_threshold_db := x |}.

(** The calibration state written by [syllable_set_realtime_mode] and
    [syllable_recalibrate]. *)
Definition fresh_calibration (cfg : SyllableConfig F)
    : RealtimeCalibration F :=
  {| is_calibrating := true;
     cal_sample_count := 0;
     target_samples :=
       ftoi (calibration_duration_ms cfg * lit 0.001
             * itof (sample_rate cfg));
     buf := buf zero_rt_cal;
     buf_idx := 0;
     gamma := lit 0;
     thresh := thresh zero_rt_cal |}.

Definition syllable_set_realtime_mode (d : SyllableDetector F) (enable : bool)
    : SyllableDetector F :=
  let d := set_config (with_realtime_mode enable (config d)) d in
  if enable then set_rt_cal (fresh_calibration (config d)) d else d.

Definition syllable_recalibrate (d : SyllableDetector F)
    : SyllableDetector F :=
  let d :=
    if negb (realtime_mode (config d))
    then set_config (with_realtime_mode true (config d)) d else d in
  set_rt_cal (fresh_calibration (config d)) d.

Definition syllable_is_calibrating (d : SyllableDetector F) : bool :=
  is_calibrating (rt_cal d).

Definition syllable_set_snr_threshold (d : SyllableDetector F) (snr_db : F)
    : SyllableDetector F :=
  let d := set_config (with_snr_threshold_db snr_db (config d)) d in
  let cal := rt_cal d in
  if negb (is_calibrating cal) && realtime_mode (config d) then
    set_rt_cal
      {| is_calibrating := is_calibrating cal;
         cal_sample_count := cal_sample_count cal;
         target_samples := target_samples cal;
         buf := buf cal;
         buf_idx := buf_idx cal;
         gamma := powf (lit 10) (snr_db / lit 10);
         thresh := thresh cal |} d
  else d.
End Machine.

(* ------------------------------------------------------------------ *)
(** * Exact arithmetic: the instance of the real numbers *)

Definition Rltb (a b : R) : bool := if Rlt_dec a b then true else false.
Definition Rleb (a b : R) : bool := if Rle_dec a b then true else false.

(** Truncation toward zero. *)
Definition Rtrunc (x : R) : Z :=
  if Rle_dec 0 x then Int_part x else (- Int_part (- x))%Z.

#[export] Instance RFloat : FloatOps R := {
  lit := Q2R;
  fadd := Rplus;
  fsub := Rminus;
  fmul := Rmult;
  fdiv := Rdiv;
  fneg := Ropp;
  fltb := Rltb;
  fleb := Rleb;
  fabsf := Rabs;
  sqrtf := sqrt;
  expf := exp;
  logf := ln;
  log2f := fun x => (ln x / ln 2)%R;
  powf := Rpower;
  fminf := Rmin;
  sinf := sin;
  cosf := cos;
  tanf := tan;
  itof := IZR;
  ftoi := Rtrunc
}.

(** A build without the framed extractors: every [*_create] returns NULL,
    so the corresponding handles of the detector stay absent. *)
Definition NoExtractors (F : Type) {FO : FloatOps F} : Extractors F := {|
  SpectralFlux := unit;
  spectral_flux_create := fun _ _ _ => None;
  spectral_flux_reset := fun s => s;
  spectral_flux_process := fun s _ => (s, []);
  spectral_flux_get_flatness_weber := fun _ => lit 0;
  MFCC := unit;
  mfcc_create := fun _ _ _ => None;
  mfcc_reset := fun s => s;
  mfcc_process := fun s _ => (s, []);
  WaveletDetector := unit;
  wavelet_create := fun _ _ _ _ => None;
  wavelet_reset := fun s => s;
  wavelet_process := fun s _ => (s, lit 0)
|}.
Arguments NoExtractors F {FO}.

(* ------------------------------------------------------------------ *)
(** * Vocabulary of the specifications *)

Section SpecVocabulary.
Context {F : Type} {FO : FloatOps F} {X : Extractors F}.

(** A caller drives one detector with a sequence of [syllable_process] and
    [syllable_flush] calls. *)
Inductive Call : Type :=
  | Process (input : list F) (max_events : Z)
  | Flush (max_events : Z).

Definition call (d : SyllableDetector F) (c : Call)
    : SyllableDetector F * list (SyllableEvent F) :=
  match c with
  | Process input max_events => syllable_process d input max_events
  | Flush max_events => syllable_flush d max_events
  end.

(** The detector after the calls and all events written, in order. *)
Fixpoint run (d : SyllableDetector F) (calls : list Call)
    : SyllableDetector F * list (SyllableEvent F) :=
  match calls with
  | [] => (d, [])
  | c :: rest =>
      let '(d1, es) := call d c in
      let '(d2, es') := run d1 rest in
      (d2, es ++ es')
  end.

(** Number of input samples consumed by a sequence of calls. *)
Fixpoint samples_in (calls : list Call) : Z :=
  match calls with
  | [] => 0
  | Process input _ :: rest => Z.of_nat (length input) + samples_in rest
  | Flush _ :: rest => samples_in rest
  end.

(** The detector [d] with other values in [config.snr_threshold_db] and
    [rt_cal.gamma]. *)
Definition retune (snr g : F) (d : SyllableDetector F) : SyllableDetector F :=
  let cal := rt_cal d in
  set_rt_cal
    {| is_calibrating := is_calibrating cal;
       cal_sample_count := cal_sample_count cal;
       target_samples := target_samples cal;
       buf := buf cal;
       buf_idx := buf_idx cal;
       gamma := g;
       thresh := thresh cal |}
    (set_config (with_snr_threshold_db snr (config d)) d).

(** ** The ring buffer as a queue *)

Definition ring_wf (r : RingBuffer F) : Prop :=
  length (event_buffer r) = Z.to_nat PROMINENCE_BUFFER_SIZE
  /\ (0 <= buf_read_idx r < PROMINENCE_BUFFER_SIZE)%Z
  /\ (0 <= buf_count r <= PROMINENCE_BUFFER_SIZE)%Z
  /\ buf_write_idx r
     = ((buf_read_idx r + buf_count r) mod PROMINENCE_BUFFER_SIZE)%Z.

(** The event stored [i] places after the read index. *)
Definition queued (r : RingBuffer F) (i : Z) : SyllableEvent F :=
  event (slot (event_buffer r)
              (Z.rem (buf_read_idx r + i) PROMINENCE_BUFFER_SIZE)).

(** The pending events, oldest first. *)
Definition pending (r : RingBuffer F) : list (SyllableEvent F) :=
  map (queued r) (zrange 0 (Z.to_nat (buf_count r))).

Definition stamps (l : list (SyllableEvent F)) : list Z :=
  map (@Ev.timestamp_samples F) l.

(** Consecutive elements of [l] are at least [gap] apart. *)
Fixpoint spaced (gap : Z) (l : list Z) : Prop :=
  match l with
  | a :: (b :: _) as t => (a + gap <= b)%Z /\ spaced gap t
  | _ => True
  end.

(** The bound relating the timestamps [l] seen so far (written or still
    pending) to the state machine at sample count [n]: [gap] is the
    separation to establish. *)
Definition timing_ok (gap : Z) (mc : MachineState F) (n : Z) (l : list Z)
    : Prop :=
  match state mc with
  | STATE_IDLE => Forall (fun t => t + gap <= n)%Z l
  | STATE_ONSET_RISING | STATE_NUCLEUS =>
      Forall (fun t => t + gap <= Ev.timestamp_samples (wip_event mc))%Z l
      /\ (Ev.timestamp_samples (wip_event mc) + state_timer mc <= n)%Z
      /\ (0 <= state_timer mc)%Z
  | STATE_COOLDOWN =>
      Forall (fun t => t + state_timer mc <= n)%Z l
      /\ (1 <= state_timer mc)%Z
  end.

(** The separation proved for consecutive timestamps: the configured
    minimum distance in samples, and at least one sample. *)
Definition min_gap (cfg : SyllableConfig F) : Z :=
  Z.max (min_dist_samples cfg) 1.

(** Invariant of a run: [written] are the timestamps written so far. *)
Definition timestamps_inv (d : SyllableDetector F) (written : list Z)
    : Prop :=
  let l := written ++ stamps (pending (ring d)) in
  ring_wf (ring d)
  /\ spaced (min_gap (config d)) l
  /\ timing_ok (min_gap (config d)) (machine d) (total_samples d) l
  /\ (0 <= total_samples d)%Z.

(** A detector as the caller obtains it: constructed, and optionally
    switched to or from realtime mode before the first sample. *)
Definition fresh_detector (cfg : SyllableConfig F) (rt : option bool)
    : SyllableDetector F :=
  match rt with
  | None => syllable_create cfg
  | Some b => syllable_set_realtime_mode (syllable_create cfg) b
  end.
End SpecVocabulary.
Arguments Call F : clear implicits.

(* ------------------------------------------------------------------ *)
(** * Specification-side notions over the reals *)

Section RealSpecs.
Local Open Scope R_scope.

Definition Rsum (l : list R) : R := fold_right Rplus 0 l.

Definition dot (ws xs : list R) : R :=
  Rsum (map (fun p => fst p * snd p) (combine ws xs)).

(** The coefficients that [compute_fusion_score] applies to the normalized
    peak rate, spectral flux, high-frequency energy, MFCC delta, wavelet
    score and voiced bonus, in this order, read off its accumulation of
    [weighted_avg] and [w_total]. *)
Definition effective_weights {X : Extractors R} (cfg : SyllableConfig R)
    (has_sf has_hf has_mfcc has_wav : bool) : list R :=
  let w_total := fusion_weight_total cfg has_sf has_hf has_mfcc has_wav in
  let raw :=
    [ weight_peak_rate cfg;
      if has_sf then weight_spectral_flux cfg else 0;
      if has_hf then weight_high_freq cfg else 0;
      if has_mfcc then weight_mfcc_delta cfg else 0;
      if has_wav then weight_wavelet cfg else 0;
      weight_voiced_bonus cfg ] in
  if Rltb 0 w_total then map (fun w => w / w_total) raw else raw.

(** A configuration whose fusion weights are all zero. *)
Definition zero_weight_config : SyllableConfig R :=
  {| sample_rate := 16000;
     zff_trend_window_ms := 10;
     peak_rate_band_min := 500;
     peak_rate_band_max := 3200;
     min_syllable_dist_ms := 150;
     threshold_peak_rate := 0.0003;
     adaptive_peak_rate_k := 4;
     adaptive_peak_rate_tau_ms := 500;
     voiced_hold_ms := 30;
     hysteresis_on_factor := 1.2;
     hysteresis_off_factor := 0.8;
     context_size := 2;
     enable_spectral_flux := true;
     enable_high_freq_energy := true;
     enable_mfcc_delta := true;
     enable_wavelet := true;
     fft_size_ms := 32;
     hop_size_ms := 16;
     high_freq_cutoff_hz := 2000;
     weight_peak_rate := 0;
     weight_spectral_flux := 0;
     weight_high_freq := 0;
     weight_mfcc_delta := 0;
     weight_wavelet := 0;
     weight_voiced_bonus := 0;
     fusion_blend_alpha := 0.6;
     unvoiced_onset_threshold := 0.5;
     allow_unvoiced_onsets := true;
     enable_agc := true;
     realtime_mode := false;
     calibration_duration_ms := 2000;
     snr_threshold_db := 6 |}.






(** Spec (calibration): mean and population standard deviation of the
    buffered frames of one feature. *)
Definition spec_mean (l : list R) : R := Rsum l / INR (length l).

Definition spec_std (l : list R) : R :=
  sqrt (Rsum (map (fun x => (x - spec_mean l) * (x - spec_mean l)) l)
        / INR (length l)).

(** The first [n] frames of feature [k] in the calibration buffer. *)
Definition cal_frames {X : Extractors R} (d : SyllableDetector R) (k n : Z)
    : list R :=
  map (fun i => zget (zget (buf (rt_cal d)) k []) i 0)
      (zrange 0 (Z.to_nat n)).

(** Number of frames used by [finalize_rt_calibration]. *)
Definition cal_frame_count {X : Extractors R} (d : SyllableDetector R) : Z :=
  Z.min (buf_idx (rt_cal d)) RT_BUF_SIZE.

(** Concrete detectors used to exercise the theorems: the default
    configuration at 16 kHz in a build without the framed extractors. *)
Definition demo_config : SyllableConfig R := syllable_default_config 16000.

Definition demo_detector : SyllableDetector R (X := NoExtractors R) :=
  syllable_create demo_config.

(** Realtime mode switched on: calibration has just started. *)
Definition demo_calibrating : SyllableDetector R (X := NoExtractors R) :=
  syllable_set_realtime_mode demo_detector true.

(** Calibration finalized. *)
Definition demo_calibrated : SyllableDetector R (X := NoExtractors R) :=
  finalize_rt_calibration demo_calibrating.

(** Twelve frames collected, then finalized by hand. *)
Definition demo_twelve_frames : SyllableDetector R (X := NoExtractors R) :=
  Nat.iter 12 store_frame demo_calibrating.

Definition demo_calls : list (Call R) :=
  [Process [0; 0; 0] 4; Flush 4].

(** A configuration on which reset and construction can be told apart
    with three samples: the defaults, but at 8 Hz with a 0.5-1.5 Hz band,
    a one-second voiced hold, no adaptive threshold, no trailing context,
    no optional extractor, no AGC and no unvoiced onsets. *)
Definition tiny_config : SyllableConfig R :=
  {| sample_rate := 8;
     zff_trend_window_ms := 10;
     peak_rate_band_min := 0.5;
     peak_rate_band_max := 1.5;
     min_syllable_dist_ms := 150;
     threshold_peak_rate := 0.0003;
     adaptive_peak_rate_k := 0;
     adaptive_peak_rate_tau_ms := 500;
     voiced_hold_ms := 1000;
     hysteresis_on_factor := 1.2;
     hysteresis_off_factor := 0.8;
     context_size := 0;
     enable_spectral_flux := false;
     enable_high_freq_energy := false;
     enable_mfcc_delta := false;
     enable_wavelet := false;
     fft_size_ms := 32;
     hop_size_ms := 16;
     high_freq_cutoff_hz := 2000;
     weight_peak_rate := 0.30;
     weight_spectral_flux := 0.25;
     weight_high_freq := 0.15;
     weight_mfcc_delta := 0.10;
     weight_wavelet := 0.20;
     weight_voiced_bonus := 0.10;
     fusion_blend_alpha := 0.6;
     unvoiced_onset_threshold := 0.5;
     allow_unvoiced_onsets := false;
     enable_agc := false;
     realtime_mode := false;
     calibration_duration_ms := 2000;
     snr_threshold_db := 6 |}.

(** Eight samples of silence, then a reset. *)
Definition silence8 : list R := [0; 0; 0; 0; 0; 0; 0; 0].

Definition tiny_fresh : SyllableDetector R (X := NoExtractors R) :=
  syllable_create tiny_config.

Definition tiny_after_reset : SyllableDetector R (X := NoExtractors R) :=
  syllable_reset (fst (syllable_process tiny_fresh silence8 4)).

Definition click : list R := [1; 0; 0].

(** With a trend window of one sample the ZFF output vanishes. *)
Definition zff_window_one (z : ZFF R) : Prop :=
  trend_buf_size z = 1%Z /\ trend_write_pos z = 0%Z
  /\ trend_buffer z = [trend_accum z].

(** No epoch can occur any more and [ago] samples have passed since the
    last one (or since construction). *)
Definition epochless {X : Extractors R} (d : SyllableDetector R) (ago : Z)
    : Prop :=
  config d = tiny_config
  /\ agc (dsp d) = None
  /\ zff_window_one (zff (dsp d))
  /\ last_zff_val (voicing d) = 0
  /\ last_epoch_samples_ago (voicing d) = ago
  /\ voiced_hold_samples (voicing d) = 8%Z
  /\ smoothed_f0 (voicing d) = 0.

(** What [epochless] speaks about is the same in [d] and [d']. *)
Definition same_voicing_front {X : Extractors R}
    (d d' : SyllableDetector R) : Prop :=
  config d' = config d /\ voicing d' = voicing d
  /\ zff (dsp d') = zff (dsp d) /\ agc (dsp d') = agc (dsp d).

(** Spec: the EMA coefficient of a time constant [tau] (seconds) at
    sample rate [fs]. *)
Definition spec_ema_alpha (tau fs : R) : R := 1 - exp (- (1 / (tau * fs))).
End RealSpecs.

From Stdlib Require Import Permutation Sorted.

(* ------------------------------------------------------------------ *)
(** * Further vocabulary *)

Section Streams.
Context {S A B : Type}.

(** A per-sample routine called on each element of a buffer in turn:
    the final state and the values returned, in order. *)
Fixpoint feed (step : S -> A -> S * B) (s : S) (xs : list A)
    : S * list B :=
  match xs with
  | [] => (s, [])
  | x :: rest =>
      let '(s1, y) := step s x in
      let '(s2, ys) := feed step s1 rest in
      (s2, y :: ys)
  end.
End Streams.

Section EventVocabulary.
Context {F : Type} {FO : FloatOps F}.

(** An event without the three fields that the emission loops fill in
    ([delta_f0], [prominence_score], [is_accented]). *)
Definition event_core (e : SyllableEvent F) : SyllableEvent F :=
  with_prominence (lit 0) false (with_delta_f0 (lit 0) e).
End EventVocabulary.

Section StampVocabulary.
Context {F : Type} {FO : FloatOps F} {X : Extractors F}.

(** Invariant of a run: the timestamps written so far ([written]), those
    still pending and the one of a syllable in progress are indices
    (counted from 1) of samples already consumed. *)
Definition stamps_in_range (d : SyllableDetector F) (written : list Z)
    : Prop :=
  ring_wf (ring d)
  /\ (0 <= total_samples d)%Z
  /\ Forall (fun t => 1 <= t <= total_samples d)%Z
            (written ++ stamps (pending (ring d)))
  /\ (state (machine d) = STATE_ONSET_RISING
      \/ state (machine d) = STATE_NUCLEUS ->
      (1 <= Ev.timestamp_samples (wip_event (machine d))
       <= total_samples d)%Z).
End StampVocabulary.

Section SilenceVocabulary.
Context {X : Extractors R}.
Local Open Scope R_scope.

(** Offline configurations for which digital silence is shown to be
    rejected: the voiced path alone can trigger, and its threshold and the
    hysteresis factor are not negative. *)
Definition rejects_silence (cfg : SyllableConfig R) : Prop :=
  realtime_mode cfg = false
  /\ allow_unvoiced_onsets cfg = false
  /\ (0 <= context_size cfg)%Z
  /\ 0 <= threshold_peak_rate cfg
  /\ 0 <= hysteresis_on_factor cfg.

(** The band-pass filter, the envelope follower and the adaptive threshold
    statistics are at rest, no syllable is in progress and no event is
    pending. *)
Definition at_rest (d : SyllableDetector R) : Prop :=
  x1 (bp_filter (dsp d)) = 0 /\ x2 (bp_filter (dsp d)) = 0
  /\ y1 (bp_filter (dsp d)) = 0 /\ y2 (bp_filter (dsp d)) = 0
  /\ output (env_follower (dsp d)) = 0
  /\ prev_env (energy_st d) = 0
  /\ adaptive_mean (energy_st d) = 0 /\ adaptive_var (energy_st d) = 0
  /\ state (machine d) = STATE_IDLE
  /\ buf_count (ring d) = 0%Z.

(** What the stages other than the energy and fusion stages leave
    alone. *)
Definition same_energy_path (d d' : SyllableDetector R) : Prop :=
  config d' = config d
  /\ bp_filter (dsp d') = bp_filter (dsp d)
  /\ env_follower (dsp d') = env_follower (dsp d)
  /\ energy_st d' = energy_st d
  /\ machine d' = machine d /\ ring d' = ring d.
End SilenceVocabulary.

(* ------------------------------------------------------------------ *)
(** * Remaining entry points of [agc.c] and [high_freq_energy.c] *)

Section MorePrimitives.
Context {F : Type} {FO : FloatOps F}.

Definition agc_reset (a : AgcState F) : AgcState F :=
  {| target_level := target_level a; max_gain := max_gain a;
     current_gain := lit 1; envelope := lit 0;
     agc_attack_coeff := agc_attack_coeff a;
     agc_release_coeff := agc_release_coeff a;
     gain_coeff := gain_coeff a |}.

Definition agc_get_gain (a : AgcState F) : F := current_gain a.

(** [hfe_get_current] of a handle that may be NULL. *)
Definition hfe_get_current (h : option (HighFreqEnergy F)) : F :=
  match h with
  | Some h => hfe_energy h
  | None => lit 0
  end.
End MorePrimitives.

Section SetupVocabulary.
Context {F : Type} {FO : FloatOps F} {X : Extractors F}.

(** [d'] has the configuration and the filter design of [d]: what
    [syllable_create] computes once and processing never changes. *)
Definition same_setup (d d' : SyllableDetector F) : Prop :=
  config d' = config d
  /\ attack_coeff (env_follower (dsp d'))
     = attack_coeff (env_follower (dsp d))
  /\ release_coeff (env_follower (dsp d'))
     = release_coeff (env_follower (dsp d))
  /\ trend_buf_size (zff (dsp d')) = trend_buf_size (zff (dsp d))
  /\ length (trend_buffer (zff (dsp d')))
     = length (trend_buffer (zff (dsp d)))
  /\ option_map hfe_reset (high_freq_energy (dsp d'))
     = option_map hfe_reset (high_freq_energy (dsp d)).
End SetupVocabulary.

Section ResetVocabulary.
Context {F : Type} {FO : FloatOps F} {X : Extractors F}.

(** The fields on which a detector just reset is compared with a detector
    just constructed. *)
Definition agree_after_reset (a b : SyllableDetector F) : Prop :=
  config a = config b
  /\ total_samples a = total_samples b
  /\ bp_filter (dsp a) = bp_filter (dsp b)
  /\ env_follower (dsp a) = env_follower (dsp b)
  /\ zff (dsp a) = zff (dsp b)
  /\ high_freq_energy (dsp a) = high_freq_energy (dsp b)
  /\ (stats_peak_rate (features a) = stats_peak_rate (features b)
      /\ stats_spectral_flux (features a) = stats_spectral_flux (features b)
      /\ stats_high_freq (features a) = stats_high_freq (features b)
      /\ stats_mfcc_delta (features a) = stats_mfcc_delta (features b)
      /\ stats_wavelet (features a) = stats_wavelet (features b))
  /\ (current_spectral_flux (features a) = current_spectral_flux (features b)
      /\ current_high_freq_energy (features a)
         = current_high_freq_energy (features b)
      /\ current_mfcc_delta (features a) = current_mfcc_delta (features b)
      /\ current_fusion_score (features a)
         = current_fusion_score (features b))
  /\ (prev_env (energy_st a) = prev_env (energy_st b)
      /\ adaptive_mean (energy_st a) = adaptive_mean (energy_st b)
      /\ adaptive_var (energy_st a) = adaptive_var (energy_st b))
  /\ (is_voiced (voicing a) = is_voiced (voicing b)
      /\ voicing_counter (voicing a) = voicing_counter (voicing b)
      /\ unvoiced_counter (voicing a) = unvoiced_counter (voicing b))
  /\ state (machine a) = state (machine b)
  /\ (buf_read_idx (ring a) = buf_read_idx (ring b)
      /\ buf_write_idx (ring a) = buf_write_idx (ring b)
      /\ buf_count (ring a) = buf_count (ring b)).
End ResetVocabulary.

(* ------------------------------------------------------------------ *)
(** * [percentile_50] *)

Section Percentile.
Context {F : Type} {FO : FloatOps F}.
Local Open Scope flt_scope.

(** The inner loop of the insertion sort.  [rev_prefix] is the sorted
    prefix [sorted[0 .. i-1]] read from its end: elements greater than
    [key] are moved one place up, and [key] is stored below them. *)
Fixpoint shift_insert (key : F) (rev_prefix : list F) : list F :=
  match rev_prefix with
  | [] => [key]
  | y :: r => if y >? key then y :: shift_insert key r else key :: y :: r
  end.

(** The array [sorted] after the outer loop.  The C array has
    [RT_BUF_SIZE] elements and is filled by [memcpy] of [n] values: the
    list is that array for [n <= RT_BUF_SIZE], beyond which the copy
    overflows it. *)
Definition insertion_sort (l : list F) : list F :=
  rev (fold_left (fun rev_prefix key => shift_insert key rev_prefix) l []).

Definition percentile_50 (values : list F) (n : Z) : F :=
  if (n <? 5)%Z
  then zget values (if (n >? 0)%Z then (n - 1)%Z else 0%Z) (lit 0)
  else zget (insertion_sort (firstn (Z.to_nat n) values))
            (ftoi (itof n * lit 0.50)) (lit 0).
End Percentile.

Section ClockVocabulary.
Context {F : Type} {FO : FloatOps F} {X : Extractors F}.

(** The two time fields of an event agree at sample rate [fs]. *)
Definition clocked (fs : Z) (e : SyllableEvent F) : Prop :=
  Ev.time_seconds e = fdiv (itof (Ev.timestamp_samples e)) (itof fs).

(** Invariant of a run: the pending events and a syllable in progress are
    clocked. *)
Definition clock_inv (d : SyllableDetector F) : Prop :=
  ring_wf (ring d)
  /\ Forall (clocked (sample_rate (config d))) (pending (ring d))
  /\ (state (machine d) = STATE_ONSET_RISING
      \/ state (machine d) = STATE_NUCLEUS ->
      clocked (sample_rate (config d)) (wip_event (machine d))).
End ClockVocabulary.

Section ContextVocabulary.
Context {F : Type} {FO : FloatOps F}.

(** The configuration [c] with another [context_size]. *)
Definition with_context_size (n : Z) (c : SyllableConfig F)
    : SyllableConfig F :=
  {| sample_rate := sample_rate c;
     zff_trend_window_ms := zff_trend_window_ms c;
     peak_rate_band_min := peak_rate_band_min c;
     peak_rate_band_max := peak_rate_band_max c;
     min_syllable_dist_ms := min_syllable_dist_ms c;
     threshold_peak_rate := threshold_peak_rate c;
     adaptive_peak_rate_k := adaptive_peak_rate_k c;
     adaptive_peak_rate_tau_ms := adaptive_peak_rate_tau_ms c;
     voiced_hold_ms := voiced_hold_ms c;
     hysteresis_on_factor := hysteresis_on_factor c;
     hysteresis_off_factor := hysteresis_off_factor c;
     context_size := n;
     enable_spectral_flux := enable_spectral_flux c;
     enable_high_freq_energy := enable_high_freq_energy c;
     enable_mfcc_delta := enable_mfcc_delta c;
     enable_wavelet := enable_wavelet c;
     fft_size_ms := fft_size_ms c;
     hop_size_ms := hop_size_ms c;
     high_freq_cutoff_hz := high_freq_cutoff_hz c;
     weight_peak_rate := weight_peak_rate c;
     weight_spectral_flux := weight_spectral_flux c;
     weight_high_freq := weight_high_freq c;
     weight_mfcc_delta := weight_mfcc_delta c;
     weight_wavelet := weight_wavelet c;
     weight_voiced_bonus := weight_voiced_bonus c;
     fusion_blend_alpha := fusion_blend_alpha c;
     unvoiced_onset_threshold := unvoiced_onset_threshold c;
     allow_unvoiced_onsets := allow_unvoiced_onsets c;
     enable_agc := enable_agc c;
     realtime_mode := realtime_mode c;
     calibration_duration_ms := calibration_duration_ms c;
     snr_threshold_db := snr_threshold_db c |}.
End ContextVocabulary.

Section Scenarios.
Local Open Scope R_scope.

(** The default configuration with a context size of -2, which
    [syllable_create] accepts as it is. *)
Definition negative_context_config : SyllableConfig R :=
  with_context_size (-2) demo_config.

(** A finalized syllable at sample [t] with fundamental frequency [f]. *)
Definition demo_event (t : Z) (f : R) : SyllableEvent R :=
  {| Ev.timestamp_samples := t; Ev.time_seconds := IZR t / 16000;
     Ev.peak_rate := 0.01; Ev.pr_slope := 0.002; Ev.energy := 0.5;
     Ev.f0 := f; Ev.delta_f0 := 0; Ev.duration_s := 0.1;
     Ev.spectral_flux := 0; Ev.high_freq_energy := 0;
     Ev.mfcc_delta := 0; Ev.wavelet_score := 0;
     Ev.fusion_score := 0.6; Ev.onset_type := ONSET_TYPE_VOICED;
     Ev.prominence_score := 0; Ev.is_accented := false |}.

(** The ring of a constructed detector after three syllables were
    finalized and none was written yet. *)
Definition demo_loaded_ring : RingBuffer R :=
  push_event (demo_event 7200 110)
    (push_event (demo_event 4800 120)
       (push_event (demo_event 2400 100)
          (ring (X := NoExtractors R) demo_detector))).

Definition demo_loaded : SyllableDetector R (X := NoExtractors R) :=
  set_ring demo_loaded_ring demo_detector.
End Scenarios.

Section NegativeScenario.
Local Open Scope R_scope.

(** The detector with [context_size = -2] after its first sample. *)
Definition negative_first : SyllableDetector R (X := NoExtractors R) :=
  fst (syllable_process (syllable_create negative_context_config) [0] 4).

(** The same detector once the state machine has finalized a syllable: the
    push to the ring that ends [STATE_NUCLEUS]. *)
Definition negative_finalized : SyllableDetector R (X := NoExtractors R) :=
  set_ring (push_event (demo_event 2400 100) (ring negative_first))
           negative_first.
End NegativeScenario.

Section BufferScenario.
Local Open Scope R_scope.

End BufferScenario.

Open Scope Z_scope.
Unset Implicit Arguments.

(* ------------------------------------------------------------------ *)
(** * Frame properties of the per-sample pipeline *)

Section Frames.
Context {F : Type} {FO : FloatOps F} {X : Extractors F}.

Ltac split_lets :=
  repeat match goal with
         | |- context [let '(_, _) := ?e in _] => destruct e
         | |- context [match ?e with Some _ => _ | None => _ end] => destruct e
         | |- context [match ?e with pair _ _ => _ end] => destruct e
         end.

Lemma agc_stage_frame (d : SyllableDetector F) (x : F) :
  let d' := fst (agc_stage d x) in
  config d' = config d /\ machine d' = machine d /\ ring d' = ring d
  /\ rt_cal d' = rt_cal d
  /\ total_samples d' = u64_succ (total_samples d).
Proof. unfold agc_stage. split_lets. cbn. repeat split. Qed.

Lemma voicing_stage_frame (d : SyllableDetector F) (x : F) :
  let d' := voicing_stage d x in
  config d' = config d /\ machine d' = machine d /\ ring d' = ring d
  /\ rt_cal d' = rt_cal d /\ total_samples d' = total_samples d.
Proof. unfold voicing_stage. split_lets. cbn. repeat split. Qed.

Lemma energy_stage_frame (d : SyllableDetector F) (x : F) :
  let d' := energy_stage d x in
  config d' = config d /\ machine d' = machine d /\ ring d' = ring d
  /\ rt_cal d' = rt_cal d /\ total_samples d' = total_samples d.
Proof. unfold energy_stage. split_lets. cbn. repeat split. Qed.

Lemma feature_stage_frame (d : SyllableDetector F) (x : F) :
  let d' := feature_stage d x in
  config d' = config d /\ machine d' = machine d /\ ring d' = ring d
  /\ rt_cal d' = rt_cal d /\ total_samples d' = total_samples d.
Proof. unfold feature_stage. split_lets; cbn; repeat split. Qed.

Lemma fusion_stage_frame (d : SyllableDetector F) :
  let d' := fusion_stage d in
  config d' = config d /\ machine d' = machine d /\ ring d' = ring d
  /\ rt_cal d' = rt_cal d /\ total_samples d' = total_samples d.
Proof. unfold fusion_stage. split_lets; cbn; repeat split. Qed.

Lemma finalize_frame (d : SyllableDetector F) :
  let d' := finalize_rt_calibration d in
  config d' = config d /\ machine d' = machine d /\ ring d' = ring d
  /\ total_samples d' = total_samples d
  /\ is_calibrating (rt_cal d') = false.
Proof. unfold finalize_rt_calibration. cbn. repeat split. Qed.

Lemma update_rt_calibration_frame (d : SyllableDetector F) :
  let d' := update_rt_calibration d in
  config d' = config d /\ machine d' = machine d /\ ring d' = ring d
  /\ total_samples d' = total_samples d
  /\ (is_calibrating (rt_cal d) = false ->
      is_calibrating (rt_cal d') = false).
Proof.
  unfold update_rt_calibration.
  match goal with |- context [if ?c then _ else _] => destruct c end.
  - cbn. repeat split.
  - cbn. repeat split. auto.
Qed.

Lemma calibration_stage_frame (d : SyllableDetector F) :
  let d' := calibration_stage d in
  config d' = config d /\ machine d' = machine d /\ ring d' = ring d
  /\ total_samples d' = total_samples d
  /\ (is_calibrating (rt_cal d) = false -> rt_cal d' = rt_cal d).
Proof.
  unfold calibration_stage.
  destruct (realtime_mode (config d)); cbn [andb].
  - destruct (is_calibrating (rt_cal d)) eqn:E.
    + destruct (update_rt_calibration_frame d) as (? & ? & ? & ? & ?).
      repeat split; auto. discriminate.
    + repeat split.
  - repeat split.
Qed.

(** The front end leaves the configuration, the state machine and the ring
    buffer alone and advances the sample counter by one. *)
Lemma front_end_frame (d : SyllableDetector F) (x : F) :
  let d' := front_end d x in
  config d' = config d /\ machine d' = machine d /\ ring d' = ring d
  /\ total_samples d' = u64_succ (total_samples d)
  /\ (is_calibrating (rt_cal d) = false -> rt_cal d' = rt_cal d).
Proof.
  unfold front_end.
  pose proof (agc_stage_frame d x) as A.
  destruct (agc_stage d x) as [d1 s]. cbn [fst] in A.
  destruct A as (A1 & A2 & A3 & A4 & A5).
  destruct (voicing_stage_frame d1 s) as (B1 & B2 & B3 & B4 & B5).
  destruct (energy_stage_frame (voicing_stage d1 s) s)
    as (C1 & C2 & C3 & C4 & C5).
  destruct (feature_stage_frame (energy_stage (voicing_stage d1 s) s) s)
    as (D1 & D2 & D3 & D4 & D5).
  destruct (calibration_stage_frame
              (feature_stage (energy_stage (voicing_stage d1 s) s) s))
    as (E1 & E2 & E3 & E4 & E5).
  destruct (fusion_stage_frame
              (calibration_stage
                 (feature_stage (energy_stage (voicing_stage d1 s) s) s)))
    as (G1 & G2 & G3 & G4 & G5).
  cbv zeta.
  repeat split; try congruence.
  intro H. rewrite G4, E5; congruence.
Qed.

Lemma machine_step_frame (d : SyllableDetector F) :
  let d' := machine_step d in
  config d' = config d /\ rt_cal d' = rt_cal d
  /\ total_samples d' = total_samples d.
Proof.
  unfold machine_step, idle_step, onset_rising_step, nucleus_step,
    cooldown_step.
  destruct (state (machine d)).
  - destruct (onset_decision d); cbn; repeat split.
  - cbn; repeat split.
  - destruct (nucleus_end d); cbn; repeat split.
  - cbn; repeat split.
Qed.

Lemma emit_oldest_frame (accent : F -> bool) (d : SyllableDetector F) :
  let d' := fst (emit_oldest accent d) in
  config d' = config d /\ rt_cal d' = rt_cal d
  /\ total_samples d' = total_samples d /\ machine d' = machine d.
Proof. unfold emit_oldest. cbn. repeat split. Qed.

Lemma emit_loop_frame (room : nat) (accent : F -> bool) (c : Z)
    (d : SyllableDetector F) :
  let d' := fst (emit_loop room accent c d) in
  config d' = config d /\ rt_cal d' = rt_cal d
  /\ total_samples d' = total_samples d /\ machine d' = machine d.
Proof.
  revert d. induction room as [|k IH]; intro d; cbn [emit_loop].
  - cbn. repeat split.
  - destruct (buf_count (ring d) >? c)%Z.
    + pose proof (emit_oldest_frame accent d) as A.
      destruct (emit_oldest accent d) as [d1 e]. cbn [fst] in A.
      specialize (IH d1).
      destruct (emit_loop k accent c d1) as [d2 es]. cbn [fst] in *.
      destruct A as (? & ? & ? & ?), IH as (? & ? & ? & ?).
      repeat split; congruence.
    + cbn. repeat split.
Qed.

(** Every event leaving an emission loop carries the accent flag computed
    from its own prominence score. *)
Lemma emit_loop_accent (room : nat) (accent : F -> bool) (c : Z)
    (d : SyllableDetector F) :
  Forall (fun e => Ev.is_accented e = accent (Ev.prominence_score e))
         (snd (emit_loop room accent c d)).
Proof.
  revert d. induction room as [|k IH]; intro d; cbn [emit_loop].
  - constructor.
  - destruct (buf_count (ring d) >? c)%Z; [|constructor].
    unfold emit_oldest at 1. cbv zeta.
    match goal with
    | |- context [emit_loop k accent c ?d1] =>
        specialize (IH d1); destruct (emit_loop k accent c d1) as [d2 es]
    end.
    cbn [snd] in *. constructor; [reflexivity | exact IH].
Qed.

Lemma process_sample_frame (d : SyllableDetector F) (x : F) (room : nat) :
  let d' := fst (process_sample d x room) in
  config d' = config d
  /\ total_samples d' = u64_succ (total_samples d)
  /\ (is_calibrating (rt_cal d) = false -> rt_cal d' = rt_cal d).
Proof.
  unfold process_sample.
  destruct (front_end_frame d x) as (A1 & A2 & A3 & A4 & A5).
  destruct (realtime_mode (config (front_end d x))
            && is_calibrating (rt_cal (front_end d x))).
  - cbn [fst]. auto.
  - destruct (machine_step_frame (front_end d x)) as (B1 & B2 & B3).
    destruct (emit_loop_frame room process_accent
                (context_needed (config (machine_step (front_end d x))))
                (machine_step (front_end d x))) as (C1 & C2 & C3 & C4).
    repeat split; try congruence.
    intro H. rewrite C2, B2. auto.
Qed.
End Frames.

(* ------------------------------------------------------------------ *)
(** * Accent flag and calibration quiescence *)

Section AccentAndCalibration.
Context {F : Type} {FO : FloatOps F} {X : Extractors F}.

Lemma process_sample_accent (d : SyllableDetector F) (x : F) (room : nat) :
  Forall (fun e => Ev.is_accented e = process_accent (Ev.prominence_score e))
         (snd (process_sample d x room)).
Proof.
  unfold process_sample.
  destruct (realtime_mode (config (front_end d x))
            && is_calibrating (rt_cal (front_end d x))).
  - constructor.
  - apply emit_loop_accent.
Qed.

Lemma process_from_accent (input : list F) :
  forall (d : SyllableDetector F) (max_events : Z)
         (out : list (SyllableEvent F)),
    Forall (fun e => Ev.is_accented e
                     = process_accent (Ev.prominence_score e)) out ->
    Forall (fun e => Ev.is_accented e
                     = process_accent (Ev.prominence_score e))
           (snd (process_from d input max_events out)).
Proof.
  induction input as [|x rest IH]; intros d max_events out Hout;
    cbn [process_from].
  - exact Hout.
  - pose proof (process_sample_accent d x
      (Z.to_nat (max_events - Z.of_nat (length out)))) as A.
    destruct (process_sample d x _) as [d1 es]. cbn [snd] in A.
    apply IH. apply Forall_app. split; assumption.
Qed.

(** C9. Every event written by [syllable_process] has [is_accented] set
    exactly when its prominence score is strictly greater than 0.9, and
    every event written by [syllable_flush] exactly when it is strictly
    greater than 1.2.  The context size is at most half the ring size, so
    that the context loops run before the flag is set stay inside their
    arrays. *)
Theorem accent_flag_thresholds (d : SyllableDetector F) :
  2 * context_size (config d) <= PROMINENCE_BUFFER_SIZE ->
  (forall (input : list F) (max_events : Z) (e : SyllableEvent F),
      In e (snd (syllable_process d input max_events)) ->
      Ev.is_accented e = fltb (lit 0.9) (Ev.prominence_score e))
  /\ (forall (max_events : Z) (e : SyllableEvent F),
      In e (snd (syllable_flush d max_events)) ->
      Ev.is_accented e = fltb (lit 1.2) (Ev.prominence_score e)).
Proof.
  intros _. split.
  - intros input max_events e He.
    pose proof (@process_from_accent input d max_events [] (Forall_nil _))
      as A.
    rewrite Forall_forall in A. exact (A e He).
  - intros max_events e He.
    pose proof (emit_loop_accent (Z.to_nat max_events) flush_accent 0 d)
      as A.
    rewrite Forall_forall in A. exact (A e He).
Qed.

(** Once calibration is over it stays over for the rest of a
    [syllable_process] call. *)
Lemma process_from_not_calibrating (input : list F) :
  forall (d : SyllableDetector F) (max_events : Z)
         (out : list (SyllableEvent F)),
    is_calibrating (rt_cal d) = false ->
    is_calibrating (rt_cal (fst (process_from d input max_events out)))
    = false.
Proof.
  induction input as [|x rest IH]; intros d max_events out H;
    cbn [process_from].
  - exact H.
  - pose proof (process_sample_frame d x
      (Z.to_nat (max_events - Z.of_nat (length out)))) as A.
    destruct (process_sample d x _) as [d1 es]. cbn [fst] in A.
    destruct A as (_ & _ & A). apply IH. rewrite (A H). exact H.
Qed.

Lemma process_from_config (input : list F) :
  forall (d : SyllableDetector F) (max_events : Z)
         (out : list (SyllableEvent F)),
    config (fst (process_from d input max_events out)) = config d.
Proof.
  induction input as [|x rest IH]; intros d max_events out;
    cbn [process_from].
  - reflexivity.
  - pose proof (process_sample_frame d x
      (Z.to_nat (max_events - Z.of_nat (length out)))) as A.
    destruct (process_sample d x _) as [d1 es]. cbn [fst] in A.
    destruct A as (A & _). rewrite IH. exact A.
Qed.

Lemma process_from_calibrating (input : list F) :
  forall (d : SyllableDetector F) (max_events : Z)
         (out : list (SyllableEvent F)),
    realtime_mode (config d) = true ->
    is_calibrating (rt_cal (fst (process_from d input max_events out)))
    = true ->
    snd (process_from d input max_events out) = out
    /\ machine (fst (process_from d input max_events out)) = machine d
    /\ ring (fst (process_from d input max_events out)) = ring d.
Proof.
  induction input as [|x rest IH]; intros d max_events out Hrt Hcal;
    cbn [process_from] in *.
  - auto.
  - remember (Z.to_nat (max_events - Z.of_nat (length out))) as room.
    pose proof (process_sample_frame d x room) as A.
    unfold process_sample in *.
    destruct (front_end_frame d x) as (B1 & B2 & B3 & B4 & B5).
    destruct (realtime_mode (config (front_end d x))
              && is_calibrating (rt_cal (front_end d x))) eqn:E.
    + rewrite app_nil_r in *.
      destruct (IH (front_end d x) max_events out) as (I1 & I2 & I3);
        try congruence.
      repeat split; congruence.
    + exfalso.
      set (d1 := machine_step (front_end d x)) in *.
      destruct (emit_loop room process_accent (context_needed (config d1))
                  d1) as [d2 es] eqn:L.
      pose proof (emit_loop_frame room process_accent
                    (context_needed (config d1)) d1) as C.
      rewrite L in C. cbn [fst] in C. destruct C as (C1 & C2 & _).
      destruct (machine_step_frame (front_end d x)) as (M1 & M2 & _).
      fold d1 in M1, M2.
      assert (Hc : is_calibrating (rt_cal d2) = false).
      { rewrite C2, M2. rewrite B1, Hrt in E. exact E. }
      pose proof (@process_from_not_calibrating rest d2 max_events
                    (out ++ es) Hc) as N.
      congruence.
Qed.

(** C3. In realtime mode, a [syllable_process] call at whose end the
    detector is still calibrating (so that it was calibrating throughout)
    writes no event, and leaves the state machine and the ring buffer as
    they were. *)
Theorem calibration_is_quiescent (d : SyllableDetector F) (input : list F)
    (max_events : Z) :
  realtime_mode (config d) = true ->
  syllable_is_calibrating (fst (syllable_process d input max_events))
  = true ->
  snd (syllable_process d input max_events) = []
  /\ machine (fst (syllable_process d input max_events)) = machine d
  /\ ring (fst (syllable_process d input max_events)) = ring d.
Proof.
  intros Hrt Hcal. unfold syllable_process, syllable_is_calibrating in *.
  apply process_from_calibrating; assumption.
Qed.
End AccentAndCalibration.

(* ------------------------------------------------------------------ *)
(** * The SNR setting after calibration *)

Section SnrFrame.
Context {F : Type} {FO : FloatOps F} {X : Extractors F}.

Ltac open_detector d :=
  let c := fresh "c" in
  let cal := fresh "cal" in
  destruct d as [c ? ? ? ? ? ? ? ? cal]; destruct c; destruct cal.

Ltac split_pairs :=
  repeat match goal with
         | |- context [let '(_, _) := ?e in _] => destruct e
         | |- context [match ?e with Some _ => _ | None => _ end] => destruct e
         | |- context [match ?e with pair _ _ => _ end] => destruct e
         end.

Lemma agc_stage_retune (s g : F) (d : SyllableDetector F) (x : F) :
  agc_stage (retune s g d) x
  = (retune s g (fst (agc_stage d x)), snd (agc_stage d x)).
Proof. open_detector d. unfold agc_stage, retune. cbn. split_pairs; reflexivity. Qed.

Lemma voicing_stage_retune (s g : F) (d : SyllableDetector F) (x : F) :
  voicing_stage (retune s g d) x = retune s g (voicing_stage d x).
Proof. open_detector d. unfold voicing_stage, retune. cbn. split_pairs; reflexivity. Qed.

Lemma energy_stage_retune (s g : F) (d : SyllableDetector F) (x : F) :
  energy_stage (retune s g d) x = retune s g (energy_stage d x).
Proof. open_detector d. unfold energy_stage, retune. cbn. split_pairs; reflexivity. Qed.

Lemma feature_stage_retune (s g : F) (d : SyllableDetector F) (x : F) :
  feature_stage (retune s g d) x = retune s g (feature_stage d x).
Proof. open_detector d. unfold feature_stage, retune. cbn. split_pairs; reflexivity. Qed.

Lemma retune_frame (s g : F) (d : SyllableDetector F) :
  realtime_mode (config (retune s g d)) = realtime_mode (config d)
  /\ is_calibrating (rt_cal (retune s g d)) = is_calibrating (rt_cal d)
  /\ thresh (rt_cal (retune s g d)) = thresh (rt_cal d)
  /\ ring (retune s g d) = ring d
  /\ machine (retune s g d) = machine d
  /\ context_needed (config (retune s g d)) = context_needed (config d).
Proof. open_detector d. cbn. repeat split. Qed.

Lemma calibration_stage_retune (s g : F) (d : SyllableDetector F) :
  is_calibrating (rt_cal d) = false ->
  calibration_stage (retune s g d) = retune s g (calibration_stage d).
Proof.
  intro H. unfold calibration_stage.
  destruct (retune_frame s g d) as (A & B & _). rewrite A, B, H.
  rewrite andb_false_r. reflexivity.
Qed.

Lemma compute_fusion_score_retune (s g : F) (d : SyllableDetector F) :
  compute_fusion_score (retune s g d) = compute_fusion_score d.
Proof. open_detector d. reflexivity. Qed.

Lemma fusion_stage_retune (s g : F) (d : SyllableDetector F) :
  fusion_stage (retune s g d) = retune s g (fusion_stage d).
Proof.
  unfold fusion_stage. rewrite compute_fusion_score_retune.
  open_detector d. unfold retune. cbn. split_pairs; reflexivity.
Qed.

Lemma front_end_retune (s g : F) (d : SyllableDetector F) (x : F) :
  is_calibrating (rt_cal d) = false ->
  front_end (retune s g d) x = retune s g (front_end d x).
Proof.
  intro H. unfold front_end. rewrite agc_stage_retune.
  pose proof (agc_stage_frame d x) as A.
  destruct (agc_stage d x) as [d1 y]. cbn [fst snd] in *.
  destruct A as (_ & _ & _ & A & _).
  rewrite voicing_stage_retune, energy_stage_retune, feature_stage_retune.
  rewrite calibration_stage_retune.
  - apply fusion_stage_retune.
  - destruct (voicing_stage_frame d1 y) as (_ & _ & _ & B & _).
    destruct (energy_stage_frame (voicing_stage d1 y) y)
      as (_ & _ & _ & C & _).
    destruct (feature_stage_frame (energy_stage (voicing_stage d1 y) y) y)
      as (_ & _ & _ & D & _).
    congruence.
Qed.

Lemma onset_decision_retune (s g : F) (d : SyllableDetector F) :
  onset_decision (retune s g d) = onset_decision d.
Proof. open_detector d. reflexivity. Qed.

Lemma nucleus_end_retune (s g : F) (d : SyllableDetector F) :
  nucleus_end (retune s g d) = nucleus_end d.
Proof. open_detector d. reflexivity. Qed.

Lemma machine_step_retune (s g : F) (d : SyllableDetector F) :
  machine_step (retune s g d) = retune s g (machine_step d).
Proof.
  unfold machine_step.
  destruct (retune_frame s g d) as (_ & _ & _ & _ & M & _). rewrite M.
  destruct (state (machine d)).
  - unfold idle_step. rewrite onset_decision_retune.
    destruct (onset_decision d); [|reflexivity].
    open_detector d. reflexivity.
  - open_detector d. reflexivity.
  - unfold nucleus_step. rewrite nucleus_end_retune.
    destruct (nucleus_end d); open_detector d; reflexivity.
  - open_detector d. reflexivity.
Qed.

Lemma emit_oldest_retune (accent : F -> bool) (s g : F)
    (d : SyllableDetector F) :
  emit_oldest accent (retune s g d)
  = (retune s g (fst (emit_oldest accent d)), snd (emit_oldest accent d)).
Proof. open_detector d. reflexivity. Qed.

Lemma emit_loop_retune (room : nat) (accent : F -> bool) (c : Z) (s g : F) :
  forall d : SyllableDetector F,
    emit_loop room accent c (retune s g d)
    = (retune s g (fst (emit_loop room accent c d)),
       snd (emit_loop room accent c d)).
Proof.
  induction room as [|k IH]; intro d; cbn [emit_loop].
  - reflexivity.
  - destruct (retune_frame s g d) as (_ & _ & _ & R & _). rewrite R.
    destruct (buf_count (ring d) >? c)%Z; [|reflexivity].
    rewrite emit_oldest_retune.
    destruct (emit_oldest accent d) as [d1 e]. cbn [fst snd].
    rewrite IH. destruct (emit_loop k accent c d1). reflexivity.
Qed.

Lemma process_sample_retune (s g : F) (d : SyllableDetector F) (x : F)
    (room : nat) :
  is_calibrating (rt_cal d) = false ->
  process_sample (retune s g d) x room
  = (retune s g (fst (process_sample d x room)),
     snd (process_sample d x room)).
Proof.
  intro H. unfold process_sample. rewrite (front_end_retune s g d x H).
  destruct (retune_frame s g (front_end d x)) as (A & B & _).
  rewrite A, B.
  destruct (realtime_mode (config (front_end d x))
            && is_calibrating (rt_cal (front_end d x))); [reflexivity|].
  rewrite machine_step_retune.
  destruct (retune_frame s g (machine_step (front_end d x)))
    as (_ & _ & _ & _ & _ & C).
  rewrite C. apply emit_loop_retune.
Qed.

Lemma process_from_retune (s g : F) (input : list F) :
  forall (d : SyllableDetector F) (max_events : Z)
         (out : list (SyllableEvent F)),
    is_calibrating (rt_cal d) = false ->
    process_from (retune s g d) input max_events out
    = (retune s g (fst (process_from d input max_events out)),
       snd (process_from d input max_events out)).
Proof.
  induction input as [|x rest IH]; intros d max_events out H;
    cbn [process_from].
  - reflexivity.
  - rewrite (process_sample_retune s g d x _ H).
    pose proof (process_sample_frame d x
      (Z.to_nat (max_events - Z.of_nat (length out)))) as A.
    destruct (process_sample d x _) as [d1 es]. cbn [fst snd] in *.
    destruct A as (_ & _ & A). apply IH. rewrite (A H). exact H.
Qed.

Lemma call_retune (s g : F) (d : SyllableDetector F) (c : Call F) :
  is_calibrating (rt_cal d) = false ->
  call (retune s g d) c = (retune s g (fst (call d c)), snd (call d c))
  /\ is_calibrating (rt_cal (fst (call d c))) = false.
Proof.
  intro H. destruct c as [input max_events | max_events]; cbn [call].
  - split.
    + apply process_from_retune. exact H.
    + apply process_from_not_calibrating. exact H.
  - split.
    + apply emit_loop_retune.
    + destruct (emit_loop_frame (Z.to_nat max_events) flush_accent 0 d)
        as (_ & A & _).
      unfold syllable_flush. rewrite A. exact H.
Qed.

Lemma run_retune (s g : F) (calls : list (Call F)) :
  forall d : SyllableDetector F,
    is_calibrating (rt_cal d) = false ->
    run (retune s g d) calls
    = (retune s g (fst (run d calls)), snd (run d calls)).
Proof.
  induction calls as [|c rest IH]; intros d H; cbn [run].
  - reflexivity.
  - destruct (call_retune s g d c H) as (A & B). rewrite A.
    destruct (call d c) as [d1 es]. cbn [fst snd] in *.
    rewrite (IH d1 B). destruct (run d1 rest). reflexivity.
Qed.

Lemma set_snr_threshold_retune (d : SyllableDetector F) (x : F) :
  realtime_mode (config d) = true ->
  is_calibrating (rt_cal d) = false ->
  syllable_set_snr_threshold d x = retune x (powf (lit 10) (fdiv x (lit 10))) d.
Proof.
  intros Hrt Hcal. unfold syllable_set_snr_threshold.
  open_detector d. cbn in *. subst. reflexivity.
Qed.

(** C10. After calibration has finalized, [syllable_set_snr_threshold]
    writes only [config.snr_threshold_db] and [rt_cal.gamma]; the six
    thresholds are untouched, and every later sequence of
    [syllable_process] and [syllable_flush] calls writes the same events
    and reaches the same state (up to those two fields) as without the
    call. *)
Theorem snr_threshold_does_not_retune (d : SyllableDetector F) (x : F) :
  realtime_mode (config d) = true ->
  is_calibrating (rt_cal d) = false ->
  let d' := syllable_set_snr_threshold d x in
  d' = retune x (powf (lit 10) (fdiv x (lit 10))) d
  /\ snr_threshold_db (config d') = x
  /\ gamma (rt_cal d') = powf (lit 10) (fdiv x (lit 10))
  /\ thresh (rt_cal d') = thresh (rt_cal d)
  /\ forall calls : list (Call F),
       snd (run d' calls) = snd (run d calls)
       /\ fst (run d' calls)
          = retune x (powf (lit 10) (fdiv x (lit 10))) (fst (run d calls)).
Proof.
  intros Hrt Hcal d'. subst d'.
  rewrite (set_snr_threshold_retune d x Hrt Hcal).
  split; [reflexivity|].
  split; [destruct d as [c ? ? ? ? ? ? ? ? cal]; reflexivity|].
  split; [destruct d as [c ? ? ? ? ? ? ? ? cal]; reflexivity|].
  split; [apply retune_frame|].
  intro calls. rewrite (run_retune _ _ calls d Hcal). split; reflexivity.
Qed.
End SnrFrame.

(* ------------------------------------------------------------------ *)
(** * Lists indexed by C integers *)

Section IndexedLists.
Context {A : Type}.

Lemma set_nth_length (n : nat) (x : A) (l : list A) :
  length (set_nth n x l) = length l.
Proof.
  revert n; induction l as [|a t IH]; intros [|n]; cbn; auto.
Qed.

Lemma nth_set_nth_same (n : nat) (x d : A) (l : list A) :
  (n < length l)%nat -> nth n (set_nth n x l) d = x.
Proof.
  revert n; induction l as [|a t IH]; intros [|n] H; cbn in *;
    try lia; auto. apply IH. lia.
Qed.

Lemma nth_set_nth_other (n m : nat) (x d : A) (l : list A) :
  n <> m -> nth m (set_nth n x l) d = nth m l d.
Proof.
  revert n m; induction l as [|a t IH]; intros [|n] [|m] H; cbn;
    try congruence; auto.
Qed.

Lemma zset_length (l : list A) (i : Z) (x : A) :
  length (zset l i x) = length l.
Proof.
  unfold zset. destruct (i <? 0)%Z; auto using set_nth_length.
Qed.

Lemma zget_zset_same (l : list A) (i : Z) (x d : A) :
  (0 <= i < Z.of_nat (length l))%Z -> zget (zset l i x) i d = x.
Proof.
  intro H. unfold zget, zset.
  destruct (Z.ltb_spec i 0); [lia|].
  apply nth_set_nth_same. lia.
Qed.

Lemma zget_zset_other (l : list A) (i j : Z) (x d : A) :
  (0 <= i)%Z -> (0 <= j)%Z -> i <> j ->
  zget (zset l i x) j d = zget l j d.
Proof.
  intros Hi Hj H. unfold zget, zset.
  destruct (Z.ltb_spec i 0); [lia|].
  destruct (Z.ltb_spec j 0); [lia|].
  apply nth_set_nth_other. lia.
Qed.

Lemma zrange_length (lo : Z) (n : nat) : length (zrange lo n) = n.
Proof. revert lo; induction n; intro; cbn; auto. Qed.

Lemma zrange_snoc (lo : Z) (n : nat) :
  zrange lo (S n) = zrange lo n ++ [(lo + Z.of_nat n)%Z].
Proof.
  revert lo; induction n as [|n IH]; intro lo.
  - cbn. f_equal. lia.
  - change (zrange lo (S (S n))) with (lo :: zrange (lo + 1) (S n)).
    rewrite IH. cbn [zrange app]. do 3 f_equal. lia.
Qed.

Lemma zrange_In (lo : Z) (n : nat) (i : Z) :
  In i (zrange lo n) -> (lo <= i < lo + Z.of_nat n)%Z.
Proof.
  revert lo; induction n as [|n IH]; intros lo H; cbn in H.
  - contradiction.
  - destruct H as [H|H]; [lia|]. apply IH in H. lia.
Qed.

Lemma map_zrange_shift {B : Type} (f : Z -> B) (lo : Z) (n : nat) :
  map f (zrange (lo + 1) n) = map (fun i => f (i + 1)%Z) (zrange lo n).
Proof.
  revert lo; induction n as [|n IH]; intro lo; cbn; [reflexivity|].
  f_equal. apply IH.
Qed.
End IndexedLists.

(* ------------------------------------------------------------------ *)
(** * The event ring buffer is a first-in first-out queue *)

Section Queue.
Context {F : Type} {FO : FloatOps F} {X : Extractors F}.

Lemma rem16 (a : Z) :
  (0 <= a)%Z -> Z.rem a PROMINENCE_BUFFER_SIZE = (a mod 16)%Z.
Proof. intro H. apply Z.rem_mod_nonneg; unfold PROMINENCE_BUFFER_SIZE; lia. Qed.

Lemma slot_zset_same (b : list (BufferedEvent F)) (i : Z)
    (s : BufferedEvent F) :
  (0 <= i < Z.of_nat (length b))%Z -> slot (zset b i s) i = s.
Proof. apply zget_zset_same. Qed.

Lemma slot_zset_other (b : list (BufferedEvent F)) (i j : Z)
    (s : BufferedEvent F) :
  (0 <= i)%Z -> (0 <= j)%Z -> i <> j -> slot (zset b i s) j = slot b j.
Proof. apply zget_zset_other. Qed.

Lemma pending_length (r : RingBuffer F) :
  (0 <= buf_count r)%Z -> Z.of_nat (length (pending r)) = buf_count r.
Proof.
  intro H. unfold pending. rewrite length_map, zrange_length. lia.
Qed.

Ltac zmod := unfold PROMINENCE_BUFFER_SIZE in *; Z.div_mod_to_equations; lia.

(** Pushing appends at the back; on a full buffer the front is dropped. *)
Lemma push_event_pending (e : SyllableEvent F) (r : RingBuffer F) :
  ring_wf r ->
  ring_wf (push_event e r)
  /\ pending (push_event e r)
     = (if (buf_count r <? PROMINENCE_BUFFER_SIZE)%Z then pending r
        else tl (pending r)) ++ [e].
Proof.
  intros (Hlen & Hrd & Hcnt & Hwr).
  unfold PROMINENCE_BUFFER_SIZE in *.
  assert (Hw : 0 <= buf_write_idx r < 16) by zmod.
  assert (Hl : Z.of_nat (length (event_buffer r)) = 16) by lia.
  unfold push_event. rewrite (rem16 (buf_write_idx r + 1)) by lia.
  rewrite (rem16 (buf_read_idx r + 1)) by lia.
  unfold PROMINENCE_BUFFER_SIZE.
  destruct (Z.ltb_spec (buf_count r) 16) as [Hc|Hc].
  - split.
    + unfold ring_wf, PROMINENCE_BUFFER_SIZE; cbn.
      rewrite zset_length. repeat split; try lia. zmod.
    + unfold pending; cbn [buf_count buf_read_idx event_buffer].
      replace (Z.to_nat (buf_count r + 1)) with (S (Z.to_nat (buf_count r)))
        by lia.
      rewrite zrange_snoc, map_app. cbn [map]. f_equal.
      * apply map_ext_in. intros i Hi. apply zrange_In in Hi.
        unfold queued; cbn [event_buffer buf_read_idx].
        rewrite !rem16 by lia. f_equal.
        apply slot_zset_other; try lia; zmod.
      * unfold queued; cbn [event_buffer buf_read_idx].
        rewrite rem16 by lia. rewrite Z.add_0_l, Z2Nat.id by lia.
        rewrite <- Hwr. rewrite slot_zset_same by lia. reflexivity.
  - assert (Hfull : buf_count r = 16) by lia.
    assert (Hwr' : buf_write_idx r = buf_read_idx r) by zmod.
    split.
    + unfold ring_wf, PROMINENCE_BUFFER_SIZE; cbn.
      rewrite zset_length. repeat split; try lia; zmod.
    + unfold pending; cbn [buf_count buf_read_idx event_buffer].
      rewrite Hfull. change (Z.to_nat 16) with 16%nat.
      rewrite (zrange_snoc 0 15) at 1. rewrite map_app. cbn [map].
      change (zrange 0 16) with (0 :: zrange (0 + 1) 15).
      cbn [map tl]. rewrite map_zrange_shift. f_equal.
      * apply map_ext_in. intros i Hi. apply zrange_In in Hi.
        unfold queued; cbn [event_buffer buf_read_idx].
        assert (0 <= (buf_read_idx r + 1) mod 16 < 16) by zmod.
        rewrite !rem16 by lia.
        replace (((buf_read_idx r + 1) mod 16 + i) mod 16)
          with ((buf_read_idx r + (i + 1)) mod 16) by zmod.
        f_equal. apply slot_zset_other; try lia; zmod.
      * unfold queued; cbn [event_buffer buf_read_idx].
        assert (0 <= (buf_read_idx r + 1) mod 16 < 16) by zmod.
        rewrite !rem16 by lia.
        replace (((buf_read_idx r + 1) mod 16 + (0 + Z.of_nat 15)) mod 16)
          with (buf_write_idx r) by zmod.
        rewrite slot_zset_same by lia. reflexivity.
Qed.

(** Emitting takes the oldest pending event and leaves the others. *)
Lemma emit_oldest_pending (accent : F -> bool) (d : SyllableDetector F) :
  ring_wf (ring d) -> 0 < buf_count (ring d) ->
  ring_wf (ring (fst (emit_oldest accent d)))
  /\ buf_count (ring (fst (emit_oldest accent d))) = buf_count (ring d) - 1
  /\ exists e0,
       pending (ring d) = e0 :: pending (ring (fst (emit_oldest accent d)))
       /\ Ev.timestamp_samples (snd (emit_oldest accent d))
          = Ev.timestamp_samples e0.
Proof.
  intros (Hlen & Hrd & Hcnt & Hwr) Hpos.
  unfold PROMINENCE_BUFFER_SIZE in *.
  assert (Hl : Z.of_nat (length (event_buffer (ring d))) = 16) by lia.
  unfold emit_oldest. cbn [fst snd ring set_ring buf_count].
  set (r := ring d) in *.
  set (b1 := calculate_delta_f0 _ _ _).
  assert (Hb1 : length b1 = length (event_buffer r))
    by (unfold b1, calculate_delta_f0; apply zset_length).
  split; [|split].
  - unfold ring_wf, PROMINENCE_BUFFER_SIZE; cbn.
    rewrite zset_length, Hb1. rewrite rem16 by lia.
    repeat split; try lia; zmod.
  - reflexivity.
  - exists (queued r 0). split.
    + unfold pending; cbn [buf_count buf_read_idx event_buffer].
      replace (Z.to_nat (buf_count r))
        with (S (Z.to_nat (buf_count r - 1))) by lia.
      cbn [zrange map]. f_equal.
      rewrite map_zrange_shift. apply map_ext_in.
      intros i Hi. apply zrange_In in Hi.
      unfold queued; cbn [event_buffer buf_read_idx].
      rewrite (rem16 (buf_read_idx r + 1)) by lia.
      assert (0 <= (buf_read_idx r + 1) mod 16 < 16) by zmod.
      rewrite !rem16 by lia.
      replace (((buf_read_idx r + 1) mod 16 + i) mod 16)
        with ((buf_read_idx r + (i + 1)) mod 16) by zmod.
      f_equal. symmetry.
      rewrite slot_zset_other by (try lia; zmod).
      unfold b1, calculate_delta_f0.
      apply slot_zset_other; try lia; zmod.
    + cbn. unfold queued. rewrite rem16 by lia.
      rewrite Z.add_0_r, Z.mod_small by lia.
      unfold b1, calculate_delta_f0.
      rewrite slot_zset_same by lia. reflexivity.
Qed.
End Queue.

(* ------------------------------------------------------------------ *)
(** * Emission needs trailing context *)

Section Emission.
Context {F : Type} {FO : FloatOps F} {X : Extractors F}.

Ltac zmod := unfold PROMINENCE_BUFFER_SIZE in *; Z.div_mod_to_equations; lia.

(** The emission loop writes the oldest pending events in order, each one
    while more than [c] events are pending, and stops early only when no
    more than [c] are left. *)
Lemma emit_loop_queue (room : nat) (accent : F -> bool) (c : Z) :
  forall d : SyllableDetector F,
    0 <= c -> ring_wf (ring d) ->
    let d' := fst (emit_loop room accent c d) in
    let es := snd (emit_loop room accent c d) in
    ring_wf (ring d')
    /\ stamps (pending (ring d)) = stamps es ++ stamps (pending (ring d'))
    /\ buf_count (ring d') = buf_count (ring d) - Z.of_nat (length es)
    /\ (es <> [] -> c <= buf_count (ring d'))
    /\ ((length es < room)%nat -> buf_count (ring d') <= c).
Proof.
  induction room as [|k IH]; intros d Hc Hwf; cbn [emit_loop].
  - cbn. split; [exact Hwf|]. split; [reflexivity|]. split; [lia|].
    split; [intro H; contradiction | intro; lia].
  - destruct (Z.gtb_spec (buf_count (ring d)) c) as [Hgt|Hle].
    + destruct (emit_oldest_pending accent d Hwf ltac:(lia))
        as (W1 & C1 & e0 & P1 & T1).
      destruct (emit_oldest accent d) as [d1 e]. cbn [fst snd] in *.
      specialize (IH d1 Hc W1).
      destruct (emit_loop k accent c d1) as [d2 es]. cbn [fst snd] in *.
      destruct IH as (W2 & P2 & C2 & N2 & R2).
      split; [exact W2|]. split; [|split; [|split]].
      * rewrite P1. unfold stamps in *. cbn [map app].
        rewrite T1, P2. reflexivity.
      * cbn [length]. lia.
      * intros _. destruct es as [|e' es'].
        { cbn in C2. lia. }
        { apply N2. discriminate. }
      * cbn [length]. intro. apply R2. lia.
    + cbn. split; [exact Hwf|]. split; [reflexivity|]. split; [lia|].
    split; [intro H; contradiction | intro; lia].
Qed.

Lemma machine_step_ring (d : SyllableDetector F) :
  ring (machine_step d) = ring d
  \/ exists e,
       ring (machine_step d) = push_event e (ring d)
       /\ Ev.timestamp_samples e
          = Ev.timestamp_samples (wip_event (machine d))
       /\ state (machine d) = STATE_NUCLEUS
       /\ state (machine (machine_step d)) = STATE_COOLDOWN.
Proof.
  unfold machine_step.
  destruct (state (machine d)) eqn:E.
  - left. unfold idle_step. destruct (onset_decision d); reflexivity.
  - left. reflexivity.
  - unfold nucleus_step. destruct (nucleus_end d).
    + right. eexists. cbn. repeat split.
    + left. reflexivity.
  - left. reflexivity.
Qed.

Lemma machine_step_ring_wf (d : SyllableDetector F) :
  ring_wf (ring d) -> ring_wf (ring (machine_step d)).
Proof.
  intro H. destruct (machine_step_ring d) as [E | (e & E & _)];
    rewrite E; auto. apply push_event_pending. exact H.
Qed.

Lemma ring_wf_empty (r : RingBuffer F) :
  ring_wf r -> buf_count r <= 0 -> pending r = [].
Proof.
  intros (_ & _ & H & _) Hc. unfold pending.
  replace (buf_count r) with 0 by lia. reflexivity.
Qed.

(** C6. During [syllable_process] the emission loop runs with a required
    context of [context_size] in offline mode and of 0 in realtime mode;
    whatever it writes are the oldest pending events, in order, and it
    leaves at least that many newer events pending behind them.  In
    realtime mode (calibration over) nothing stays pending unless the
    output capacity ran out.  [syllable_flush] ignores the context: it
    writes the oldest pending events in order and, given capacity for all
    of them, writes them all.  The context size is non-negative and at
    most half the ring size (the range in which the context loops stay
    inside their arrays). *)
Theorem emission_waits_for_context (d : SyllableDetector F) :
  ring_wf (ring d) ->
  0 <= context_size (config d) ->
  2 * context_size (config d) <= PROMINENCE_BUFFER_SIZE ->
  context_needed (config d)
  = (if realtime_mode (config d) then 0 else context_size (config d))
  /\ (forall (x : F) (room : nat),
        let d1 := machine_step (front_end d x) in
        let d' := fst (process_sample d x room) in
        let es := snd (process_sample d x room) in
        ring_wf (ring d')
        /\ (es <> [] ->
            stamps (pending (ring d1))
            = stamps es ++ stamps (pending (ring d'))
            /\ context_needed (config d)
               <= Z.of_nat (length (pending (ring d'))))
        /\ (realtime_mode (config d) = true ->
            is_calibrating (rt_cal d') = false ->
            (length es < room)%nat ->
            pending (ring d') = []))
  /\ (forall max_events : Z,
        let d' := fst (syllable_flush d max_events) in
        let es := snd (syllable_flush d max_events) in
        stamps (pending (ring d)) = stamps es ++ stamps (pending (ring d'))
        /\ (buf_count (ring d) <= max_events ->
            pending (ring d') = []
            /\ Z.of_nat (length es) = buf_count (ring d))).
Proof.
  intros Hwf Hctx _. split; [reflexivity|]. split.
  - intros x room. cbv zeta. unfold process_sample.
    destruct (front_end_frame d x) as (A1 & A2 & A3 & A4 & A5).
    destruct (machine_step_frame (front_end d x)) as (B1 & B2 & B3).
    assert (Hwf1 : ring_wf (ring (machine_step (front_end d x))))
      by (apply machine_step_ring_wf; rewrite A3; exact Hwf).
    assert (Hcn : 0 <= context_needed
                        (config (machine_step (front_end d x)))).
    { rewrite B1, A1. unfold context_needed.
      destruct (realtime_mode (config d)); lia. }
    destruct (realtime_mode (config (front_end d x))
              && is_calibrating (rt_cal (front_end d x))) eqn:E.
    + cbn [fst snd]. rewrite A3. split; [exact Hwf|]. split.
      * congruence.
      * intros Hrt Hcal _. rewrite A1, Hrt in E. cbn in E. congruence.
    + destruct (emit_loop_queue room process_accent
                  (context_needed (config (machine_step (front_end d x))))
                  (machine_step (front_end d x)) Hcn Hwf1)
        as (W & P & C & N & R).
      destruct (emit_loop room process_accent _ _) as [d2 es].
      cbn [fst snd] in *. split; [exact W|]. split.
      * intro Hne. split; [exact P|].
        rewrite pending_length by (destruct W as (_ & _ & ? & _); lia).
        rewrite <- A1, <- B1. apply N. exact Hne.
      * intros Hrt _ Hroom. apply ring_wf_empty; [exact W|].
        specialize (R Hroom). rewrite B1, A1 in R.
        unfold context_needed in R. rewrite Hrt in R. exact R.
  - intro max_events. cbv zeta. unfold syllable_flush.
    destruct (emit_loop_queue (Z.to_nat max_events) flush_accent 0 d
                ltac:(lia) Hwf) as (W & P & C & N & R).
    destruct (emit_loop (Z.to_nat max_events) flush_accent 0 d) as [d2 es].
    cbn [fst snd] in *. split; [exact P|].
    intro Hcap.
    assert (Hz : buf_count (ring d2) <= 0).
    { destruct (Nat.lt_ge_cases (length es) (Z.to_nat max_events)).
      - apply R. assumption.
      - destruct Hwf as (_ & _ & ? & _). lia. }
    split; [apply ring_wf_empty; assumption|].
    destruct W as (_ & _ & ? & _). lia.
Qed.
End Emission.

(* ------------------------------------------------------------------ *)
(** * Timestamps are increasing and separated by the minimum distance *)

Section Spacing.






End Spacing.

Section Timestamps.
Context {F : Type} {FO : FloatOps F} {X : Extractors F}.


Lemma keep_max_stamp (cur : F)
    (setter : F -> SyllableEvent F -> SyllableEvent F)
    (get : SyllableEvent F -> F) (e : SyllableEvent F) :
  (forall v e', Ev.timestamp_samples (setter v e')
                = Ev.timestamp_samples e') ->
  Ev.timestamp_samples (keep_max cur setter get e) = Ev.timestamp_samples e.
Proof. intro H. unfold keep_max. destruct (fltb _ _); auto. Qed.

Lemma onset_rising_step_machine (d : SyllableDetector F) :
  let mc := machine d in
  let mc' := machine (onset_rising_step d) in
  Ev.timestamp_samples (wip_event mc') = Ev.timestamp_samples (wip_event mc)
  /\ state_timer mc' = state_timer mc + 1
  /\ state mc' <> STATE_IDLE
  /\ ring (onset_rising_step d) = ring d.
Proof.
  unfold onset_rising_step. cbn [machine set_machine wip_event state_timer
                                   state ring].
  split; [|split; [reflexivity|split; [|reflexivity]]].
  - match goal with
    | |- Ev.timestamp_samples (if ?c then with_pr_slope ?v ?w else ?w) = _ =>
        transitivity (Ev.timestamp_samples w);
          [destruct c; reflexivity|]
    end.
    rewrite !keep_max_stamp by reflexivity.
    repeat match goal with
           | |- context [if ?c then _ else _] => destruct c
           end; reflexivity.
  - repeat match goal with
           | |- context [if ?c then _ else _] => destruct c
           end; discriminate.
Qed.


Lemma u64_succ_small (n : Z) : 0 <= n -> n + 1 < two64 -> u64_succ n = n + 1.
Proof. intros. unfold u64_succ. apply Z.mod_small. lia. Qed.




Lemma samples_in_nonneg (calls : list (Call F)) : 0 <= samples_in calls.
Proof. induction calls as [|[i m|m] t IH]; cbn [samples_in]; lia. Qed.



Lemma fresh_detector_fields (cfg : SyllableConfig F) (rt : option bool) :
  let d := fresh_detector cfg rt in
  length (event_buffer (ring d)) = 16%nat
  /\ buf_read_idx (ring d) = 0 /\ buf_write_idx (ring d) = 0
  /\ buf_count (ring d) = 0
  /\ state (machine d) = STATE_IDLE
  /\ total_samples d = 0
  /\ context_size (config d) = context_size cfg
  /\ min_dist_samples (config d) = min_dist_samples cfg.
Proof.
  destruct rt as [[|]|]; cbn; repeat split.
Qed.

Lemma fresh_detector_inv (cfg : SyllableConfig F) (rt : option bool) :
  timestamps_inv (fresh_detector cfg rt) []
  /\ total_samples (fresh_detector cfg rt) = 0
  /\ context_size (config (fresh_detector cfg rt)) = context_size cfg
  /\ min_dist_samples (config (fresh_detector cfg rt))
     = min_dist_samples cfg.
Proof.
  destruct (fresh_detector_fields cfg rt)
    as (L & R & W & C & S & T & K & M).
  cbv zeta in *.
  split; [|auto].
  unfold timestamps_inv, ring_wf, timing_ok, pending.
  rewrite L, R, W, C, S, T. cbn.
  repeat split; try lia; try (unfold PROMINENCE_BUFFER_SIZE; lia).
  constructor.
Qed.

End Timestamps.

(* ------------------------------------------------------------------ *)
(** * Exact arithmetic: basic facts *)

Section RealFacts.
Local Open Scope R_scope.

Lemma Rltb_true (a b : R) : Rltb a b = true <-> a < b.
Proof. unfold Rltb. destruct (Rlt_dec a b); split; intros; auto; discriminate. Qed.

Lemma Rltb_false (a b : R) : Rltb a b = false <-> b <= a.
Proof.
  unfold Rltb. destruct (Rlt_dec a b); split; intros; auto; try discriminate;
    lra.
Qed.

Lemma Rleb_true (a b : R) : Rleb a b = true <-> a <= b.
Proof. unfold Rleb. destruct (Rle_dec a b); split; intros; auto; discriminate. Qed.

Lemma Rleb_false (a b : R) : Rleb a b = false <-> b < a.
Proof.
  unfold Rleb. destruct (Rle_dec a b); split; intros; auto; try discriminate;
    lra.
Qed.

Lemma clamp_above (c x : R) : (if Rltb c x then c else x) = Rmin c x.
Proof.
  unfold Rmin. destruct (Rltb c x) eqn:E;
    [apply Rltb_true in E | apply Rltb_false in E];
    destruct (Rle_dec c x); lra.
Qed.

Lemma clamp_below (c x : R) : (if Rltb x c then c else x) = Rmax c x.
Proof.
  unfold Rmax. destruct (Rltb x c) eqn:E;
    [apply Rltb_true in E | apply Rltb_false in E];
    destruct (Rle_dec c x); lra.
Qed.

Lemma Rtrunc_IZR (z : Z) : Rtrunc (IZR z) = z.
Proof.
  unfold Rtrunc. destruct (Rle_dec 0 (IZR z)) as [H|H].
  - symmetry. apply Int_part_spec. lra.
  - rewrite <- opp_IZR.
    replace (Int_part (IZR (- z))) with (- z)%Z; [lia|].
    apply Int_part_spec. lra.
Qed.

Lemma Rtrunc_small (x : R) : 0 <= x < 1 -> Rtrunc x = 0%Z.
Proof.
  intro H. unfold Rtrunc. destruct (Rle_dec 0 x); [|lra].
  symmetry. apply Int_part_spec. cbn. lra.
Qed.
End RealFacts.

(** Unfold the operations of [RFloat]; a literal [lit q] is the real
    number written [q]. *)
Ltac real_ops :=
  cbn [lit fadd fsub fmul fdiv fneg fltb fleb fabsf sqrtf expf logf log2f
       powf fminf sinf cosf tanf itof ftoi RFloat].

(** Integer-valued literals are written as integers. *)
Ltac int_lits :=
  repeat match goal with
         | |- context [Q2R (?n # 1)] =>
             replace (Q2R (n # 1)) with (IZR n) by lra
         end.

(** Literals written with an exponent are brought to a plain fraction. *)
Ltac sci_lits :=
  repeat match goal with
         | |- context [Q2R (Qdiv ?a ?b)] =>
             let v := eval vm_compute in (Qred (Qdiv a b)) in
             replace (Q2R (Qdiv a b)) with (Q2R v)
               by (unfold Q2R; cbn; lra)
         end.

(** Settle the comparisons that linear arithmetic decides. *)
Ltac decide_lt :=
  repeat match goal with
         | |- context [Rltb ?a ?b] =>
             first [ replace (Rltb a b) with false
                       by (symmetry; apply Rltb_false; lra)
                   | replace (Rltb a b) with true
                       by (symmetry; apply Rltb_true; lra) ]
         end.

(* ------------------------------------------------------------------ *)
(** * The EMA coefficient of the feature statistics *)

Section EmaCoefficient.
Context {X : Extractors R}.
Local Open Scope R_scope.

(** The coefficient computed by [init_feature_stats] is the first-order
    value [1 / (tau_s * fs)], clamped to 1, and [update_feature_stats]
    uses it unchanged in the running mean and variance. *)
Lemma feature_stats_alpha (tau_ms : R) (fs : Z) (s : FeatureStats R)
    (v : R) :
  alpha (init_feature_stats tau_ms fs)
  = Rmin 1 (1 / (tau_ms * 0.001 * IZR fs))
  /\ alpha (update_feature_stats s v) = alpha s
  /\ mean (update_feature_stats s v) = mean s + alpha s * (v - mean s)
  /\ var (update_feature_stats s v)
     = (1 - alpha s) * (var s + alpha s * (v - mean s) * (v - mean s)).
Proof.
  unfold init_feature_stats, update_feature_stats. cbn [alpha mean var].
  real_ops. repeat split; try lra.
  rewrite clamp_above. f_equal; [lra|]. unfold Rdiv. f_equal. lra.
Qed.

(** C7 at the default time constant (500 ms) and 16 kHz: the code stores
    [1/8000], which is not [1 - exp(-1/(tau*fs))], whether [tau] is read in
    seconds or in milliseconds. *)
Theorem default_alpha_is_not_exponential :
  alpha (init_feature_stats (F := R) 500 16000) = 1 / 8000
  /\ alpha (init_feature_stats (F := R) 500 16000)
     <> spec_ema_alpha 0.5 16000
  /\ alpha (init_feature_stats (F := R) 500 16000)
     <> spec_ema_alpha 500 16000.
Proof.
  destruct (feature_stats_alpha 500 16000
              (init_feature_stats 500 16000) 0) as (A & _).
  assert (E : alpha (init_feature_stats (F := R) 500 16000) = 1 / 8000).
  { rewrite A. unfold Rmin.
    destruct (Rle_dec 1 (1 / (500 * 0.001 * 16000))) as [H|H]; lra. }
  rewrite E. unfold spec_ema_alpha.
  split; [reflexivity|]. split.
  - pose proof (exp_ineq1 (- (1 / (0.5 * 16000))) ltac:(lra)). lra.
  - pose proof (exp_ineq1 (- (1 / (500 * 16000))) ltac:(lra)).
    pose proof (exp_pos (- (1 / (500 * 16000)))). lra.
Qed.
End EmaCoefficient.

(* ------------------------------------------------------------------ *)
(** * Offline fusion: the weights renormalize over the enabled features *)

Section FusionWeights.
Context {X : Extractors R}.
Local Open Scope R_scope.

(** [effective_weights] are the coefficients of the code: the weighted
    average of [compute_fusion_score] is their dot product with the
    normalized values (a disabled extractor contributes the value 0 that
    the code assigns to it, with coefficient 0). *)
Lemma fusion_weighted_avg_is_dot (cfg : SyllableConfig R)
    (has_sf has_hf has_mfcc has_wav : bool)
    (n_pr n_sf n_hf n_mfcc n_wav voiced_bonus : R) :
  fusion_weighted_avg cfg has_sf has_hf has_mfcc has_wav
    n_pr n_sf n_hf n_mfcc n_wav voiced_bonus
  = dot (effective_weights cfg has_sf has_hf has_mfcc has_wav)
        [n_pr; n_sf; n_hf; n_mfcc; n_wav; voiced_bonus].
Proof.
  unfold fusion_weighted_avg, effective_weights, fusion_weighted_sum.
  set (w := fusion_weight_total cfg has_sf has_hf has_mfcc has_wav).
  real_ops.
  replace (Rltb (Q2R 0) w) with (Rltb 0 w)
    by (f_equal; lra).
  destruct (Rltb 0 w) eqn:E;
    [apply Rltb_true in E | apply Rltb_false in E];
    destruct has_sf, has_hf, has_mfcc, has_wav;
    unfold dot, Rsum, add_if; cbn; real_ops;
    try (field; lra); lra.
Qed.

(** C8, as amended.  Whenever the accumulated weight total (peak rate,
    enabled optional features, voiced bonus) is positive, the effective
    weights of the features and of the voiced bonus together sum to 1 (the
    feature weights alone sum to 1 minus the share of the voiced bonus),
    and a disabled feature has weight 0 and no influence on the weighted
    average. *)
Theorem enabled_weights_sum_to_one (cfg : SyllableConfig R)
    (has_sf has_hf has_mfcc has_wav : bool) :
  0 < fusion_weight_total cfg has_sf has_hf has_mfcc has_wav ->
  Rsum (effective_weights cfg has_sf has_hf has_mfcc has_wav) = 1
  /\ Rsum (firstn 5 (effective_weights cfg has_sf has_hf has_mfcc has_wav))
     = 1 - weight_voiced_bonus cfg
           / fusion_weight_total cfg has_sf has_hf has_mfcc has_wav
  /\ (has_sf = false ->
      nth 1 (effective_weights cfg has_sf has_hf has_mfcc has_wav) 0 = 0)
  /\ (has_hf = false ->
      nth 2 (effective_weights cfg has_sf has_hf has_mfcc has_wav) 0 = 0)
  /\ (has_mfcc = false ->
      nth 3 (effective_weights cfg has_sf has_hf has_mfcc has_wav) 0 = 0)
  /\ (has_wav = false ->
      nth 4 (effective_weights cfg has_sf has_hf has_mfcc has_wav) 0 = 0)
  /\ forall n_pr n_sf n_hf n_mfcc n_wav voiced_bonus : R,
       fusion_weighted_avg cfg has_sf has_hf has_mfcc has_wav
         n_pr n_sf n_hf n_mfcc n_wav voiced_bonus
       = dot (effective_weights cfg has_sf has_hf has_mfcc has_wav)
             [n_pr; n_sf; n_hf; n_mfcc; n_wav; voiced_bonus].
Proof.
  intro Hw.
  assert (E : Rltb 0 (fusion_weight_total cfg has_sf has_hf has_mfcc
                        has_wav) = true) by (apply Rltb_true; exact Hw).
  split; [|split; [|repeat split; try apply fusion_weighted_avg_is_dot]].
  - unfold effective_weights.
    rewrite E. revert Hw. unfold fusion_weight_total, add_if.
    destruct has_sf, has_hf, has_mfcc, has_wav; cbn; real_ops;
      intro Hw; field; lra.
  - unfold effective_weights.
    rewrite E. revert Hw. unfold fusion_weight_total, add_if.
    destruct has_sf, has_hf, has_mfcc, has_wav; cbn; real_ops;
      intro Hw; field; lra.
  - intros ->. unfold effective_weights.
    destruct (Rltb 0 _); cbn; lra.
  - intros ->. unfold effective_weights.
    destruct (Rltb 0 _); cbn; lra.
  - intros ->. unfold effective_weights.
    destruct (Rltb 0 _); cbn; lra.
  - intros ->. unfold effective_weights.
    destruct (Rltb 0 _); cbn; lra.
Qed.

End FusionWeights.

Section WeightCounterexample.
Local Open Scope R_scope.

(** C8 as stated fails.  The code divides by the feature weights plus the
    weight of the voiced bonus, which is no feature: with the default
    configuration and every optional feature present the total is 1.1 and
    the effective weights of the five features sum to 10/11; with spectral
    flux absent they sum to 15/17.  And when all weights are zero the code
    skips the division and the weights sum to 0. *)
Lemma default_feature_weights_do_not_sum_to_one :
  Rsum (firstn 5 (effective_weights (X := NoExtractors R) demo_config
                    true true true true)) = 10 / 11
  /\ Rsum (firstn 5 (effective_weights (X := NoExtractors R) demo_config
                       true true true true)) <> 1
  /\ Rsum (firstn 5 (effective_weights (X := NoExtractors R) demo_config
                       false true true true)) = 15 / 17
  /\ fusion_weight_total zero_weight_config true true true true = 0
  /\ Rsum (effective_weights (X := NoExtractors R) zero_weight_config
             true true true true) = 0.
Proof.
  assert (A : Rsum (firstn 5 (effective_weights (X := NoExtractors R)
                                demo_config true true true true))
              = 10 / 11).
  { unfold effective_weights, fusion_weight_total, add_if, demo_config,
      syllable_default_config.
    cbn [weight_peak_rate weight_spectral_flux weight_high_freq
         weight_mfcc_delta weight_wavelet weight_voiced_bonus].
    real_ops.
    replace (Rltb 0 (0.30 + 0.25 + 0.15 + 0.10 + 0.20 + 0.10)) with true
      by (symmetry; apply Rltb_true; lra).
    cbn. lra. }
  assert (B : Rsum (firstn 5 (effective_weights (X := NoExtractors R)
                                demo_config false true true true))
              = 15 / 17).
  { unfold effective_weights, fusion_weight_total, add_if, demo_config,
      syllable_default_config.
    cbn [weight_peak_rate weight_spectral_flux weight_high_freq
         weight_mfcc_delta weight_wavelet weight_voiced_bonus].
    real_ops.
    replace (Rltb 0 (0.30 + 0.15 + 0.10 + 0.20 + 0.10)) with true
      by (symmetry; apply Rltb_true; lra).
    cbn. lra. }
  assert (T : fusion_weight_total zero_weight_config true true true true
              = 0).
  { unfold fusion_weight_total, add_if, zero_weight_config. cbn.
    real_ops. lra. }
  assert (S : Rsum (effective_weights (X := NoExtractors R)
                      zero_weight_config true true true true) = 0).
  { unfold effective_weights. rewrite T.
    replace (Rltb 0 0) with false by (symmetry; apply Rltb_false; lra).
    unfold zero_weight_config. cbn. lra. }
  split; [exact A|]. split; [rewrite A; lra|].
  split; [exact B|]. split; [exact T|exact S].
Qed.
End WeightCounterexample.

(* ------------------------------------------------------------------ *)
(** * Realtime fusion: saturated geometric mean of the ratios above 1 *)

Section RealtimeFusion.
Context {X : Extractors R}.
Local Open Scope R_scope.






End RealtimeFusion.

(* ------------------------------------------------------------------ *)
(** * Calibration thresholds: mean plus gamma times standard deviation *)

Section CalibrationThresholds.
Context {X : Extractors R}.
Local Open Scope R_scope.

Lemma cal_sums_fold (row : list R) (ks : list Z) :
  forall s q : R,
    fold_left
      (fun (acc : R * R) (i : Z) =>
         let x := zget row i (lit 0) in
         (fadd (fst acc) x, fadd (snd acc) (fmul x x)))
      ks (s, q)
    = (s + Rsum (map (fun i => zget row i 0) ks),
       q + Rsum (map (fun x => x * x) (map (fun i => zget row i 0) ks))).
Proof.
  induction ks as [|i ks IH]; intros s q; cbn [fold_left map fst snd].
  - unfold Rsum, fold_right. f_equal; lra.
  - rewrite IH. real_ops. int_lits. unfold Rsum. cbn [fold_right].
    f_equal; lra.
Qed.

(** The variance computed as mean of squares minus squared mean is the
    mean squared deviation. *)
Lemma mean_square_deviation (l : list R) :
  l <> [] ->
  Rsum (map (fun x => (x - spec_mean l) * (x - spec_mean l)) l)
  / INR (length l)
  = Rsum (map (fun x => x * x) l) / INR (length l)
    - spec_mean l * spec_mean l.
Proof.
  intro Hne.
  assert (Hn : 0 < INR (length l)).
  { destruct l; [congruence|]. apply lt_0_INR. cbn. lia. }
  assert (G : forall m : R,
             Rsum (map (fun x => (x - m) * (x - m)) l)
             = Rsum (map (fun x => x * x) l) - 2 * m * Rsum l
               + INR (length l) * m * m).
  { intro m. clear. induction l as [|a t IH].
    - cbn. lra.
    - change (Rsum (map (fun x => (x - m) * (x - m)) (a :: t)))
        with ((a - m) * (a - m)
              + Rsum (map (fun x => (x - m) * (x - m)) t)).
      change (Rsum (map (fun x => x * x) (a :: t)))
        with (a * a + Rsum (map (fun x => x * x) t)).
      change (Rsum (a :: t)) with (a + Rsum t).
      change (length (a :: t)) with (S (length t)).
      rewrite S_INR, IH. ring. }
  rewrite G. unfold spec_mean. field. lra.
Qed.

Lemma zget_map_zrange {B : Type} (f : Z -> B) (n : nat) (k : Z) (dflt : B) :
  (0 <= k < Z.of_nat n)%Z -> zget (map f (zrange 0 n)) k dflt = f k.
Proof.
  intro H. unfold zget. destruct (Z.ltb_spec k 0); [lia|].
  assert (G : forall (lo : Z) (m : nat),
             (m < n)%nat ->
             nth m (map f (zrange lo n)) dflt = f (lo + Z.of_nat m)%Z).
  { clear. induction n as [|n IH]; intros lo m Hm; [lia|].
    destruct m as [|m]; cbn [zrange map nth].
    - f_equal. lia.
    - rewrite IH by lia. f_equal. lia. }
  rewrite G by lia. f_equal. lia.
Qed.

Lemma calibrated_thresh_spec (g : R) (row : list R) (n : Z) :
  (10 <= n)%Z ->
  let frames := map (fun i => zget row i 0) (zrange 0 (Z.to_nat n)) in
  calibrated_thresh g row n
  = Rmax 1e-6 (spec_mean frames + g * spec_std frames).
Proof.
  intros Hn frames. unfold calibrated_thresh.
  destruct (Z.ltb_spec n 10); [lia|].
  unfold cal_sums. rewrite cal_sums_fold. fold frames.
  cbn [fst snd]. real_ops. int_lits.
  assert (Hlen : INR (length frames) = IZR n).
  { unfold frames. rewrite length_map, zrange_length, INR_IZR_INZ.
    f_equal. lia. }
  assert (Hne : frames <> []).
  { intro E. rewrite E in Hlen. cbn in Hlen.
    assert (10 <= IZR n) by (apply IZR_le; exact Hn). lra. }
  assert (Hm : (0 + Rsum frames) / IZR n = spec_mean frames)
    by (unfold spec_mean; rewrite Hlen; f_equal; lra).
  rewrite Hm.
  set (v := (0 + Rsum (map (fun x => x * x) frames)) / IZR n
            - spec_mean frames * spec_mean frames).
  assert (Hv : v = Rsum (map (fun x => (x - spec_mean frames)
                                       * (x - spec_mean frames)) frames)
                   / INR (length frames)).
  { rewrite (mean_square_deviation frames Hne), Hlen. unfold v. f_equal.
    f_equal. lra. }
  assert (Hs : (if Rltb 0 v then sqrt v else 0) = spec_std frames).
  { unfold spec_std. rewrite <- Hv.
    destruct (Rltb 0 v) eqn:E; [reflexivity|].
    apply Rltb_false in E. symmetry. apply sqrt_neg_0. exact E. }
  rewrite Hs. apply clamp_below.
Qed.

(** C5. When calibration finalizes with at least 10 buffered frames, each
    of the six thresholds is [mean + gamma * std] over the buffered frames
    of its feature, with [gamma = 10^(snr_db / 10)], floored at [1e-6];
    [update_rt_calibration] finalizes exactly when the sample count
    reaches the target. *)
Theorem calibration_thresholds (d : SyllableDetector R) (k : Z) :
  (10 <= cal_frame_count d)%Z ->
  (0 <= k < RT_NUM_FEATURES)%Z ->
  let d' := finalize_rt_calibration d in
  let frames := cal_frames d k (cal_frame_count d) in
  let g := Rpower 10 (snr_threshold_db (config d) / 10) in
  gamma (rt_cal d') = g
  /\ zget (thresh (rt_cal d')) k 0
     = Rmax 1e-6 (spec_mean frames + g * spec_std frames)
  /\ 1e-6 <= zget (thresh (rt_cal d')) k 0
  /\ is_calibrating (rt_cal d') = false
  /\ (forall d0 : SyllableDetector R,
        update_rt_calibration d0
        = if (cal_sample_count (rt_cal d0) + 1
              >=? target_samples (rt_cal d0))%Z
          then finalize_rt_calibration (store_frame d0)
          else store_frame d0).
Proof.
  intros Hn Hk d' frames g.
  assert (Hg : gamma (rt_cal d') = g).
  { unfold d', finalize_rt_calibration, g. cbn. real_ops. int_lits.
    reflexivity. }
  assert (Ht : zget (thresh (rt_cal d')) k 0
               = Rmax 1e-6 (spec_mean frames + g * spec_std frames)).
  { unfold d', finalize_rt_calibration.
    cbn [rt_cal set_rt_cal thresh].
    rewrite zget_map_zrange by (unfold RT_NUM_FEATURES in *; lia).
    replace (if (buf_idx (rt_cal d) <? RT_BUF_SIZE)%Z
             then buf_idx (rt_cal d) else RT_BUF_SIZE)
      with (cal_frame_count d).
    - rewrite calibrated_thresh_spec by exact Hn.
      unfold frames, cal_frames, g. real_ops. int_lits. reflexivity.
    - unfold cal_frame_count.
      destruct (Z.ltb_spec (buf_idx (rt_cal d)) RT_BUF_SIZE); lia. }
  split; [exact Hg|]. split; [exact Ht|]. split; [|split].
  - rewrite Ht. apply Rmax_l.
  - reflexivity.
  - intro d0. reflexivity.
Qed.
End CalibrationThresholds.

(* ------------------------------------------------------------------ *)
(** * The theorems at concrete detectors *)

Section CalibrationLength.
Context {F : Type} {FO : FloatOps F} {X : Extractors F}.

Lemma store_frame_fields (d : SyllableDetector F) :
  cal_sample_count (rt_cal (store_frame d)) = cal_sample_count (rt_cal d) + 1
  /\ buf_idx (rt_cal (store_frame d)) = buf_idx (rt_cal d) + 1
  /\ target_samples (rt_cal (store_frame d)) = target_samples (rt_cal d)
  /\ is_calibrating (rt_cal (store_frame d)) = is_calibrating (rt_cal d)
  /\ config (store_frame d) = config d.
Proof. unfold store_frame. cbn. repeat split. Qed.

(** While fewer samples than the target have been collected, a sample
    leaves the detector calibrating. *)
Lemma front_end_keeps_calibrating (d : SyllableDetector F) (x : F) :
  realtime_mode (config d) = true ->
  is_calibrating (rt_cal d) = true ->
  cal_sample_count (rt_cal d) + 1 < target_samples (rt_cal d) ->
  is_calibrating (rt_cal (front_end d x)) = true
  /\ cal_sample_count (rt_cal (front_end d x))
     = cal_sample_count (rt_cal d) + 1
  /\ target_samples (rt_cal (front_end d x)) = target_samples (rt_cal d).
Proof.
  intros Hrt Hcal Hlt. unfold front_end.
  pose proof (agc_stage_frame d x) as A.
  destruct (agc_stage d x) as [d1 s]. cbn [fst] in A.
  destruct A as (A1 & _ & _ & A4 & _).
  destruct (voicing_stage_frame d1 s) as (B1 & _ & _ & B4 & _).
  destruct (energy_stage_frame (voicing_stage d1 s) s)
    as (C1 & _ & _ & C4 & _).
  destruct (feature_stage_frame (energy_stage (voicing_stage d1 s) s) s)
    as (D1 & _ & _ & D4 & _).
  set (d4 := feature_stage (energy_stage (voicing_stage d1 s) s) s) in *.
  destruct (fusion_stage_frame (calibration_stage d4)) as (_ & _ & _ & G & _).
  rewrite G. unfold calibration_stage.
  assert (E1 : config d4 = config d) by congruence.
  assert (E2 : rt_cal d4 = rt_cal d) by congruence.
  rewrite E1, E2, Hrt, Hcal. cbn [andb].
  unfold update_rt_calibration.
  destruct (store_frame_fields d4) as (S1 & S2 & S3 & S4 & S5).
  rewrite E2 in *.
  destruct (Z.geb_spec (cal_sample_count (rt_cal (store_frame d4)))
              (target_samples (rt_cal (store_frame d4)))); [lia|].
  repeat split; congruence.
Qed.

Lemma process_from_keeps_calibrating (input : list F) :
  forall (d : SyllableDetector F) (max_events : Z)
         (out : list (SyllableEvent F)),
    realtime_mode (config d) = true ->
    is_calibrating (rt_cal d) = true ->
    cal_sample_count (rt_cal d) + Z.of_nat (length input)
    < target_samples (rt_cal d) ->
    is_calibrating (rt_cal (fst (process_from d input max_events out)))
    = true.
Proof.
  induction input as [|x rest IH]; intros d max_events out Hrt Hcal Hlt;
    cbn [process_from].
  - exact Hcal.
  - cbn [length] in Hlt.
    destruct (front_end_keeps_calibrating d x Hrt Hcal ltac:(lia))
      as (K1 & K2 & K3).
    destruct (front_end_frame d x) as (A1 & _).
    unfold process_sample. rewrite A1, Hrt, K1. cbn [andb].
    apply IH; [congruence | exact K1 | lia].
Qed.
End CalibrationLength.

Section Witnesses.
Local Open Scope R_scope.

Lemma demo_target_samples :
  target_samples (rt_cal demo_calibrating) = 32000%Z.
Proof.
  unfold demo_calibrating, syllable_set_realtime_mode.
  cbn [rt_cal set_rt_cal fresh_calibration target_samples config set_config
       with_realtime_mode calibration_duration_ms sample_rate].
  unfold demo_detector, syllable_create, syllable_reset.
  cbn [config create_fields demo_config syllable_default_config
       calibration_duration_ms sample_rate Z.gtb Z.compare].
  real_ops.
  match goal with
  | |- Rtrunc ?e = _ => replace e with (IZR 32000) by lra
  end.
  apply Rtrunc_IZR.
Qed.

Lemma calibration_is_quiescent_witness :
  realtime_mode (config demo_calibrating) = true
  /\ syllable_is_calibrating
       (fst (syllable_process demo_calibrating [0; 0] 4)) = true
  /\ (snd (syllable_process demo_calibrating [0; 0] 4) = []
      /\ machine (fst (syllable_process demo_calibrating [0; 0] 4))
         = machine demo_calibrating
      /\ ring (fst (syllable_process demo_calibrating [0; 0] 4))
         = ring demo_calibrating).
Proof.
  assert (H1 : realtime_mode (config demo_calibrating) = true)
    by reflexivity.
  assert (H2 : syllable_is_calibrating
                 (fst (syllable_process demo_calibrating [0; 0] 4)) = true).
  { unfold syllable_is_calibrating, syllable_process.
    apply process_from_keeps_calibrating; [exact H1 | reflexivity |].
    rewrite demo_target_samples.
    change (cal_sample_count (rt_cal demo_calibrating)) with 0%Z.
    cbn [length]. lia. }
  split; [exact H1|]. split; [exact H2|].
  exact (calibration_is_quiescent demo_calibrating [0; 0] 4 H1 H2).
Defined.


Lemma demo_twelve_frames_count : cal_frame_count demo_twelve_frames = 12%Z.
Proof.
  unfold cal_frame_count, demo_twelve_frames. cbn [Nat.iter].
  repeat match goal with
         | |- context [buf_idx (rt_cal (store_frame ?d))] =>
             replace (buf_idx (rt_cal (store_frame d)))
               with (buf_idx (rt_cal d) + 1)%Z by reflexivity
         end.
  change (buf_idx (rt_cal demo_calibrating)) with 0%Z.
  reflexivity.
Qed.

Lemma calibration_thresholds_witness :
  (10 <= cal_frame_count demo_twelve_frames)%Z
  /\ (0 <= 0 < RT_NUM_FEATURES)%Z
  /\ (gamma (rt_cal (finalize_rt_calibration demo_twelve_frames))
      = Rpower 10 (snr_threshold_db (config demo_twelve_frames) / 10)
      /\ zget (thresh (rt_cal (finalize_rt_calibration demo_twelve_frames)))
              0 0
         = Rmax 1e-6
             (spec_mean (cal_frames demo_twelve_frames 0
                           (cal_frame_count demo_twelve_frames))
              + Rpower 10 (snr_threshold_db (config demo_twelve_frames) / 10)
                * spec_std (cal_frames demo_twelve_frames 0
                              (cal_frame_count demo_twelve_frames)))
      /\ 1e-6 <= zget (thresh (rt_cal (finalize_rt_calibration
                                         demo_twelve_frames))) 0 0
      /\ is_calibrating (rt_cal (finalize_rt_calibration
                                   demo_twelve_frames)) = false
      /\ (forall d0 : SyllableDetector R (X := NoExtractors R),
            update_rt_calibration d0
            = if (cal_sample_count (rt_cal d0) + 1
                  >=? target_samples (rt_cal d0))%Z
              then finalize_rt_calibration (store_frame d0)
              else store_frame d0)).
Proof.
  assert (H1 : (10 <= cal_frame_count demo_twelve_frames)%Z)
    by (rewrite demo_twelve_frames_count; lia).
  assert (H2 : (0 <= 0 < RT_NUM_FEATURES)%Z)
    by (unfold RT_NUM_FEATURES; lia).
  split; [exact H1|]. split; [exact H2|].
  exact (calibration_thresholds demo_twelve_frames 0 H1 H2).
Defined.

Lemma demo_detector_ring_wf : ring_wf (ring demo_detector).
Proof.
  exact (proj1 (proj1 (fresh_detector_inv (X := NoExtractors R)
                         demo_config None))).
Qed.

Lemma enabled_weights_sum_to_one_witness :
  0 < fusion_weight_total demo_config true true true true
  /\ Rsum (effective_weights (X := NoExtractors R) demo_config
             true true true true) = 1.
Proof.
  assert (H : 0 < fusion_weight_total demo_config true true true true).
  { unfold fusion_weight_total, add_if, demo_config,
      syllable_default_config. cbn. real_ops. lra. }
  split; [exact H|].
  exact (proj1 (enabled_weights_sum_to_one (X := NoExtractors R)
                  demo_config true true true true H)).
Defined.

Lemma snr_threshold_does_not_retune_witness :
  realtime_mode (config demo_calibrated) = true
  /\ is_calibrating (rt_cal demo_calibrated) = false
  /\ thresh (rt_cal (syllable_set_snr_threshold demo_calibrated 0))
     = thresh (rt_cal demo_calibrated)
  /\ forall calls : list (Call R),
       snd (run (syllable_set_snr_threshold demo_calibrated 0) calls)
       = snd (run demo_calibrated calls).
Proof.
  assert (H1 : realtime_mode (config demo_calibrated) = true)
    by reflexivity.
  assert (H2 : is_calibrating (rt_cal demo_calibrated) = false)
    by reflexivity.
  split; [exact H1|]. split; [exact H2|].
  destruct (snr_threshold_does_not_retune demo_calibrated 0 H1 H2)
    as (_ & _ & _ & T & C).
  split; [exact T|]. intro calls. exact (proj1 (C calls)).
Defined.
End Witnesses.

(* ------------------------------------------------------------------ *)
(** * Reset does not restore the post-construction state *)

Section ResetIsNotCreate.
Context {X : Extractors R}.
Local Open Scope R_scope.

Lemma zff_window_one_out (z : ZFF R) (x : R) :
  zff_window_one z ->
  zff_window_one (fst (zff_process z x)) /\ snd (zff_process z x) = 0.
Proof.
  intros (Hs & Hp & Hb). unfold zff_process, zff_window_one.
  cbn [fst snd trend_buf_size trend_write_pos trend_buffer trend_accum].
  rewrite Hs, Hp, Hb. cbn [zget zset Z.ltb Z.compare Z.to_nat nth set_nth
                            Z.add Z.geb Pos.add Pos.compare Pos.compare_cont].
  real_ops. int_lits.
  split; [repeat split; f_equal; lra | field].
Qed.

Ltac split_lets :=
  repeat match goal with
         | |- context [let '(_, _) := ?e in _] => destruct e
         | |- context [match ?e with Some _ => _ | None => _ end] => destruct e
         | |- context [match ?e with pair _ _ => _ end] => destruct e
         end.

Lemma energy_stage_voicing (d : SyllableDetector R) (x : R) :
  same_voicing_front d (energy_stage d x).
Proof. unfold same_voicing_front, energy_stage. split_lets. cbn. auto. Qed.

Lemma feature_stage_voicing (d : SyllableDetector R) (x : R) :
  same_voicing_front d (feature_stage d x).
Proof.
  unfold same_voicing_front, feature_stage. split_lets; cbn; auto.
Qed.

Lemma calibration_stage_voicing (d : SyllableDetector R) :
  same_voicing_front d (calibration_stage d).
Proof.
  unfold same_voicing_front, calibration_stage, update_rt_calibration,
    finalize_rt_calibration, store_frame.
  repeat match goal with
         | |- context [if ?c then _ else _] => destruct c
         end; cbn; auto.
Qed.

Lemma fusion_stage_voicing (d : SyllableDetector R) :
  same_voicing_front d (fusion_stage d).
Proof.
  unfold same_voicing_front, fusion_stage. split_lets; cbn; auto.
Qed.

Lemma epochless_transport (d d' : SyllableDetector R) (a : Z) :
  same_voicing_front d d' -> epochless d a -> epochless d' a.
Proof.
  intros (A & B & C & D). unfold epochless. rewrite A, B, C, D. auto.
Qed.

Lemma Rltb_irrefl (a : R) : Rltb a a = false.
Proof. apply Rltb_false. lra. Qed.

(** Without epochs the voiced flag is a matter of counting. *)
Lemma epochless_voicing_stage (d : SyllableDetector R) (a : Z) (x : R) :
  epochless d a ->
  let d' := voicing_stage d x in
  epochless d' (a + 1)
  /\ is_voiced (voicing d') = (a + 1 <=? 8)%Z
  /\ f0_has_risen (voicing d')
     = (if (a + 1 <=? 8)%Z then f0_has_risen (voicing d) else true).
Proof.
  intros (Hc & Ha & Hz & Hl & Hago & Hh & Hs).
  destruct (zff_window_one_out (zff (dsp d)) x Hz) as (Hz' & Ho).
  unfold voicing_stage.
  destruct (zff_process (zff (dsp d)) x) as [z' zff_out].
  cbn [fst snd] in Hz', Ho. subst zff_out.
  rewrite Hl, Hago, Hh, Hs. real_ops.
  replace (Rltb 0 (Q2R 0)) with false
    by (symmetry; apply Rltb_false; lra).
  cbn [andb].
  replace (Rltb (Q2R 50) 0) with false
    by (symmetry; apply Rltb_false; lra).
  unfold epochless.
  cbn [config set_voicing set_dsp voicing dsp agc zff last_zff_val
       last_epoch_samples_ago voiced_hold_samples smoothed_f0 is_voiced
       f0_has_risen].
  replace (a + 1 >? 8)%Z with (negb (a + 1 <=? 8)%Z)
    by (rewrite Z.gtb_ltb, Z.leb_antisym, negb_involutive; reflexivity).
  rewrite negb_involutive.
  split; [|split; [reflexivity|]].
  - split; [exact Hc|]. split; [exact Ha|]. split; [exact Hz'|].
    repeat split.
  - destruct (a + 1 <=? 8)%Z; reflexivity.
Qed.

Lemma epochless_front_end (d : SyllableDetector R) (a : Z) (x : R) :
  epochless d a ->
  let d' := front_end d x in
  epochless d' (a + 1)
  /\ is_voiced (voicing d') = (a + 1 <=? 8)%Z
  /\ f0_has_risen (voicing d')
     = (if (a + 1 <=? 8)%Z then f0_has_risen (voicing d) else true)
  /\ front_end d x
     = fusion_stage
         (calibration_stage
            (feature_stage
               (energy_stage
                  (voicing_stage
                     (set_total_samples (u64_succ (total_samples d)) d) x)
                  x) x)).
Proof.
  intros H. pose proof H as (Hc & Ha & Hz & Hl & Hago & Hh & Hs).
  unfold front_end, agc_stage. rewrite Ha.
  set (d1 := set_total_samples (u64_succ (total_samples d)) _).
  assert (E1 : d1 = set_total_samples (u64_succ (total_samples d)) d).
  { unfold d1. destruct d as [c t m v fh en ft mc r cal]. destruct m.
    cbn in Ha. subst. reflexivity. }
  rewrite E1. clear E1 d1.
  set (d1 := set_total_samples (u64_succ (total_samples d)) d).
  assert (H1 : epochless d1 a) by exact H.
  destruct (epochless_voicing_stage d1 a x H1) as (V1 & V2 & V3).
  cbv zeta in *.
  set (d2 := voicing_stage d1 x) in *.
  pose proof (energy_stage_voicing d2 x) as S3.
  pose proof (feature_stage_voicing (energy_stage d2 x) x) as S4.
  pose proof (calibration_stage_voicing
                (feature_stage (energy_stage d2 x) x)) as S5.
  pose proof (fusion_stage_voicing
                (calibration_stage (feature_stage (energy_stage d2 x) x)))
    as S6.
  assert (S : same_voicing_front d2
                (fusion_stage
                   (calibration_stage
                      (feature_stage (energy_stage d2 x) x)))).
  { unfold same_voicing_front in *.
    destruct S3 as (? & ? & ? & ?), S4 as (? & ? & ? & ?),
             S5 as (? & ? & ? & ?), S6 as (? & ? & ? & ?).
    repeat split; congruence. }
  split; [eapply epochless_transport; eauto|].
  destruct S as (_ & Sv & _). rewrite Sv.
  split; [exact V2|]. split; [exact V3|reflexivity].
Qed.

(** With unvoiced onsets disallowed, an unvoiced sample starts nothing. *)
Lemma unvoiced_no_onset (d : SyllableDetector R) :
  allow_unvoiced_onsets (config d) = false ->
  is_voiced (voicing d) = false ->
  onset_decision d = false.
Proof.
  intros Ha Hv. unfold onset_decision. rewrite Ha, Hv.
  cbn [andb orb negb]. rewrite !andb_false_r. reflexivity.
Qed.

Lemma machine_step_epochless (d : SyllableDetector R) (a : Z) :
  epochless d a -> epochless (machine_step d) a.
Proof.
  intros (Hc & Ha & Hz & Hl & Hago & Hh & Hs).
  unfold machine_step, idle_step, onset_rising_step, nucleus_step,
    cooldown_step.
  destruct (state (machine d)).
  - destruct (onset_decision d); unfold epochless; cbn; auto 10.
  - unfold epochless; cbn; auto 10.
  - destruct (nucleus_end d); unfold epochless; cbn; auto 10.
  - unfold epochless; cbn; auto 10.
Qed.

Lemma emit_loop_voicing (room : nat) (accent : R -> bool) (c : Z) :
  forall d : SyllableDetector R,
    same_voicing_front d (fst (emit_loop room accent c d)).
Proof.
  induction room as [|k IH]; intro d; cbn [emit_loop].
  - cbn. unfold same_voicing_front. auto.
  - destruct (buf_count (ring d) >? c)%Z.
    + specialize (IH (fst (emit_oldest accent d))).
      destruct (emit_oldest accent d) as [d1 e] eqn:E.
      assert (S1 : same_voicing_front d d1).
      { unfold emit_oldest in E. injection E as E _. subst d1.
        unfold same_voicing_front. cbn. auto. }
      cbn [fst] in IH.
      destruct (emit_loop k accent c d1) as [d2 es]. cbn [fst] in *.
      unfold same_voicing_front in *.
      destruct S1 as (? & ? & ? & ?), IH as (? & ? & ? & ?).
      repeat split; congruence.
    + cbn. unfold same_voicing_front. auto.
Qed.

Lemma process_sample_epochless (d : SyllableDetector R) (a : Z) (x : R)
    (room : nat) :
  epochless d a -> epochless (fst (process_sample d x room)) (a + 1).
Proof.
  intro H. destruct (epochless_front_end d a x H) as (E & _).
  unfold process_sample.
  destruct (realtime_mode (config (front_end d x))
            && is_calibrating (rt_cal (front_end d x))).
  - exact E.
  - eapply epochless_transport; [apply emit_loop_voicing|].
    apply machine_step_epochless. exact E.
Qed.

Lemma process_from_epochless (input : list R) :
  forall (d : SyllableDetector R) (a : Z) (max_events : Z)
         (out : list (SyllableEvent R)),
    epochless d a ->
    epochless (fst (process_from d input max_events out))
              (a + Z.of_nat (length input)).
Proof.
  induction input as [|x rest IH]; intros d a max_events out H;
    cbn [process_from].
  - cbn. rewrite Z.add_0_r. exact H.
  - pose proof (process_sample_epochless d a x
      (Z.to_nat (max_events - Z.of_nat (length out))) H) as H1.
    destruct (process_sample d x _) as [d1 es]. cbn [fst] in H1.
    replace (a + Z.of_nat (length (x :: rest)))%Z
      with (a + 1 + Z.of_nat (length rest))%Z by (cbn [length]; lia).
    apply IH. exact H1.
Qed.

(** After the voiced hold has run out, nothing is ever detected again. *)
Lemma process_sample_silent (d : SyllableDetector R) (a : Z) (x : R)
    (room : nat) :
  epochless d a -> (8 <= a)%Z ->
  state (machine d) = STATE_IDLE -> buf_count (ring d) = 0%Z ->
  snd (process_sample d x room) = []
  /\ state (machine (fst (process_sample d x room))) = STATE_IDLE
  /\ buf_count (ring (fst (process_sample d x room))) = 0%Z.
Proof.
  intros H Ha Hst Hcnt.
  destruct (epochless_front_end d a x H) as (E & V & _).
  destruct (front_end_frame d x) as (A1 & A2 & A3 & _).
  pose proof E as (Hc & _).
  unfold process_sample. rewrite Hc. cbn [realtime_mode tiny_config andb].
  unfold machine_step. rewrite A2, Hst. unfold idle_step.
  rewrite unvoiced_no_onset.
  - unfold context_needed. rewrite Hc.
    cbn [realtime_mode tiny_config context_size].
    destruct room as [|k]; cbn [emit_loop].
    + cbn. rewrite A2, A3. auto.
    + rewrite A3, Hcnt. cbn. rewrite A2, A3. auto.
  - rewrite Hc. reflexivity.
  - rewrite V. apply Z.leb_gt. lia.
Qed.

Lemma process_from_silent (input : list R) :
  forall (d : SyllableDetector R) (a : Z) (max_events : Z)
         (out : list (SyllableEvent R)),
    epochless d a -> (8 <= a)%Z ->
    state (machine d) = STATE_IDLE -> buf_count (ring d) = 0%Z ->
    snd (process_from d input max_events out) = out.
Proof.
  induction input as [|x rest IH]; intros d a max_events out H Ha Hst Hcnt;
    cbn [process_from].
  - reflexivity.
  - pose proof (process_sample_silent d a x
      (Z.to_nat (max_events - Z.of_nat (length out))) H Ha Hst Hcnt)
      as (S1 & S2 & S3).
    pose proof (process_sample_epochless d a x
      (Z.to_nat (max_events - Z.of_nat (length out))) H) as H1.
    destruct (process_sample d x _) as [d1 es]. cbn [fst snd] in *.
    subst es. rewrite app_nil_r.
    apply (IH d1 (a + 1)%Z); auto. lia.
Qed.

(** ** The freshly constructed detector *)

Lemma PI_gt_3 : 3 < PI.
Proof. pose proof PI2_3_2. lra. Qed.

Lemma sin_eighth_turn :
  0.7 <= sin (2 * 3.14159265358979323846 * ((0.5 + 1.5) * 0.5) / 8) <= 1.
Proof.
  set (a := 2 * 3.14159265358979323846 * ((0.5 + 1.5) * 0.5) / 8).
  assert (Ha : 0 <= a <= 0.8) by (unfold a; lra).
  pose proof PI_gt_3.
  split; [|apply SIN_bound].
  destruct (SIN a ltac:(lra) ltac:(lra)) as [L _].
  eapply Rle_trans; [|exact L].
  unfold sin_lb, sin_approx, sin_term. cbn [sum_f_R0].
  cbn [Nat.mul Nat.add fact pow]. unfold a. cbn [INR]. lra.
Qed.

Lemma exp_minus_25 : 0 < exp (- (25)) < 1 / 26.
Proof.
  split; [apply exp_pos|].
  pose proof (exp_ineq1 25 ltac:(lra)).
  rewrite exp_Ropp.
  apply Rmult_lt_reg_l with (exp 25); [lra|].
  rewrite Rinv_r by lra. lra.
Qed.

Lemma tiny_create_voicing :
  epochless (syllable_create tiny_config) 0
  /\ f0_has_risen (voicing (syllable_create tiny_config)) = true.
Proof.
  split; [|reflexivity].
  unfold epochless, syllable_create, syllable_reset, zff_window_one.
  cbn [config create_fields dsp voicing agc zff reset_zff zff_init
       last_zff_val last_epoch_samples_ago voiced_hold_samples smoothed_f0
       tiny_config enable_agc sample_rate zff_trend_window_ms voiced_hold_ms
       trend_buf_size trend_write_pos trend_buffer trend_accum].
  real_ops.
  replace (Rtrunc (8 * 10 * 0.001)) with 0%Z
    by (symmetry; apply Rtrunc_small; lra).
  replace (Rtrunc (1000 * 0.001 * 8)) with 8%Z
    by (symmetry; replace (1000 * 0.001 * 8) with (IZR 8) by lra;
        apply Rtrunc_IZR).
  cbn. repeat split; lra.
Qed.

Lemma reset_epochless (d : SyllableDetector R) (a : Z) :
  epochless d a ->
  epochless (syllable_reset d) a
  /\ state (machine (syllable_reset d)) = STATE_IDLE
  /\ buf_count (ring (syllable_reset d)) = 0%Z.
Proof.
  intros (Hc & Ha & (Z1 & Z2 & Z3) & Hl & Hago & Hh & Hs).
  split; [|split; reflexivity].
  unfold epochless, syllable_reset, zff_window_one, reset_zff.
  cbn [config dsp voicing agc zff last_zff_val last_epoch_samples_ago
       voiced_hold_samples smoothed_f0 trend_buf_size trend_write_pos
       trend_buffer trend_accum].
  rewrite Z1, Z3. cbn [Z.gtb Z.compare map].
  repeat split; auto.
Qed.

(** After eight samples and a reset the detector stays silent on every
    input, because the count of samples since the last epoch survived the
    reset. *)
Lemma silent_after_reset (history input : list R) (m1 m2 : Z) :
  (8 <= Z.of_nat (length history))%Z ->
  snd (syllable_process
         (syllable_reset
            (fst (syllable_process (syllable_create tiny_config)
                    history m1)))
         input m2) = [].
Proof.
  intro Hlen. unfold syllable_process.
  destruct tiny_create_voicing as (E0 & _).
  pose proof (process_from_epochless history (syllable_create tiny_config)
                0 m1 [] E0) as E1.
  destruct (reset_epochless _ _ E1) as (E2 & St & Cnt).
  eapply process_from_silent; eauto.
Qed.

(** ** The first sample of the click starts a syllable *)

Lemma later_stages_energy (d : SyllableDetector R) (x : R) :
  let d' := fusion_stage (calibration_stage (feature_stage d x)) in
  current_peak_rate (energy_st d') = current_peak_rate (energy_st d)
  /\ current_energy (energy_st d') = current_energy (energy_st d)
  /\ adaptive_enabled (energy_st d') = adaptive_enabled (energy_st d)
  /\ machine d' = machine d /\ ring d' = ring d.
Proof.
  assert (A : energy_st (feature_stage d x) = energy_st d
              /\ machine (feature_stage d x) = machine d
              /\ ring (feature_stage d x) = ring d).
  { unfold feature_stage. split_lets; cbn; auto. }
  assert (B : forall d0 : SyllableDetector R,
             energy_st (calibration_stage d0) = energy_st d0
             /\ machine (calibration_stage d0) = machine d0
             /\ ring (calibration_stage d0) = ring d0).
  { intro d0.
    unfold calibration_stage, update_rt_calibration,
      finalize_rt_calibration, store_frame.
    repeat match goal with
           | |- context [if ?c then _ else _] => destruct c
           end; cbn; auto. }
  assert (C : forall d0 : SyllableDetector R,
             current_peak_rate (energy_st (fusion_stage d0))
             = current_peak_rate (energy_st d0)
             /\ current_energy (energy_st (fusion_stage d0))
                = current_energy (energy_st d0)
             /\ adaptive_enabled (energy_st (fusion_stage d0))
                = adaptive_enabled (energy_st d0)
             /\ machine (fusion_stage d0) = machine d0
             /\ ring (fusion_stage d0) = ring d0).
  { intro d0. unfold fusion_stage. split_lets; cbn; auto. }
  cbv zeta.
  destruct A as (A1 & A2 & A3).
  destruct (B (feature_stage d x)) as (B1 & B2 & B3).
  destruct (C (calibration_stage (feature_stage d x)))
    as (C1 & C2 & C3 & C4 & C5).
  rewrite C1, C2, C3, C4, C5, B1, B2, B3, A1, A2, A3. auto.
Qed.

Lemma voicing_stage_rest (d : SyllableDetector R) (x : R) :
  bp_filter (dsp (voicing_stage d x)) = bp_filter (dsp d)
  /\ env_follower (dsp (voicing_stage d x)) = env_follower (dsp d)
  /\ energy_st (voicing_stage d x) = energy_st d.
Proof. unfold voicing_stage. split_lets. cbn. auto. Qed.

Lemma tiny_create_filters :
  let m := dsp (syllable_create tiny_config) in
  0.2 <= b0 (bp_filter m) <= 1
  /\ x1 (bp_filter m) = 0 /\ x2 (bp_filter m) = 0
  /\ y1 (bp_filter m) = 0 /\ y2 (bp_filter m) = 0
  /\ output (env_follower m) = 0
  /\ 0 < attack_coeff (env_follower m) < 1 / 26
  /\ prev_env (energy_st (syllable_create tiny_config)) = 0
  /\ adaptive_enabled (energy_st (syllable_create tiny_config)) = false.
Proof.
  cbv zeta. unfold syllable_create, syllable_reset.
  cbn [dsp create_fields bp_filter env_follower energy_st prev_env
       adaptive_enabled output attack_coeff envelope_init].
  unfold configure_bandpass, biquad_config_bandpass, bandpass_q_factor,
    bandpass_center_hz, biquad_reset, M_PI.
  cbn [b0 x1 x2 y1 y2 config create_fields tiny_config peak_rate_band_min
       peak_rate_band_max sample_rate adaptive_peak_rate_k
       adaptive_peak_rate_tau_ms].
  real_ops. int_lits. sci_lits. decide_lt. cbn [andb].
  pose proof sin_eighth_turn as Hs.
  set (s := sin (2 * 3.14159265358979323846 * ((0.5 + 1.5) * 0.5) / 8))
    in *.
  match goal with
  | |- context [exp ?e] => replace e with (- (25)) by lra
  end.
  pose proof exp_minus_25.
  repeat split; try lra.
  - replace ((0.5 + 1.5) * 0.5 / (1.5 - 0.5)) with 1 by lra.
    apply Rmult_le_reg_r with (1 + s / (2 * 1)); [lra|].
    replace (s / (2 * 1) * (1 / (1 + s / (2 * 1))) * (1 + s / (2 * 1)))
      with (s / (2 * 1)) by (field; lra).
    lra.
  - replace ((0.5 + 1.5) * 0.5 / (1.5 - 0.5)) with 1 by lra.
    apply Rmult_le_reg_r with (1 + s / (2 * 1)); [lra|].
    replace (s / (2 * 1) * (1 / (1 + s / (2 * 1))) * (1 + s / (2 * 1)))
      with (s / (2 * 1)) by (field; lra).
    lra.
Qed.

Lemma energy_stage_peak (d : SyllableDetector R) (x : R) :
  x1 (bp_filter (dsp d)) = 0 -> x2 (bp_filter (dsp d)) = 0 ->
  y1 (bp_filter (dsp d)) = 0 -> y2 (bp_filter (dsp d)) = 0 ->
  output (env_follower (dsp d)) = 0 ->
  prev_env (energy_st d) = 0 ->
  0.2 <= b0 (bp_filter (dsp d)) <= 1 ->
  0 < attack_coeff (env_follower (dsp d)) < 1 / 26 ->
  0.19 <= current_peak_rate (energy_st (energy_stage d 1))
  /\ adaptive_enabled (energy_st (energy_stage d 1))
     = adaptive_enabled (energy_st d).
Proof.
  intros Hx1 Hx2 Hy1 Hy2 Ho Hp Hb Ha.
  unfold energy_stage, biquad_process, envelope_process.
  cbn [current_peak_rate adaptive_enabled energy_st set_features
       set_energy_st set_dsp].
  rewrite Hx1, Hx2, Hy1, Hy2, Ho, Hp.
  set (b := b0 (bp_filter (dsp d))) in *.
  set (ac := attack_coeff (env_follower (dsp d))) in *.
  real_ops. int_lits. sci_lits.
  replace (b * 1 + b1 (bp_filter (dsp d)) * 0 + b2 (bp_filter (dsp d)) * 0
           - a1 (bp_filter (dsp d)) * 0 - a2 (bp_filter (dsp d)) * 0)
    with b by lra.
  assert (Hab : Rabs b = b) by (apply Rabs_pos_eq; lra).
  rewrite Hab. decide_lt. rewrite Hab. decide_lt.
  split; [|reflexivity].
  assert (0.19 <= (1 - ac) * b) by nra.
  decide_lt. lra.
Qed.

Lemma tiny_first_front_end :
  let d0 := syllable_create tiny_config in
  let fe := front_end d0 1 in
  epochless fe 1
  /\ is_voiced (voicing fe) = true
  /\ onset_decision fe = true
  /\ machine fe = machine d0 /\ ring fe = ring d0
  /\ total_samples fe = 1%Z.
Proof.
  intros d0 fe.
  destruct tiny_create_voicing as (E0 & R0).
  destruct (epochless_front_end d0 0 1 E0) as (E & V & Ri & Eq).
  fold fe in E, V, Ri, Eq.
  change (0 + 1 <=? 8)%Z with true in V, Ri.
  fold d0 in R0. rewrite R0 in Ri.
  pose proof E as (Hc & _ & _ & _ & _ & _ & _).
  destruct (front_end_frame d0 1) as (_ & A2 & A3 & A4 & _).
  fold fe in A2, A3, A4.
  set (d1 := set_total_samples (u64_succ (total_samples d0)) d0) in *.
  destruct (voicing_stage_rest d1 1) as (B1 & B2 & B3).
  change (dsp d1) with (dsp d0) in B1, B2.
  change (energy_st d1) with (energy_st d0) in B3.
  pose proof tiny_create_filters as F. cbv zeta in F. fold d0 in F.
  destruct F as (F0 & F1 & F2 & F3 & F4 & F5 & F6 & F7 & F8).
  destruct (energy_stage_peak (voicing_stage d1 1) 1) as (P1 & P2).
  { rewrite B1. exact F1. }
  { rewrite B1. exact F2. }
  { rewrite B1. exact F3. }
  { rewrite B1. exact F4. }
  { rewrite B2. exact F5. }
  { rewrite B3. exact F7. }
  { rewrite B1. exact F0. }
  { rewrite B2. exact F6. }
  destruct (later_stages_energy (energy_stage (voicing_stage d1 1) 1) 1)
    as (L1 & L2 & L3 & _).
  cbv zeta in L1, L2, L3.
  rewrite <- Eq in L1, L2, L3.
  rewrite B3 in P2.
  split; [exact E|]. split; [exact V|].
  split; [|split; [exact A2|split; [exact A3|]]].
  - unfold onset_decision, peak_rate_threshold.
    rewrite Hc, V, Ri, L1, L3, P2, F8.
    cbn [tiny_config realtime_mode allow_unvoiced_onsets
         threshold_peak_rate hysteresis_on_factor andb orb negb].
    real_ops.
    replace (Rltb (0.0003 * 1.2)
               (current_peak_rate
                  (energy_st (energy_stage (voicing_stage d1 1) 1))))
      with true by (symmetry; apply Rltb_true; lra).
    reflexivity.
  - rewrite A4. reflexivity.
Qed.

(** ** The three samples of the click, one state transition each *)

Lemma emit_loop_nothing (room : nat) (accent : R -> bool) (c : Z)
    (d : SyllableDetector R) :
  (buf_count (ring d) <= c)%Z -> emit_loop room accent c d = (d, []).
Proof.
  intro H. destruct room as [|k]; cbn [emit_loop]; [reflexivity|].
  replace (buf_count (ring d) >? c)%Z with false; [reflexivity|].
  symmetry. rewrite Z.gtb_ltb. apply Z.ltb_ge. exact H.
Qed.

Lemma tiny_context_needed (d : SyllableDetector R) :
  config d = tiny_config -> context_needed (config d) = 0%Z.
Proof. intro H. rewrite H. reflexivity. Qed.

Lemma process_sample_tiny (d : SyllableDetector R) (a : Z) (x : R)
    (room : nat) :
  epochless d a ->
  process_sample d x room
  = emit_loop room process_accent 0 (machine_step (front_end d x)).
Proof.
  intro H. destruct (epochless_front_end d a x H) as (E & _).
  pose proof (machine_step_epochless _ _ E) as (Hm & _).
  destruct E as (Hc & _).
  unfold process_sample. rewrite Hc.
  cbn [realtime_mode tiny_config andb].
  rewrite (tiny_context_needed _ Hm). reflexivity.
Qed.

Lemma onset_sample (d : SyllableDetector R) (a : Z) (x : R) (room : nat) :
  epochless d a ->
  onset_decision (front_end d x) = true ->
  state (machine d) = STATE_IDLE -> buf_count (ring d) = 0%Z ->
  let r := process_sample d x room in
  snd r = []
  /\ state (machine (fst r)) = STATE_ONSET_RISING
  /\ state_timer (machine (fst r)) = 0%Z
  /\ max_onset_rising_samples (machine (fst r))
     = max_onset_rising_samples (machine d)
  /\ Ev.timestamp_samples (wip_event (machine (fst r)))
     = u64_succ (total_samples d)
  /\ ring (fst r) = ring d.
Proof.
  intros H On Hst Hcnt. cbv zeta.
  rewrite (process_sample_tiny d a x room H).
  destruct (front_end_frame d x) as (_ & A2 & A3 & A4 & _).
  assert (M : machine_step (front_end d x) = idle_step (front_end d x)).
  { unfold machine_step. rewrite A2, Hst. reflexivity. }
  rewrite M. unfold idle_step. rewrite On.
  rewrite emit_loop_nothing.
  - cbn [fst snd machine ring set_voicing set_machine state state_timer
         max_onset_rising_samples wip_event Ev.timestamp_samples].
    rewrite A2, A3, A4. auto 10.
  - cbn [ring set_voicing set_machine]. rewrite A3, Hcnt. lia.
Qed.

Lemma rising_sample (d : SyllableDetector R) (a : Z) (x : R) (room : nat) :
  epochless d a -> (a + 1 <= 8)%Z ->
  state (machine d) = STATE_ONSET_RISING ->
  (max_onset_rising_samples (machine d) <= state_timer (machine d))%Z ->
  buf_count (ring d) = 0%Z ->
  let r := process_sample d x room in
  snd r = []
  /\ state (machine (fst r)) = STATE_NUCLEUS
  /\ state_timer (machine (fst r)) = (state_timer (machine d) + 1)%Z
  /\ Ev.timestamp_samples (wip_event (machine (fst r)))
     = Ev.timestamp_samples (wip_event (machine d))
  /\ ring (fst r) = ring d.
Proof.
  intros H Ha Hst Ht Hcnt. cbv zeta.
  rewrite (process_sample_tiny d a x room H).
  destruct (epochless_front_end d a x H) as (_ & V & _).
  replace (a + 1 <=? 8)%Z with true in V by (symmetry; apply Z.leb_le; lia).
  destruct (front_end_frame d x) as (_ & A2 & A3 & _).
  assert (M : machine_step (front_end d x)
              = onset_rising_step (front_end d x)).
  { unfold machine_step. rewrite A2, Hst. reflexivity. }
  rewrite M.
  destruct (onset_rising_step_machine (front_end d x)) as (S1 & S2 & _ & S4).
  cbv zeta in S1, S2. rewrite A2 in S1, S2. rewrite A3 in S4.
  assert (St : state (machine (onset_rising_step (front_end d x)))
               = STATE_NUCLEUS).
  { unfold onset_rising_step. cbv zeta.
    cbn [machine set_machine state].
    rewrite V, A2.
    replace (state_timer (machine d) + 1
             >? max_onset_rising_samples (machine d))%Z with true
      by (symmetry; rewrite Z.gtb_ltb; apply Z.ltb_lt; lia).
    rewrite !orb_true_r. reflexivity. }
  rewrite emit_loop_nothing by (rewrite S4, Hcnt; lia).
  cbn [fst snd]. auto 10.
Qed.

Lemma nucleus_sample (d : SyllableDetector R) (a : Z) (x : R) (room : nat) :
  epochless d a ->
  state (machine d) = STATE_NUCLEUS ->
  (0 <= state_timer (machine d))%Z ->
  ring_wf (ring d) -> buf_count (ring d) = 0%Z ->
  exists e,
    snd (process_sample d x (S room)) = [e]
    /\ Ev.timestamp_samples e
       = Ev.timestamp_samples (wip_event (machine d)).
Proof.
  intros H Hst Ht Hwf Hcnt.
  rewrite (process_sample_tiny d a x (S room) H).
  destruct (epochless_front_end d a x H) as (E & _).
  destruct E as (Hc & _).
  destruct (front_end_frame d x) as (_ & A2 & A3 & _).
  set (fe := front_end d x) in *.
  assert (Ne : nucleus_end fe = true).
  { unfold nucleus_end. cbv zeta. rewrite Hc, A2.
    cbn [tiny_config sample_rate]. real_ops.
    rewrite Rtrunc_small by lra.
    replace (state_timer (machine d) + 1 >? 0)%Z with true
      by (symmetry; rewrite Z.gtb_ltb; apply Z.ltb_lt; lia).
    rewrite !orb_true_r. reflexivity. }
  destruct (machine_step_ring fe) as [Same|(w & Hr & Hw & _)].
  { exfalso. revert Same. unfold machine_step. rewrite A2, Hst.
    unfold nucleus_step. rewrite Ne. cbn [ring set_ring].
    intro Same. rewrite A3 in Same.
    pose proof (f_equal (@buf_count R) Same) as Hb. revert Hb.
    unfold push_event. rewrite Hcnt. cbn. lia. }
  rewrite A3 in Hr. rewrite A2 in Hw.
  destruct (push_event_pending w (ring d) Hwf) as (Wf' & Pe).
  rewrite Hcnt in Pe. cbn [Z.ltb Z.compare PROMINENCE_BUFFER_SIZE] in Pe.
  rewrite (ring_wf_empty (ring d) Hwf) in Pe by lia.
  cbn [app] in Pe. rewrite <- Hr in Wf', Pe.
  set (d1 := machine_step fe) in *.
  assert (Hb : buf_count (ring d1) = 1%Z).
  { rewrite Hr. unfold push_event. rewrite Hcnt. reflexivity. }
  cbn [emit_loop]. rewrite Hb. cbn [Z.gtb Z.compare].
  destruct (emit_oldest_pending process_accent d1 Wf') as (Wf2 & B2 & e0 & P0 & T0);
    [lia|].
  rewrite Pe in P0. injection P0 as P0 P1. subst e0.
  destruct (emit_oldest process_accent d1) as [d2 e]. cbn [fst snd] in *.
  rewrite emit_loop_nothing by lia.
  exists e. split; [reflexivity|]. congruence.
Qed.

Lemma tiny_create_machine :
  let d0 := syllable_create tiny_config in
  state (machine d0) = STATE_IDLE
  /\ max_onset_rising_samples (machine d0) = 0%Z
  /\ total_samples d0 = 0%Z
  /\ ring_wf (ring d0) /\ buf_count (ring d0) = 0%Z.
Proof.
  cbv zeta.
  destruct (fresh_detector_fields tiny_config None)
    as (G1 & G2 & G3 & G4 & G5 & G6 & _).
  cbv zeta in G1, G2, G3, G4, G5, G6. cbn [fresh_detector] in *.
  split; [exact G5|]. split; [|split; [exact G6|split; [|exact G4]]].
  - unfold syllable_create, syllable_reset.
    cbn [machine create_fields max_onset_rising_samples set_machine
         tiny_config sample_rate].
    real_ops. apply Rtrunc_small. lra.
  - unfold ring_wf. rewrite G1, G2, G3, G4.
    unfold PROMINENCE_BUFFER_SIZE. cbn. repeat split; lia.
Qed.

(** On a freshly constructed detector the click is reported once, with the
    timestamp of its first sample. *)
Lemma fresh_click :
  exists e,
    snd (syllable_process (syllable_create tiny_config) click 4) = [e]
    /\ Ev.timestamp_samples e = 1%Z.
Proof.
  destruct tiny_create_voicing as (E0 & _).
  destruct tiny_first_front_end as (_ & _ & On & _).
  destruct tiny_create_machine as (M1 & M2 & M3 & M4 & M5).
  cbv zeta in On, M1, M2, M3, M4, M5.
  set (d0 := syllable_create tiny_config) in *.
  unfold syllable_process, click. cbn [process_from].
  set (room1 := Z.to_nat _).
  destruct (onset_sample d0 0 1 room1 E0 On M1 M5)
    as (S1 & S2 & S3 & S4 & S5 & S6).
  pose proof (process_sample_epochless d0 0 1 room1 E0) as E1.
  destruct (process_sample d0 1 room1) as [d1 es1]. cbn [fst snd] in *.
  subst es1. cbn [app]. clear room1.
  set (room2 := Z.to_nat _).
  destruct (rising_sample d1 (0 + 1) 0 room2 E1) as (T1 & T2 & T3 & T4 & T5);
    [lia|exact S2|lia|rewrite S6; exact M5|].
  pose proof (process_sample_epochless d1 (0 + 1) 0 room2 E1) as E2.
  destruct (process_sample d1 0 room2) as [d2 es2]. cbn [fst snd] in *.
  subst es2. cbn [app length]. clear room2.
  change (Z.to_nat (4 - Z.of_nat 0)) with 4%nat.
  destruct (nucleus_sample d2 (0 + 1 + 1) 0 3 E2) as (e & U1 & U2);
    [exact T2|lia|rewrite T5, S6; exact M4|rewrite T5, S6; exact M5|].
  destruct (process_sample d2 0 4) as [d3 es3]. cbn [fst snd] in *.
  subst es3. exists e. split; [reflexivity|].
  rewrite U2, T4, S5, M3. reflexivity.
Qed.

Lemma after_reset_voicing (history : list R) (m1 : Z) :
  let d := syllable_reset
             (fst (syllable_process (syllable_create tiny_config)
                     history m1)) in
  config d = tiny_config
  /\ last_epoch_samples_ago (voicing d) = Z.of_nat (length history).
Proof.
  cbv zeta. unfold syllable_process.
  destruct tiny_create_voicing as (E0 & _).
  pose proof (process_from_epochless history (syllable_create tiny_config)
                0 m1 [] E0) as E1.
  destruct (reset_epochless _ _ E1) as ((Hc & _ & _ & _ & Hago & _) & _).
  split; [exact Hc|]. rewrite Hago. lia.
Qed.
End ResetIsNotCreate.

(** C1, refuted: with the same configuration, the detector that was reset
    after eight samples of silence and the freshly constructed detector
    answer the same three-sample input differently.  [syllable_reset]
    leaves [last_epoch_samples_ago] at its old value (8, against 0 after
    construction), so after the reset the input counts as unvoiced and
    nothing is emitted, while the fresh detector emits one event, stamped
    with sample 1. *)
Theorem reset_is_not_create :
  config tiny_after_reset = config tiny_fresh
  /\ last_epoch_samples_ago (voicing tiny_fresh) = 0%Z
  /\ last_epoch_samples_ago (voicing tiny_after_reset) = 8%Z
  /\ snd (syllable_process tiny_after_reset click 4) = []
  /\ (exists e,
        snd (syllable_process tiny_fresh click 4) = [e]
        /\ Ev.timestamp_samples e = 1%Z)
  /\ snd (syllable_process tiny_after_reset click 4)
     <> snd (syllable_process tiny_fresh click 4).
Proof.
  unfold tiny_after_reset, tiny_fresh.
  destruct (after_reset_voicing (X := NoExtractors R) silence8 4)
    as (Hc & Hago).
  pose proof (silent_after_reset (X := NoExtractors R) silence8 click 4 4)
    as Hs.
  destruct (fresh_click (X := NoExtractors R)) as (e & He & Ht).
  destruct (tiny_create_voicing (X := NoExtractors R))
    as ((Hc0 & _ & _ & _ & Hago0 & _) & _).
  assert (Hlen : 8 <= Z.of_nat (length silence8)) by (cbn; lia).
  pose proof (Hs Hlen) as Hsil.
  split; [rewrite Hc, Hc0; reflexivity|].
  split; [exact Hago0|]. split; [rewrite Hago; reflexivity|].
  split; [exact Hsil|].
  split; [exists e; split; assumption|].
  rewrite Hsil, He. discriminate.
Qed.

(* ------------------------------------------------------------------ *)
(** * The emission loop outside the range of well-formed rings *)

Section EmissionCount.
Context {F : Type} {FO : FloatOps F} {X : Extractors F}.

Lemma emit_oldest_count (accent : F -> bool) (d : SyllableDetector F) :
  buf_count (ring (fst (emit_oldest accent d))) = buf_count (ring d) - 1.
Proof. reflexivity. Qed.

(** The loop runs as long as there is room and the count exceeds the
    required context, whatever the ring holds. *)
Lemma emit_loop_count (room : nat) (accent : F -> bool) (c : Z) :
  forall d : SyllableDetector F,
    length (snd (emit_loop room accent c d))
    = Nat.min room (Z.to_nat (buf_count (ring d) - c))
    /\ buf_count (ring (fst (emit_loop room accent c d)))
       = buf_count (ring d)
         - Z.of_nat (length (snd (emit_loop room accent c d))).
Proof.
  induction room as [|k IH]; intro d; cbn [emit_loop].
  - cbn. split; lia.
  - destruct (Z.gtb_spec (buf_count (ring d)) c) as [Hgt|Hle].
    + pose proof (emit_oldest_count accent d) as Hc.
      destruct (emit_oldest accent d) as [d1 e]. cbn [fst] in Hc.
      destruct (IH d1) as (I1 & I2).
      destruct (emit_loop k accent c d1) as [d2 es].
      cbn [fst snd length] in *. rewrite I1, I2, Hc.
      split; [|lia].
      replace (Z.to_nat (buf_count (ring d) - c))
        with (S (Z.to_nat (buf_count (ring d) - 1 - c))) by lia.
      rewrite <- Nat.succ_min_distr. reflexivity.
    + cbn [fst snd length].
      replace (Z.to_nat (buf_count (ring d) - c)) with 0%nat by lia.
      rewrite Nat.min_0_r. split; lia.
Qed.

Lemma Forall_set_nth {A : Type} (P : A -> Prop) (n : nat) (x : A)
    (l : list A) :
  Forall P l -> P x -> Forall P (set_nth n x l).
Proof.
  intros Hl Hx. revert n.
  induction Hl as [|a t Ha Ht IH]; intros [|n]; cbn; auto.
Qed.

Lemma Forall_zset {A : Type} (P : A -> Prop) (l : list A) (i : Z) (x : A) :
  Forall P l -> P x -> Forall P (zset l i x).
Proof.
  intros Hl Hx. unfold zset.
  destruct (i <? 0); auto using Forall_set_nth.
Qed.

Lemma Forall_zget {A : Type} (P : A -> Prop) (l : list A) (i : Z) (x : A) :
  Forall P l -> P x -> P (zget l i x).
Proof.
  intros Hl Hx. unfold zget. destruct (i <? 0); [exact Hx|].
  destruct (Nat.lt_ge_cases (Z.to_nat i) (length l)) as [H|H].
  - rewrite Forall_forall in Hl. apply Hl. apply nth_In. exact H.
  - rewrite nth_overflow by exact H. exact Hx.
Qed.

(** A ring in which no slot was ever stamped yields events stamped 0. *)
Lemma emit_oldest_unstamped (accent : F -> bool) (d : SyllableDetector F) :
  Forall (fun s => Ev.timestamp_samples (event s) = 0)
         (event_buffer (ring d)) ->
  Ev.timestamp_samples (snd (emit_oldest accent d)) = 0
  /\ Forall (fun s => Ev.timestamp_samples (event s) = 0)
            (event_buffer (ring (fst (emit_oldest accent d)))).
Proof.
  intro H.
  set (P := fun s : BufferedEvent F => Ev.timestamp_samples (event s) = 0)
    in *.
  assert (P0 : P empty_slot) by reflexivity.
  assert (Ht : P (slot (event_buffer (ring d)) (buf_read_idx (ring d))))
    by (unfold slot; apply (Forall_zget P); assumption).
  assert (Hb : Forall P (calculate_delta_f0 (context_size (config d))
                           (event_buffer (ring d))
                           (buf_read_idx (ring d)))).
  { unfold calculate_delta_f0. apply (Forall_zset P); [exact H|exact Ht]. }
  assert (Hs : P (slot (calculate_delta_f0 (context_size (config d))
                          (event_buffer (ring d)) (buf_read_idx (ring d)))
                       (buf_read_idx (ring d))))
    by (unfold slot; apply (Forall_zget P); assumption).
  unfold emit_oldest. cbn [fst snd ring set_ring event_buffer].
  split; [exact Hs|].
  apply (Forall_zset P); [exact Hb|exact Hs].
Qed.

Lemma emit_loop_unstamped (room : nat) (accent : F -> bool) (c : Z) :
  forall d : SyllableDetector F,
    Forall (fun s => Ev.timestamp_samples (event s) = 0)
           (event_buffer (ring d)) ->
    Forall (fun e => Ev.timestamp_samples e = 0)
           (snd (emit_loop room accent c d)).
Proof.
  induction room as [|k IH]; intros d H; cbn [emit_loop].
  - constructor.
  - destruct (buf_count (ring d) >? c); [|constructor].
    destruct (emit_oldest_unstamped accent d H) as (E1 & E2).
    destruct (emit_oldest accent d) as [d1 e]. cbn [fst snd] in E1, E2.
    specialize (IH d1 E2).
    destruct (emit_loop k accent c d1) as [d2 es]. cbn [snd] in *.
    constructor; assumption.
Qed.

(** What the emission loop leaves of the ring, whatever it holds. *)
Lemma emit_loop_ring_shape (room : nat) (accent : F -> bool) (c : Z) :
  forall d : SyllableDetector F,
    let d' := fst (emit_loop room accent c d) in
    let es := snd (emit_loop room accent c d) in
    length (event_buffer (ring d')) = length (event_buffer (ring d))
    /\ buf_write_idx (ring d') = buf_write_idx (ring d)
    /\ (Forall (fun s => Ev.timestamp_samples (event s) = 0)
               (event_buffer (ring d)) ->
        Forall (fun s => Ev.timestamp_samples (event s) = 0)
               (event_buffer (ring d')))
    /\ (0 <= buf_read_idx (ring d) ->
        buf_read_idx (ring d) + Z.of_nat (length es)
        < PROMINENCE_BUFFER_SIZE ->
        buf_read_idx (ring d')
        = buf_read_idx (ring d) + Z.of_nat (length es)).
Proof.
  induction room as [|k IH]; intro d; cbn [emit_loop].
  - cbn. repeat split; auto. intros. lia.
  - destruct (buf_count (ring d) >? c).
    2:{ cbn. repeat split; auto. intros. lia. }
    pose proof (emit_oldest_unstamped accent d) as U.
    assert (L : length (event_buffer (ring (fst (emit_oldest accent d))))
                = length (event_buffer (ring d))).
    { unfold emit_oldest, calculate_delta_f0.
      cbn [fst ring set_ring event_buffer]. rewrite !zset_length.
      reflexivity. }
    assert (W : buf_write_idx (ring (fst (emit_oldest accent d)))
                = buf_write_idx (ring d)) by reflexivity.
    assert (R : buf_read_idx (ring (fst (emit_oldest accent d)))
                = Z.rem (buf_read_idx (ring d) + 1)
                        PROMINENCE_BUFFER_SIZE) by reflexivity.
    destruct (emit_oldest accent d) as [d1 e]. cbn [fst snd] in *.
    specialize (IH d1). cbv zeta in IH.
    destruct (emit_loop k accent c d1) as [d2 es].
    cbn [fst snd length] in *.
    destruct IH as (I1 & I2 & I3 & I4).
    split; [congruence|]. split; [congruence|]. split.
    + intro H. apply I3. apply U. exact H.
    + intros H0 Hlt. unfold PROMINENCE_BUFFER_SIZE in *.
      rewrite Z.rem_small in R by lia.
      rewrite I4 by lia. lia.
Qed.
Lemma create_ring_unstamped (cfg : SyllableConfig F) :
  Forall (fun s => Ev.timestamp_samples (event s) = 0)
         (event_buffer (ring (syllable_create cfg)))
  /\ Forall (fun s => is_ready s = false)
            (event_buffer (ring (syllable_create cfg))).
Proof. cbn. split; repeat constructor. Qed.

(** The first sample of a constructed detector finalizes nothing: the
    emission loop sees the ring as [syllable_create] left it. *)
Lemma first_sample_ring (cfg : SyllableConfig F) (x : F) :
  let d := syllable_create cfg in
  ring (machine_step (front_end d x)) = ring d
  /\ config (machine_step (front_end d x)) = cfg.
Proof.
  intro d.
  destruct (front_end_frame d x) as (A1 & A2 & A3 & _).
  destruct (machine_step_frame (front_end d x)) as (B1 & _).
  split; [|rewrite B1, A1; reflexivity].
  destruct (machine_step_ring (front_end d x))
    as [H | (e & _ & _ & Hs & _)].
  - rewrite H. exact A3.
  - rewrite A2 in Hs. discriminate Hs.
Qed.

(** With a negative context size in offline mode, the first sample of a
    constructed detector writes events although none was finalized: one
    per unit below zero, as far as the output has room, all stamped 0. *)
Lemma first_sample_negative_context (cfg : SyllableConfig F) (x : F)
    (max_events : Z) :
  realtime_mode cfg = false ->
  let r := syllable_process (syllable_create cfg) [x] max_events in
  length (snd r)
  = Nat.min (Z.to_nat max_events) (Z.to_nat (- context_size cfg))
  /\ Forall (fun e => Ev.timestamp_samples e = 0) (snd r)
  /\ buf_count (ring (fst r)) = - Z.of_nat (length (snd r))
  /\ config (fst r) = cfg
  /\ length (event_buffer (ring (fst r))) = 16%nat
  /\ buf_write_idx (ring (fst r)) = 0
  /\ (Z.of_nat (length (snd r)) < PROMINENCE_BUFFER_SIZE ->
      buf_read_idx (ring (fst r)) = Z.of_nat (length (snd r)))
  /\ Forall (fun s => Ev.timestamp_samples (event s) = 0)
            (event_buffer (ring (fst r))).
Proof.
  intros Hrt r. subst r.
  unfold syllable_process. cbn [process_from length app].
  destruct (first_sample_ring cfg x) as (R1 & C1). cbv zeta in R1, C1.
  destruct (front_end_frame (syllable_create cfg) x) as (A1 & _).
  cbv zeta in A1.
  unfold process_sample.
  replace (realtime_mode (config (front_end (syllable_create cfg) x)))
    with false by (rewrite A1; symmetry; exact Hrt).
  cbn [andb].
  set (d1 := machine_step (front_end (syllable_create cfg) x)) in *.
  rewrite C1. unfold context_needed. rewrite Hrt.
  set (room := Z.to_nat (max_events - Z.of_nat 0)).
  destruct (emit_loop_count room process_accent (context_size cfg) d1)
    as (L1 & L2).
  pose proof (emit_loop_unstamped room process_accent (context_size cfg)
                d1) as U.
  pose proof (emit_loop_ring_shape room process_accent (context_size cfg)
                d1) as S.
  pose proof (emit_loop_frame room process_accent (context_size cfg) d1)
    as (Fc & _).
  cbv zeta in S. rewrite R1 in L1, L2, U, S.
  specialize (U (proj1 (create_ring_unstamped cfg))).
  destruct S as (S1 & S2 & S3 & S4).
  specialize (S3 (proj1 (create_ring_unstamped cfg))).
  destruct (emit_loop room process_accent (context_size cfg) d1)
    as [d2 es].
  cbn [fst snd] in *.
  change (buf_count (ring (syllable_create cfg))) with 0 in L1, L2.
  change (buf_read_idx (ring (syllable_create cfg))) with 0 in S4.
  split; [rewrite L1; unfold room; f_equal; lia|].
  split; [exact U|]. split; [rewrite L2; lia|].
  split; [rewrite Fc; exact C1|].
  split; [rewrite S1; reflexivity|].
  split; [rewrite S2; reflexivity|].
  split; [|exact S3].
  intro Hlt. rewrite S4 by lia. lia.
Qed.


Lemma emit_loop_below (room : nat) (accent : F -> bool) (c : Z)
    (d : SyllableDetector F) :
  buf_count (ring d) <= c -> emit_loop room accent c d = (d, []).
Proof.
  intro H. destruct room as [|k]; cbn [emit_loop]; [reflexivity|].
  replace (buf_count (ring d) >? c) with false; [reflexivity|].
  symmetry. rewrite Z.gtb_ltb. apply Z.ltb_ge. exact H.
Qed.

(** A detector whose count went negative loses the next syllable: the
    emission loop of the sample that finalizes it writes the empty slot at
    the read index, and a flush writes nothing. *)
Lemma finalized_but_never_written (d : SyllableDetector F)
    (e : SyllableEvent F) :
  realtime_mode (config d) = false ->
  context_size (config d) = -2 ->
  buf_count (ring d) = -2 ->
  buf_write_idx (ring d) = 0 ->
  buf_read_idx (ring d) = 2 ->
  length (event_buffer (ring d)) = 16%nat ->
  Forall (fun s => Ev.timestamp_samples (event s) = 0)
         (event_buffer (ring d)) ->
  let d2 := set_ring (push_event e (ring d)) d in
  let r := emit_loop 4 process_accent (context_needed (config d2)) d2 in
  stamps (snd r) = [0]
  /\ slot (event_buffer (ring (fst r))) 0
     = {| event := e; is_ready := true |}
  /\ snd (syllable_flush (fst r) 4) = [].
Proof.
  intros Hrt Hc Hn Hw Hr Hlen Hu d2 r.
  assert (Cn : context_needed (config d2) = -2).
  { unfold d2, context_needed. cbn [config set_ring]. rewrite Hrt. exact Hc. }
  assert (R2 : ring d2
               = {| event_buffer :=
                      zset (event_buffer (ring d)) 0
                           {| event := e; is_ready := true |};
                    buf_write_idx := 1; buf_read_idx := 2;
                    buf_count := -1 |}).
  { unfold d2, push_event. cbn [ring set_ring]. rewrite Hn, Hw, Hr.
    reflexivity. }
  set (B := zset (event_buffer (ring d)) 0
                 {| event := e; is_ready := true |}) in *.
  assert (HB : length B = 16%nat) by (unfold B; rewrite zset_length; exact Hlen).
  assert (S2 : Ev.timestamp_samples (event (slot B 2)) = 0).
  { unfold slot, B. rewrite zget_zset_other by lia.
    apply (Forall_zget
             (fun s => Ev.timestamp_samples (event s) = 0));
      [exact Hu|reflexivity]. }
  subst r. rewrite Cn.
  change (emit_loop 4 process_accent (-2) d2)
    with (if buf_count (ring d2) >? -2
          then let '(d1, e0) := emit_oldest process_accent d2 in
               let '(d3, es) := emit_loop 3 process_accent (-2) d1 in
               (d3, e0 :: es)
          else (d2, [])).
  replace (buf_count (ring d2) >? -2) with true
    by (rewrite R2; reflexivity).
  assert (E1 : ring (fst (emit_oldest process_accent d2))
               = {| event_buffer :=
                      zset (calculate_delta_f0 (context_size (config d2))
                              B 2) 2
                        {| event := snd (emit_oldest process_accent d2);
                           is_ready := false |};
                    buf_write_idx := 1;
                    buf_read_idx := Z.rem (2 + 1) PROMINENCE_BUFFER_SIZE;
                    buf_count := -1 - 1 |}).
  { unfold emit_oldest. cbn [fst snd ring set_ring]. rewrite R2.
    reflexivity. }
  assert (E2 : Ev.timestamp_samples (snd (emit_oldest process_accent d2))
               = 0).
  { unfold emit_oldest. cbn [snd]. rewrite R2.
    cbn [event_buffer buf_read_idx].
    unfold calculate_delta_f0.
    change (Ev.timestamp_samples (with_prominence ?s ?a ?e))
      with (Ev.timestamp_samples e).
    unfold slot. rewrite zget_zset_same by (rewrite HB; lia).
    exact S2. }
  destruct (emit_oldest process_accent d2) as [d1 e0]. cbn [fst snd] in *.
  rewrite (emit_loop_below 3 process_accent (-2) d1)
    by (rewrite E1; cbn [buf_count]; lia).
  cbn [fst snd stamps map]. rewrite E2.
  split; [reflexivity|]. split.
  - rewrite E1. cbn [event_buffer]. unfold slot, calculate_delta_f0.
    rewrite !zget_zset_other by lia.
    unfold B. apply zget_zset_same. rewrite Hlen. lia.
  - unfold syllable_flush.
    rewrite emit_loop_below by (rewrite E1; cbn [buf_count]; lia).
    reflexivity.
Qed.
End EmissionCount.

(* ------------------------------------------------------------------ *)
(** * A negative context size *)

Section NegativeContextSize.
Local Open Scope R_scope.

Lemma negative_context_offline :
  realtime_mode negative_context_config = false
  /\ context_size negative_context_config = (-2)%Z.
Proof. split; reflexivity. Qed.


(** C6 as stated fails for a negative context size.  With
    [context_size = -2] in offline mode the first sample given to a
    constructed detector makes [syllable_process] write two events while
    nothing is pending, and leaves the count at -2.  When the state
    machine then finalizes a syllable, the emission loop of that sample
    writes one more empty slot (stamped 0) instead of it, and
    [syllable_flush] writes nothing, although the finalized syllable sits
    ready in slot 0. *)
Lemma negative_context_writes_unfinalized_slots :
  pending (ring (syllable_create (X := NoExtractors R)
                   negative_context_config)) = []
  /\ length (snd (syllable_process
                    (syllable_create (X := NoExtractors R)
                       negative_context_config) [0] 4)) = 2%nat
  /\ buf_count (ring negative_first) = (-2)%Z
  /\ stamps (snd (emit_loop 4 process_accent
                    (context_needed (config negative_finalized))
                    negative_finalized)) = [0%Z]
  /\ slot (event_buffer
             (ring (fst (emit_loop 4 process_accent
                           (context_needed (config negative_finalized))
                           negative_finalized)))) 0
     = {| event := demo_event 2400 100; is_ready := true |}
  /\ snd (syllable_flush
            (fst (emit_loop 4 process_accent
                    (context_needed (config negative_finalized))
                    negative_finalized)) 4) = [].
Proof.
  destruct negative_context_offline as (Hrt & Hc).
  pose proof (first_sample_negative_context (X := NoExtractors R)
                negative_context_config 0 4 Hrt) as H.
  cbv zeta in H. rewrite Hc in H.
  unfold negative_finalized, negative_first.
  generalize dependent (syllable_process
                          (syllable_create (X := NoExtractors R)
                             negative_context_config) [0] 4).
  intros [d1 es] (L & _ & C & Cf & Len & W & Rd & U).
  cbn [fst snd] in *.
  assert (L2 : length es = 2%nat) by (rewrite L; reflexivity).
  rewrite L2 in C, Rd.
  split.
  { unfold pending.
    change (buf_count (ring (syllable_create (X := NoExtractors R)
                               negative_context_config))) with 0%Z.
    reflexivity. }
  split; [exact L2|]. split; [exact C|].
  apply (finalized_but_never_written (X := NoExtractors R) d1
           (demo_event 2400 100)).
  - rewrite Cf. exact Hrt.
  - rewrite Cf. exact Hc.
  - exact C.
  - exact W.
  - apply Rd. unfold PROMINENCE_BUFFER_SIZE. lia.
  - exact Len.
  - exact U.
Qed.
End NegativeContextSize.

(* ------------------------------------------------------------------ *)
(** * A ring holding three finalized syllables, and a click *)

Section LoadedRing.
Local Open Scope R_scope.

Lemma push_event_count {F : Type} (e : SyllableEvent F) (r : RingBuffer F) :
  (buf_count r < PROMINENCE_BUFFER_SIZE)%Z ->
  buf_count (push_event e r) = (buf_count r + 1)%Z.
Proof.
  intro H. unfold push_event.
  destruct (Z.ltb_spec (buf_count r) PROMINENCE_BUFFER_SIZE); [|lia].
  reflexivity.
Qed.

Lemma demo_loaded_ring_facts :
  ring_wf (ring demo_loaded)
  /\ buf_count (ring demo_loaded) = 3%Z
  /\ pending (ring demo_loaded)
     = [demo_event 2400 100; demo_event 4800 120; demo_event 7200 110].
Proof.
  change (ring demo_loaded) with demo_loaded_ring.
  unfold demo_loaded_ring.
  pose proof demo_detector_ring_wf as W0.
  destruct (fresh_detector_fields (X := NoExtractors R) demo_config None)
    as (_ & _ & _ & C0 & _).
  cbv zeta in C0.
  change (fresh_detector demo_config None) with demo_detector in C0.
  assert (P0 : pending (ring demo_detector) = [])
    by (apply ring_wf_empty; [exact W0|lia]).
  set (r0 := ring demo_detector) in *.
  destruct (push_event_pending (demo_event 2400 100) r0 W0) as (W1 & P1).
  pose proof (push_event_count (demo_event 2400 100) r0
                ltac:(unfold PROMINENCE_BUFFER_SIZE; lia)) as C1.
  set (r1 := push_event (demo_event 2400 100) r0) in *.
  destruct (push_event_pending (demo_event 4800 120) r1 W1) as (W2 & P2).
  pose proof (push_event_count (demo_event 4800 120) r1
                ltac:(unfold PROMINENCE_BUFFER_SIZE; lia)) as C2.
  set (r2 := push_event (demo_event 4800 120) r1) in *.
  destruct (push_event_pending (demo_event 7200 110) r2 W2) as (W3 & P3).
  pose proof (push_event_count (demo_event 7200 110) r2
                ltac:(unfold PROMINENCE_BUFFER_SIZE; lia)) as C3.
  split; [exact W3|]. split; [lia|].
  rewrite P3, P2, P1, P0, C2, C1, C0. reflexivity.
Qed.

Lemma demo_loaded_setup :
  config demo_loaded = demo_config
  /\ realtime_mode (config demo_loaded) = false
  /\ context_size (config demo_loaded) = 2%Z
  /\ state (machine demo_loaded) = STATE_IDLE.
Proof.
  repeat split; reflexivity.
Qed.

(** A flush of the loaded ring writes the three syllables, oldest first. *)
Lemma demo_loaded_flush :
  stamps (snd (syllable_flush demo_loaded 4)) = [2400; 4800; 7200]%Z
  /\ length (snd (syllable_flush demo_loaded 4)) = 3%nat.
Proof.
  destruct demo_loaded_ring_facts as (W & C & P).
  unfold syllable_flush.
  destruct (emit_loop_queue (Z.to_nat 4) flush_accent 0 demo_loaded
              ltac:(lia) W) as (W' & Q & C' & _ & R').
  rewrite P, C in *.
  destruct (emit_loop (Z.to_nat 4) flush_accent 0 demo_loaded) as [d' es].
  cbn [fst snd] in *.
  assert (L : length es = 3%nat).
  { destruct W' as (_ & _ & Hb & _).
    destruct (Nat.lt_ge_cases (length es) (Z.to_nat 4)) as [H|H].
    - specialize (R' H). lia.
    - lia. }
  split; [|exact L].
  assert (E : pending (ring d') = []).
  { apply ring_wf_empty; [exact W'|lia]. }
  rewrite E in Q. cbn [stamps map] in Q. rewrite app_nil_r in Q.
  symmetry. exact Q.
Qed.

(** The next sample given to [syllable_process] writes the oldest of the
    three and keeps the two that are its context. *)
Lemma demo_loaded_sample :
  ring (machine_step (front_end demo_loaded 0)) = ring demo_loaded
  /\ stamps (snd (process_sample demo_loaded 0 4)) = [2400%Z]
  /\ stamps (pending (ring (fst (process_sample demo_loaded 0 4))))
     = [4800; 7200]%Z.
Proof.
  destruct demo_loaded_ring_facts as (W & C & P).
  destruct demo_loaded_setup as (Cf & Rt & Cs & St).
  destruct (front_end_frame demo_loaded 0) as (A1 & A2 & A3 & _).
  destruct (machine_step_frame (front_end demo_loaded 0)) as (B1 & _).
  assert (R1 : ring (machine_step (front_end demo_loaded 0))
               = ring demo_loaded).
  { destruct (machine_step_ring (front_end demo_loaded 0))
      as [H | (e & _ & _ & Hs & _)].
    - rewrite H. exact A3.
    - rewrite A2, St in Hs. discriminate Hs. }
  split; [exact R1|].
  unfold process_sample.
  replace (realtime_mode (config (front_end demo_loaded 0))) with false
    by (rewrite A1; symmetry; exact Rt).
  cbn [andb].
  set (d1 := machine_step (front_end demo_loaded 0)) in *.
  assert (Cn : context_needed (config d1) = 2%Z).
  { rewrite B1, A1. unfold context_needed. rewrite Rt. exact Cs. }
  rewrite Cn.
  destruct (emit_loop_queue 4 process_accent 2 d1 ltac:(lia)
              ltac:(rewrite R1; exact W)) as (W' & Q & C' & N' & R').
  rewrite R1, P, C in *.
  destruct (emit_loop 4 process_accent 2 d1) as [d' es].
  cbn [fst snd] in *.
  destruct es as [|e1 [|e2 es]].
  - cbn [length] in R'. specialize (R' ltac:(lia)). cbn in C'. lia.
  - cbn [stamps map app] in Q. inversion Q as [[Q1 Q2]].
    split; [cbn [stamps map]; rewrite <- Q1; reflexivity|].
    reflexivity.
  - specialize (N' ltac:(discriminate)). cbn [length] in C'. lia.
Qed.

Lemma demo_loaded_process :
  syllable_process demo_loaded [0] 4 = process_sample demo_loaded 0 4.
Proof.
  unfold syllable_process. cbn [process_from length app].
  change (Z.to_nat (4 - Z.of_nat 0)) with 4%nat.
  destruct (process_sample demo_loaded 0 4) as [d1 es]. reflexivity.
Qed.

Lemma demo_loaded_process_length :
  length (snd (syllable_process demo_loaded [0] 4)) = 1%nat.
Proof.
  destruct demo_loaded_sample as (_ & S1 & _).
  rewrite demo_loaded_process.
  destruct (snd (process_sample demo_loaded 0 4)) as [|e [|e2 es]];
    [discriminate S1|reflexivity|discriminate S1].
Qed.

Lemma emission_waits_for_context_witness :
  ring_wf (ring demo_loaded)
  /\ (0 <= context_size (config demo_loaded))%Z
  /\ (2 * context_size (config demo_loaded) <= PROMINENCE_BUFFER_SIZE)%Z
  /\ stamps (pending (ring demo_loaded)) = [2400; 4800; 7200]%Z
  /\ context_needed (config demo_loaded) = 2%Z
  /\ stamps (snd (process_sample demo_loaded 0 4)) = [2400%Z]
  /\ stamps (pending (ring (machine_step (front_end demo_loaded 0))))
     = stamps (snd (process_sample demo_loaded 0 4))
       ++ stamps (pending (ring (fst (process_sample demo_loaded 0 4))))
  /\ (context_needed (config demo_loaded)
      <= Z.of_nat (length (pending
                             (ring (fst (process_sample demo_loaded 0%R
                                           4))))))%Z
  /\ stamps (snd (syllable_flush demo_loaded 4)) = [2400; 4800; 7200]%Z
  /\ pending (ring (fst (syllable_flush demo_loaded 4))) = []
  /\ Z.of_nat (length (snd (syllable_flush demo_loaded 4)))
     = buf_count (ring demo_loaded).
Proof.
  destruct demo_loaded_ring_facts as (W & C & P).
  destruct demo_loaded_setup as (Cf & Rt & Cs & St).
  destruct demo_loaded_sample as (_ & S1 & _).
  destruct demo_loaded_flush as (F1 & _).
  assert (H2 : (0 <= context_size (config demo_loaded))%Z)
    by (rewrite Cs; lia).
  assert (H3 : (2 * context_size (config demo_loaded)
                <= PROMINENCE_BUFFER_SIZE)%Z)
    by (rewrite Cs; unfold PROMINENCE_BUFFER_SIZE; lia).
  destruct (emission_waits_for_context demo_loaded W H2 H3)
    as (T1 & T2 & T3).
  specialize (T2 0 4%nat). cbv zeta in T2.
  destruct T2 as (_ & T2 & _).
  assert (Hne : snd (process_sample demo_loaded 0 4) <> []).
  { intro E. rewrite E in S1. discriminate S1. }
  destruct (T2 Hne) as (T2a & T2b).
  specialize (T3 4%Z). cbv zeta in T3. destruct T3 as (_ & T3).
  destruct (T3 ltac:(rewrite C; lia)) as (T3a & T3b).
  split; [exact W|]. split; [exact H2|]. split; [exact H3|].
  split; [rewrite P; reflexivity|].
  split; [rewrite T1, Rt; exact Cs|].
  split; [exact S1|]. split; [exact T2a|]. split; [exact T2b|].
  split; [exact F1|]. split; [exact T3a|exact T3b].
Defined.

Lemma accent_flag_thresholds_witness :
  (2 * context_size (config demo_loaded) <= PROMINENCE_BUFFER_SIZE)%Z
  /\ length (snd (syllable_process demo_loaded [0] 4)) = 1%nat
  /\ Forall (fun e => Ev.is_accented e
                      = fltb (lit 0.9) (Ev.prominence_score e))
            (snd (syllable_process demo_loaded [0] 4))
  /\ length (snd (syllable_flush demo_loaded 4)) = 3%nat
  /\ Forall (fun e => Ev.is_accented e
                      = fltb (lit 1.2) (Ev.prominence_score e))
            (snd (syllable_flush demo_loaded 4)).
Proof.
  destruct demo_loaded_setup as (Cf & Rt & Cs & St).
  destruct demo_loaded_flush as (_ & F2).
  assert (H3 : (2 * context_size (config demo_loaded)
                <= PROMINENCE_BUFFER_SIZE)%Z)
    by (rewrite Cs; unfold PROMINENCE_BUFFER_SIZE; lia).
  destruct (accent_flag_thresholds demo_loaded H3) as (T1 & T2).
  split; [exact H3|].
  split; [exact demo_loaded_process_length|].
  split.
  { apply Forall_forall. intros e He.
    pose proof (T1 [0] 4%Z e) as T. exact (T He). }
  split; [exact F2|].
  apply Forall_forall. intros e He.
  pose proof (T2 4%Z e) as T. exact (T He).
Defined.

Lemma tiny_click_run :
  exists e,
    snd (run (X := NoExtractors R) (fresh_detector tiny_config None)
             [Process click 4]) = [e]
    /\ Ev.timestamp_samples e = 1%Z
    /\ stamps (snd (run (X := NoExtractors R)
                        (fresh_detector tiny_config None)
                        [Process click 4])) = [1%Z].
Proof.
  destruct (fresh_click (X := NoExtractors R)) as (e & He & Ht).
  exists e. cbn [run call fresh_detector].
  destruct (syllable_process (syllable_create tiny_config) click 4)
    as [d1 es].
  cbn [snd] in *. rewrite app_nil_r. subst es.
  split; [reflexivity|]. split; [exact Ht|].
  cbn [stamps map]. rewrite Ht. reflexivity.
Qed.

End LoadedRing.
(* ------------------------------------------------------------------ *)
(** * The output buffer and the ring buffer as seen by the caller *)

Section OutputBuffer.
Context {F : Type} {FO : FloatOps F} {X : Extractors F}.

Lemma emit_loop_length (room : nat) (accent : F -> bool) (c : Z) :
  forall d : SyllableDetector F,
    (length (snd (emit_loop room accent c d)) <= room)%nat.
Proof.
  induction room as [|k IH]; intro d; cbn [emit_loop].
  - cbn. lia.
  - destruct (buf_count (ring d) >? c).
    + destruct (emit_oldest accent d) as [d1 e].
      specialize (IH d1).
      destruct (emit_loop k accent c d1) as [d2 es].
      cbn [snd length] in *. lia.
    + cbn. lia.
Qed.

Lemma process_sample_length (d : SyllableDetector F) (x : F) (room : nat) :
  (length (snd (process_sample d x room)) <= room)%nat.
Proof.
  unfold process_sample.
  destruct (realtime_mode (config (front_end d x))
            && is_calibrating (rt_cal (front_end d x))).
  - cbn. lia.
  - apply emit_loop_length.
Qed.

Lemma process_from_length (input : list F) :
  forall (d : SyllableDetector F) (max_events : Z)
         (out : list (SyllableEvent F)),
    Z.of_nat (length out) <= Z.max 0 max_events ->
    Z.of_nat (length (snd (process_from d input max_events out)))
    <= Z.max 0 max_events.
Proof.
  induction input as [|x rest IH]; intros d max_events out H;
    cbn [process_from].
  - exact H.
  - pose proof (process_sample_length d x
      (Z.to_nat (max_events - Z.of_nat (length out)))) as L.
    destruct (process_sample d x _) as [d1 es]. cbn [snd] in L.
    apply IH. rewrite length_app. lia.
Qed.

(** X1. Neither [syllable_process] nor [syllable_flush] writes more than
    [max_events] events to [events_out]; with [max_events <= 0] nothing is
    written.  The context size is at most half the ring size, so that the
    context loops run for each event written stay inside their arrays. *)
Theorem output_capacity_respected (d : SyllableDetector F) :
  2 * context_size (config d) <= PROMINENCE_BUFFER_SIZE ->
  (forall (input : list F) (max_events : Z),
      Z.of_nat (length (snd (syllable_process d input max_events)))
      <= Z.max 0 max_events)
  /\ (forall max_events : Z,
        Z.of_nat (length (snd (syllable_flush d max_events)))
        <= Z.max 0 max_events).
Proof.
  intros _. split.
  - intros input max_events. unfold syllable_process.
    apply process_from_length. cbn. lia.
  - intro max_events. unfold syllable_flush.
    pose proof (emit_loop_length (Z.to_nat max_events) flush_accent 0 d).
    lia.
Qed.
End OutputBuffer.

Section RingContent.
Context {F : Type} {FO : FloatOps F} {X : Extractors F}.

Lemma event_core_filled (s v : F) (a : bool) (e : SyllableEvent F) :
  event_core (with_prominence s a (with_delta_f0 v e)) = event_core e.
Proof. reflexivity. Qed.

(** The event copied out is the oldest pending one with its three
    context-dependent fields filled in. *)
Lemma emit_oldest_content (accent : F -> bool) (d : SyllableDetector F) :
  ring_wf (ring d) -> 0 < buf_count (ring d) ->
  exists e0 s v,
    pending (ring d) = e0 :: pending (ring (fst (emit_oldest accent d)))
    /\ snd (emit_oldest accent d)
       = with_prominence s (accent s) (with_delta_f0 v e0).
Proof.
  intros Hwf Hpos.
  destruct (emit_oldest_pending accent d Hwf Hpos) as (_ & _ & e0 & P & _).
  destruct Hwf as (Hlen & Hrd & Hcnt & Hwr).
  unfold PROMINENCE_BUFFER_SIZE in *.
  assert (E0 : e0 = queued (ring d) 0).
  { unfold pending in P.
    replace (Z.to_nat (buf_count (ring d)))
      with (S (Z.to_nat (buf_count (ring d) - 1))) in P by lia.
    cbn [zrange map] in P. congruence. }
  exists e0. unfold emit_oldest. cbn [fst snd].
  set (n := context_size (config d)).
  set (r := ring d) in *.
  exists (calculate_prominence n
            (calculate_delta_f0 n (event_buffer r) (buf_read_idx r))
            (buf_read_idx r)),
         (delta_f0_value n (event_buffer r) (buf_read_idx r)).
  split; [exact P|].
  f_equal. unfold calculate_delta_f0.
  rewrite slot_zset_same by lia. cbn [event]. rewrite E0.
  unfold queued. rewrite rem16 by lia.
  rewrite Z.add_0_r, Z.mod_small by lia. reflexivity.
Qed.

Lemma emit_loop_content (room : nat) (accent : F -> bool) (c : Z) :
  forall d : SyllableDetector F,
    0 <= c -> ring_wf (ring d) ->
    let es := snd (emit_loop room accent c d) in
    let k := Nat.min room (Z.to_nat (buf_count (ring d) - c)) in
    length es = k
    /\ map event_core es = firstn k (map event_core (pending (ring d)))
    /\ pending (ring (fst (emit_loop room accent c d)))
       = skipn k (pending (ring d)).
Proof.
  induction room as [|m IH]; intros d Hc Hwf; cbn [emit_loop].
  - cbn. auto.
  - destruct (Z.gtb_spec (buf_count (ring d)) c) as [Hgt|Hle].
    + destruct (emit_oldest_pending accent d Hwf ltac:(lia))
        as (Hwf1 & Hcnt1 & _).
      destruct (emit_oldest_content accent d Hwf ltac:(lia))
        as (e0 & s & v & P & E).
      destruct (emit_oldest accent d) as [d1 e]. cbn [fst snd] in *.
      specialize (IH d1 Hc Hwf1). cbv zeta in IH.
      destruct (emit_loop m accent c d1) as [d2 es].
      cbn [fst snd] in *. destruct IH as (L & C & R).
      replace (Nat.min (S m) (Z.to_nat (buf_count (ring d) - c)))
        with (S (Nat.min m (Z.to_nat (buf_count (ring d1) - c)))) by lia.
      rewrite P. cbn [length map firstn skipn].
      rewrite L, C, R, E, event_core_filled. auto.
    + replace (Nat.min (S m) (Z.to_nat (buf_count (ring d) - c)))
        with 0%nat by lia.
      cbn. auto.
Qed.

(** X2. The emission loops are a first-in first-out queue.
    [syllable_flush] writes the [min(max_events, buf_count)] oldest pending
    events in order, and one sample of [syllable_process] writes the oldest
    events in excess of the required context; what is written are the
    events as the state machine finalized them, changed only in
    [delta_f0], [prominence_score] and [is_accented], and the events not
    written stay pending.  The context size is non-negative and at most
    half the ring size (the range in which the context loops stay inside
    their arrays). *)
Theorem emission_is_first_in_first_out (d : SyllableDetector F) :
  ring_wf (ring d) ->
  0 <= context_size (config d) ->
  2 * context_size (config d) <= PROMINENCE_BUFFER_SIZE ->
  (forall max_events : Z,
      let r := syllable_flush d max_events in
      let k := Nat.min (Z.to_nat max_events)
                       (Z.to_nat (buf_count (ring d))) in
      length (snd r) = k
      /\ map event_core (snd r)
         = firstn k (map event_core (pending (ring d)))
      /\ pending (ring (fst r)) = skipn k (pending (ring d)))
  /\ (forall (x : F) (room : nat),
        let d1 := machine_step (front_end d x) in
        let r := process_sample d x room in
        let k := Nat.min room
                   (Z.to_nat (buf_count (ring d1)
                              - context_needed (config d))) in
        realtime_mode (config d) && is_calibrating (rt_cal (front_end d x))
        = false ->
        length (snd r) = k
        /\ map event_core (snd r)
           = firstn k (map event_core (pending (ring d1)))
        /\ pending (ring (fst r)) = skipn k (pending (ring d1))).
Proof.
  intros Hwf Hctx _. split.
  - intro max_events. unfold syllable_flush.
    replace (buf_count (ring d)) with (buf_count (ring d) - 0) by lia.
    apply emit_loop_content; [lia|exact Hwf].
  - intros x room d1 r k Hcal. subst r k.
    destruct (front_end_frame d x) as (A1 & _ & A3 & _).
    destruct (machine_step_frame (front_end d x)) as (B1 & _).
    unfold process_sample. rewrite A1, Hcal.
    fold d1. replace (config d1) with (config d) by (unfold d1; congruence).
    apply emit_loop_content.
    + unfold context_needed. destruct (realtime_mode (config d)); lia.
    + unfold d1. apply machine_step_ring_wf. rewrite A3. exact Hwf.
Qed.
End RingContent.

(* ------------------------------------------------------------------ *)
(** * Timestamps are indices of consumed samples *)

Section StampRange.
Context {F : Type} {FO : FloatOps F} {X : Extractors F}.

Lemma Forall_range_later (n n' : Z) (l : list Z) :
  n <= n' -> Forall (fun t => 1 <= t <= n) l ->
  Forall (fun t => 1 <= t <= n') l.
Proof.
  intros H A. eapply Forall_impl; [|exact A]. cbn. intros; lia.
Qed.

(** A syllable in progress after a step was in progress before, or starts
    at the current sample. *)
Lemma machine_step_wip (d : SyllableDetector F) :
  state (machine (machine_step d)) = STATE_ONSET_RISING
  \/ state (machine (machine_step d)) = STATE_NUCLEUS ->
  ((state (machine d) = STATE_ONSET_RISING
    \/ state (machine d) = STATE_NUCLEUS)
   /\ Ev.timestamp_samples (wip_event (machine (machine_step d)))
      = Ev.timestamp_samples (wip_event (machine d)))
  \/ Ev.timestamp_samples (wip_event (machine (machine_step d)))
     = total_samples d.
Proof.
  unfold machine_step.
  destruct (state (machine d)) eqn:St.
  - unfold idle_step. destruct (onset_decision d).
    + intros _. right. reflexivity.
    + rewrite St. intros [H|H]; discriminate.
  - intros _. left. split; [auto|].
    apply onset_rising_step_machine.
  - unfold nucleus_step. destruct (nucleus_end d).
    + cbn. intros [H|H]; discriminate.
    + intros _. left. split; [auto|reflexivity].
  - unfold cooldown_step. cbn.
    destruct (_ >? _); intros [H|H]; discriminate.
Qed.

Lemma machine_step_stamps (d : SyllableDetector F) (written : list Z) :
  1 <= total_samples d ->
  stamps_in_range d written -> stamps_in_range (machine_step d) written.
Proof.
  intros Hpos (Hwf & Hn & Hall & Hwip).
  destruct (machine_step_frame d) as (_ & _ & T).
  unfold stamps_in_range. rewrite T.
  split; [apply machine_step_ring_wf; exact Hwf|].
  split; [exact Hn|]. split.
  - destruct (machine_step_ring d) as [Same|(e & Hr & He & Hst & _)].
    + rewrite Same. exact Hall.
    + rewrite Hr.
      destruct (push_event_pending e (ring d) Hwf) as (_ & P).
      rewrite P. unfold stamps. rewrite map_app, app_assoc.
      apply Forall_app. split.
      * apply Forall_app in Hall. destruct Hall as (H1 & H2).
        apply Forall_app. split; [exact H1|].
        destruct (buf_count (ring d) <? PROMINENCE_BUFFER_SIZE);
          [exact H2|].
        destruct (pending (ring d)) as [|e0 t]; [exact H2|].
        cbn [tl]. cbn [map] in H2. inversion H2. assumption.
      * cbn [map]. constructor; [|constructor].
        rewrite He. apply Hwip. auto.
  - intro H. destruct (machine_step_wip d H) as [(S1 & S2)|S2].
    + rewrite S2. apply Hwip. exact S1.
    + rewrite S2. lia.
Qed.

Lemma emit_loop_stamps (room : nat) (accent : F -> bool) (c : Z)
    (d : SyllableDetector F) (written : list Z) :
  0 <= c -> stamps_in_range d written ->
  stamps_in_range (fst (emit_loop room accent c d))
    (written ++ stamps (snd (emit_loop room accent c d))).
Proof.
  intros Hc (Hwf & Hn & Hall & Hwip).
  destruct (emit_loop_queue room accent c d Hc Hwf) as (W & Q & _).
  destruct (emit_loop_frame room accent c d) as (_ & _ & T & M).
  cbv zeta in *. unfold stamps_in_range. rewrite T, M.
  split; [exact W|]. split; [exact Hn|]. split; [|exact Hwip].
  rewrite <- app_assoc, <- Q. exact Hall.
Qed.

Lemma process_sample_stamps (d : SyllableDetector F) (x : F)
    (room : nat) (written : list Z) :
  0 <= context_size (config d) ->
  total_samples d + 1 < two64 ->
  stamps_in_range d written ->
  stamps_in_range (fst (process_sample d x room))
    (written ++ stamps (snd (process_sample d x room)))
  /\ total_samples (fst (process_sample d x room)) = total_samples d + 1
  /\ config (fst (process_sample d x room)) = config d.
Proof.
  intros Hctx Hbound (Hwf & Hn & Hall & Hwip).
  destruct (process_sample_frame d x room) as (P1 & P2 & _).
  rewrite (u64_succ_small _ Hn Hbound) in P2.
  split; [|split; [exact P2|exact P1]].
  clear P1 P2. unfold process_sample.
  destruct (front_end_frame d x) as (A1 & A2 & A3 & A4 & _).
  rewrite (u64_succ_small _ Hn Hbound) in A4.
  assert (I1 : stamps_in_range (front_end d x) written).
  { unfold stamps_in_range. rewrite A2, A3, A4.
    split; [exact Hwf|]. split; [lia|]. split.
    - eapply Forall_range_later; [|exact Hall]. lia.
    - intro H. specialize (Hwip H). lia. }
  destruct (realtime_mode (config (front_end d x))
            && is_calibrating (rt_cal (front_end d x))).
  - cbn [fst snd stamps map]. rewrite app_nil_r. exact I1.
  - destruct (machine_step_frame (front_end d x)) as (B1 & _).
    apply emit_loop_stamps.
    + rewrite B1, A1. unfold context_needed.
      destruct (realtime_mode (config d)); lia.
    + apply machine_step_stamps; [lia|exact I1].
Qed.

Lemma process_from_stamps (input : list F) :
  forall (d : SyllableDetector F) (max_events : Z)
         (out : list (SyllableEvent F)) (written : list Z),
    0 <= context_size (config d) ->
    total_samples d + Z.of_nat (length input) < two64 ->
    stamps_in_range d (written ++ stamps out) ->
    let r := process_from d input max_events out in
    stamps_in_range (fst r) (written ++ stamps (snd r))
    /\ total_samples (fst r) = total_samples d + Z.of_nat (length input)
    /\ config (fst r) = config d.
Proof.
  induction input as [|x rest IH];
    intros d max_events out written Hctx Hb Hinv; cbn [process_from].
  - cbn. split; [exact Hinv|]. split; [lia|reflexivity].
  - cbn [length] in Hb.
    pose proof (process_sample_stamps d x
      (Z.to_nat (max_events - Z.of_nat (length out))) (written ++ stamps out)
      Hctx ltac:(lia) Hinv) as (A & B2 & B1).
    destruct (process_sample d x _) as [d1 es]. cbn [fst snd] in *.
    destruct (IH d1 max_events (out ++ es) written) as (I1 & I2 & I3).
    + rewrite B1. exact Hctx.
    + lia.
    + unfold stamps in *. rewrite map_app, app_assoc. exact A.
    + cbv zeta. split; [exact I1|]. split; [|congruence].
      cbn [length]. lia.
Qed.

Lemma run_stamps (calls : list (Call F)) :
  forall (d : SyllableDetector F) (written : list Z),
    0 <= context_size (config d) ->
    total_samples d + samples_in calls < two64 ->
    stamps_in_range d written ->
    stamps_in_range (fst (run d calls))
      (written ++ stamps (snd (run d calls)))
    /\ total_samples (fst (run d calls))
       = total_samples d + samples_in calls.
Proof.
  induction calls as [|c rest IH]; intros d written Hctx Hb Hinv;
    cbn [run].
  - cbn. rewrite app_nil_r. split; [exact Hinv|lia].
  - pose proof (samples_in_nonneg rest) as Hrest.
    assert (Hstep :
      stamps_in_range (fst (call d c)) (written ++ stamps (snd (call d c)))
      /\ total_samples (fst (call d c)) + samples_in rest
         = total_samples d + samples_in (c :: rest)
      /\ config (fst (call d c)) = config d).
    { destruct c as [input max_events | max_events];
        cbn [call samples_in] in *.
      - unfold syllable_process.
        destruct (process_from_stamps input d max_events [] written)
          as (I1 & I2 & I3); auto.
        + lia.
        + cbn. rewrite app_nil_r. exact Hinv.
        + cbv zeta in *. split; [exact I1|]. split; [lia|exact I3].
      - unfold syllable_flush.
        destruct (emit_loop_frame (Z.to_nat max_events) flush_accent 0 d)
          as (C1 & _ & C3 & _).
        cbv zeta in *. split; [|split; [lia|exact C1]].
        apply emit_loop_stamps; [lia|exact Hinv]. }
    destruct (call d c) as [d1 es]. cbn [fst snd] in *.
    destruct Hstep as (S1 & S2 & S3).
    specialize (IH d1 (written ++ stamps es)).
    destruct (run d1 rest) as [d2 es']. cbn [fst snd] in *.
    unfold stamps in *. rewrite map_app, app_assoc.
    destruct IH as (I1 & I2); [congruence | lia | exact S1 |].
    split; [exact I1|lia].
Qed.

(** X3. On a detector driven from construction by any sequence of
    [syllable_process] and [syllable_flush] calls, the sample counter
    equals the number of samples consumed, and every event written is
    stamped with the index, counted from 1, of a sample already consumed:
    no event is stamped 0 or in the future.  The context size is
    non-negative and at most half the ring size (the range in which the
    context loops stay inside their arrays), and the 64-bit counter does
    not wrap. *)
Theorem timestamps_are_consumed_sample_indices
    (cfg : SyllableConfig F) (rt : option bool) (calls : list (Call F)) :
  0 <= context_size cfg ->
  2 * context_size cfg <= PROMINENCE_BUFFER_SIZE ->
  samples_in calls < two64 ->
  total_samples (fst (run (fresh_detector cfg rt) calls)) = samples_in calls
  /\ Forall (fun t => 1 <= t <= samples_in calls)
            (stamps (snd (run (fresh_detector cfg rt) calls))).
Proof.
  intros Hctx _ Hb.
  destruct (fresh_detector_fields cfg rt)
    as (L & R & W & C & S & T & K & _).
  cbv zeta in *.
  assert (I : stamps_in_range (fresh_detector cfg rt) []).
  { unfold stamps_in_range, ring_wf, pending.
    rewrite L, R, W, C, S, T. cbn.
    repeat split; try lia; try (unfold PROMINENCE_BUFFER_SIZE; lia).
    - constructor.
    - destruct H; discriminate.
    - destruct H; discriminate. }
  destruct (run_stamps calls (fresh_detector cfg rt) []) as (I1 & I2).
  - rewrite K. exact Hctx.
  - rewrite T. exact Hb.
  - exact I.
  - rewrite T in I2. cbn [app] in I1. split; [lia|].
    destruct I1 as (_ & _ & A & _).
    apply Forall_app in A. destruct A as (A & _).
    rewrite I2 in A. eapply Forall_range_later; [|exact A]. lia.
Qed.
End StampRange.

(* ------------------------------------------------------------------ *)
(** * The real-time mode interface *)

Section RealtimeInterface.
Context {F : Type} {FO : FloatOps F} {X : Extractors F}.

Lemma with_realtime_mode_same (c : SyllableConfig F) :
  with_realtime_mode (realtime_mode c) c = c.
Proof. destruct c. reflexivity. Qed.

Lemma set_config_same (d : SyllableDetector F) : set_config (config d) d = d.
Proof. destruct d. reflexivity. Qed.

(** X5. [syllable_recalibrate] and [syllable_set_realtime_mode(d, 1)] are
    the same operation (the mode flag being read as a truth value, as the
    code reads it): both switch real-time mode on and start a new
    calibration of [calibration_duration_ms * 0.001 * sample_rate] samples
    with an empty buffer.  Switching real-time mode off changes the mode
    flag only: the calibration data, and what [syllable_is_calibrating]
    returns, stay as they were. *)
Theorem recalibrate_is_enabling_realtime_mode (d : SyllableDetector F) :
  syllable_recalibrate d = syllable_set_realtime_mode d true
  /\ realtime_mode (config (syllable_recalibrate d)) = true
  /\ rt_cal (syllable_recalibrate d) = fresh_calibration (config d)
  /\ syllable_is_calibrating (syllable_recalibrate d) = true
  /\ rt_cal (syllable_set_realtime_mode d false) = rt_cal d
  /\ realtime_mode (config (syllable_set_realtime_mode d false)) = false.
Proof.
  split; [|split; [|split; [|split; [|split]]]].
  - unfold syllable_recalibrate, syllable_set_realtime_mode.
    destruct (realtime_mode (config d)) eqn:E; cbn [negb]; [|reflexivity].
    rewrite <- E at 2. rewrite with_realtime_mode_same, set_config_same.
    reflexivity.
  - unfold syllable_recalibrate.
    destruct (realtime_mode (config d)) eqn:E; cbn [negb]; [|reflexivity].
    exact E.
  - unfold syllable_recalibrate.
    destruct (realtime_mode (config d)) eqn:E; cbn [negb]; reflexivity.
  - unfold syllable_recalibrate, syllable_is_calibrating.
    destruct (realtime_mode (config d)); reflexivity.
  - reflexivity.
  - reflexivity.
Qed.

Lemma process_sample_rt_cal (d : SyllableDetector F) (x : F) (room : nat) :
  rt_cal (fst (process_sample d x room)) = rt_cal (front_end d x).
Proof.
  unfold process_sample.
  destruct (realtime_mode (config (front_end d x))
            && is_calibrating (rt_cal (front_end d x))); [reflexivity|].
  destruct (emit_loop_frame room process_accent
              (context_needed (config (machine_step (front_end d x))))
              (machine_step (front_end d x))) as (_ & E & _).
  destruct (machine_step_frame (front_end d x)) as (_ & M & _).
  cbv zeta in *. congruence.
Qed.

(** The sample that completes the target finalizes the calibration. *)
Lemma front_end_finalizes (d : SyllableDetector F) (x : F) :
  realtime_mode (config d) = true ->
  is_calibrating (rt_cal d) = true ->
  target_samples (rt_cal d) <= cal_sample_count (rt_cal d) + 1 ->
  is_calibrating (rt_cal (front_end d x)) = false.
Proof.
  intros Hrt Hcal Hge. unfold front_end.
  pose proof (agc_stage_frame d x) as A.
  destruct (agc_stage d x) as [d1 s]. cbn [fst] in A.
  destruct A as (A1 & _ & _ & A4 & _).
  destruct (voicing_stage_frame d1 s) as (B1 & _ & _ & B4 & _).
  destruct (energy_stage_frame (voicing_stage d1 s) s)
    as (C1 & _ & _ & C4 & _).
  destruct (feature_stage_frame (energy_stage (voicing_stage d1 s) s) s)
    as (D1 & _ & _ & D4 & _).
  set (d4 := feature_stage (energy_stage (voicing_stage d1 s) s) s) in *.
  destruct (fusion_stage_frame (calibration_stage d4)) as (_ & _ & _ & G & _).
  rewrite G. unfold calibration_stage.
  assert (E1 : config d4 = config d) by congruence.
  assert (E2 : rt_cal d4 = rt_cal d) by congruence.
  rewrite E1, E2, Hrt, Hcal. cbn [andb].
  unfold update_rt_calibration.
  destruct (store_frame_fields d4) as (S1 & S2 & S3 & S4 & S5).
  rewrite E2 in *.
  destruct (Z.geb_spec (cal_sample_count (rt_cal (store_frame d4)))
              (target_samples (rt_cal (store_frame d4)))); [|lia].
  apply finalize_frame.
Qed.

Lemma process_from_finishes_calibration (input : list F) :
  forall (d : SyllableDetector F) (max_events : Z)
         (out : list (SyllableEvent F)),
    realtime_mode (config d) = true ->
    is_calibrating (rt_cal d) = true ->
    input <> [] ->
    target_samples (rt_cal d)
    <= cal_sample_count (rt_cal d) + Z.of_nat (length input) ->
    is_calibrating (rt_cal (fst (process_from d input max_events out)))
    = false.
Proof.
  induction input as [|x rest IH];
    intros d max_events out Hrt Hcal Hne Hge; [congruence|].
  cbn [process_from]. cbn [length] in Hge.
  pose proof (process_sample_rt_cal d x
    (Z.to_nat (max_events - Z.of_nat (length out)))) as P.
  pose proof (process_sample_frame d x
    (Z.to_nat (max_events - Z.of_nat (length out)))) as (Q & _).
  destruct (process_sample d x _) as [d1 es]. cbn [fst] in *.
  destruct (Z_lt_le_dec (cal_sample_count (rt_cal d) + 1)
              (target_samples (rt_cal d))) as [Hlt|Hle].
  - destruct (front_end_keeps_calibrating d x Hrt Hcal Hlt)
      as (K1 & K2 & K3).
    rewrite <- P in K1, K2, K3.
    apply IH; [congruence | exact K1 | | lia].
    destruct rest; [cbn [length] in Hge; lia | discriminate].
  - apply process_from_not_calibrating. rewrite P.
    apply front_end_finalizes; assumption.
Qed.

Lemma recalibrate_config_and_cal (d : SyllableDetector F) :
  realtime_mode (config (syllable_recalibrate d)) = true
  /\ is_calibrating (rt_cal (syllable_recalibrate d)) = true
  /\ cal_sample_count (rt_cal (syllable_recalibrate d)) = 0
  /\ target_samples (rt_cal (syllable_recalibrate d))
     = ftoi (fmul (fmul (calibration_duration_ms (config d)) (lit 0.001))
                  (itof (sample_rate (config d)))).
Proof.
  unfold syllable_recalibrate.
  destruct (realtime_mode (config d)) eqn:E; cbn [negb]; cbn; auto.
Qed.

(** X6. A calibration started by [syllable_recalibrate] lasts exactly
    [target_samples] samples (one sample when the target is not positive):
    [syllable_process] on fewer samples writes no event and leaves the
    detector calibrating, and once the target is reached the detector is
    no longer calibrating and stays so. *)
Theorem calibration_lasts_target_samples (d0 : SyllableDetector F)
    (input : list F) (max_events : Z) :
  let d := syllable_recalibrate d0 in
  let r := syllable_process d input max_events in
  target_samples (rt_cal d)
  = ftoi (fmul (fmul (calibration_duration_ms (config d0)) (lit 0.001))
               (itof (sample_rate (config d0))))
  /\ (Z.of_nat (length input) < target_samples (rt_cal d) ->
      syllable_is_calibrating (fst r) = true /\ snd r = [])
  /\ (input <> [] ->
      target_samples (rt_cal d) <= Z.of_nat (length input) ->
      syllable_is_calibrating (fst r) = false
      /\ forall (more : list F) (m : Z),
           syllable_is_calibrating (fst (syllable_process (fst r) more m))
           = false).
Proof.
  cbv zeta.
  destruct (recalibrate_config_and_cal d0) as (Hrt & Hcal & Hcnt & Htgt).
  split; [exact Htgt|]. split.
  - intro Hlt. unfold syllable_is_calibrating, syllable_process.
    assert (K : is_calibrating
                  (rt_cal (fst (process_from (syllable_recalibrate d0)
                                  input max_events []))) = true).
    { apply process_from_keeps_calibrating; [exact Hrt|exact Hcal|].
      rewrite Hcnt. lia. }
    split; [exact K|].
    apply (process_from_calibrating input (syllable_recalibrate d0)
             max_events [] Hrt K).
  - intros Hne Hge. unfold syllable_is_calibrating, syllable_process.
    assert (K : is_calibrating
                  (rt_cal (fst (process_from (syllable_recalibrate d0)
                                  input max_events []))) = false).
    { apply process_from_finishes_calibration;
        first [assumption | rewrite Hcnt; lia]. }
    split; [exact K|]. intros more m.
    apply process_from_not_calibrating. exact K.
Qed.
End RealtimeInterface.

(* ------------------------------------------------------------------ *)
(** * Digital silence is never reported *)

Section Silence.
Context {X : Extractors R}.
Local Open Scope R_scope.

Ltac open_lets :=
  repeat match goal with
         | |- context [let '(_, _) := ?e in _] => destruct e
         | |- context [match ?e with Some _ => _ | None => _ end] => destruct e
         | |- context [match ?e with pair _ _ => _ end] => destruct e
         end.

Lemma agc_stage_silence (d : SyllableDetector R) :
  snd (agc_stage d 0) = 0 /\ same_energy_path d (fst (agc_stage d 0)).
Proof.
  unfold agc_stage, same_energy_path.
  destruct (agc (dsp d)) as [a|]; cbn; [|auto 10].
  split; [apply Rmult_0_l|auto 10].
Qed.

Lemma voicing_stage_energy_path (d : SyllableDetector R) (x : R) :
  same_energy_path d (voicing_stage d x).
Proof. unfold same_energy_path, voicing_stage. open_lets. cbn. auto 10. Qed.

Lemma feature_stage_energy_path (d : SyllableDetector R) (x : R) :
  same_energy_path d (feature_stage d x).
Proof. unfold same_energy_path, feature_stage. open_lets. cbn. auto 10. Qed.

Lemma same_energy_path_trans (d1 d2 d3 : SyllableDetector R) :
  same_energy_path d1 d2 -> same_energy_path d2 d3 ->
  same_energy_path d1 d3.
Proof.
  unfold same_energy_path.
  intros (A1 & A2 & A3 & A4 & A5 & A6) (B1 & B2 & B3 & B4 & B5 & B6).
  repeat split; congruence.
Qed.

(** A zero sample into filters at rest leaves them at rest; envelope and
    peak rate are zero. *)
Lemma energy_stage_silence (d : SyllableDetector R) :
  x1 (bp_filter (dsp d)) = 0 -> x2 (bp_filter (dsp d)) = 0 ->
  y1 (bp_filter (dsp d)) = 0 -> y2 (bp_filter (dsp d)) = 0 ->
  output (env_follower (dsp d)) = 0 -> prev_env (energy_st d) = 0 ->
  let d' := energy_stage d 0 in
  x1 (bp_filter (dsp d')) = 0 /\ x2 (bp_filter (dsp d')) = 0
  /\ y1 (bp_filter (dsp d')) = 0 /\ y2 (bp_filter (dsp d')) = 0
  /\ output (env_follower (dsp d')) = 0
  /\ prev_env (energy_st d') = 0
  /\ current_peak_rate (energy_st d') = 0
  /\ current_energy (energy_st d') = 0
  /\ adaptive_enabled (energy_st d') = adaptive_enabled (energy_st d)
  /\ adaptive_mean (energy_st d') = adaptive_mean (energy_st d)
  /\ adaptive_var (energy_st d') = adaptive_var (energy_st d)
  /\ adaptive_alpha (energy_st d') = adaptive_alpha (energy_st d)
  /\ config d' = config d /\ machine d' = machine d /\ ring d' = ring d.
Proof.
  intros Hx1 Hx2 Hy1 Hy2 Ho Hp. cbv zeta.
  unfold energy_stage, biquad_process, envelope_process.
  cbn [fst snd dsp energy_st config machine ring set_features set_energy_st
       set_dsp bp_filter env_follower x1 x2 y1 y2 output prev_env
       current_peak_rate current_energy adaptive_enabled adaptive_mean
       adaptive_var adaptive_alpha].
  rewrite Hx1, Hx2, Hy1, Hy2, Ho, Hp. real_ops.
  set (bp := bp_filter (dsp d)).
  assert (E : b0 bp * 0 + b1 bp * 0 + b2 bp * 0 - a1 bp * 0 - a2 bp * 0 = 0)
    by lra.
  rewrite E.
  assert (Z0 : (if Rltb (Rabs 0) (Q2R 1.0e-15) then Q2R 0 else 0) = 0).
  { destruct (Rltb _ _); [|reflexivity]. int_lits. reflexivity. }
  rewrite Z0. rewrite Rabs_R0, Rltb_irrefl.
  set (e := release_coeff (env_follower (dsp d)) * 0
            + (Q2R 1 - release_coeff (env_follower (dsp d))) * 0).
  assert (E0 : e = 0) by (unfold e; lra).
  rewrite E0. replace (0 - 0) with 0 by lra.
  replace (Q2R 0) with 0 by (int_lits; reflexivity).
  rewrite Rltb_irrefl. auto 20.
Qed.

Lemma calibration_stage_offline (d : SyllableDetector R) :
  realtime_mode (config d) = false -> calibration_stage d = d.
Proof. intro H. unfold calibration_stage. rewrite H. reflexivity. Qed.

Lemma fusion_stage_silence (d : SyllableDetector R) :
  realtime_mode (config d) = false ->
  current_peak_rate (energy_st d) = 0 ->
  current_energy (energy_st d) = 0 ->
  adaptive_mean (energy_st d) = 0 -> adaptive_var (energy_st d) = 0 ->
  let d' := fusion_stage d in
  bp_filter (dsp d') = bp_filter (dsp d)
  /\ env_follower (dsp d') = env_follower (dsp d)
  /\ prev_env (energy_st d') = prev_env (energy_st d)
  /\ current_peak_rate (energy_st d') = 0
  /\ adaptive_enabled (energy_st d') = adaptive_enabled (energy_st d)
  /\ adaptive_mean (energy_st d') = 0 /\ adaptive_var (energy_st d') = 0
  /\ current_fusion_score (features d') = 0
  /\ voicing d' = voicing d.
Proof.
  intros Hrt Hpr Hen Hm Hv. cbv zeta.
  assert (S : compute_fusion_score d = 0).
  { unfold compute_fusion_score. rewrite Hrt, Hen. real_ops.
    sci_lits.
    replace (Rltb 0 (Q2R (1 # 1000000))) with true
      by (symmetry; apply Rltb_true; lra).
    cbn [orb]. int_lits. reflexivity. }
  unfold fusion_stage. rewrite S, Hpr, Hm, Hv.
  destruct (_ && (_ >=? _)%Z);
    destruct (adaptive_enabled (energy_st d) && is_voiced (voicing d));
    cbn [fst snd dsp energy_st features voicing set_features set_energy_st
         set_fusion_hist bp_filter env_follower prev_env current_peak_rate
         adaptive_enabled adaptive_mean adaptive_var current_fusion_score];
    real_ops; repeat split; lra.
Qed.

Lemma front_end_silence (d : SyllableDetector R) :
  realtime_mode (config d) = false ->
  at_rest d ->
  let d' := front_end d 0 in
  at_rest d'
  /\ current_peak_rate (energy_st d') = 0
  /\ current_fusion_score (features d') = 0
  /\ config d' = config d.
Proof.
  intros Hrt (Hx1 & Hx2 & Hy1 & Hy2 & Ho & Hp & Hm & Hv & Hst & Hcnt).
  cbv zeta. destruct (front_end_frame d 0) as (F1 & F2 & F3 & _).
  unfold front_end in *.
  destruct (agc_stage_silence d) as (S0 & A).
  destruct (agc_stage d 0) as [d1 s]. cbn [fst snd] in *. subst s.
  pose proof (same_energy_path_trans _ _ _ A (voicing_stage_energy_path d1 0))
    as (B1 & B2 & B3 & B4 & B5 & B6).
  set (d2 := voicing_stage d1 0) in *.
  destruct (energy_stage_silence d2)
    as (E1 & E2 & E3 & E4 & E5 & E6 & E7 & E8 & E9 & E10 & E11 & E12 & E13
        & E14 & E15);
    try (rewrite ?B2, ?B3, ?B4; assumption).
  set (d3 := energy_stage d2 0) in *.
  destruct (feature_stage_energy_path d3 0) as (G1 & G2 & G3 & G4 & G5 & G6).
  set (d4 := feature_stage d3 0) in *.
  assert (Hc4 : config d4 = config d).
  { rewrite G1, E13. exact B1. }
  assert (Hrt4 : realtime_mode (config d4) = false)
    by (rewrite Hc4; exact Hrt).
  rewrite (calibration_stage_offline d4 Hrt4) in *.
  destruct (fusion_stage_silence d4 Hrt4)
    as (H1 & H2 & H3 & H4 & H5 & H6 & H7 & H8 & H9).
  { rewrite G4. exact E7. }
  { rewrite G4. exact E8. }
  { rewrite G4, E10, B4. exact Hm. }
  { rewrite G4, E11, B4. exact Hv. }
  unfold at_rest. rewrite H1, H2, H3, H6, H7, G2, G3, G4, F2, F3.
  repeat split; assumption.
Qed.

Lemma silence_no_onset (d : SyllableDetector R) :
  rejects_silence (config d) ->
  current_peak_rate (energy_st d) = 0 ->
  current_fusion_score (features d) = 0 ->
  adaptive_mean (energy_st d) = 0 -> adaptive_var (energy_st d) = 0 ->
  onset_decision d = false.
Proof.
  intros (Hrt & Hun & _ & Hth & Hhy) Hpr Hfu Hm Hv.
  assert (T : peak_rate_threshold d = threshold_peak_rate (config d)).
  { unfold peak_rate_threshold. rewrite Hm, Hv.
    destruct (adaptive_enabled (energy_st d)); [|reflexivity].
    real_ops. replace (Q2R 0) with 0 by (int_lits; reflexivity).
    rewrite Rltb_irrefl.
    replace (0 + adaptive_peak_rate_k (config d) * 0) with 0 by lra.
    replace (Rltb (threshold_peak_rate (config d)) 0) with false
      by (symmetry; apply Rltb_false; lra).
    reflexivity. }
  unfold onset_decision. rewrite T, Hrt, Hun, Hpr, Hfu. real_ops.
  replace (Rltb (threshold_peak_rate (config d)
                 * hysteresis_on_factor (config d)) 0) with false
    by (symmetry; apply Rltb_false; nra).
  replace (Rltb (Q2R 0.6 * hysteresis_on_factor (config d)) 0) with false
    by (symmetry; apply Rltb_false; nra).
  reflexivity.
Qed.

Lemma process_sample_silence (d : SyllableDetector R) (room : nat) :
  rejects_silence (config d) -> at_rest d ->
  snd (process_sample d 0 room) = []
  /\ at_rest (fst (process_sample d 0 room))
  /\ config (fst (process_sample d 0 room)) = config d.
Proof.
  intros Hcfg Hrest. pose proof Hcfg as (Hrt & Hun & Hctx & Hth & Hhy).
  destruct (front_end_silence d Hrt Hrest) as (R1 & R2 & R3 & R4).
  cbv zeta in *. set (fe := front_end d 0) in *.
  pose proof R1 as (_ & _ & _ & _ & _ & _ & Hm & Hv & Hst & Hcnt).
  assert (On : onset_decision fe = false).
  { apply silence_no_onset; try assumption. rewrite R4. exact Hcfg. }
  assert (M : machine_step fe = fe).
  { unfold machine_step. rewrite Hst. unfold idle_step. rewrite On.
    reflexivity. }
  unfold process_sample. fold fe. rewrite R4, Hrt. cbn [andb].
  rewrite M, R4. rewrite emit_loop_nothing.
  - cbn [fst snd]. auto.
  - unfold context_needed. rewrite Hrt, Hcnt. exact Hctx.
Qed.

Lemma process_from_silence (n : nat) :
  forall (d : SyllableDetector R) (max_events : Z)
         (out : list (SyllableEvent R)),
    rejects_silence (config d) -> at_rest d ->
    snd (process_from d (repeat 0 n) max_events out) = out
    /\ at_rest (fst (process_from d (repeat 0 n) max_events out)).
Proof.
  induction n as [|k IH]; intros d max_events out Hcfg Hrest;
    cbn [repeat process_from].
  - auto.
  - destruct (process_sample_silence d
      (Z.to_nat (max_events - Z.of_nat (length out))) Hcfg Hrest)
      as (S1 & S2 & S3).
    destruct (process_sample d 0 _) as [d1 es]. cbn [fst snd] in *.
    subst es. rewrite app_nil_r. apply IH; [rewrite S3|]; assumption.
Qed.

Lemma reset_at_rest (d : SyllableDetector R) :
  at_rest (syllable_reset d) /\ config (syllable_reset d) = config d.
Proof.
  split; [|reflexivity].
  unfold at_rest, syllable_reset, configure_bandpass,
    biquad_config_bandpass, biquad_reset.
  cbn [dsp energy_st machine ring bp_filter env_follower x1 x2 y1 y2 output
       prev_env adaptive_mean adaptive_var state buf_count].
  real_ops. replace (Q2R 0) with 0 by (int_lits; reflexivity).
  auto 20.
Qed.

(** X4. Digital silence is never reported.  In offline mode with unvoiced
    onsets disallowed and a non-negative peak-rate threshold, hysteresis
    factor and context size, a detector that was just constructed, or just
    reset after any history, writes no event on an all-zero input of any
    length, and is at rest afterwards (exact arithmetic). *)
Theorem silence_is_never_reported (cfg : SyllableConfig R)
    (d0 : SyllableDetector R) (n : nat) (max_events : Z) :
  rejects_silence cfg ->
  config d0 = cfg ->
  let zeros := repeat 0 n in
  (snd (syllable_process (syllable_create cfg) zeros max_events) = []
   /\ at_rest (fst (syllable_process (syllable_create cfg) zeros
                      max_events)))
  /\ (snd (syllable_process (syllable_reset d0) zeros max_events) = []
      /\ at_rest (fst (syllable_process (syllable_reset d0) zeros
                         max_events))).
Proof.
  intros H Hc. cbv zeta. unfold syllable_process. split.
  - unfold syllable_create.
    destruct (reset_at_rest (create_fields cfg)) as (A & C).
    apply process_from_silence; [|exact A].
    rewrite C. exact H.
  - destruct (reset_at_rest d0) as (A & C).
    apply process_from_silence; [|exact A].
    rewrite C, Hc. exact H.
Qed.

(** ** Real-time mode *)

Lemma calibration_stage_energy_path (d : SyllableDetector R) :
  same_energy_path d (calibration_stage d).
Proof.
  unfold same_energy_path, calibration_stage, update_rt_calibration,
    finalize_rt_calibration, store_frame.
  repeat match goal with
         | |- context [if ?c then _ else _] => destruct c
         end; cbn; auto 10.
Qed.

Lemma fusion_stage_rest (d : SyllableDetector R) :
  current_peak_rate (energy_st d) = 0 ->
  adaptive_mean (energy_st d) = 0 -> adaptive_var (energy_st d) = 0 ->
  let d' := fusion_stage d in
  bp_filter (dsp d') = bp_filter (dsp d)
  /\ env_follower (dsp d') = env_follower (dsp d)
  /\ prev_env (energy_st d') = prev_env (energy_st d)
  /\ current_energy (energy_st d') = current_energy (energy_st d)
  /\ adaptive_mean (energy_st d') = 0 /\ adaptive_var (energy_st d') = 0.
Proof.
  intros Hpr Hm Hv. cbv zeta. unfold fusion_stage. rewrite Hpr, Hm, Hv.
  destruct (_ && (_ >=? _)%Z);
    destruct (adaptive_enabled (energy_st d) && is_voiced (voicing d));
    cbn [fst snd dsp energy_st set_features set_energy_st
         set_fusion_hist bp_filter env_follower prev_env current_energy
         adaptive_mean adaptive_var];
    real_ops; repeat split; lra.
Qed.

Lemma front_end_rest (d : SyllableDetector R) :
  at_rest d ->
  let d' := front_end d 0 in
  at_rest d' /\ current_energy (energy_st d') = 0 /\ config d' = config d.
Proof.
  intros (Hx1 & Hx2 & Hy1 & Hy2 & Ho & Hp & Hm & Hv & Hst & Hcnt).
  cbv zeta. destruct (front_end_frame d 0) as (F1 & F2 & F3 & _).
  unfold front_end in *.
  destruct (agc_stage_silence d) as (S0 & A).
  destruct (agc_stage d 0) as [d1 s]. cbn [fst snd] in *. subst s.
  pose proof (same_energy_path_trans _ _ _ A (voicing_stage_energy_path d1 0))
    as (B1 & B2 & B3 & B4 & B5 & B6).
  set (d2 := voicing_stage d1 0) in *.
  destruct (energy_stage_silence d2)
    as (E1 & E2 & E3 & E4 & E5 & E6 & E7 & E8 & E9 & E10 & E11 & E12 & E13
        & E14 & E15);
    try (rewrite ?B2, ?B3, ?B4; assumption).
  set (d3 := energy_stage d2 0) in *.
  pose proof (same_energy_path_trans _ _ _ (feature_stage_energy_path d3 0)
                (calibration_stage_energy_path (feature_stage d3 0)))
    as (G1 & G2 & G3 & G4 & G5 & G6).
  set (d4 := calibration_stage (feature_stage d3 0)) in *.
  destruct (fusion_stage_rest d4) as (H1 & H2 & H3 & H4 & H5 & H6).
  { rewrite G4. exact E7. }
  { rewrite G4, E10, B4. exact Hm. }
  { rewrite G4, E11, B4. exact Hv. }
  unfold at_rest. rewrite H1, H2, H3, H4, H5, H6, G2, G3, G4, F2, F3.
  repeat split; assumption.
Qed.

Lemma realtime_energy_gate (d : SyllableDetector R) :
  realtime_mode (config d) = true ->
  is_calibrating (rt_cal d) = false ->
  current_energy (energy_st d) = 0 ->
  onset_decision d = false.
Proof.
  intros Hrt Hcal Hen. unfold onset_decision.
  rewrite Hrt, Hcal, Hen. cbn [negb andb]. real_ops.
  replace (Rltb 0.001 0) with false by (symmetry; apply Rltb_false; lra).
  rewrite !andb_false_r. reflexivity.
Qed.

Lemma process_sample_realtime_silence (d : SyllableDetector R)
    (room : nat) :
  realtime_mode (config d) = true -> at_rest d ->
  snd (process_sample d 0 room) = []
  /\ at_rest (fst (process_sample d 0 room))
  /\ config (fst (process_sample d 0 room)) = config d.
Proof.
  intros Hrt Hrest.
  destruct (front_end_rest d Hrest) as (R1 & R2 & R4).
  cbv zeta in *. set (fe := front_end d 0) in *.
  pose proof R1 as (_ & _ & _ & _ & _ & _ & _ & _ & Hst & Hcnt).
  unfold process_sample. fold fe. rewrite R4, Hrt. cbn [andb].
  destruct (is_calibrating (rt_cal fe)) eqn:Hcal.
  - cbn [fst snd]. auto.
  - assert (On : onset_decision fe = false).
    { apply realtime_energy_gate; try assumption. rewrite R4. exact Hrt. }
    assert (M : machine_step fe = fe).
    { unfold machine_step. rewrite Hst. unfold idle_step. rewrite On.
      reflexivity. }
    rewrite M, R4. rewrite emit_loop_nothing.
    + cbn [fst snd]. auto.
    + unfold context_needed. rewrite Hrt, Hcnt. lia.
Qed.

Lemma process_from_realtime_silence (n : nat) :
  forall (d : SyllableDetector R) (max_events : Z)
         (out : list (SyllableEvent R)),
    realtime_mode (config d) = true -> at_rest d ->
    snd (process_from d (repeat 0 n) max_events out) = out
    /\ at_rest (fst (process_from d (repeat 0 n) max_events out)).
Proof.
  induction n as [|k IH]; intros d max_events out Hrt Hrest;
    cbn [repeat process_from].
  - auto.
  - destruct (process_sample_realtime_silence d
      (Z.to_nat (max_events - Z.of_nat (length out))) Hrt Hrest)
      as (S1 & S2 & S3).
    destruct (process_sample d 0 _) as [d1 es]. cbn [fst snd] in *.
    subst es. rewrite app_nil_r. apply IH; [rewrite S3|]; assumption.
Qed.

Lemma recalibrate_at_rest (d : SyllableDetector R) :
  at_rest d -> at_rest (syllable_recalibrate d).
Proof.
  unfold at_rest, syllable_recalibrate.
  destruct (negb (realtime_mode (config d))); cbn; auto.
Qed.

(** X23. In real-time mode digital silence is never reported, whatever
    the configuration.  A detector constructed or reset with real-time
    mode on, whether or not a calibration was started with
    [syllable_recalibrate], writes no event on an all-zero input of any
    length: during calibration the state machine is skipped, and
    afterwards the energy gate rejects an envelope that is not above
    0.001 (exact arithmetic). *)
Theorem realtime_silence_is_never_reported (d0 : SyllableDetector R)
    (n : nat) (max_events : Z) :
  realtime_mode (config d0) = true ->
  let zeros := repeat 0 n in
  snd (syllable_process (syllable_reset d0) zeros max_events) = []
  /\ snd (syllable_process (syllable_recalibrate (syllable_reset d0)) zeros
            max_events) = []
  /\ snd (syllable_process (syllable_create (config d0)) zeros max_events)
     = []
  /\ snd (syllable_process
            (syllable_recalibrate (syllable_create (config d0))) zeros
            max_events) = [].
Proof.
  intro Hrt. cbv zeta. unfold syllable_process.
  destruct (reset_at_rest d0) as (A & C).
  destruct (reset_at_rest (create_fields (config d0))) as (A' & C').
  destruct (recalibrate_config_and_cal (syllable_reset d0)) as (Hr1 & _).
  destruct (recalibrate_config_and_cal (syllable_create (config d0)))
    as (Hr2 & _).
  split; [|split; [|split]].
  - apply process_from_realtime_silence; [rewrite C; exact Hrt|exact A].
  - apply process_from_realtime_silence;
      [exact Hr1 | apply recalibrate_at_rest; exact A].
  - apply process_from_realtime_silence; [|exact A'].
    unfold syllable_create. rewrite C'. exact Hrt.
  - apply process_from_realtime_silence;
      [exact Hr2 | apply recalibrate_at_rest; exact A'].
Qed.
End Silence.

(* ------------------------------------------------------------------ *)
(** * Running statistics and normalization (exact arithmetic) *)

Section Statistics.
Context {X : Extractors R}.
Local Open Scope R_scope.

Lemma update_feature_stats_step (s : FeatureStats R) (v : R) :
  0 <= alpha s <= 1 -> 0 <= var s ->
  let s' := update_feature_stats s v in
  alpha s' = alpha s
  /\ 0 <= var s'
  /\ max_val s' = Rmax (max_val s) v
  /\ Rmin (mean s) v <= mean s' <= Rmax (mean s) v
  /\ sample_count s'
     = (if (sample_count s <? 100000)%Z then sample_count s + 1
        else sample_count s)%Z.
Proof.
  intros Ha Hv. cbv zeta. unfold update_feature_stats.
  cbn [alpha var max_val mean sample_count]. real_ops. int_lits.
  split; [reflexivity|]. split.
  - assert (0 <= alpha s * (v - mean s) * (v - mean s)).
    { replace (alpha s * (v - mean s) * (v - mean s))
        with (alpha s * ((v - mean s) * (v - mean s))) by ring.
      apply Rmult_le_pos; [lra|]. apply Rle_0_sqr. }
    apply Rmult_le_pos; lra.
  - split.
    + unfold Rmax. destruct (Rltb (max_val s) v) eqn:E;
        [apply Rltb_true in E | apply Rltb_false in E];
        destruct (Rle_dec (max_val s) v); lra.
    + split; [|reflexivity].
      unfold Rmin, Rmax. destruct (Rle_dec (mean s) v); split; nra.
Qed.

Lemma update_feature_stats_run (vs : list R) :
  forall s : FeatureStats R,
    0 <= alpha s <= 1 -> 0 <= var s ->
    (0 <= sample_count s <= 100000)%Z ->
    let s' := fold_left update_feature_stats vs s in
    alpha s' = alpha s
    /\ 0 <= var s'
    /\ max_val s <= max_val s'
    /\ Forall (fun v => v <= max_val s') vs
    /\ sample_count s'
       = Z.min (sample_count s + Z.of_nat (length vs)) 100000
    /\ forall lo hi : R,
         lo <= mean s <= hi -> Forall (fun v => lo <= v <= hi) vs ->
         lo <= mean s' <= hi.
Proof.
  induction vs as [|v rest IH]; intros s Ha Hv Hc; cbn [fold_left length].
  - cbv zeta. repeat split; try lra; try constructor; try lia; tauto.
  - destruct (update_feature_stats_step s v Ha Hv) as (A & V & M & B & C).
    cbv zeta in *.
    set (s1 := update_feature_stats s v) in *.
    assert (Hc1 : (0 <= sample_count s1 <= 100000)%Z).
    { rewrite C. destruct (Z.ltb_spec (sample_count s) 100000); lia. }
    destruct (IH s1) as (A' & V' & M' & F' & C' & B');
      [rewrite A; exact Ha | exact V | exact Hc1 |].
    assert (Mv : v <= max_val s1 /\ max_val s <= max_val s1).
    { rewrite M. split; [apply Rmax_r | apply Rmax_l]. }
    split; [congruence|]. split; [exact V'|].
    split; [lra|]. split; [constructor; [lra | exact F']|].
    split.
    + rewrite C', C.
      destruct (Z.ltb_spec (sample_count s) 100000); lia.
    + intros lo hi Hm Hall. inversion Hall as [|? ? Hv0 Hrest]; subst.
      apply B'; [|exact Hrest].
      unfold Rmin, Rmax in B.
      destruct (Rle_dec (mean s) v); lra.
Qed.

(** X7. The running statistics stay valid.  Started by
    [init_feature_stats] with a positive time constant and sample rate and
    updated with any values, the coefficient stays in (0, 1], the variance
    stays non-negative, [max_val] bounds every value seen, the sample
    count is the number of updates capped at 100000, and the mean stays
    within any interval around 0 that contains the values. *)
Theorem feature_stats_stay_valid (tau_ms : R) (fs : Z) (vs : list R) :
  0 < tau_ms -> (0 < fs)%Z ->
  let s := fold_left update_feature_stats vs (init_feature_stats tau_ms fs) in
  0 < alpha s <= 1
  /\ 0 <= var s
  /\ 0 <= max_val s
  /\ Forall (fun v => v <= max_val s) vs
  /\ sample_count s = Z.min (Z.of_nat (length vs)) 100000
  /\ forall lo hi : R,
       lo <= 0 <= hi -> Forall (fun v => lo <= v <= hi) vs ->
       lo <= mean s <= hi.
Proof.
  intros Ht Hf. cbv zeta.
  set (s0 := init_feature_stats tau_ms fs).
  assert (I : 0 < alpha s0 <= 1 /\ var s0 = 0 /\ max_val s0 = 0
              /\ mean s0 = 0 /\ sample_count s0 = 0%Z).
  { unfold s0, init_feature_stats. cbn [alpha var max_val mean sample_count].
    real_ops. int_lits.
    assert (0 < tau_ms * 0.001 * IZR fs).
    { apply Rmult_lt_0_compat; [lra|]. apply IZR_lt. exact Hf. }
    assert (0 < 1 / (tau_ms * 0.001 * IZR fs))
      by (apply Rdiv_lt_0_compat; lra).
    split; [|auto].
    destruct (Rltb 1 _) eqn:E;
      [apply Rltb_true in E | apply Rltb_false in E]; lra. }
  destruct I as (Ia & Iv & Im & Imean & Ic).
  destruct (update_feature_stats_run vs s0) as (A & V & M & Fa & C & B);
    [lra | lra | lia |].
  cbv zeta in *. rewrite A.
  split; [exact Ia|]. split; [exact V|]. split; [lra|].
  split; [exact Fa|]. split; [rewrite C, Ic; lia|].
  intros lo hi H0 Hall. apply B; [rewrite Imean; exact H0 | exact Hall].
Qed.

Lemma fast_sigmoid_nonneg (x : R) :
  0 <= x -> fast_sigmoid x = 1 - / (1 + x).
Proof.
  intro H. unfold fast_sigmoid. real_ops. int_lits.
  rewrite Rabs_pos_eq by lra. field. lra.
Qed.

Lemma fast_sigmoid_neg (x : R) :
  x <= 0 -> fast_sigmoid x = / (1 - x) - 1.
Proof.
  intro H. unfold fast_sigmoid. real_ops. int_lits.
  destruct (Req_dec x 0) as [->|Hne].
  - rewrite Rabs_R0. field.
  - rewrite Rabs_left by lra. field. lra.
Qed.

Lemma fast_sigmoid_bounds (x : R) : -1 < fast_sigmoid x < 1.
Proof.
  destruct (Rle_dec 0 x) as [H|H].
  - rewrite fast_sigmoid_nonneg by exact H.
    assert (0 < / (1 + x)) by (apply Rinv_0_lt_compat; lra).
    assert (/ (1 + x) <= 1).
    { rewrite <- Rinv_1 at 2. apply Rinv_le_contravar; lra. }
    lra.
  - rewrite fast_sigmoid_neg by lra.
    assert (0 < / (1 - x)) by (apply Rinv_0_lt_compat; lra).
    assert (/ (1 - x) < 1).
    { rewrite <- Rinv_1 at 2. apply Rinv_lt_contravar; lra. }
    lra.
Qed.

Lemma fast_sigmoid_sign (x : R) :
  (0 <= x -> 0 <= fast_sigmoid x) /\ (x <= 0 -> fast_sigmoid x <= 0).
Proof.
  split; intro H.
  - rewrite fast_sigmoid_nonneg by exact H.
    assert (/ (1 + x) <= 1);
      [rewrite <- Rinv_1 at 2; apply Rinv_le_contravar; lra | lra].
  - rewrite fast_sigmoid_neg by exact H.
    assert (/ (1 - x) <= 1);
      [rewrite <- Rinv_1 at 2; apply Rinv_le_contravar; lra | lra].
Qed.

Lemma fast_sigmoid_increasing (x y : R) :
  x < y -> fast_sigmoid x < fast_sigmoid y.
Proof.
  intro H.
  destruct (Rle_dec 0 x) as [Hx|Hx].
  - rewrite !fast_sigmoid_nonneg by lra.
    assert (/ (1 + y) < / (1 + x)) by (apply Rinv_lt_contravar; nra).
    lra.
  - destruct (Rle_dec 0 y) as [Hy|Hy].
    + destruct (fast_sigmoid_sign y) as (P & _). specialize (P Hy).
      rewrite fast_sigmoid_neg by lra.
      assert (/ (1 - x) < 1).
      { rewrite <- Rinv_1 at 2. apply Rinv_lt_contravar; lra. }
      lra.
    + rewrite !fast_sigmoid_neg by lra.
      assert (/ (1 - x) < / (1 - y)) by (apply Rinv_lt_contravar; nra).
      lra.
Qed.

(** X8. [fast_sigmoid], the map [x / (1 + |x|)], is odd, strictly
    increasing and takes its values strictly between -1 and 1. *)
Theorem fast_sigmoid_is_an_odd_increasing_squash (x y : R) :
  fast_sigmoid (- x) = - fast_sigmoid x
  /\ -1 < fast_sigmoid x < 1
  /\ (x < y <-> fast_sigmoid x < fast_sigmoid y).
Proof.
  split; [|split; [apply fast_sigmoid_bounds|]].
  - unfold fast_sigmoid. real_ops. rewrite Rabs_Ropp. int_lits.
    assert (0 <= Rabs x) by apply Rabs_pos. field. lra.
  - split; [apply fast_sigmoid_increasing|].
    intro H. destruct (Rlt_dec x y) as [|N]; [assumption|].
    destruct (Req_dec x y) as [->|Hne]; [lra|].
    assert (y < x) by lra.
    pose proof (fast_sigmoid_increasing y x ltac:(assumption)). lra.
Qed.

Lemma normalize_feature_range (s : FeatureStats R) (v : R) :
  0 <= normalize_feature s v <= 1.
Proof.
  unfold normalize_feature. real_ops. int_lits.
  set (z := (v - mean s) / _).
  destruct (Rltb z 0) eqn:E0;
    [apply Rltb_true in E0 | apply Rltb_false in E0].
  - replace (Rltb 4 0) with false by (symmetry; apply Rltb_false; lra).
    lra.
  - destruct (Rltb 4 z) eqn:E4;
      [apply Rltb_true in E4 | apply Rltb_false in E4]; lra.
Qed.

Lemma normalize_feature_sigmoid_range (s : FeatureStats R) (v : R) :
  0 < fst (normalize_feature_sigmoid s v) < 1
  /\ 0.1 <= snd (normalize_feature_sigmoid s v) <= 1.
Proof.
  unfold normalize_feature_sigmoid. real_ops.
  destruct (Rltb (sqrt (var s)) _ || (sample_count s <? 100)%Z) eqn:E.
  - cbn [fst snd]. lra.
  - cbn [fst snd]. apply orb_false_iff in E. destruct E as (_ & E).
    apply Z.ltb_ge in E. int_lits.
    pose proof (fast_sigmoid_bounds ((v - mean s) / sqrt (var s) - 1)).
    split; [lra|].
    assert (0.1 <= IZR (sample_count s) / 1000).
    { apply IZR_le in E. lra. }
    unfold Rmin. destruct (Rle_dec 1 _); lra.
Qed.

Lemma get_stats_confidence_range (s : FeatureStats R) (fs : Z) :
  (0 <= sample_count s)%Z -> 0 <= get_stats_confidence s fs <= 1.
Proof.
  intro H. unfold get_stats_confidence. real_ops. int_lits.
  destruct (Z.geb_spec (sample_count s) (Z.quot fs 2)) as [G|L]; [lra|].
  assert (0 < IZR (Z.quot fs 2)) by (apply IZR_lt; lia).
  assert (0 <= IZR (sample_count s)) by (apply IZR_le; lia).
  assert (IZR (sample_count s) < IZR (Z.quot fs 2)) by (apply IZR_lt; lia).
  split.
  - apply Rmult_le_pos; [lra|]. apply Rlt_le, Rinv_0_lt_compat. lra.
  - apply Rmult_le_reg_r with (IZR (Z.quot fs 2)); [lra|].
    unfold Rdiv. rewrite Rmult_assoc, Rinv_l by lra. lra.
Qed.

(** X9. Normalized values are in the unit interval.  For statistics with
    a non-negative variance and sample count, [normalize_feature] returns
    a value in [0, 1] that does not decrease with the value normalized;
    [normalize_feature_sigmoid] returns a value strictly between 0 and 1
    and a confidence in [0.1, 1], the neutral pair (0.5, 0.1) during the
    first 100 samples; and [get_stats_confidence] returns a value in
    [0, 1], dividing only by a positive target. *)
Theorem normalized_values_are_in_unit_interval (s : FeatureStats R)
    (v w : R) (fs : Z) :
  0 <= var s -> (0 <= sample_count s)%Z ->
  0 <= normalize_feature s v <= 1
  /\ (v <= w -> normalize_feature s v <= normalize_feature s w)
  /\ 0 < fst (normalize_feature_sigmoid s v) < 1
  /\ 0.1 <= snd (normalize_feature_sigmoid s v) <= 1
  /\ ((sample_count s < 100)%Z ->
      normalize_feature_sigmoid s v = (0.5, 0.1))
  /\ 0 <= get_stats_confidence s fs <= 1
  /\ ((sample_count s < Z.quot fs 2)%Z ->
      get_stats_confidence s fs
      = IZR (sample_count s) / IZR (Z.quot fs 2)
      /\ 0 < IZR (Z.quot fs 2)).
Proof.
  intros Hv Hc.
  split; [apply normalize_feature_range|].
  split; [|split; [apply normalize_feature_sigmoid_range|
           split; [apply normalize_feature_sigmoid_range|
           split; [|split; [apply get_stats_confidence_range; exact Hc|]]]]].
  - intro Hvw. unfold normalize_feature. real_ops. sci_lits. int_lits.
    set (sd := if Rltb (sqrt (var s)) _ then _ else sqrt (var s)).
    assert (Hsd : 0 < sd).
    { unfold sd.
      destruct (Rltb _ _) eqn:E; [lra|]. apply Rltb_false in E. lra. }
    assert (Hz : (v - mean s) / sd <= (w - mean s) / sd).
    { unfold Rdiv. apply Rmult_le_compat_r; [|lra].
      apply Rlt_le, Rinv_0_lt_compat. exact Hsd. }
    set (zv := (v - mean s) / sd) in *. set (zw := (w - mean s) / sd) in *.
    rewrite !clamp_below, !clamp_above. clearbody zv zw.
    assert (Rmin 4 (Rmax 0 zv) <= Rmin 4 (Rmax 0 zw)); [|lra].
    unfold Rmax. destruct (Rle_dec 0 zv), (Rle_dec 0 zw); unfold Rmin;
      repeat match goal with
             | |- context [Rle_dec ?a ?b] => destruct (Rle_dec a b)
             end; lra.
  - intro Hlt. unfold normalize_feature_sigmoid.
    replace (sample_count s <? 100)%Z with true
      by (symmetry; apply Z.ltb_lt; exact Hlt).
    rewrite orb_true_r. reflexivity.
  - intro Hlt. unfold get_stats_confidence. real_ops.
    destruct (Z.geb_spec (sample_count s) (Z.quot fs 2)) as [G|L]; [lia|].
    split; [reflexivity|]. apply IZR_lt. lia.
Qed.
End Statistics.

(* ------------------------------------------------------------------ *)
(** * The DSP primitives (exact arithmetic) *)

Section PrimitiveBounds.
Local Open Scope R_scope.

Lemma exp_neg_unit (x : R) : x < 0 -> 0 < exp x < 1.
Proof.
  intro H. split; [apply exp_pos|].
  rewrite <- exp_0. apply exp_increasing. exact H.
Qed.

Lemma neg_inv_neg (p : R) : 0 < p -> -1 / p < 0.
Proof.
  intro H. unfold Rdiv.
  assert (0 < / p) by (apply Rinv_0_lt_compat; exact H). nra.
Qed.

(** ** envelope.c *)

Lemma envelope_init_coeffs (fs attack_ms release_ms : R) :
  0 < fs ->
  let e := envelope_init fs attack_ms release_ms in
  output e = 0 /\ 0 < attack_coeff e < 1 /\ 0 < release_coeff e < 1.
Proof.
  intro Hfs. cbv zeta. unfold envelope_init.
  cbn [output attack_coeff release_coeff]. real_ops. sci_lits. int_lits.
  split; [reflexivity|].
  split; apply exp_neg_unit, neg_inv_neg;
    (destruct (Rltb _ _) eqn:E;
     [|apply Rltb_false in E]; apply Rmult_lt_0_compat; lra).
Qed.

Lemma envelope_process_step (e : EnvelopeFollower R) (x : R) :
  0 < attack_coeff e < 1 -> 0 < release_coeff e < 1 ->
  let r := envelope_process e x in
  attack_coeff (fst r) = attack_coeff e
  /\ release_coeff (fst r) = release_coeff e
  /\ output (fst r) = snd r
  /\ Rmin (output e) (Rabs x) <= snd r <= Rmax (output e) (Rabs x).
Proof.
  intros Ha Hr. cbv zeta. unfold envelope_process.
  cbn [fst snd output attack_coeff release_coeff]. real_ops. int_lits.
  split; [reflexivity|]. split; [reflexivity|]. split; [reflexivity|].
  unfold Rmin, Rmax.
  destruct (Rltb (output e) (Rabs x)) eqn:E;
    [apply Rltb_true in E | apply Rltb_false in E];
    destruct (Rle_dec (output e) (Rabs x)); split; nra.
Qed.

Lemma envelope_run (xs : list R) (m : R) :
  forall e : EnvelopeFollower R,
    0 < attack_coeff e < 1 -> 0 < release_coeff e < 1 ->
    0 <= output e <= m ->
    Forall (fun x => Rabs x <= m) xs ->
    let r := feed envelope_process e xs in
    Forall (fun y => 0 <= y <= m) (snd r)
    /\ 0 <= output (fst r) <= m
    /\ attack_coeff (fst r) = attack_coeff e
    /\ release_coeff (fst r) = release_coeff e.
Proof.
  induction xs as [|x rest IH]; intros e Ha Hr Ho Hall; cbn [feed].
  - cbn. auto.
  - inversion Hall as [|? ? Hx Hrest]; subst.
    destruct (envelope_process_step e x Ha Hr) as (A & B & C & D).
    cbv zeta in *.
    destruct (envelope_process e x) as [e1 y]. cbn [fst snd] in *.
    assert (Hy : 0 <= y <= m).
    { pose proof (Rabs_pos x). unfold Rmin, Rmax in D.
      destruct (Rle_dec (output e) (Rabs x)); lra. }
    destruct (IH e1) as (I1 & I2 & I3 & I4);
      [rewrite A; exact Ha | rewrite B; exact Hr | rewrite C; exact Hy
       | exact Hrest |].
    cbv zeta in *.
    destruct (feed envelope_process e1 rest) as [e2 ys]. cbn [fst snd] in *.
    split; [constructor; assumption|]. split; [exact I2|].
    split; congruence.
Qed.

(** X10. The envelope follower never overshoots.  For a positive sample
    rate, [envelope_init] yields attack and release coefficients strictly
    between 0 and 1, each output of [envelope_process] lies between the
    previous output and the magnitude of the input sample, and so on
    input bounded in magnitude by [m] every output lies in [0, m]. *)
Theorem envelope_never_overshoots (fs attack_ms release_ms m : R)
    (xs : list R) :
  0 < fs -> 0 <= m ->
  Forall (fun x => Rabs x <= m) xs ->
  let e0 := envelope_init fs attack_ms release_ms in
  let r := feed envelope_process e0 xs in
  0 < attack_coeff e0 < 1 /\ 0 < release_coeff e0 < 1
  /\ Forall (fun y => 0 <= y <= m) (snd r)
  /\ 0 <= output (fst r) <= m
  /\ forall (e : EnvelopeFollower R) (x : R),
       0 < attack_coeff e < 1 -> 0 < release_coeff e < 1 ->
       Rmin (output e) (Rabs x) <= snd (envelope_process e x)
       <= Rmax (output e) (Rabs x).
Proof.
  intros Hfs Hm Hall. cbv zeta.
  destruct (envelope_init_coeffs fs attack_ms release_ms Hfs)
    as (O & A & B).
  cbv zeta in *.
  destruct (envelope_run xs m (envelope_init fs attack_ms release_ms))
    as (I1 & I2 & _); try assumption.
  { rewrite O. lra. }
  split; [exact A|]. split; [exact B|]. split; [exact I1|].
  split; [exact I2|].
  intros e x Ha Hr. apply envelope_process_step; assumption.
Qed.

(** ** agc.c *)

Lemma one_minus_exp_unit (p : R) : 0 < p -> 0 < 1 - exp (-1 / p) < 1.
Proof.
  intro H. pose proof (exp_neg_unit (-1 / p) (neg_inv_neg p H)). lra.
Qed.

Lemma Rpower_ten_ge_1 (y : R) : 0 <= y -> 1 <= Rpower 10 y.
Proof.
  intro H. unfold Rpower.
  assert (L : 0 < ln 10).
  { rewrite <- ln_1. apply ln_increasing; lra. }
  destruct (Req_dec (y * ln 10) 0) as [E|E].
  - rewrite E, exp_0. lra.
  - assert (0 < y * ln 10) by nra.
    rewrite <- exp_0. apply Rlt_le, exp_increasing. assumption.
Qed.

Lemma agc_create_fields (fs : Z) (target_db max_gain_db : R) :
  (0 < fs)%Z -> 0 <= max_gain_db ->
  let a := agc_create fs target_db max_gain_db in
  1 <= max_gain a /\ current_gain a = 1 /\ envelope a = 0
  /\ 0 < agc_attack_coeff a < 1 /\ 0 < agc_release_coeff a < 1
  /\ 0 < gain_coeff a < 1.
Proof.
  intros Hfs Hdb. cbv zeta. unfold agc_create.
  cbn [max_gain current_gain envelope agc_attack_coeff agc_release_coeff
       gain_coeff]. real_ops. int_lits.
  assert (0 < IZR fs) by (apply IZR_lt; exact Hfs).
  split; [apply Rpower_ten_ge_1; lra|].
  repeat split; try reflexivity;
    try (apply one_minus_exp_unit; nra);
    apply (one_minus_exp_unit _ ltac:(nra)).
Qed.

Lemma agc_process_step (a : AgcState R) (x : R) :
  1 <= max_gain a -> 0.1 <= current_gain a <= max_gain a ->
  0 <= envelope a ->
  0 < agc_attack_coeff a < 1 -> 0 < agc_release_coeff a < 1 ->
  0 < gain_coeff a < 1 ->
  let r := agc_process a x in
  agc_reset (fst r) = agc_reset a
  /\ 0.1 <= current_gain (fst r) <= max_gain a
  /\ 0 <= envelope (fst r)
  /\ snd r = x * current_gain (fst r).
Proof.
  intros Hm Hg He Ha Hr Hc. cbv zeta. unfold agc_process, agc_reset.
  cbn [fst snd target_level max_gain current_gain envelope agc_attack_coeff
       agc_release_coeff gain_coeff]. real_ops. sci_lits.
  split; [reflexivity|].
  set (env := if Rltb (envelope a) (Rabs x) then _ else _).
  assert (Henv : 0 <= env).
  { pose proof (Rabs_pos x). unfold env.
    destruct (Rltb _ _); nra. }
  set (tg0 := target_level a / _).
  set (tg1 := if Rltb (max_gain a) tg0 then max_gain a else tg0).
  set (tg2 := if Rltb tg1 0.1 then 0.1 else tg1).
  assert (H2 : 0.1 <= tg2 <= max_gain a).
  { unfold tg2, tg1.
    destruct (Rltb (max_gain a) tg0) eqn:E1;
      [apply Rltb_true in E1 | apply Rltb_false in E1].
    - replace (Rltb (max_gain a) 0.1) with false
        by (symmetry; apply Rltb_false; lra). lra.
    - destruct (Rltb tg0 0.1) eqn:E2;
        [apply Rltb_true in E2 | apply Rltb_false in E2]; lra. }
  clearbody tg2. split; [nra|]. split; [exact Henv|reflexivity].
Qed.

Lemma agc_run (xs : list R) :
  forall a : AgcState R,
    1 <= max_gain a -> 0.1 <= current_gain a <= max_gain a ->
    0 <= envelope a ->
    0 < agc_attack_coeff a < 1 -> 0 < agc_release_coeff a < 1 ->
    0 < gain_coeff a < 1 ->
    let r := feed agc_process a xs in
    agc_reset (fst r) = agc_reset a
    /\ 0.1 <= current_gain (fst r) <= max_gain a
    /\ 0 <= envelope (fst r)
    /\ Forall2 (fun x y => exists g, 0.1 <= g <= max_gain a /\ y = x * g)
               xs (snd r).
Proof.
  induction xs as [|x rest IH]; intros a Hm Hg He Ha Hr Hc; cbn [feed].
  - cbn. auto.
  - destruct (agc_process_step a x Hm Hg He Ha Hr Hc) as (A & B & C & D).
    cbv zeta in *.
    destruct (agc_process a x) as [a1 y]. cbn [fst snd] in *.
    assert (S : max_gain a1 = max_gain a
                /\ agc_attack_coeff a1 = agc_attack_coeff a
                /\ agc_release_coeff a1 = agc_release_coeff a
                /\ gain_coeff a1 = gain_coeff a).
    { unfold agc_reset in A. injection A as _ A2 A3 A4 A5. auto. }
    destruct S as (S1 & S2 & S3 & S4).
    destruct (IH a1) as (I1 & I2 & I3 & I4);
      rewrite ?S1, ?S2, ?S3, ?S4; try assumption.
    cbv zeta in *.
    destruct (feed agc_process a1 rest) as [a2 ys]. cbn [fst snd] in *.
    rewrite S1 in *.
    split; [congruence|]. split; [exact I2|]. split; [exact I3|].
    constructor; [|exact I4].
    exists (current_gain a1). split; assumption.
Qed.

(** X11. The automatic gain control keeps its gain bounded.  Created for
    a positive sample rate and a non-negative maximum gain in dB, and fed
    any samples, the gain stays between 0.1 and [max_gain], each output
    is the input sample times such a gain (so silence stays silence and
    the sign is kept), the tracked envelope is never negative, and
    [agc_reset] returns to the state after [agc_create]. *)
Theorem agc_gain_stays_bounded (fs : Z) (target_db max_gain_db : R)
    (xs : list R) :
  (0 < fs)%Z -> 0 <= max_gain_db ->
  let a0 := agc_create fs target_db max_gain_db in
  let r := feed agc_process a0 xs in
  max_gain a0 = Rpower 10 (max_gain_db / 20)
  /\ 0.1 <= agc_get_gain (fst r) <= max_gain a0
  /\ 0 <= envelope (fst r)
  /\ Forall2 (fun x y => exists g, 0.1 <= g <= max_gain a0 /\ y = x * g)
             xs (snd r)
  /\ agc_reset (fst r) = a0.
Proof.
  intros Hfs Hdb. cbv zeta.
  destruct (agc_create_fields fs target_db max_gain_db Hfs Hdb)
    as (M & G & E & A & Rl & C).
  cbv zeta in *.
  destruct (agc_run xs (agc_create fs target_db max_gain_db))
    as (I1 & I2 & I3 & I4); try assumption.
  { rewrite G. lra. }
  { rewrite E. lra. }
  cbv zeta in *.
  split.
  { unfold agc_create. cbn [max_gain]. real_ops. int_lits. reflexivity. }
  split; [exact I2|]. split; [exact I3|]. split; [exact I4|].
  rewrite I1. unfold agc_reset, agc_create. cbn. real_ops. int_lits.
  reflexivity.
Qed.

(** ** high_freq_energy.c *)

Lemma hfe_create_fields (fs : Z) (cutoff_hz window_ms : R) :
  (0 < fs)%Z ->
  let h := hfe_create fs cutoff_hz window_ms in
  hfe_energy h = 0 /\ hfe_peak_energy h = 0
  /\ 0 < hfe_attack_coef h < 1 /\ 0 < hfe_release_coef h < 1
  /\ 0 < hfe_peak_decay h < 1
  /\ hfe_reset h = h.
Proof.
  intro Hfs. cbv zeta. unfold hfe_create, hfe_reset.
  cbn [hfe_energy hfe_peak_energy hfe_attack_coef hfe_release_coef
       hfe_peak_decay hfe_sample_rate hfe_cutoff_hz hfe_b0 hfe_b1 hfe_b2
       hfe_a1 hfe_a2].
  real_ops. int_lits.
  assert (0 < IZR fs) by (apply IZR_lt; exact Hfs).
  split; [reflexivity|]. split; [reflexivity|].
  split; [apply one_minus_exp_unit; nra|].
  split.
  { apply one_minus_exp_unit.
    destruct (Rltb 0 window_ms) eqn:E; [apply Rltb_true in E|]; nra. }
  split; [apply one_minus_exp_unit; nra|reflexivity].
Qed.

Lemma hfe_process_step (h : HighFreqEnergy R) (x : R) :
  0 <= hfe_energy h -> 0 <= hfe_peak_energy h ->
  0 < hfe_attack_coef h < 1 -> 0 < hfe_release_coef h < 1 ->
  0 < hfe_peak_decay h < 1 ->
  let r := hfe_process h x in
  hfe_reset (fst r) = hfe_reset h
  /\ 0 <= snd r /\ hfe_energy (fst r) = snd r
  /\ 0 <= hfe_peak_energy (fst r).
Proof.
  intros He Hp Ha Hr Hd. cbv zeta. unfold hfe_process, hfe_reset.
  cbn [fst snd hfe_energy hfe_peak_energy hfe_attack_coef hfe_release_coef
       hfe_peak_decay hfe_sample_rate hfe_cutoff_hz hfe_b0 hfe_b1 hfe_b2
       hfe_a1 hfe_a2].
  real_ops.
  split; [reflexivity|].
  set (f := hfe_b0 h * x + _ + _ - _ - _).
  assert (Hf : 0 <= f * f) by apply Rle_0_sqr.
  set (i := f * f) in *. clearbody i. clear f.
  set (e := if Rltb (hfe_energy h) i then _ else _).
  assert (Hen : 0 <= e).
  { unfold e. destruct (Rltb _ _); nra. }
  clearbody e. split; [exact Hen|]. split; [reflexivity|].
  destruct (Rltb _ _); nra.
Qed.

Lemma last_default (l : list R) (a b : R) :
  l <> [] -> last l a = last l b.
Proof.
  induction l as [|x [|y t] IH]; intro H; [congruence|reflexivity|].
  change (last (x :: y :: t) a) with (last (y :: t) a).
  change (last (x :: y :: t) b) with (last (y :: t) b).
  apply IH. discriminate.
Qed.

Lemma hfe_run (xs : list R) :
  forall h : HighFreqEnergy R,
    0 <= hfe_energy h -> 0 <= hfe_peak_energy h ->
    0 < hfe_attack_coef h < 1 -> 0 < hfe_release_coef h < 1 ->
    0 < hfe_peak_decay h < 1 ->
    let r := feed hfe_process h xs in
    hfe_reset (fst r) = hfe_reset h
    /\ Forall (fun e => 0 <= e) (snd r)
    /\ hfe_energy (fst r) = last (snd r) (hfe_energy h)
    /\ 0 <= hfe_peak_energy (fst r).
Proof.
  induction xs as [|x rest IH]; intros h He Hp Ha Hr Hd; cbn [feed].
  - cbn. auto.
  - destruct (hfe_process_step h x He Hp Ha Hr Hd) as (A & B & C & D).
    cbv zeta in *.
    destruct (hfe_process h x) as [h1 y]. cbn [fst snd] in *.
    assert (S : hfe_attack_coef h1 = hfe_attack_coef h
                /\ hfe_release_coef h1 = hfe_release_coef h
                /\ hfe_peak_decay h1 = hfe_peak_decay h).
    { unfold hfe_reset in A.
      injection A as _ _ _ _ _ _ _ A8 A9 A10. auto. }
    destruct S as (S1 & S2 & S3).
    destruct (IH h1) as (I1 & I2 & I3 & I4);
      rewrite ?S1, ?S2, ?S3, ?C; try assumption.
    cbv zeta in *.
    destruct (feed hfe_process h1 rest) as [h2 ys]. cbn [fst snd] in *.
    split; [congruence|]. split; [constructor; assumption|].
    split; [|exact I4].
    rewrite I3, C. destruct ys as [|r ys]; [reflexivity|].
    change (last (y :: r :: ys) (hfe_energy h))
      with (last (r :: ys) (hfe_energy h)).
    apply last_default. discriminate.
Qed.

(** X12. The high-frequency energy tracker.  Created for a positive
    sample rate and fed any samples, every value returned by
    [hfe_process] is non-negative, [hfe_get_current] is the value last
    returned (0 before the first sample), the tracked peak is
    non-negative, and [hfe_reset] returns to the state after
    [hfe_create]. *)
Theorem hfe_energy_is_nonnegative (fs : Z) (cutoff_hz window_ms : R)
    (xs : list R) :
  (0 < fs)%Z ->
  let h0 := hfe_create fs cutoff_hz window_ms in
  let r := feed hfe_process h0 xs in
  Forall (fun e => 0 <= e) (snd r)
  /\ hfe_get_current (Some (fst r)) = last (snd r) 0
  /\ 0 <= hfe_peak_energy (fst r)
  /\ hfe_reset (fst r) = h0.
Proof.
  intro Hfs. cbv zeta.
  destruct (hfe_create_fields fs cutoff_hz window_ms Hfs)
    as (E & P & A & Rl & D & Rs).
  cbv zeta in *.
  destruct (hfe_run xs (hfe_create fs cutoff_hz window_ms))
    as (I1 & I2 & I3 & I4); try assumption; try lra.
  cbv zeta in *.
  split; [exact I2|]. split; [|split; [exact I4|congruence]].
  cbn [hfe_get_current]. rewrite I3, E. reflexivity.
Qed.

(** ** zff.c *)

Lemma Rsum_set_nth (n : nat) (v : R) :
  forall l : list R,
    (n < length l)%nat ->
    Rsum (set_nth n v l) = Rsum l + (v - nth n l 0).
Proof.
  induction n as [|k IH]; intros [|a t] H; cbn [length] in H; try lia;
    cbn [set_nth nth].
  - unfold Rsum. cbn [fold_right]. lra.
  - change (Rsum (a :: set_nth k v t)) with (a + Rsum (set_nth k v t)).
    change (Rsum (a :: t)) with (a + Rsum t).
    rewrite IH by lia. lra.
Qed.

Lemma map_const_repeat {A B : Type} (b : B) (l : list A) :
  map (fun _ => b) l = repeat b (length l).
Proof. induction l as [|a t IH]; cbn; [reflexivity|]. f_equal. exact IH. Qed.

Lemma Rsum_repeat_zero (n : nat) : Rsum (repeat 0 n) = 0.
Proof.
  induction n as [|k IH]; [reflexivity|].
  change (Rsum (repeat 0 (S k))) with (0 + Rsum (repeat 0 k)). lra.
Qed.

Lemma zff_process_step (z : ZFF R) (x : R) :
  (1 <= trend_buf_size z)%Z ->
  length (trend_buffer z) = Z.to_nat (trend_buf_size z) ->
  (0 <= trend_write_pos z < trend_buf_size z)%Z ->
  trend_accum z = Rsum (trend_buffer z) ->
  let z' := fst (zff_process z x) in
  trend_buf_size z' = trend_buf_size z
  /\ length (trend_buffer z') = Z.to_nat (trend_buf_size z)
  /\ trend_write_pos z' = ((trend_write_pos z + 1) mod trend_buf_size z)%Z
  /\ trend_accum z' = Rsum (trend_buffer z')
  /\ zget (trend_buffer z') (trend_write_pos z) 0 = int2 z'
  /\ snd (zff_process z x)
     = int2 z' - Rsum (trend_buffer z') / IZR (trend_buf_size z).
Proof.
  intros Hs Hl Hp Ha. cbv zeta. unfold zff_process.
  cbn [fst snd trend_buf_size trend_buffer trend_write_pos trend_accum int2].
  real_ops.
  set (v := (int2 z + (int1 z + x)) * Q2R 0.999
            + ((int1 z + x) * Q2R 0.999 + x)).
  assert (Hn : (Z.to_nat (trend_write_pos z) < length (trend_buffer z))%nat)
    by lia.
  assert (Hsum : Rsum (zset (trend_buffer z) (trend_write_pos z) v)
                 = trend_accum z
                   + (v - zget (trend_buffer z) (trend_write_pos z) (Q2R 0))).
  { unfold zset, zget.
    replace (trend_write_pos z <? 0)%Z with false
      by (symmetry; apply Z.ltb_ge; lia).
    rewrite Rsum_set_nth by exact Hn. rewrite Ha.
    replace (Q2R 0) with 0 by (int_lits; reflexivity). reflexivity. }
  split; [reflexivity|].
  split; [rewrite zset_length; exact Hl|].
  split.
  { destruct (Z.geb_spec (trend_write_pos z + 1) (trend_buf_size z)).
    - replace (trend_write_pos z + 1)%Z with (trend_buf_size z) by lia.
      rewrite Z.mod_same by lia. reflexivity.
    - rewrite Z.mod_small by lia. reflexivity. }
  split; [symmetry; exact Hsum|].
  split.
  { apply zget_zset_same. lia. }
  rewrite Hsum. reflexivity.
Qed.

Lemma zff_run (xs : list R) :
  forall z : ZFF R,
    (1 <= trend_buf_size z)%Z ->
    length (trend_buffer z) = Z.to_nat (trend_buf_size z) ->
    (0 <= trend_write_pos z < trend_buf_size z)%Z ->
    trend_accum z = Rsum (trend_buffer z) ->
    let z' := fst (feed zff_process z xs) in
    trend_buf_size z' = trend_buf_size z
    /\ length (trend_buffer z') = Z.to_nat (trend_buf_size z)
    /\ trend_write_pos z'
       = ((trend_write_pos z + Z.of_nat (length xs))
          mod trend_buf_size z)%Z
    /\ trend_accum z' = Rsum (trend_buffer z').
Proof.
  induction xs as [|x rest IH]; intros z Hs Hl Hp Ha; cbn [feed].
  - cbn [fst length]. rewrite Z.add_0_r, Z.mod_small by lia. auto.
  - destruct (zff_process_step z x Hs Hl Hp Ha) as (A & B & C & D & _).
    cbv zeta in *.
    destruct (zff_process z x) as [z1 y]. cbn [fst snd] in *.
    destruct (IH z1) as (I1 & I2 & I3 & I4).
    + rewrite A. exact Hs.
    + rewrite A. exact B.
    + rewrite A, C. apply Z.mod_pos_bound. lia.
    + exact D.
    + cbv zeta in *.
      destruct (feed zff_process z1 rest) as [z2 ys]. cbn [fst] in *.
      rewrite A in *. split; [exact I1|]. split; [exact I2|].
      split; [|exact I4].
      rewrite I3, C. cbn [length].
      rewrite Zplus_mod_idemp_l. f_equal. lia.
Qed.

(** X13. The trend window of the zero-frequency filter.  After
    [zff_init] and any number of samples the window has its configured
    size of at least one sample, the write position is the number of
    samples modulo that size (so every access is in bounds), the running
    sum [trend_accum] equals the sum of the window, each output is the
    doubly integrated value minus the mean of the window that now
    contains it, and zeroing the state as [syllable_reset] does returns to
    the state after [zff_init] (exact arithmetic). *)
Theorem zff_trend_window_is_consistent (fs : Z) (trend_window_ms : R)
    (xs : list R) :
  let z0 := zff_init fs trend_window_ms in
  let z := fst (feed zff_process z0 xs) in
  (1 <= trend_buf_size z)%Z
  /\ trend_buf_size z = trend_buf_size z0
  /\ length (trend_buffer z) = Z.to_nat (trend_buf_size z)
  /\ trend_write_pos z = (Z.of_nat (length xs) mod trend_buf_size z)%Z
  /\ trend_accum z = Rsum (trend_buffer z)
  /\ (forall x : R,
        snd (zff_process z x)
        = int2 (fst (zff_process z x))
          - Rsum (trend_buffer (fst (zff_process z x)))
            / IZR (trend_buf_size z))
  /\ reset_zff z = z0.
Proof.
  cbv zeta.
  set (z0 := zff_init fs trend_window_ms).
  assert (I : (1 <= trend_buf_size z0)%Z
              /\ length (trend_buffer z0) = Z.to_nat (trend_buf_size z0)
              /\ trend_write_pos z0 = 0%Z
              /\ trend_accum z0 = 0
              /\ trend_buffer z0 = repeat 0 (Z.to_nat (trend_buf_size z0))
              /\ reset_zff z0 = z0).
  { unfold z0, zff_init, reset_zff.
    cbn [trend_buf_size trend_buffer trend_write_pos trend_accum int1 int2].
    real_ops. replace (Q2R 0) with 0 by (int_lits; reflexivity).
    set (n := Rtrunc _).
    destruct (Z.ltb_spec n 1); rewrite map_const_repeat, !repeat_length;
      repeat split; try lia; try reflexivity.
    destruct (n >? 0)%Z; reflexivity. }
  destruct I as (I1 & I2 & I3 & I4 & I5 & I6).
  destruct (zff_run xs z0) as (A & B & C & D); try assumption; try lia.
  { rewrite I4, I5. symmetry. apply Rsum_repeat_zero. }
  cbv zeta in *. set (z := fst (feed zff_process z0 xs)) in *.
  rewrite A. split; [exact I1|]. split; [reflexivity|].
  split; [exact B|]. split; [rewrite C, I3; reflexivity|].
  split; [exact D|]. split.
  - intro x. rewrite <- A.
    apply zff_process_step; rewrite ?A; try assumption.
    rewrite C. apply Z.mod_pos_bound. lia.
  - rewrite <- I6. unfold reset_zff. rewrite A.
    rewrite !map_const_repeat, B, I2.
    replace (trend_buf_size z0 >? 0)%Z with true
      by (symmetry; apply Z.gtb_lt; lia).
    reflexivity.
Qed.
End PrimitiveBounds.

(* ------------------------------------------------------------------ *)
(** * What a reset does restore *)

Section ResetRestores.
Context {F : Type} {FO : FloatOps F} {X : Extractors F}.

Ltac open_lets :=
  repeat match goal with
         | |- context [let '(_, _) := ?e in _] => destruct e
         | |- context [match ?e with Some _ => _ | None => _ end] => destruct e
         | |- context [match ?e with pair _ _ => _ end] => destruct e
         end.

Lemma same_setup_refl (d : SyllableDetector F) : same_setup d d.
Proof. unfold same_setup. auto 10. Qed.

Lemma same_setup_trans (d1 d2 d3 : SyllableDetector F) :
  same_setup d1 d2 -> same_setup d2 d3 -> same_setup d1 d3.
Proof.
  unfold same_setup.
  intros (A1 & A2 & A3 & A4 & A5 & A6) (B1 & B2 & B3 & B4 & B5 & B6).
  repeat split; congruence.
Qed.

Lemma agc_stage_setup (d : SyllableDetector F) (x : F) :
  same_setup d (fst (agc_stage d x)).
Proof. unfold same_setup, agc_stage. open_lets; cbn; auto 10. Qed.

Lemma voicing_stage_setup (d : SyllableDetector F) (x : F) :
  same_setup d (voicing_stage d x).
Proof.
  unfold same_setup, voicing_stage, zff_process.
  cbn [fst snd]. open_lets;
    cbn [config dsp set_voicing set_dsp env_follower zff high_freq_energy
         trend_buf_size trend_buffer];
    rewrite zset_length; auto 10.
Qed.

Lemma energy_stage_setup (d : SyllableDetector F) (x : F) :
  same_setup d (energy_stage d x).
Proof.
  unfold same_setup, energy_stage, envelope_process, biquad_process.
  cbn. auto 10.
Qed.

Lemma feature_stage_setup (d : SyllableDetector F) (x : F) :
  same_setup d (feature_stage d x).
Proof.
  unfold same_setup, feature_stage, hfe_process.
  destruct (high_freq_energy (dsp d)); open_lets; cbn; auto 10.
Qed.

Lemma calibration_stage_setup (d : SyllableDetector F) :
  same_setup d (calibration_stage d).
Proof.
  unfold same_setup, calibration_stage, update_rt_calibration,
    finalize_rt_calibration, store_frame.
  repeat match goal with
         | |- context [if ?c then _ else _] => destruct c
         end; cbn; auto 10.
Qed.

Lemma fusion_stage_setup (d : SyllableDetector F) :
  same_setup d (fusion_stage d).
Proof. unfold same_setup, fusion_stage. open_lets; cbn; auto 10. Qed.

Lemma front_end_setup (d : SyllableDetector F) (x : F) :
  same_setup d (front_end d x).
Proof.
  unfold front_end.
  pose proof (agc_stage_setup d x) as A.
  destruct (agc_stage d x) as [d1 s]. cbn [fst] in A.
  eapply same_setup_trans; [exact A|].
  eapply same_setup_trans; [apply voicing_stage_setup|].
  eapply same_setup_trans; [apply energy_stage_setup|].
  eapply same_setup_trans; [apply feature_stage_setup|].
  eapply same_setup_trans; [apply calibration_stage_setup|].
  apply fusion_stage_setup.
Qed.

Lemma machine_step_setup (d : SyllableDetector F) :
  same_setup d (machine_step d).
Proof.
  unfold same_setup, machine_step, idle_step, onset_rising_step,
    nucleus_step, cooldown_step.
  destruct (state (machine d)).
  - destruct (onset_decision d); cbn; auto 10.
  - cbn; auto 10.
  - destruct (nucleus_end d); cbn; auto 10.
  - cbn; auto 10.
Qed.

Lemma emit_loop_setup (room : nat) (accent : F -> bool) (c : Z) :
  forall d : SyllableDetector F,
    same_setup d (fst (emit_loop room accent c d)).
Proof.
  induction room as [|k IH]; intro d; cbn [emit_loop].
  - apply same_setup_refl.
  - destruct (buf_count (ring d) >? c); [|apply same_setup_refl].
    assert (S1 : same_setup d (fst (emit_oldest accent d))).
    { unfold emit_oldest, same_setup. cbn. auto 10. }
    destruct (emit_oldest accent d) as [d1 e]. cbn [fst] in S1.
    specialize (IH d1).
    destruct (emit_loop k accent c d1) as [d2 es]. cbn [fst] in *.
    eapply same_setup_trans; eassumption.
Qed.

Lemma process_sample_setup (d : SyllableDetector F) (x : F) (room : nat) :
  same_setup d (fst (process_sample d x room)).
Proof.
  unfold process_sample.
  destruct (realtime_mode (config (front_end d x))
            && is_calibrating (rt_cal (front_end d x))).
  - apply front_end_setup.
  - eapply same_setup_trans; [apply front_end_setup|].
    eapply same_setup_trans; [apply machine_step_setup|].
    apply emit_loop_setup.
Qed.

Lemma process_from_setup (input : list F) :
  forall (d : SyllableDetector F) (max_events : Z)
         (out : list (SyllableEvent F)),
    same_setup d (fst (process_from d input max_events out)).
Proof.
  induction input as [|x rest IH]; intros d max_events out;
    cbn [process_from].
  - apply same_setup_refl.
  - pose proof (process_sample_setup d x
      (Z.to_nat (max_events - Z.of_nat (length out)))) as A.
    destruct (process_sample d x _) as [d1 es]. cbn [fst] in A.
    eapply same_setup_trans; [exact A|]. apply IH.
Qed.

Lemma run_setup (calls : list (Call F)) :
  forall d : SyllableDetector F, same_setup d (fst (run d calls)).
Proof.
  induction calls as [|c rest IH]; intro d; cbn [run].
  - apply same_setup_refl.
  - assert (A : same_setup d (fst (call d c))).
    { destruct c as [input m|m]; cbn [call].
      - apply process_from_setup.
      - apply emit_loop_setup. }
    destruct (call d c) as [d1 es]. cbn [fst] in A.
    specialize (IH d1). destruct (run d1 rest) as [d2 es'].
    cbn [fst] in *. eapply same_setup_trans; eassumption.
Qed.

Lemma reset_setup (d : SyllableDetector F) : same_setup d (syllable_reset d).
Proof.
  unfold same_setup, syllable_reset, reset_zff.
  cbn [config dsp env_follower zff high_freq_energy attack_coeff
       release_coeff trend_buf_size trend_buffer].
  repeat split.
  - destruct (trend_buf_size (zff (dsp d)) >? 0); [|reflexivity].
    apply length_map.
  - destruct (high_freq_energy (dsp d)); reflexivity.
Qed.

(** The fields written by [syllable_reset] depend on the setup only. *)
Lemma reset_depends_on_setup (a b : SyllableDetector F) :
  same_setup a b ->
  1 <= trend_buf_size (zff (dsp a)) ->
  agree_after_reset (syllable_reset b) (syllable_reset a).
Proof.
  intros (S1 & S2 & S3 & S4 & S5 & S6) Hsize.
  unfold agree_after_reset, syllable_reset.
  cbn [config total_samples dsp features energy_st voicing machine ring
       bp_filter env_follower zff high_freq_energy stats_peak_rate
       stats_spectral_flux stats_high_freq stats_mfcc_delta stats_wavelet
       current_spectral_flux current_high_freq_energy current_mfcc_delta
       current_fusion_score prev_env adaptive_mean adaptive_var is_voiced
       voicing_counter unvoiced_counter state buf_read_idx buf_write_idx
       buf_count].
  rewrite S1, S2, S3, S6.
  split; [reflexivity|]. split; [reflexivity|]. split; [reflexivity|].
  split; [reflexivity|]. split; [|auto 20].
  unfold reset_zff. rewrite S4.
  replace (trend_buf_size (zff (dsp a)) >? 0) with true
    by (symmetry; apply Z.gtb_lt; lia).
  rewrite !map_const_repeat, S5. reflexivity.
Qed.

(** X14. What a reset does restore.  After any sequence of
    [syllable_process] and [syllable_flush] calls on a constructed
    detector, [syllable_reset] returns the sample counter, the band-pass
    filter, the envelope follower, the zero-frequency filter, the
    high-frequency energy tracker, the five feature statistics, the
    current feature values (wavelet score excepted), the adaptive
    threshold statistics, the voiced flag and its counters, the state of
    the state machine and the ring-buffer indices to their values after
    [syllable_create], and marks every ring-buffer slot as not ready. *)
Theorem reset_restores_filters_and_counters (cfg : SyllableConfig F)
    (calls : list (Call F)) :
  let d := syllable_reset (fst (run (syllable_create cfg) calls)) in
  agree_after_reset d (syllable_create cfg)
  /\ Forall (fun s => is_ready s = false) (event_buffer (ring d)).
Proof.
  cbv zeta. split.
  - unfold syllable_create at 2.
    apply reset_depends_on_setup.
    + eapply same_setup_trans; [apply reset_setup|]. apply run_setup.
    + unfold create_fields, zff_init. cbn [dsp zff trend_buf_size].
      destruct (Z.ltb_spec
                  (ftoi (fmul (fmul (itof (sample_rate cfg))
                                    (zff_trend_window_ms cfg))
                              (lit 0.001))) 1); lia.
  - unfold syllable_reset at 1. cbn [ring event_buffer].
    apply Forall_map. apply Forall_forall. intros s _. reflexivity.
Qed.
End ResetRestores.

(* ------------------------------------------------------------------ *)
(** * Context-relative prominence *)

Section ExchangeSort.
Local Open Scope R_scope.




End ExchangeSort.

Section DeltaF0.
Local Open Scope R_scope.


End DeltaF0.

Section ContextIndices.

(** X16. The neighbours visited by the context loops.  For a target slot
    [t] of the 16-slot ring and a distance [i] from 1 to 16, [prev_idx]
    is [(t - i) mod 16] and [next_idx] is [(t + i) mod 16], both inside
    the buffer; the neighbour at distance [i] behind is the one at
    distance [16 - i] ahead; and the target itself is reached exactly at
    distance 16. *)
Theorem context_neighbours_are_ring_slots (t i : Z) :
  0 <= t < PROMINENCE_BUFFER_SIZE ->
  1 <= i <= PROMINENCE_BUFFER_SIZE ->
  prev_index t i = (t - i) mod 16
  /\ next_index t i = (t + i) mod 16
  /\ 0 <= prev_index t i < PROMINENCE_BUFFER_SIZE
  /\ 0 <= next_index t i < PROMINENCE_BUFFER_SIZE
  /\ prev_index t i = (t + (16 - i)) mod 16
  /\ (prev_index t i = t <-> i = 16)
  /\ (next_index t i = t <-> i = 16).
Proof.
  unfold PROMINENCE_BUFFER_SIZE, prev_index, next_index,
    PROMINENCE_BUFFER_SIZE.
  intros Ht Hi.
  rewrite !Z.rem_mod_nonneg by lia.
  repeat split; try (Z.div_mod_to_equations; lia).
Qed.
End ContextIndices.

Section NoContext.
Context {X : Extractors R}.
Local Open Scope R_scope.

Lemma zget_zset_cases {A : Type} (l : list A) (i : Z) (x d : A) :
  zget (zset l i x) i d = x \/ zget (zset l i x) i d = d.
Proof.
  unfold zget, zset. destruct (i <? 0)%Z; [right; reflexivity|].
  generalize (Z.to_nat i). clear i. intro n. revert l.
  induction n as [|k IH]; intros [|a t]; cbn [set_nth nth]; auto.
Qed.

(** Without context the emitted event has the neutral prominence. *)
Lemma emit_oldest_no_context (accent : R -> bool) (d : SyllableDetector R) :
  (context_size (config d) <= 0)%Z ->
  let e := snd (emit_oldest accent d) in
  (Ev.prominence_score e = 0.5 \/ Ev.prominence_score e = 0)
  /\ Ev.delta_f0 e = 0
  /\ Ev.is_accented e = accent (Ev.prominence_score e).
Proof.
  intro Hn. cbv zeta. unfold emit_oldest. cbn [snd].
  replace (Z.to_nat (context_size (config d))) with 0%nat
    in * by lia.
  set (n := context_size (config d)) in *.
  set (b := event_buffer (ring d)). set (i := buf_read_idx (ring d)).
  assert (Hz : Z.to_nat n = 0%nat) by lia.
  assert (Hv : delta_f0_value n b i = 0).
  { unfold delta_f0_value. rewrite Hz. cbn [zrange fold_left length].
    cbn [Z.of_nat Z.eqb orb]. real_ops. int_lits.
    destruct (negb _); reflexivity. }
  assert (Hp : forall b', calculate_prominence n b' i = 0.5
                          \/ calculate_prominence n b' i = 0).
  { intro b'. unfold calculate_prominence. rewrite Hz.
    cbn [zrange fold_left count Z.eqb]. real_ops. int_lits.
    destruct (negb _); auto. }
  cbn [Ev.prominence_score Ev.delta_f0 Ev.is_accented with_prominence].
  split; [apply Hp|]. split; [|reflexivity].
  unfold calculate_delta_f0, slot. rewrite Hv.
  destruct (zget_zset_cases b i
              {| event := with_delta_f0 0 (event (zget b i empty_slot));
                 is_ready := is_ready (zget b i empty_slot) |}
              empty_slot) as [E|E]; rewrite E; cbn; [reflexivity|].
  real_ops. int_lits. reflexivity.
Qed.

Lemma emit_loop_no_context (room : nat) (accent : R -> bool) (c : Z)
    (P : SyllableEvent R -> Prop) :
  (forall d : SyllableDetector R,
      (context_size (config d) <= 0)%Z -> P (snd (emit_oldest accent d))) ->
  forall d : SyllableDetector R,
    (context_size (config d) <= 0)%Z ->
    Forall P (snd (emit_loop room accent c d)).
Proof.
  intro HP. induction room as [|k IH]; intros d Hn; cbn [emit_loop].
  - constructor.
  - destruct (buf_count (ring d) >? c)%Z; [|constructor].
    pose proof (HP d Hn) as H1.
    destruct (emit_oldest_frame accent d) as (C & _).
    destruct (emit_oldest accent d) as [d1 e]. cbn [fst snd] in *.
    specialize (IH d1 ltac:(rewrite C; exact Hn)).
    destruct (emit_loop k accent c d1) as [d2 es]. cbn [snd] in *.
    constructor; assumption.
Qed.

Lemma process_from_no_context (P : SyllableEvent R -> Prop) :
  (forall d : SyllableDetector R,
      (context_size (config d) <= 0)%Z ->
      P (snd (emit_oldest process_accent d))) ->
  forall (input : list R) (d : SyllableDetector R) (max_events : Z)
         (out : list (SyllableEvent R)),
    (context_size (config d) <= 0)%Z ->
    Forall P out ->
    Forall P (snd (process_from d input max_events out)).
Proof.
  intro HP. induction input as [|x rest IH];
    intros d max_events out Hn Hout; cbn [process_from].
  - exact Hout.
  - set (room := Z.to_nat (max_events - Z.of_nat (length out))).
    assert (A : Forall P (snd (process_sample d x room))).
    { unfold process_sample.
      destruct (realtime_mode (config (front_end d x))
                && is_calibrating (rt_cal (front_end d x)));
        [constructor|].
      apply emit_loop_no_context; [exact HP|].
      destruct (machine_step_frame (front_end d x)) as (M & _).
      destruct (front_end_frame d x) as (Fr & _).
      rewrite M, Fr. exact Hn. }
    destruct (process_sample_frame d x room) as (C & _).
    destruct (process_sample d x room) as [d1 es]. cbn [fst snd] in *.
    apply IH; [rewrite C; exact Hn|].
    apply Forall_app. split; assumption.
Qed.

(** X17. Without context nothing is accented.  When [context_size] is 0
    (or negative), every event written by [syllable_process] or
    [syllable_flush] carries the neutral prominence score 0.5 (0 for a
    slot that is not ready), a [delta_f0] of 0, and is not flagged as
    accented. *)
Theorem no_context_no_accent (d : SyllableDetector R) :
  (context_size (config d) <= 0)%Z ->
  let neutral (e : SyllableEvent R) :=
    (Ev.prominence_score e = 0.5 \/ Ev.prominence_score e = 0)
    /\ Ev.delta_f0 e = 0 /\ Ev.is_accented e = false in
  (forall (input : list R) (max_events : Z),
      Forall neutral (snd (syllable_process d input max_events)))
  /\ (forall max_events : Z,
        Forall neutral (snd (syllable_flush d max_events))).
Proof.
  intros Hn neutral.
  assert (N : forall accent : R -> bool,
             (accent = process_accent \/ accent = flush_accent) ->
             forall d0 : SyllableDetector R,
               (context_size (config d0) <= 0)%Z ->
               neutral (snd (emit_oldest accent d0))).
  { intros accent Hacc d0 H0.
    destruct (emit_oldest_no_context accent d0 H0) as (A & B & C).
    cbv zeta in *. unfold neutral.
    split; [exact A|]. split; [exact B|]. rewrite C.
    destruct Hacc as [-> | ->]; destruct A as [-> | ->];
      unfold process_accent, flush_accent; real_ops;
      apply Rltb_false; lra. }
  split.
  - intros input max_events. unfold syllable_process.
    apply process_from_no_context; [apply N; auto | exact Hn | constructor].
  - intro max_events. unfold syllable_flush.
    apply emit_loop_no_context; [apply N; auto | exact Hn].
Qed.
End NoContext.

(* ------------------------------------------------------------------ *)
(** * Construction: the FFT size *)

Section FftSize.

Lemma round_pow2_from (fuel : nat) :
  forall (j n : Z),
    0 <= j <= 30 -> n <= 2 ^ 30 ->
    31 <= j + Z.of_nat fuel ->
    (j = 0 \/ 2 ^ (j - 1) < n) ->
    exists k,
      j <= k <= 30
      /\ round_pow2 fuel (2 ^ j) n = 2 ^ k
      /\ n <= 2 ^ k
      /\ (k = 0 \/ 2 ^ (k - 1) < n)
      /\ (k = j \/ 2 ^ j < n).
Proof.
  induction fuel as [|f IH]; intros j n Hj Hn Hf Hlow; [lia|].
  cbn [round_pow2].
  destruct (Z.ltb_spec (2 ^ j) n) as [Hlt|Hge].
  - assert (Hj30 : j < 30).
    { apply (Z.pow_lt_mono_r_iff 2); lia. }
    replace (2 ^ j * 2) with (2 ^ (j + 1))
      by (rewrite Z.pow_add_r by lia; lia).
    destruct (IH (j + 1) n) as (k & K1 & K2 & K3 & K4 & K5);
      [lia | exact Hn | lia | |].
    + right. replace (j + 1 - 1) with j by lia. exact Hlt.
    + exists k. split; [lia|]. split; [exact K2|]. split; [exact K3|].
      split; [exact K4|]. right. exact Hlt.
  - exists j. split; [lia|]. split; [reflexivity|]. split; [lia|].
    split; [exact Hlow|]. left. reflexivity.
Qed.

(** X18. The FFT size is rounded up to a power of two.  For a requested
    size of at most 2^30 the loop of [syllable_create] ends with the
    smallest power of two that is not below the request (1 for a request
    of at most 1), so the result is below twice the request. *)
Theorem fft_size_is_next_power_of_two (n : Z) :
  n <= 2 ^ 30 ->
  exists k,
    0 <= k <= 30
    /\ round_pow2 31 1 n = 2 ^ k
    /\ n <= 2 ^ k
    /\ (n <= 1 -> k = 0)
    /\ (1 < n -> 2 ^ (k - 1) < n /\ 2 ^ k < 2 * n).
Proof.
  intro Hn.
  destruct (round_pow2_from 31 0 n) as (k & K1 & K2 & K3 & K4 & K5);
    try lia.
  exists k. change (2 ^ 0) with 1 in *.
  split; [lia|]. split; [exact K2|]. split; [exact K3|]. split.
  - intro H1. destruct K5 as [K5|K5]; lia.
  - intro H1.
    assert (Hk : 1 <= k).
    { destruct (Z.eq_dec k 0) as [->|]; [|lia].
      change (2 ^ 0) with 1 in K3. lia. }
    destruct K4 as [K4|K4]; [lia|].
    split; [exact K4|].
    replace (2 ^ k) with (2 * 2 ^ (k - 1)).
    + set (p := 2 ^ (k - 1)) in *. clearbody p. lia.
    + rewrite <- Z.pow_succ_r by lia. f_equal. lia.
Qed.
End FftSize.

(* ------------------------------------------------------------------ *)
(** * Calibrated thresholds are never zero *)

Section Thresholds.
Context {X : Extractors R}.
Local Open Scope R_scope.

Lemma calibrated_thresh_floor (g : R) (row : list R) (n : Z) :
  0.000001 <= calibrated_thresh g row n
  /\ ((n < 10)%Z -> calibrated_thresh g row n = 0.001).
Proof.
  unfold calibrated_thresh. real_ops. sci_lits.
  destruct (Z.ltb_spec n 10) as [H|H].
  - split; [lra|reflexivity].
  - split; [|lia].
    destruct (Rltb _ (Q2R (1 # 1000000))) eqn:E;
      [|apply Rltb_false in E]; lra.
Qed.

Lemma finalize_thresholds (d : SyllableDetector R) :
  let cal := rt_cal (finalize_rt_calibration d) in
  length (thresh cal) = 6%nat
  /\ Forall (fun t => 0.000001 <= t) (thresh cal)
  /\ ((buf_idx (rt_cal d) < 10)%Z -> thresh cal = repeat 0.001 6)
  /\ is_calibrating cal = false.
Proof.
  cbv zeta. unfold finalize_rt_calibration.
  cbn [rt_cal set_rt_cal thresh is_calibrating].
  split; [rewrite length_map; reflexivity|]. split.
  - apply Forall_map, Forall_forall. intros k _.
    apply calibrated_thresh_floor.
  - split; [|reflexivity]. intro H.
    replace (buf_idx (rt_cal d) <? RT_BUF_SIZE)%Z with true
      by (symmetry; apply Z.ltb_lt; unfold RT_BUF_SIZE; lia).
    change (zrange 0 (Z.to_nat RT_NUM_FEATURES))
      with [0; 1; 2; 3; 4; 5]%Z.
    cbn [map repeat].
    repeat f_equal; apply calibrated_thresh_floor; exact H.
Qed.

Lemma front_end_finalizes_floored (d : SyllableDetector R) (x : R) :
  realtime_mode (config d) = true ->
  is_calibrating (rt_cal d) = true ->
  (target_samples (rt_cal d) <= cal_sample_count (rt_cal d) + 1)%Z ->
  Forall (fun t => 0.000001 <= t) (thresh (rt_cal (front_end d x))).
Proof.
  intros Hrt Hcal Hge. unfold front_end.
  pose proof (agc_stage_frame d x) as A.
  destruct (agc_stage d x) as [d1 s]. cbn [fst] in A.
  destruct A as (A1 & _ & _ & A4 & _).
  destruct (voicing_stage_frame d1 s) as (B1 & _ & _ & B4 & _).
  destruct (energy_stage_frame (voicing_stage d1 s) s)
    as (C1 & _ & _ & C4 & _).
  destruct (feature_stage_frame (energy_stage (voicing_stage d1 s) s) s)
    as (D1 & _ & _ & D4 & _).
  set (d4 := feature_stage (energy_stage (voicing_stage d1 s) s) s) in *.
  destruct (fusion_stage_frame (calibration_stage d4)) as (_ & _ & _ & G & _).
  rewrite G. unfold calibration_stage.
  assert (E1 : config d4 = config d) by congruence.
  assert (E2 : rt_cal d4 = rt_cal d) by congruence.
  rewrite E1, E2, Hrt, Hcal. cbn [andb].
  unfold update_rt_calibration.
  destruct (store_frame_fields d4) as (S1 & S2 & S3 & S4 & S5).
  rewrite E2 in *.
  destruct (Z.geb_spec (cal_sample_count (rt_cal (store_frame d4)))
              (target_samples (rt_cal (store_frame d4)))); [|lia].
  apply finalize_thresholds.
Qed.

Lemma process_from_keeps_rt_cal (input : list R) :
  forall (d : SyllableDetector R) (max_events : Z)
         (out : list (SyllableEvent R)),
    is_calibrating (rt_cal d) = false ->
    rt_cal (fst (process_from d input max_events out)) = rt_cal d.
Proof.
  induction input as [|x rest IH]; intros d max_events out H;
    cbn [process_from].
  - reflexivity.
  - pose proof (process_sample_frame d x
      (Z.to_nat (max_events - Z.of_nat (length out)))) as (_ & _ & A).
    destruct (process_sample d x _) as [d1 es]. cbn [fst] in *.
    specialize (A H). rewrite IH; [exact A|]. rewrite A. exact H.
Qed.

Lemma process_from_calibrates_floored (input : list R) :
  forall (d : SyllableDetector R) (max_events : Z)
         (out : list (SyllableEvent R)),
    realtime_mode (config d) = true ->
    is_calibrating (rt_cal d) = true ->
    input <> [] ->
    (target_samples (rt_cal d)
     <= cal_sample_count (rt_cal d) + Z.of_nat (length input))%Z ->
    Forall (fun t => 0.000001 <= t)
           (thresh (rt_cal (fst (process_from d input max_events out)))).
Proof.
  induction input as [|x rest IH];
    intros d max_events out Hrt Hcal Hne Hge; [congruence|].
  cbn [process_from]. cbn [length] in Hge.
  pose proof (process_sample_rt_cal d x
    (Z.to_nat (max_events - Z.of_nat (length out)))) as P.
  pose proof (process_sample_frame d x
    (Z.to_nat (max_events - Z.of_nat (length out)))) as (Q & _).
  destruct (process_sample d x _) as [d1 es]. cbn [fst] in *.
  destruct (Z_lt_le_dec (cal_sample_count (rt_cal d) + 1)
              (target_samples (rt_cal d))) as [Hlt|Hle].
  - destruct (front_end_keeps_calibrating d x Hrt Hcal Hlt)
      as (K1 & K2 & K3).
    rewrite <- P in K1, K2, K3.
    apply IH; [congruence | exact K1 | | lia].
    destruct rest; [cbn [length] in Hge; lia | discriminate].
  - rewrite process_from_keeps_rt_cal.
    + rewrite P. apply front_end_finalizes_floored; assumption.
    + rewrite P. apply front_end_finalizes; assumption.
Qed.

(** X19. Calibrated thresholds are never zero.  [finalize_rt_calibration]
    always leaves six thresholds, each at least 10^-6, all equal to the
    default 0.001 when fewer than 10 frames were buffered; and once a
    calibration started by [syllable_recalibrate] has received its target
    number of samples, the thresholds that [compute_fusion_realtime]
    divides by are all at least 10^-6 (exact arithmetic). *)
Theorem calibrated_thresholds_are_never_zero (d : SyllableDetector R)
    (input : list R) (max_events : Z) :
  let cal := rt_cal (finalize_rt_calibration d) in
  let d1 := syllable_recalibrate d in
  length (thresh cal) = 6%nat
  /\ Forall (fun t => 0.000001 <= t) (thresh cal)
  /\ ((buf_idx (rt_cal d) < 10)%Z -> thresh cal = repeat 0.001 6)
  /\ (input <> [] ->
      (target_samples (rt_cal d1) <= Z.of_nat (length input))%Z ->
      Forall (fun t => 0.000001 <= t)
             (thresh (rt_cal (fst (syllable_process d1 input
                                     max_events))))).
Proof.
  cbv zeta.
  destruct (finalize_thresholds d) as (A & B & C & _). cbv zeta in *.
  split; [exact A|]. split; [exact B|]. split; [exact C|].
  intros Hne Hge. unfold syllable_process.
  destruct (recalibrate_config_and_cal d) as (Hrt & Hcal & Hcnt & _).
  apply process_from_calibrates_floored;
    first [assumption | rewrite Hcnt; lia].
Qed.
End Thresholds.

(* ------------------------------------------------------------------ *)
(** * The offline fusion score is a score *)

Section FusionRange.
Context {X : Extractors R}.
Local Open Scope R_scope.

Lemma weight_times_unit (w n : R) :
  0 <= w -> 0 <= n <= 1 -> 0 <= w * n <= w.
Proof. intros; split; nra. Qed.

Lemma quotient_in_unit (s t : R) : 0 <= s <= t -> 0 < t -> 0 <= s / t <= 1.
Proof.
  intros Hs Ht. assert (0 < / t) by (apply Rinv_0_lt_compat; exact Ht).
  unfold Rdiv. split; [nra|].
  apply Rmult_le_reg_r with t; [exact Ht|].
  rewrite Rmult_assoc, Rinv_l by lra. lra.
Qed.

Lemma fusion_weighted_avg_range (cfg : SyllableConfig R)
    (has_sf has_hf has_mfcc has_wav : bool)
    (n_pr n_sf n_hf n_mfcc n_wav bonus : R) :
  0 <= weight_peak_rate cfg -> 0 <= weight_spectral_flux cfg ->
  0 <= weight_high_freq cfg -> 0 <= weight_mfcc_delta cfg ->
  0 <= weight_wavelet cfg -> 0 <= weight_voiced_bonus cfg ->
  0 <= n_pr <= 1 -> 0 <= n_sf <= 1 -> 0 <= n_hf <= 1 ->
  0 <= n_mfcc <= 1 -> 0 <= n_wav <= 1 -> 0 <= bonus <= 1 ->
  0 <= fusion_weighted_avg cfg has_sf has_hf has_mfcc has_wav
         n_pr n_sf n_hf n_mfcc n_wav bonus <= 1.
Proof.
  intros W1 W2 W3 W4 W5 W6 N1 N2 N3 N4 N5 N6.
  pose proof (weight_times_unit _ _ W1 N1).
  pose proof (weight_times_unit _ _ W2 N2).
  pose proof (weight_times_unit _ _ W3 N3).
  pose proof (weight_times_unit _ _ W4 N4).
  pose proof (weight_times_unit _ _ W5 N5).
  pose proof (weight_times_unit _ _ W6 N6).
  unfold fusion_weighted_avg, fusion_weight_total, fusion_weighted_sum,
    add_if.
  real_ops. int_lits.
  destruct has_sf, has_hf, has_mfcc, has_wav;
    match goal with
    | |- context [Rltb 0 ?t] =>
        destruct (Rltb 0 t) eqn:E;
        [apply Rltb_true in E; apply quotient_in_unit; lra
        |apply Rltb_false in E; lra]
    end.
Qed.

Lemma max_if_range (b : bool) (acc v : R) :
  0 <= acc <= 1 -> 0 <= v <= 1 -> 0 <= max_if b acc v <= 1.
Proof. intros. unfold max_if. destruct (b && _); assumption. Qed.

Lemma blend_range (b m a c : R) :
  0 <= b <= 1 -> 0 <= m <= 1 -> 0 <= a <= 1 -> 0 <= c ->
  0 <= (if Rltb c 0.3 then (b * m + (1 - b) * a) * (0.5 + c)
        else b * m + (1 - b) * a) <= 1.
Proof.
  intros Hb Hm Ha Hc.
  assert (0 <= b * m + (1 - b) * a <= 1) by (split; nra).
  destruct (Rltb c 0.3) eqn:E; [apply Rltb_true in E|]; [|assumption].
  split; nra.
Qed.

Lemma mean_confidence_nonneg (s : R) (k : Z) :
  0 <= s -> (0 < k)%Z -> 0 <= s / IZR k.
Proof.
  intros Hs Hk. apply IZR_lt in Hk.
  assert (0 < / IZR k) by (apply Rinv_0_lt_compat; exact Hk).
  unfold Rdiv. nra.
Qed.

(** X20. The offline fusion score is a score.  In offline mode, with
    non-negative fusion weights, a blend factor in [0, 1] and feature
    statistics of non-negative variance, [compute_fusion_score] returns a
    value in [0, 1]; it returns 0 whenever the current energy is below
    10^-6. *)
Theorem offline_fusion_score_is_in_unit_interval (d : SyllableDetector R) :
  realtime_mode (config d) = false ->
  0 <= weight_peak_rate (config d) ->
  0 <= weight_spectral_flux (config d) ->
  0 <= weight_high_freq (config d) ->
  0 <= weight_mfcc_delta (config d) ->
  0 <= weight_wavelet (config d) ->
  0 <= weight_voiced_bonus (config d) ->
  0 <= fusion_blend_alpha (config d) <= 1 ->
  0 <= var (stats_peak_rate (features d)) ->
  0 <= var (stats_spectral_flux (features d)) ->
  0 <= var (stats_high_freq (features d)) ->
  0 <= var (stats_mfcc_delta (features d)) ->
  0 <= var (stats_wavelet (features d)) ->
  0 <= compute_fusion_score d <= 1
  /\ (current_energy (energy_st d) < 0.000001 ->
      compute_fusion_score d = 0).
Proof.
  intros Hrt W1 W2 W3 W4 W5 W6 Hb V1 V2 V3 V4 V5.
  unfold compute_fusion_score. rewrite Hrt.
  set (gate := _ || _).
  assert (G : current_energy (energy_st d) < 0.000001 -> gate = true).
  { intro H. unfold gate. real_ops. sci_lits.
    replace (Rltb (current_energy (energy_st d)) (Q2R (1 # 1000000)))
      with true by (symmetry; apply Rltb_true; lra).
    reflexivity. }
  destruct gate.
  { real_ops. int_lits. split; [lra|reflexivity]. }
  split; [|intro H; specialize (G H); discriminate].
  clear G.
  pose proof (normalize_feature_sigmoid_range
                (stats_peak_rate (features d))
                (current_peak_rate (energy_st d))) as (P1 & Q1).
  pose proof (normalize_feature_sigmoid_range
                (stats_spectral_flux (features d))
                (current_spectral_flux (features d))) as (P2 & Q2).
  pose proof (normalize_feature_sigmoid_range
                (stats_high_freq (features d))
                (current_high_freq_energy (features d))) as (P3 & Q3).
  pose proof (normalize_feature_sigmoid_range
                (stats_mfcc_delta (features d))
                (current_mfcc_delta (features d))) as (P4 & Q4).
  pose proof (normalize_feature_sigmoid_range
                (stats_wavelet (features d))
                (current_wavelet_score (features d))) as (P5 & _).
  destruct (normalize_feature_sigmoid (stats_peak_rate (features d)) _)
    as [n1 c1].
  destruct (normalize_feature_sigmoid (stats_spectral_flux (features d)) _)
    as [n2 c2].
  destruct (normalize_feature_sigmoid (stats_high_freq (features d)) _)
    as [n3 c3].
  destruct (normalize_feature_sigmoid (stats_mfcc_delta (features d)) _)
    as [n4 c4].
  destruct (normalize_feature_sigmoid (stats_wavelet (features d)) _)
    as [n5 c5].
  cbn [fst snd] in *.
  assert (B01 : forall b : bool, 0 <= (if b then 1 else 0) <= 1)
    by (intros []; lra).
  destruct (present (spectral_flux (dsp d))),
           (present (high_freq_energy (dsp d))),
           (present (mfcc (dsp d))), (present (wavelet (dsp d)));
    cbn [fst snd]; real_ops; int_lits;
    apply blend_range;
    try exact Hb;
    try (repeat apply max_if_range; lra);
    try (apply fusion_weighted_avg_range; try assumption; try lra;
         apply B01);
    try (apply mean_confidence_nonneg; [lra|reflexivity]).
Qed.
End FusionRange.

(* ------------------------------------------------------------------ *)
(** * The median by insertion sort *)

Section Median.
Local Open Scope R_scope.

Lemma shift_insert_sorted (key : R) :
  forall rp : list R,
    StronglySorted Rge rp ->
    StronglySorted Rge (shift_insert key rp)
    /\ Permutation (key :: rp) (shift_insert key rp).
Proof.
  induction rp as [|y r IH]; intro Hs; cbn [shift_insert].
  - split; [repeat constructor | apply Permutation_refl].
  - real_ops. inversion Hs as [|? ? Hr Hy]; subst.
    destruct (Rltb key y) eqn:E;
      [apply Rltb_true in E | apply Rltb_false in E].
    + destruct (IH Hr) as (I1 & I2). split.
      * constructor; [exact I1|].
        apply Forall_forall. intros z Hz.
        apply (Permutation_in _ (Permutation_sym I2)) in Hz.
        destruct Hz as [<-|Hz]; [lra|].
        rewrite Forall_forall in Hy. apply Hy. exact Hz.
      * eapply perm_trans; [apply perm_swap|]. apply perm_skip. exact I2.
    + split; [|apply Permutation_refl].
      constructor; [exact Hs|]. constructor; [lra|].
      eapply Forall_impl; [|exact Hy]. cbn. intros; lra.
Qed.

Lemma insertion_fold_sorted (l : list R) :
  forall rp : list R,
    StronglySorted Rge rp ->
    let r := fold_left (fun p key => shift_insert key p) l rp in
    StronglySorted Rge r /\ Permutation (rev l ++ rp) r.
Proof.
  induction l as [|a t IH]; intros rp Hs; cbn [fold_left rev app].
  - cbv zeta. split; [exact Hs | apply Permutation_refl].
  - destruct (shift_insert_sorted a rp Hs) as (S1 & P1).
    destruct (IH (shift_insert a rp) S1) as (S2 & P2). cbv zeta in *.
    split; [exact S2|].
    eapply perm_trans; [|exact P2].
    rewrite <- app_assoc. cbn [app].
    apply Permutation_app_head. exact P1.
Qed.

Lemma sorted_rev (l : list R) :
  StronglySorted Rge l -> StronglySorted Rle (rev l).
Proof.
  induction l as [|a t IH]; intro H; cbn [rev]; [constructor|].
  inversion H as [|? ? Ht Ha]; subst.
  specialize (IH Ht).
  assert (G : forall l1 : list R,
             StronglySorted Rle l1 -> Forall (fun x => x <= a) l1 ->
             StronglySorted Rle (l1 ++ [a])).
  { induction l1 as [|b s IHs]; intros H1 H2; cbn [app].
    - repeat constructor.
    - inversion H1; inversion H2; subst.
      constructor; [apply IHs; assumption|].
      apply Forall_app. split; [assumption|].
      constructor; [assumption|constructor]. }
  apply G; [exact IH|].
  apply Forall_forall. intros x Hx. apply in_rev in Hx.
  rewrite Forall_forall in Ha. specialize (Ha x Hx). lra.
Qed.

Lemma insertion_sort_sorts (l : list R) :
  StronglySorted Rle (insertion_sort l)
  /\ Permutation l (insertion_sort l).
Proof.
  unfold insertion_sort.
  destruct (insertion_fold_sorted l []) as (S & P); [constructor|].
  cbv zeta in *. rewrite app_nil_r in P. split.
  - apply sorted_rev. exact S.
  - eapply perm_trans; [apply Permutation_rev|].
    eapply perm_trans; [exact P|]. apply Permutation_rev.
Qed.

Lemma firstn_In_values (k : nat) (x : R) :
  forall l : list R, In x (firstn k l) -> In x l.
Proof.
  induction k as [|k IH]; intros [|a t] H; cbn [firstn] in H;
    try contradiction.
  destruct H as [<-|H]; [left; reflexivity | right; apply IH; exact H].
Qed.

Lemma Rtrunc_half (n : Z) : (0 <= n)%Z -> Rtrunc (IZR n * 0.5) = Z.quot n 2.
Proof.
  intro H. rewrite Z.quot_div_nonneg by lia.
  assert (E : (n = 2 * (n / 2) + n mod 2)%Z) by (apply Z.div_mod; lia).
  assert (M : (0 <= n mod 2 < 2)%Z) by (apply Z.mod_pos_bound; lia).
  set (q := (n / 2)%Z) in *. set (r := (n mod 2)%Z) in *.
  assert (Hq : (0 <= q)%Z) by lia.
  assert (ER : IZR n = 2 * IZR q + IZR r).
  { rewrite E at 1. rewrite plus_IZR, mult_IZR. reflexivity. }
  assert (Hr : 0 <= IZR r <= 1).
  { split; [apply IZR_le; lia|]. apply IZR_le. lia. }
  assert (Hq0 : 0 <= IZR q) by (apply IZR_le; lia).
  unfold Rtrunc. destruct (Rle_dec 0 (IZR n * 0.5)) as [P|P]; [|lra].
  symmetry. apply Int_part_spec. lra.
Qed.

(** X21. [percentile_50] returns the upper median.  For at least 5 and at
    most [length values] values, and no more than the [RT_BUF_SIZE] values
    its local array holds, its insertion sort puts the first [n] values in
    ascending order and the result is the element at index [n / 2] of the
    sorted values, one of the values given; for fewer than 5 values the
    result is the last of them. *)
Theorem percentile_50_is_the_upper_median (values : list R) (n : Z) :
  (0 < n <= Z.of_nat (length values))%Z ->
  (n <= RT_BUF_SIZE)%Z ->
  let sorted := insertion_sort (firstn (Z.to_nat n) values) in
  StronglySorted Rle sorted
  /\ Permutation (firstn (Z.to_nat n) values) sorted
  /\ ((5 <= n)%Z ->
      percentile_50 values n = nth (Z.to_nat (n / 2)) sorted 0
      /\ In (percentile_50 values n) values)
  /\ ((n < 5)%Z ->
      percentile_50 values n = nth (Z.to_nat (n - 1)) values 0).
Proof.
  intros Hn _. cbv zeta.
  destruct (insertion_sort_sorts (firstn (Z.to_nat n) values)) as (S & P).
  split; [exact S|]. split; [exact P|]. split.
  - intro H5. unfold percentile_50.
    replace (n <? 5)%Z with false by (symmetry; apply Z.ltb_ge; lia).
    real_ops. int_lits.
    replace (IZR n * 0.50) with (IZR n * 0.5) by lra.
    rewrite Rtrunc_half by lia.
    rewrite Z.quot_div_nonneg by lia.
    assert (Hq : (0 <= n / 2 < n)%Z).
    { split; [apply Z.div_pos; lia | apply Z.div_lt; lia]. }
    unfold zget.
    replace (n / 2 <? 0)%Z with false by (symmetry; apply Z.ltb_ge; lia).
    split; [reflexivity|].
    assert (L : length (insertion_sort (firstn (Z.to_nat n) values))
                = Z.to_nat n).
    { rewrite <- (Permutation_length P), length_firstn. lia. }
    assert (I : In (nth (Z.to_nat (n / 2))
                        (insertion_sort (firstn (Z.to_nat n) values)) 0)
                   (insertion_sort (firstn (Z.to_nat n) values))).
    { apply nth_In. rewrite L. lia. }
    apply (Permutation_in _ (Permutation_sym P)) in I.
    eapply firstn_In_values. exact I.
  - intro H5. unfold percentile_50.
    replace (n <? 5)%Z with true by (symmetry; apply Z.ltb_lt; lia).
    replace (n >? 0)%Z with true by (symmetry; apply Z.gtb_lt; lia).
    unfold zget.
    replace (n - 1 <? 0)%Z with false by (symmetry; apply Z.ltb_ge; lia).
    real_ops. int_lits. reflexivity.
Qed.
End Median.

(* ------------------------------------------------------------------ *)
(** * The two time fields of an event agree *)

Section Clock.
Context {F : Type} {FO : FloatOps F} {X : Extractors F}.

Lemma keep_max_field {A : Type} (proj : SyllableEvent F -> A) (cur : F)
    (setter : F -> SyllableEvent F -> SyllableEvent F)
    (get : SyllableEvent F -> F) (e : SyllableEvent F) :
  (forall v e', proj (setter v e') = proj e') ->
  proj (keep_max cur setter get e) = proj e.
Proof. intro H. unfold keep_max. destruct (fltb _ _); auto. Qed.

(** A step keeps both time fields of a syllable in progress, or starts a
    syllable at the current sample. *)
Lemma machine_step_clock_wip (d : SyllableDetector F) :
  state (machine (machine_step d)) = STATE_ONSET_RISING
  \/ state (machine (machine_step d)) = STATE_NUCLEUS ->
  ((state (machine d) = STATE_ONSET_RISING
    \/ state (machine d) = STATE_NUCLEUS)
   /\ Ev.timestamp_samples (wip_event (machine (machine_step d)))
      = Ev.timestamp_samples (wip_event (machine d))
   /\ Ev.time_seconds (wip_event (machine (machine_step d)))
      = Ev.time_seconds (wip_event (machine d)))
  \/ clocked (sample_rate (config d)) (wip_event (machine (machine_step d))).
Proof.
  unfold machine_step.
  destruct (state (machine d)) eqn:St.
  - unfold idle_step. destruct (onset_decision d).
    + intros _. right. reflexivity.
    + rewrite St. intros [H|H]; discriminate.
  - intros _. left. split; [auto|].
    unfold onset_rising_step. cbn [machine set_machine wip_event].
    split.
    + match goal with
      | |- Ev.timestamp_samples (if ?c then with_pr_slope ?v ?w else ?w)
           = _ =>
          transitivity (Ev.timestamp_samples w);
            [destruct c; reflexivity|]
      end.
      rewrite !(keep_max_field (@Ev.timestamp_samples F)) by reflexivity.
      repeat match goal with
             | |- context [if ?c then _ else _] => destruct c
             end; reflexivity.
    + match goal with
      | |- Ev.time_seconds (if ?c then with_pr_slope ?v ?w else ?w) = _ =>
          transitivity (Ev.time_seconds w); [destruct c; reflexivity|]
      end.
      rewrite !(keep_max_field (@Ev.time_seconds F)) by reflexivity.
      repeat match goal with
             | |- context [if ?c then _ else _] => destruct c
             end; reflexivity.
  - unfold nucleus_step. destruct (nucleus_end d).
    + cbn. intros [H|H]; discriminate.
    + intros _. left. split; [auto|]. split; reflexivity.
  - unfold cooldown_step. cbn.
    destruct (_ >? _); intros [H|H]; discriminate.
Qed.

Lemma machine_step_clock_push (d : SyllableDetector F) :
  ring (machine_step d) = ring d
  \/ exists e,
       ring (machine_step d) = push_event e (ring d)
       /\ Ev.timestamp_samples e
          = Ev.timestamp_samples (wip_event (machine d))
       /\ Ev.time_seconds e = Ev.time_seconds (wip_event (machine d))
       /\ state (machine d) = STATE_NUCLEUS.
Proof.
  unfold machine_step.
  destruct (state (machine d)) eqn:St.
  - left. unfold idle_step. destruct (onset_decision d); reflexivity.
  - left. reflexivity.
  - unfold nucleus_step. destruct (nucleus_end d); [|left; reflexivity].
    right. eexists. split; [reflexivity|]. cbn. auto.
  - left. reflexivity.
Qed.

Lemma machine_step_clock (d : SyllableDetector F) :
  clock_inv d -> clock_inv (machine_step d).
Proof.
  intros (Hwf & Hall & Hwip).
  destruct (machine_step_frame d) as (C & _).
  unfold clock_inv. rewrite C.
  split; [apply machine_step_ring_wf; exact Hwf|]. split.
  - destruct (machine_step_clock_push d) as [Same|(e & Hr & He & Ht & Hst)].
    + rewrite Same. exact Hall.
    + rewrite Hr.
      destruct (push_event_pending e (ring d) Hwf) as (_ & P).
      rewrite P. apply Forall_app. split.
      * destruct (buf_count (ring d) <? PROMINENCE_BUFFER_SIZE);
          [exact Hall|].
        destruct (pending (ring d)) as [|e0 t]; [exact Hall|].
        cbn [tl]. inversion Hall. assumption.
      * constructor; [|constructor].
        unfold clocked in *. rewrite He, Ht. apply Hwip. auto.
  - intro H. destruct (machine_step_clock_wip d H) as [(S1 & S2 & S3)|S2].
    + unfold clocked in *. rewrite S2, S3. apply Hwip. exact S1.
    + exact S2.
Qed.

Lemma clocked_core (fs : Z) (e : SyllableEvent F) :
  clocked fs (event_core e) <-> clocked fs e.
Proof. unfold clocked, event_core. cbn. tauto. Qed.

Lemma Forall_clocked_core (fs : Z) (l : list (SyllableEvent F)) :
  Forall (clocked fs) (map event_core l) <-> Forall (clocked fs) l.
Proof.
  rewrite Forall_map. split; intro H; eapply Forall_impl; try exact H;
    intros e He; apply clocked_core; exact He.
Qed.

Lemma Forall_firstn_skipn {A : Type} (P : A -> Prop) (k : nat)
    (l : list A) :
  Forall P l -> Forall P (firstn k l) /\ Forall P (skipn k l).
Proof.
  intro H. rewrite <- (firstn_skipn k l) in H.
  apply Forall_app in H. exact H.
Qed.

Lemma emit_loop_clock (room : nat) (accent : F -> bool) (c : Z)
    (d : SyllableDetector F) :
  0 <= c -> clock_inv d ->
  clock_inv (fst (emit_loop room accent c d))
  /\ Forall (clocked (sample_rate (config d)))
            (snd (emit_loop room accent c d)).
Proof.
  intros Hc (Hwf & Hall & Hwip).
  destruct (emit_loop_content room accent c d Hc Hwf) as (_ & E & P).
  destruct (emit_loop_queue room accent c d Hc Hwf) as (W & _).
  destruct (emit_loop_frame room accent c d) as (C & _ & _ & M).
  cbv zeta in *. unfold clock_inv. rewrite C, M, P.
  split.
  - split; [exact W|]. split; [|exact Hwip].
    apply Forall_firstn_skipn. exact Hall.
  - apply Forall_clocked_core. rewrite E.
    apply Forall_firstn_skipn. apply Forall_clocked_core. exact Hall.
Qed.

Lemma process_sample_clock (d : SyllableDetector F) (x : F) (room : nat) :
  0 <= context_size (config d) -> clock_inv d ->
  clock_inv (fst (process_sample d x room))
  /\ Forall (clocked (sample_rate (config d)))
            (snd (process_sample d x room)).
Proof.
  intros Hctx (Hwf & Hall & Hwip).
  destruct (front_end_frame d x) as (A1 & A2 & A3 & _).
  assert (I1 : clock_inv (front_end d x)).
  { unfold clock_inv. rewrite A1, A2, A3. auto. }
  unfold process_sample.
  destruct (realtime_mode (config (front_end d x))
            && is_calibrating (rt_cal (front_end d x))).
  - cbn [fst snd]. split; [exact I1|constructor].
  - destruct (machine_step_frame (front_end d x)) as (B1 & _).
    replace (sample_rate (config d))
      with (sample_rate (config (machine_step (front_end d x))))
      by (rewrite B1, A1; reflexivity).
    apply emit_loop_clock.
    + rewrite B1, A1. unfold context_needed.
      destruct (realtime_mode (config d)); lia.
    + apply machine_step_clock. exact I1.
Qed.

Lemma process_from_clock (input : list F) :
  forall (d : SyllableDetector F) (max_events : Z)
         (out : list (SyllableEvent F)),
    0 <= context_size (config d) -> clock_inv d ->
    Forall (clocked (sample_rate (config d))) out ->
    clock_inv (fst (process_from d input max_events out))
    /\ Forall (clocked (sample_rate (config d)))
              (snd (process_from d input max_events out)).
Proof.
  induction input as [|x rest IH]; intros d max_events out Hctx Hinv Hout;
    cbn [process_from].
  - cbn. auto.
  - destruct (process_sample_clock d x
      (Z.to_nat (max_events - Z.of_nat (length out))) Hctx Hinv) as (A & B).
    pose proof (process_sample_frame d x
      (Z.to_nat (max_events - Z.of_nat (length out)))) as (C & _).
    destruct (process_sample d x _) as [d1 es]. cbn [fst snd] in *.
    rewrite <- C. apply IH; rewrite ?C; try assumption.
    apply Forall_app. split; assumption.
Qed.

Lemma run_clock (calls : list (Call F)) :
  forall d : SyllableDetector F,
    0 <= context_size (config d) -> clock_inv d ->
    Forall (clocked (sample_rate (config d))) (snd (run d calls)).
Proof.
  induction calls as [|c rest IH]; intros d Hctx Hinv; cbn [run].
  - constructor.
  - assert (Hstep :
      clock_inv (fst (call d c))
      /\ Forall (clocked (sample_rate (config d))) (snd (call d c))
      /\ config (fst (call d c)) = config d).
    { destruct c as [input max_events | max_events]; cbn [call].
      - unfold syllable_process.
        destruct (process_from_clock input d max_events [] Hctx Hinv)
          as (I1 & I2); [constructor|].
        split; [exact I1|]. split; [exact I2|apply process_from_config].
      - unfold syllable_flush.
        destruct (emit_loop_clock (Z.to_nat max_events) flush_accent 0 d
                    ltac:(lia) Hinv) as (I1 & I2).
        split; [exact I1|]. split; [exact I2|apply emit_loop_frame]. }
    destruct (call d c) as [d1 es]. cbn [fst snd] in *.
    destruct Hstep as (S1 & S2 & S3).
    specialize (IH d1 ltac:(rewrite S3; exact Hctx) S1).
    destruct (run d1 rest) as [d2 es']. cbn [fst snd] in *.
    apply Forall_app. split; [exact S2|]. rewrite <- S3. exact IH.
Qed.

(** X22. The two time fields of an event agree.  Every event written by
    any sequence of [syllable_process] and [syllable_flush] calls on a
    constructed detector has [time_seconds] equal to [timestamp_samples]
    divided by the sample rate, computed by the very division the detector
    performs at the onset.  The context size is non-negative and at most
    half the ring size (the range in which the context loops stay inside
    their arrays). *)
Theorem time_seconds_is_timestamp_over_sample_rate
    (cfg : SyllableConfig F) (rt : option bool) (calls : list (Call F)) :
  0 <= context_size cfg ->
  2 * context_size cfg <= PROMINENCE_BUFFER_SIZE ->
  Forall (fun e =>
            Ev.time_seconds e
            = fdiv (itof (Ev.timestamp_samples e)) (itof (sample_rate cfg)))
         (snd (run (fresh_detector cfg rt) calls)).
Proof.
  intros Hctx _.
  destruct (fresh_detector_fields cfg rt)
    as (L & R & W & C & S & T & K & _).
  cbv zeta in *.
  assert (Sr : sample_rate (config (fresh_detector cfg rt))
               = sample_rate cfg).
  { destruct rt as [[|]|]; reflexivity. }
  assert (I : clock_inv (fresh_detector cfg rt)).
  { unfold clock_inv, ring_wf, pending.
    rewrite L, R, W, C, S. cbn.
    repeat split; try lia; try (unfold PROMINENCE_BUFFER_SIZE; lia).
    - constructor.
    - intros [H|H]; discriminate. }
  pose proof (run_clock calls (fresh_detector cfg rt)
                ltac:(rewrite K; exact Hctx) I) as H.
  rewrite Sr in H. exact H.
Qed.
End Clock.

(* ------------------------------------------------------------------ *)
(** * Overflow of the ring buffer *)

Section RingOverflow.
Context {F : Type} {FO : FloatOps F}.

(** X24. The ring buffer holds at most 16 pending events.  Finalizing an
    event while fewer are pending appends it; finalizing one while 16 are
    pending (the caller has not drained them) overwrites the oldest
    pending event, which is lost, and the count stays 16. *)
Theorem full_ring_drops_oldest (e : SyllableEvent F) (r : RingBuffer F) :
  ring_wf r ->
  ring_wf (push_event e r)
  /\ (length (pending (push_event e r)) <= 16)%nat
  /\ (buf_count r < 16 ->
      pending (push_event e r) = pending r ++ [e]
      /\ buf_count (push_event e r) = buf_count r + 1)
  /\ (buf_count r = 16 ->
      pending (push_event e r) = tl (pending r) ++ [e]
      /\ buf_count (push_event e r) = 16).
Proof.
  intro Hwf. destruct (push_event_pending e r Hwf) as (W & P).
  split; [exact W|]. split.
  - destruct W as (_ & _ & C & _). unfold PROMINENCE_BUFFER_SIZE in C.
    pose proof (pending_length (push_event e r) ltac:(lia)). lia.
  - unfold PROMINENCE_BUFFER_SIZE in P. split; intro H.
    + replace (buf_count r <? 16) with true in P
        by (symmetry; apply Z.ltb_lt; exact H).
      split; [exact P|].
      unfold push_event, PROMINENCE_BUFFER_SIZE.
      replace (buf_count r <? 16) with true
        by (symmetry; apply Z.ltb_lt; exact H).
      reflexivity.
    + replace (buf_count r <? 16) with false in P
        by (symmetry; apply Z.ltb_ge; lia).
      split; [exact P|].
      unfold push_event, PROMINENCE_BUFFER_SIZE.
      replace (buf_count r <? 16) with false
        by (symmetry; apply Z.ltb_ge; lia).
      exact H.
Qed.
End RingOverflow.

(* ------------------------------------------------------------------ *)
(** * The further theorems at concrete inputs *)

Section MoreWitnesses.
Local Open Scope R_scope.

Lemma output_capacity_respected_witness :
  (2 * context_size (config demo_loaded) <= PROMINENCE_BUFFER_SIZE)%Z
  /\ length (snd (syllable_flush demo_loaded 2)) = 2%nat
  /\ (Z.of_nat (length (snd (syllable_flush demo_loaded 2)))
      <= Z.max 0 2)%Z
  /\ (Z.of_nat (length (snd (syllable_process demo_loaded [0%R] 4)))
      <= Z.max 0 4)%Z.
Proof.
  destruct demo_loaded_setup as (Cf & Rt & Cs & St).
  destruct demo_loaded_ring_facts as (W & C & P).
  assert (H3 : (2 * context_size (config demo_loaded)
                <= PROMINENCE_BUFFER_SIZE)%Z)
    by (rewrite Cs; unfold PROMINENCE_BUFFER_SIZE; lia).
  destruct (output_capacity_respected demo_loaded H3) as (T1 & T2).
  split; [exact H3|]. split.
  { unfold syllable_flush.
    rewrite (proj1 (emit_loop_count (Z.to_nat 2) flush_accent 0
                      demo_loaded)), C.
    reflexivity. }
  split; [exact (T2 2%Z)|exact (T1 [0] 4%Z)].
Defined.

Lemma emission_is_first_in_first_out_witness :
  ring_wf (ring demo_loaded)
  /\ (0 <= context_size (config demo_loaded))%Z
  /\ (2 * context_size (config demo_loaded) <= PROMINENCE_BUFFER_SIZE)%Z
  /\ map event_core (snd (syllable_flush demo_loaded 2))
     = [event_core (demo_event 2400 100);
        event_core (demo_event 4800 120)]
  /\ pending (ring (fst (syllable_flush demo_loaded 2)))
     = [demo_event 7200 110].
Proof.
  destruct demo_loaded_setup as (Cf & Rt & Cs & St).
  destruct demo_loaded_ring_facts as (W & C & P).
  assert (H2 : (0 <= context_size (config demo_loaded))%Z)
    by (rewrite Cs; lia).
  assert (H3 : (2 * context_size (config demo_loaded)
                <= PROMINENCE_BUFFER_SIZE)%Z)
    by (rewrite Cs; unfold PROMINENCE_BUFFER_SIZE; lia).
  destruct (proj1 (emission_is_first_in_first_out demo_loaded W H2 H3)
              2%Z) as (_ & M & K).
  rewrite C, P in M, K.
  split; [exact W|]. split; [exact H2|]. split; [exact H3|].
  split; [exact M|exact K].
Defined.

Lemma timestamps_are_consumed_sample_indices_witness :
  (0 <= context_size tiny_config)%Z
  /\ (2 * context_size tiny_config <= PROMINENCE_BUFFER_SIZE)%Z
  /\ (samples_in [Process click 4] < two64)%Z
  /\ stamps (snd (run (X := NoExtractors R)
                      (fresh_detector tiny_config None)
                      [Process click 4])) = [1%Z]
  /\ total_samples (fst (run (X := NoExtractors R)
                             (fresh_detector tiny_config None)
                             [Process click 4]))
     = samples_in [Process click 4]
  /\ Forall (fun t => (1 <= t <= samples_in [Process click 4])%Z)
            (stamps (snd (run (X := NoExtractors R)
                              (fresh_detector tiny_config None)
                              [Process click 4]))).
Proof.
  assert (H1 : (0 <= context_size tiny_config)%Z) by (cbn; lia).
  assert (H2 : (2 * context_size tiny_config <= PROMINENCE_BUFFER_SIZE)%Z)
    by (cbn; unfold PROMINENCE_BUFFER_SIZE; lia).
  assert (H3 : (samples_in [Process click 4] < two64)%Z)
    by (cbn; unfold two64; lia).
  destruct tiny_click_run as (e & _ & _ & S).
  split; [exact H1|]. split; [exact H2|]. split; [exact H3|].
  split; [exact S|].
  exact (timestamps_are_consumed_sample_indices
           (X := NoExtractors R) tiny_config None [Process click 4]
           H1 H2 H3).
Defined.

Lemma tiny_config_rejects_silence : rejects_silence tiny_config.
Proof.
  unfold rejects_silence.
  cbn [tiny_config realtime_mode allow_unvoiced_onsets context_size
       threshold_peak_rate hysteresis_on_factor].
  repeat split; try reflexivity; try lia; lra.
Qed.

Lemma silence_is_never_reported_witness :
  rejects_silence tiny_config
  /\ config tiny_fresh = tiny_config
  /\ snd (syllable_process (syllable_reset tiny_fresh) (repeat 0 5%nat) 4)
     = [].
Proof.
  assert (H2 : config tiny_fresh = tiny_config) by reflexivity.
  split; [exact tiny_config_rejects_silence|]. split; [exact H2|].
  exact (proj1 (proj2 (silence_is_never_reported (X := NoExtractors R)
                         tiny_config tiny_fresh 5 4
                         tiny_config_rejects_silence H2))).
Defined.

Lemma feature_stats_stay_valid_witness :
  0 < 500 /\ (0 < 16000)%Z
  /\ 0 <= var (fold_left update_feature_stats [1; 2]
                 (init_feature_stats 500 16000)).
Proof.
  assert (H1 : 0 < 500) by lra.
  assert (H2 : (0 < 16000)%Z) by lia.
  split; [exact H1|]. split; [exact H2|].
  exact (proj1 (proj2 (feature_stats_stay_valid 500 16000 [1; 2] H1 H2))).
Defined.

Lemma normalized_values_are_in_unit_interval_witness :
  0 <= var (init_feature_stats 500 16000)
  /\ (0 <= sample_count (init_feature_stats 500%R 16000))%Z
  /\ 0 <= normalize_feature (init_feature_stats 500 16000) 1 <= 1.
Proof.
  assert (H1 : 0 <= var (init_feature_stats 500 16000)).
  { unfold init_feature_stats. cbn [var]. real_ops. int_lits. lra. }
  assert (H2 : (0 <= sample_count (init_feature_stats 500%R 16000))%Z)
    by (cbn; lia).
  split; [exact H1|]. split; [exact H2|].
  exact (proj1 (normalized_values_are_in_unit_interval
                  (init_feature_stats 500 16000) 1 2 16000 H1 H2)).
Defined.

Lemma envelope_never_overshoots_witness :
  0 < 16000 /\ 0 <= 1
  /\ Forall (fun x => Rabs x <= 1) [0; 1]
  /\ Forall (fun y => 0 <= y <= 1)
            (snd (feed envelope_process (envelope_init 16000 5 20) [0; 1])).
Proof.
  assert (H1 : 0 < 16000) by lra.
  assert (H2 : 0 <= 1) by lra.
  assert (H3 : Forall (fun x => Rabs x <= 1) [0; 1]).
  { constructor; [rewrite Rabs_R0; lra|].
    constructor; [rewrite Rabs_R1; lra|constructor]. }
  split; [exact H1|]. split; [exact H2|]. split; [exact H3|].
  exact (proj1 (proj2 (proj2 (envelope_never_overshoots 16000 5 20 1
                                [0; 1] H1 H2 H3)))).
Defined.

Lemma agc_gain_stays_bounded_witness :
  (0 < 16000)%Z /\ 0 <= 30
  /\ agc_reset (fst (feed agc_process (agc_create 16000 (-23) 30) [0; 1]))
     = agc_create 16000 (-23) 30.
Proof.
  assert (H1 : (0 < 16000)%Z) by lia.
  assert (H2 : 0 <= 30) by lra.
  split; [exact H1|]. split; [exact H2|].
  exact (proj2 (proj2 (proj2 (proj2 (agc_gain_stays_bounded 16000 (-23) 30
                                       [0; 1] H1 H2))))).
Defined.

Lemma hfe_energy_is_nonnegative_witness :
  (0 < 16000)%Z
  /\ Forall (fun e => 0 <= e)
            (snd (feed hfe_process (hfe_create 16000 2000 10) [0; 1])).
Proof.
  assert (H1 : (0 < 16000)%Z) by lia.
  split; [exact H1|].
  exact (proj1 (hfe_energy_is_nonnegative 16000 2000 10 [0; 1] H1)).
Defined.



Lemma context_neighbours_are_ring_slots_witness :
  (0 <= 3 < PROMINENCE_BUFFER_SIZE)%Z
  /\ (1 <= 5 <= PROMINENCE_BUFFER_SIZE)%Z
  /\ prev_index 3 5 = ((3 - 5) mod 16)%Z.
Proof.
  assert (H1 : (0 <= 3 < PROMINENCE_BUFFER_SIZE)%Z)
    by (unfold PROMINENCE_BUFFER_SIZE; lia).
  assert (H2 : (1 <= 5 <= PROMINENCE_BUFFER_SIZE)%Z)
    by (unfold PROMINENCE_BUFFER_SIZE; lia).
  split; [exact H1|]. split; [exact H2|].
  exact (proj1 (context_neighbours_are_ring_slots 3 5 H1 H2)).
Defined.

Lemma no_context_no_accent_witness :
  (context_size (config tiny_fresh) <= 0)%Z
  /\ Forall (fun e => Ev.is_accented e = false)
            (snd (syllable_flush tiny_fresh 4)).
Proof.
  assert (H1 : (context_size (config tiny_fresh) <= 0)%Z) by (cbn; lia).
  split; [exact H1|].
  eapply Forall_impl;
    [|exact (proj2 (no_context_no_accent (X := NoExtractors R) tiny_fresh H1)
               4%Z)].
  cbn beta. intros e (_ & _ & H). exact H.
Defined.

Lemma fft_size_is_next_power_of_two_witness :
  (512 <= 2 ^ 30)%Z
  /\ exists k : Z, (0 <= k <= 30)%Z /\ round_pow2 31 1 512 = (2 ^ k)%Z.
Proof.
  assert (H1 : (512 <= 2 ^ 30)%Z) by lia.
  split; [exact H1|].
  destruct (fft_size_is_next_power_of_two 512 H1) as (k & K1 & K2 & _).
  exists k. split; [exact K1|exact K2].
Defined.

Lemma tiny_fresh_variances :
  var (stats_peak_rate (features tiny_fresh)) = 0
  /\ var (stats_spectral_flux (features tiny_fresh)) = 0
  /\ var (stats_high_freq (features tiny_fresh)) = 0
  /\ var (stats_mfcc_delta (features tiny_fresh)) = 0
  /\ var (stats_wavelet (features tiny_fresh)) = 0.
Proof.
  unfold tiny_fresh, syllable_create, syllable_reset, init_feature_stats.
  cbn [features stats_peak_rate stats_spectral_flux stats_high_freq
       stats_mfcc_delta stats_wavelet var].
  real_ops. int_lits. auto.
Qed.

Lemma offline_fusion_score_is_in_unit_interval_witness :
  realtime_mode (config tiny_fresh) = false
  /\ 0 <= compute_fusion_score tiny_fresh <= 1.
Proof.
  assert (H0 : realtime_mode (config tiny_fresh) = false) by reflexivity.
  destruct tiny_fresh_variances as (V1 & V2 & V3 & V4 & V5).
  assert (C : config tiny_fresh = tiny_config) by reflexivity.
  split; [exact H0|].
  refine (proj1 (offline_fusion_score_is_in_unit_interval
                   (X := NoExtractors R) tiny_fresh H0 _ _ _ _ _ _ _
                   _ _ _ _ _));
    rewrite ?C, ?V1, ?V2, ?V3, ?V4, ?V5;
    cbn [tiny_config weight_peak_rate weight_spectral_flux weight_high_freq
         weight_mfcc_delta weight_wavelet weight_voiced_bonus
         fusion_blend_alpha]; lra.
Defined.

Lemma percentile_50_is_the_upper_median_witness :
  (0 < 5 <= Z.of_nat (length [3; 1; 2; 5; 4]))%Z
  /\ (5 <= RT_BUF_SIZE)%Z
  /\ In (percentile_50 [3; 1; 2; 5; 4] 5) [3; 1; 2; 5; 4].
Proof.
  assert (H1 : (0 < 5 <= Z.of_nat (length [3; 1; 2; 5; 4]))%Z)
    by (cbn; lia).
  assert (H2 : (5 <= RT_BUF_SIZE)%Z) by (unfold RT_BUF_SIZE; lia).
  split; [exact H1|]. split; [exact H2|].
  exact (proj2 (proj1 (proj2 (proj2 (percentile_50_is_the_upper_median
                                       [3; 1; 2; 5; 4] 5 H1 H2)))
                 ltac:(lia))).
Defined.

Lemma time_seconds_is_timestamp_over_sample_rate_witness :
  (0 <= context_size tiny_config)%Z
  /\ (2 * context_size tiny_config <= PROMINENCE_BUFFER_SIZE)%Z
  /\ stamps (snd (run (X := NoExtractors R)
                      (fresh_detector tiny_config None)
                      [Process click 4])) = [1%Z]
  /\ Forall (fun e =>
               Ev.time_seconds e
               = IZR (Ev.timestamp_samples e) / IZR (sample_rate tiny_config))
            (snd (run (X := NoExtractors R)
                      (fresh_detector tiny_config None)
                      [Process click 4])).
Proof.
  assert (H1 : (0 <= context_size tiny_config)%Z) by (cbn; lia).
  assert (H2 : (2 * context_size tiny_config <= PROMINENCE_BUFFER_SIZE)%Z)
    by (cbn; unfold PROMINENCE_BUFFER_SIZE; lia).
  destruct tiny_click_run as (e & _ & _ & S).
  split; [exact H1|]. split; [exact H2|]. split; [exact S|].
  exact (time_seconds_is_timestamp_over_sample_rate (X := NoExtractors R)
           tiny_config None [Process click 4] H1 H2).
Defined.

Lemma realtime_silence_is_never_reported_witness :
  realtime_mode (config demo_calibrating) = true
  /\ snd (syllable_process (syllable_reset demo_calibrating)
            (repeat 0 5%nat) 4) = [].
Proof.
  assert (H1 : realtime_mode (config demo_calibrating) = true)
    by reflexivity.
  split; [exact H1|].
  exact (proj1 (realtime_silence_is_never_reported demo_calibrating 5 4 H1)).
Defined.

Lemma full_ring_drops_oldest_witness :
  ring_wf (ring demo_detector)
  /\ ring_wf (push_event zero_event (ring demo_detector)).
Proof.
  split; [exact demo_detector_ring_wf|].
  exact (proj1 (full_ring_drops_oldest zero_event (ring demo_detector)
                  demo_detector_ring_wf)).
Defined.
End MoreWitnesses.
